(* ===== verification/_CoqProject ===== *)
-Q . S2P
Prelude.v
Endian.v
CString.v
Scan.v
NbdProtocol.v
NbdStructures.v
Contexts.v
PluginApi.v
Plugins.v
Combine.v
Yuarel.v
ContextRace.v
ContextsUri.v
Library.v
Tcp.v
Sockets.v
Handles.v
NbdContext.v
Transmission.v
TransmissionSpec.v
Interleaving.v
Tenants.v
TornReads.v
SerialRequests.v
TransmissionErrors.v
TransmissionBlocks.v
TransmissionSafety.v
Handshake.v
HandshakeSpec.v
HandshakeSafety.v
Nbd.v
MemoryPlugin.v
AtadPlugin.v
FilePlugin.v
McmanPlugin.v
McmanWear.v
McmanQuery.v
CommandPlugin.v
TtyPlugin.v
PcmPlugin.v
BdmPlugin.v
PluginTypes.v
Log.v
LocalApps.v
LocalShell.v
Servers.v
Connection.v
ClientSocket.v
Sifrpc.v
Irx.v
EeHelper.v
IopImports.v
Loader.v
IopLib.v
MiniXinetd.v
XinetdMain.v
SdlText.v
UvServer.v
UvMain.v
Events.v
Chargen.v
Examples.v
PluginExamples.v
AppExamples.v
ConnectionExamples.v
