(* ===== verification/Prelude.v ===== *)
(** * lwNBD: a verification development

    lwNBD is a small library that exports content (files, disks, memory cards,
    memory, commands, a console) over the Network Block Device protocol, on
    Linux and on the two processors of the PlayStation 2.  This development
    models its C code as functions over explicit state and proves what the
    code does, on the branches it means to take and on the others.

    ** The program

    An application registers _plugins_ ([src/plugins.c]).  A plugin is a
    structure of callbacks; each configuration the application gives it becomes
    a _context_, an export with a name, a size and a block size
    ([src/contexts.c]).  An export is looked up by URI
    ([src/contexts_uri.c], parsed by [src/yuarel.c]); the query part of the URI
    goes to the plugin.  _Servers_ are registered likewise
    ([src/servers.c]).  The NBD server ([servers/nbd]) negotiates an export with
    each client and then serves its requests from the context's plugin, over
    the blocking receive of [src/tcp.c].  The examples and the ports assemble
    these parts into programs.

    ** Files

    Foundations: [Prelude] (outcomes with undefined behaviour as a value,
    bytes, integers at their width, slices and slots, tactics), [Endian]
    ([ports/.../endian.h]), [CString] and [Scan] (the C library's string
    functions the code calls), [Handles] (the handle arrays of plugins and
    servers), [Combine] (several plugins in one world).

    The library: [PluginApi] ([lwnbd-plugin.h] and the dispatch functions of
    [contexts.c]), [Contexts] ([contexts.c]) and [ContextRace] (its allocator
    called by several threads at once), [Plugins] ([plugins.c]), [Yuarel]
    ([yuarel.c]), [ContextsUri] ([contexts_uri.c]), [Servers] and [Events]
    ([servers.c]), [Log] ([log.c]), [Tcp] and [Sockets] ([tcp.c]); [Library] is
    the transition system of all its calls and [PluginTypes] shows that the
    plugins of the repository keep its typing.

    The NBD server: [NbdProtocol] and [NbdStructures] ([nbd-protocol.h]: what
    the server uses, written out; then every packed structure by its layout),
    [NbdContext] ([piconbd.h]), [Handshake] ([protocol-handshake.c]),
    [Transmission] ([protocol.c]), [Nbd] ([nbd.c]) and [Connection] (the server
    as an entry of the registry, with the statics of [nbd.c]); [HandshakeSpec],
    [HandshakeSafety], [TransmissionSpec], [TransmissionErrors],
    [TransmissionBlocks], [TransmissionSafety] and [ClientSocket] hold their
    theorems.  [Interleaving] cuts the transmission phase into turns and runs
    several of them on one device; [Tenants],
    [SerialRequests] and [TornReads] hold the theorems.

    Plugins ([plugins/<name>/]): [MemoryPlugin], [FilePlugin], [AtadPlugin]
    (with [atad_query.c]), [McmanPlugin], [McmanWear] and [McmanQuery], [CommandPlugin] (with
    [builtin.c]), [TtyPlugin] (with the console device), [PcmPlugin],
    [BdmPlugin].  Other servers: [Chargen] ([chargen.c], [daytime.c]), [Sifrpc]
    ([sifrpc.c]).

    Programs: [UvServer] and [UvMain] ([examples/lwnbd-server.c]),
    [MiniXinetd] and [XinetdMain] ([examples/mini-xinetd.c]), [LocalApps]
    ([local-reader.c], [local-command-wc.c]), [LocalShell] ([local-shell.c]),
    [SdlText] ([sdl_text.c]),
    [Irx] ([ports/playstation2/iop/lwnbd_irx.c]), [IopLib] ([ioplib.c]),
    [EeHelper] ([ee-helper.c], [connman.c]), [IopImports] ([imports.c],
    [exports.c]), [Loader] ([loader.c]).

    Concrete machines: [Examples], [PluginExamples], [AppExamples] and
    [ConnectionExamples] apply the theorems to small devices, networks and configurations on which every
    hypothesis is discharged by evaluation.

    ** How code becomes definitions

    A function of the source is a definition of the same name.  It takes the
    state it reads and returns the state it leaves, in the monad [outcome]:
    [Fault] with a reason is undefined behaviour (a NULL or out-of-bounds
    access, an uninitialised read, a string without terminator), so a theorem
    that a call is [Ok] says it has none.  The error codes the code returns are
    ordinary values.  A pointer into a static array is an index, a pointer into
    a buffer an offset, [NULL] is [None]; a pointer to a plugin or a server
    structure is a number that [plugin_mem] or [server_mem] turns into the
    structure.  Allocated objects live in a heap of cells ([Chargen],
    [UvServer]) and a freed cell is [None].  A [uintN_t] is an integer wrapped
    with [wrap] (see [u16], [u32], [u64]), a signed one with [swrap].  [goto],
    [break] and early [return] are the values of [ctl].  Local variables that keep their
    value between turns of a loop are records ([Transmission.xfer], the
    [register] locals of [transmission_phase]).

    What is not in the repository is a parameter with its documented behaviour
    as a class or record: the receive and send callbacks ([Tcp.Transport],
    implemented by [tcp_recv_block] over POSIX [recv]; [Tcp.answers] when nothing
    is known of them), sockets
    ([Sockets.SocketLaws]), POSIX files ([FilePlugin]), the console's disk,
    memory card and sound drivers ([AtadPlugin], [McmanPlugin], [PcmPlugin]),
    the kernel's threads, libuv.  The servers rely on [PluginApi.ReadStore],
    [WriteStore] and [FlushStore]: a plugin whose instance exists behaves as an
    array of bytes.  The file, disk and memory card plugins have
    instances for reading and writing, the memory plugin for reading only, so
    the server's theorems apply to them.

    ** What the theorems show

    - The protocol.  [TransmissionSpec.transmission_session]: any session of a
      conforming client is the abstract session on a byte array, one reply per
      command in order, nothing else of the stream touched;
      [HandshakeSpec.handshake_negotiates]: the dialogue of the negotiation, the
      export it opens, and which of the two sockets of a connection is sent
      what: the greeting goes to the client's, the answers and the size and flags
      to the one of the server's handle, and they are that handle's.
      [Connection] composes server, phases and plugin:
      [Connection.preinit_connection] is the abstract session of a handle that
      has been given an export; a program gets a handle of zeros
      ([Connection.preinit_server_serves_zeros]), and
      [Connection.unfilled_handle_serves_nothing] is what that serves.
      [TransmissionErrors] covers refusals, devices that
      fail, clients that leave, wrap-around of the range check, blocks larger
      than the buffer; [TransmissionBlocks] requests that are not whole blocks.
      [NbdStructures.protocol_images_agree] ties the images of [NbdProtocol] to
      the layouts of the header's structures.
      [TransmissionSafety.transmission_safe] and
      [HandshakeSafety.handshake_safe] assume nothing of the client and of the
      network: both phases are free of undefined behaviour up to the inputs
      they name, among them a name that selects a context without plugin, which
      every connection leaves in the library.
    - The library.  [Library.library_typed]: what holds of contexts and plugins
      after any sequence of calls; [Plugins.plugin_exports] and
      [ContextsUri.get_context_refines]: registering plugins appends exactly
      their exports, and the in-place lookup of a URI computes the value-level
      one; [Yuarel] has the round trip of the parser and the specification of
      its queries; [Servers.registry_invariant].
    - Concurrency. Programs serve connections on several threads and the library
      has no lock. [Interleaving.phase_is_turns]: the turns into which a thread
      is cut are the transmission phase. [Tenants.connections_always_end]:
      whatever the order of the turns, and whatever parts of a device the
      clients use, no thread faults and all of them end.
      [SerialRequests.small_requests_serialise]: when the requests fit the
      server's buffer, every order of the turns is a serial execution of the
      commands. [TornReads.torn_read]: a read of several runs that another
      client writes under can return a mixture. [Tenants.tenants_served_alone]:
      connections whose clients keep to disjoint parts of a device are served as
      if each were alone, whatever the order of their turns.
      [ContextRace.race_free_linearizable]: calls of [lwnbd_new_context] that
      never contend for a slot are atomic;
      [ContextRace.concurrent_new_context_race]: calls that do can be given the
      same context; [ContextRace.concurrent_new_context_safe]: in every
      interleaving they return, and what they return is a slot of the table.
    - The plugins.  Each keeps the interface it is used through, under the
      contract of its device: [McmanPlugin.mcman_pwrite_preserves_card],
      [FilePlugin.file_transfers_whole_range], [TtyPlugin.tty_fifo],
      [CommandPlugin.command_query_correct], and so on.
    - The programs.  [UvMain.server_main_exports]: what the libuv server exports
      when it enters its event loop, if [lwnbd_set_defaultexport], which is
      defined nowhere, returns; [Irx.irx_exports]: what the I/O processor's
      module exports when all its constructors accept, and
      [Irx.irx_start_out_of_bounds]: its start never gets that far;
      [UvServer.uv_clients_bounded]: at most three clients, no freed request
      touched; [XinetdMain.xinetd_accepts]: from the text of the configuration
      to the threads that serve the connections; [Loader.loadelf_in_place],
      [Endian.bswap64_correct]: optimised code equals its plain definition.
    - The defects.  Where the code does something else than it means to, the
      theorem states what it does: the handshake records its result in the
      wrong structure ([Nbd.handshake_never_followed_by_transmission]), so that
      a client that has negotiated is greeted again and dropped
      ([Connection.negotiated_request_dropped]); answers go to a socket nobody
      sets ([ClientSocket.client_hears_only_greetings]); the end of a write that
      is not whole blocks is carried out as a command
      ([TransmissionBlocks.unaligned_write_smuggles]) and the end of such a read is
      not sent ([TransmissionBlocks.unaligned_read_sends_less]); an empty write
      to a memory card rewrites every block of it and goes on past the last
      ([McmanWear.short_write_wears_card]);
      contexts are never given back ([Nbd.connections_exhaust_contexts]),
      [memory_pwrite] writes nowhere ([MemoryPlugin.memory_pwrite_loses_data]),
      a write-only export answers reads with stale data
      ([TransmissionErrors.silent_read_sends_stale_buffer]), a write that is
      refused for its range is stored where an interrupted read began
      ([TransmissionSafety.refused_write_reaches_device]), option data that
      fill the buffer overflow it ([HandshakeSpec.full_option_overflows]).

    ** Fuel and bounds

    A loop of the source is a [Fixpoint] with fuel unless its length is known;
    [OutOfFuel] is a fault of its own, so [Ok] means the fuel was enough.  The
    transfer loops of one request need one turn per block and per retry:
    [TransmissionErrors.transfers_terminate] proves the bound [transfer_fuel]
    for any plugin and any network, and [transmission_session] needs no more
    turns than the device has blocks.  The request and option loops run once
    per message, and their theorems give that number as the fuel.  The loops of
    [file_pread], [tcp_recv_block] and [mcman_pwrite] get fuel computed from
    the count they are given, since each turn makes progress;
    [yuarel_parse_query], [parse_config] and [echo] from the length of their
    text.  Loops that never end are proved not to for any fuel
    ([Plugins.plugin_news_never_returns],
    [TransmissionErrors.oversized_block_read_diverges],
    [Sockets.listener_serves_nobody]).  The constants [MAX_CONTEXTS],
    [MAX_NUM_PLUGINS] and their like are the source's; [CONFIG_NBD_BUFFER_LEN],
    [CONFIG_MAX_RETRIES] and what else the build chooses are the class
    [NbdContext.NbdConfig], whose instances the theorems quantify over.

    ** Not modelled

    The font of the SDL example (an array of bytes), the unfinished draft
    [ata_next.c.todo], [mapper.c] (a comment), the build files, and the
    compatibility headers of the I/O processor, which rename functions of the
    console's SDK.  [kelfbind] of [mcman_q.c] uses names that are declared
    nowhere: [McmanQuery] takes it as an argument.  [IopImports] has the tables
    of the module, not the list of the functions each file calls, nor the
    loader that resolves them.
    Of the modelled files, what is printed by logging calls (so also the [NULL]
    that some of them give to [%s]), [usage] and [die], and the registration of
    the tty device with [iomanX]; the event flags the console's writers and
    readers wait on, each call of [TtyPlugin] being one step; a [malloc] or
    [pthread_create] that fails in the loop of [mini-xinetd.c], which tests
    neither.  Concurrency is
    modelled where threads share a table of the library ([ContextRace]), a device
    ([Interleaving], where a plugin's call is atomic) or a stream of the process
    ([MiniXinetd]).  Some files of the repository do not compile at this
    commit (for instance [nbd.c] uses an undeclared [s]); the definitions follow
    what the line plainly means, and the manifest lists these places. *)

From stdpp Require Export base list option numbers.
From Stdlib Require Export ZArith Lia.
From Stdlib Require Export Init.Byte.
From Stdlib Require Import Strings.Byte.
From Stdlib Require Strings.String.
Export Strings.String.StringSyntax.

#[global] Open Scope Z_scope.

(** ** Run-time outcomes

    A C operation either completes or has undefined behaviour.  [Fault]
    records which rule of the language it breaks; [OutOfFuel] is not a fault of
    the program, it is the answer of a loop that was not given enough steps. *)

Inductive fault :=
  | NullDeref       (** a NULL pointer (data or function) is dereferenced *)
  | OutOfBounds     (** an access outside the object a pointer points into *)
  | Unterminated    (** a string function runs off an array with no NUL *)
  | Uninitialised   (** an indeterminate pointer or value is used *)
  | DivByZero       (** integer division by zero *)
  | OutOfFuel.      (** the step budget of a loop is exhausted *)

Inductive outcome (A : Type) :=
  | Ok (a : A)
  | Fault (f : fault).
Arguments Ok {A} a.
Arguments Fault {A} f.

#[export] Instance fault_eq_dec : EqDecision fault.
Proof. intros x y; unfold Decision; decide equality. Defined.
#[export] Instance outcome_eq_dec {A} `{EqDecision A} : EqDecision (outcome A).
Proof. intros [a|e] [b|e']; [destruct (decide (a = b))| | |destruct (decide (e = e'))];
  (left; congruence) || (right; congruence). Defined.

#[export] Instance outcome_ret : MRet outcome := fun A a => Ok a.
#[export] Instance outcome_bind : MBind outcome := fun A B f m =>
  match m with Ok a => f a | Fault e => Fault e end.

Definition of_option {A} (e : fault) (o : option A) : outcome A :=
  match o with Some a => Ok a | None => Fault e end.

Definition outcome_require (P : Prop) `{Decision P} (e : fault) : outcome unit :=
  if decide P then Ok tt else Fault e.

Lemma bind_Ok {A B} (m : outcome A) (f : A -> outcome B) b :
  m ≫= f = Ok b <-> exists a, m = Ok a /\ f a = Ok b.
Proof. destruct m; cbn; naive_solver. Qed.

Lemma bind_Fault {A B} (m : outcome A) (f : A -> outcome B) e :
  m ≫= f = Fault e <-> m = Fault e \/ exists a, m = Ok a /\ f a = Fault e.
Proof. destruct m; cbn; naive_solver. Qed.

(** A computation that has no undefined behaviour, whose result satisfies [P]
    when it is given enough fuel. *)
Definition completes {A} (P : A -> Prop) (m : outcome A) : Prop :=
  match m with Ok a => P a | Fault e => e = OutOfFuel end.

Lemma completes_Ok {A} (P : A -> Prop) a : P a -> completes P (Ok a).
Proof. done. Qed.

Lemma completes_bind {A B} (P : A -> Prop) (Q : B -> Prop) (m : outcome A) (k : A -> outcome B) :
  completes P m -> (forall a, P a -> completes Q (k a)) -> completes Q (m ≫= k).
Proof. destruct m; cbn; auto. Qed.

Lemma require_Ok (P : Prop) `{Decision P} e u :
  outcome_require P e = Ok u <-> P.
Proof. unfold outcome_require; case_decide; destruct u; naive_solver. Qed.

Lemma require_true (P : Prop) `{Decision P} e : P -> outcome_require P e = Ok tt.
Proof. intros; unfold outcome_require; by rewrite decide_True. Qed.

Lemma require_false (P : Prop) `{Decision P} e : ~ P -> outcome_require P e = Fault e.
Proof. intros; unfold outcome_require; by rewrite decide_False. Qed.

Lemma of_option_Ok {A} e (o : option A) a : of_option e o = Ok a <-> o = Some a.
Proof. destruct o; naive_solver. Qed.

(** [run] inverts a computation that is known to have completed. *)
Ltac run_step :=
  match goal with
  | H : _ ≫= _ = Ok _ |- _ =>
      apply bind_Ok in H; let a := fresh "a" in let Ha := fresh "Hr" in
      destruct H as (a & Ha & H)
  | H : mret _ = Ok _ |- _ => injection H as H
  | H : Ok _ = Ok _ |- _ => injection H as H
  | H : Fault _ = Ok _ |- _ => discriminate H
  | H : outcome_require _ _ = Ok _ |- _ => apply require_Ok in H
  | H : of_option _ _ = Ok _ |- _ => apply of_option_Ok in H
  | H : _ /\ _ |- _ => destruct H
  | p : (_ * _)%type |- _ => destruct p
  | H : (_, _) = (_, _) |- _ => injection H as H
  end.
Ltac run := repeat (run_step; simpl in *; simplify_eq).
(** The same without computing in the hypotheses. *)
Ltac run_lightly := repeat (run_step; cbn beta iota in *; simplify_eq).

(** ** Machine integers

    An unsigned value of width [w] is a [Z] in [[0, 2^w)]; arithmetic reduces
    with [wrap].  [swrap] is conversion to a signed type of width [w]. *)

Definition wrap (w z : Z) : Z := z mod 2 ^ w.
Definition swrap (w z : Z) : Z := (z + 2 ^ (w - 1)) mod 2 ^ w - 2 ^ (w - 1).

Abbreviation u8 := (wrap 8).
Abbreviation u16 := (wrap 16).
Abbreviation u32 := (wrap 32).
Abbreviation u64 := (wrap 64).
Abbreviation i32 := (swrap 32).
Abbreviation i64 := (swrap 64).

(** [size_t] on the default (LP64 unix) target. *)
Abbreviation size_t := (wrap 64).

Lemma wrap_range w z : 0 <= w -> 0 <= wrap w z < 2 ^ w.
Proof. intros; apply Z.mod_pos_bound; by apply Z.pow_pos_nonneg. Qed.

Lemma wrap_small w z : 0 <= z < 2 ^ w -> wrap w z = z.
Proof. apply Z.mod_small. Qed.

Lemma wrap_idemp w z : wrap w (wrap w z) = wrap w z.
Proof. apply Zmod_mod. Qed.

Lemma swrap_small w z : 0 < w -> - 2 ^ (w - 1) <= z < 2 ^ (w - 1) -> swrap w z = z.
Proof.
  intros Hw Hz; unfold swrap. rewrite Z.mod_small; [lia|].
  replace (2 ^ w) with (2 * 2 ^ (w - 1)); [lia|].
  rewrite <- Z.pow_succ_r by lia. f_equal; lia.
Qed.

(** ** Bytes *)

Abbreviation byte := Byte.byte.

#[export] Instance byte_eq_decision : EqDecision byte := Byte.byte_eq_dec.
#[export] Instance byte_inhabited : Inhabited byte := populate x00.

Definition byte_to_Z (b : byte) : Z := Z.of_N (Byte.to_N b).
Definition byte_of_Z (z : Z) : byte := default x00 (Byte.of_N (Z.to_N (z mod 256))).

Lemma byte_to_Z_range b : 0 <= byte_to_Z b < 256.
Proof. unfold byte_to_Z. pose proof (Byte.to_N_bounded b). lia. Qed.

Lemma byte_to_of_Z z : byte_to_Z (byte_of_Z z) = z mod 256.
Proof.
  unfold byte_to_Z, byte_of_Z.
  pose proof (Z.mod_pos_bound z 256 ltac:(lia)) as Hz.
  destruct (Byte.of_N _) as [b|] eqn:E; simpl.
  - apply Byte.to_of_N in E. lia.
  - apply Byte.of_N_None_iff in E. lia.
Qed.

Lemma byte_of_to_Z b : byte_of_Z (byte_to_Z b) = b.
Proof.
  unfold byte_of_Z. rewrite Z.mod_small by apply byte_to_Z_range.
  unfold byte_to_Z. rewrite N2Z.id, Byte.of_to_N. done.
Qed.

Lemma byte_of_Z_mod z : byte_of_Z (z mod 256) = byte_of_Z z.
Proof. unfold byte_of_Z. by rewrite Zmod_mod. Qed.

(** Byte strings written as literals. *)
Definition bs (s : String.string) : list byte := String.list_byte_of_string s.
Arguments bs s%_string_scope.

(** ** Little-endian images of integers *)

Fixpoint le_split (n : nat) (z : Z) : list byte :=
  match n with
  | O => []
  | S n => byte_of_Z z :: le_split n (z / 256)
  end.

Fixpoint le_combine (l : list byte) : Z :=
  match l with
  | [] => 0
  | b :: l => byte_to_Z b + 256 * le_combine l
  end.

Lemma length_le_split n z : length (le_split n z) = n.
Proof. revert z; induction n; intros; simpl; auto. Qed.

Lemma le_combine_range l : 0 <= le_combine l < 256 ^ Z.of_nat (length l).
Proof.
  induction l as [|b l IH]; simpl length; [simpl; lia|].
  rewrite Nat2Z.inj_succ, Z.pow_succ_r by lia.
  simpl. pose proof (byte_to_Z_range b). nia.
Qed.

Lemma le_combine_split n z : le_combine (le_split n z) = z mod 256 ^ Z.of_nat n.
Proof.
  revert z; induction n as [|n IH]; intros z.
  - simpl. by rewrite Z.mod_1_r.
  - simpl le_split. simpl le_combine. rewrite IH, byte_to_of_Z.
    rewrite Nat2Z.inj_succ, Z.pow_succ_r by lia.
    rewrite Z.rem_mul_r by (try apply Z.pow_pos_nonneg; lia). lia.
Qed.

Lemma le_split_combine n l : length l = n -> le_split n (le_combine l) = l.
Proof.
  revert l; induction n as [|n IH]; intros [|b l] Hl; simpl in *; try lia; [done|].
  pose proof (byte_to_Z_range b).
  f_equal.
  - rewrite <- byte_of_Z_mod, Z.mul_comm, Z_mod_plus_full, byte_of_Z_mod.
    apply byte_of_to_Z.
  - rewrite Z.mul_comm, Z.div_add, Z.div_small by lia. apply IH; lia.
Qed.

(** [bswap n] reverses the bytes of an [n]-byte integer: what [htonl], [ntohl],
    [htons], [be64toh] and the like compute on a little-endian host. *)
Definition bswap (n : nat) (z : Z) : Z := le_combine (rev (le_split n z)).

Abbreviation htons := (bswap 2).
Abbreviation ntohs := (bswap 2).
Abbreviation htonl := (bswap 4).
Abbreviation ntohl := (bswap 4).
Abbreviation htobe64 := (bswap 8).
Abbreviation be64toh := (bswap 8).

(** The network image of an integer: most significant byte first. *)
Definition be_split (n : nat) (z : Z) : list byte := rev (le_split n z).
Definition be_combine (l : list byte) : Z := le_combine (rev l).

Lemma length_be_split n z : length (be_split n z) = n.
Proof. unfold be_split. by rewrite length_rev, length_le_split. Qed.

Lemma bswap_range n z : 0 <= bswap n z < 256 ^ Z.of_nat n.
Proof.
  unfold bswap. pose proof (le_combine_range (rev (le_split n z))) as H.
  by rewrite length_rev, length_le_split in H.
Qed.

Lemma le_split_bswap n z : le_split n (bswap n z) = be_split n z.
Proof. unfold bswap, be_split. apply le_split_combine. by rewrite length_rev, length_le_split. Qed.

Lemma bswap_bswap n z : bswap n (bswap n z) = z mod 256 ^ Z.of_nat n.
Proof.
  unfold bswap at 1. rewrite le_split_bswap. unfold be_split.
  by rewrite rev_involutive, le_combine_split.
Qed.

Lemma bswap_le_combine n l : length l = n -> bswap n (le_combine l) = be_combine l.
Proof. intros. unfold bswap, be_combine. by rewrite le_split_combine. Qed.

Lemma be_combine_split n z : be_combine (be_split n z) = z mod 256 ^ Z.of_nat n.
Proof. unfold be_combine, be_split. by rewrite rev_involutive, le_combine_split. Qed.

Lemma be_combine_range l : 0 <= be_combine l < 256 ^ Z.of_nat (length l).
Proof. unfold be_combine. rewrite <- length_rev. apply le_combine_range. Qed.

(** ** Slices of arrays *)

Section slices.
Context {A : Type}.
Implicit Types l d : list A.

Definition slice (off n : nat) l : list A := take n (drop off l).
Definition splice (off : nat) d l : list A :=
  take off l ++ d ++ drop (off + length d) l.

Lemma length_slice off n l : (off + n <= length l)%nat -> length (slice off n l) = n.
Proof. intros; unfold slice. rewrite length_take, length_drop. lia. Qed.

Lemma length_splice off d l :
  (off + length d <= length l)%nat -> length (splice off d l) = length l.
Proof. intros; unfold splice. rewrite !length_app, length_take, length_drop. lia. Qed.

Lemma slice_app off n m l : slice off (n + m) l = slice off n l ++ slice (off + n) m l.
Proof. unfold slice. by rewrite <- drop_drop, take_take_drop. Qed.

Lemma slice_all l : slice 0 (length l) l = l.
Proof. unfold slice. by rewrite drop_0, firstn_all. Qed.

Lemma slice_0 off l : slice off 0 l = [].
Proof. done. Qed.

Lemma splice_nil off l : splice off [] l = l.
Proof. unfold splice. simpl. by rewrite Nat.add_0_r, take_drop. Qed.

Lemma slice_splice off d l :
  (off + length d <= length l)%nat -> slice off (length d) (splice off d l) = d.
Proof.
  intros; unfold slice, splice.
  rewrite drop_app_length' by (rewrite length_take; lia).
  by rewrite take_app_length.
Qed.

Lemma splice_app off d1 d2 l :
  (off + length d1 + length d2 <= length l)%nat ->
  splice off (d1 ++ d2) l = splice (off + length d1) d2 (splice off d1 l).
Proof.
  intros. unfold splice. rewrite !length_app.
  rewrite (assoc_L _ (take off l) d1), take_app_ge, drop_app_ge;
    rewrite ?length_app, ?length_take; [|lia..].
  replace (off + length d1 - (off `min` length l + length d1))%nat with O by lia.
  rewrite take_0, app_nil_r, drop_drop, <- !(assoc_L _).
  do 4 f_equal. lia.
Qed.
End slices.

Lemma slice_slice {A} a n b m (l : list A) :
  (b + m <= n)%nat -> slice b m (slice a n l) = slice (a + b) m l.
Proof.
  intros. unfold slice. rewrite skipn_firstn_comm, firstn_firstn, drop_drop. f_equal. lia.
Qed.

Lemma slice_splice_inner {A} a n (d l : list A) :
  (length d <= n)%nat -> (a + n <= length l)%nat ->
  slice a n (splice a d l) = splice 0 d (slice a n l).
Proof.
  intros. unfold slice, splice. rewrite drop_app_ge by (rewrite length_take; lia).
  rewrite length_take, Nat.min_l by lia. rewrite Nat.sub_diag, drop_0.
  rewrite take_0, take_app_ge by lia. cbn [app]. f_equal.
  rewrite skipn_firstn_comm, drop_drop. done.
Qed.

Lemma splice_all {A} (d l : list A) : length d = length l -> splice 0 d l = d.
Proof. intros H. unfold splice. by rewrite take_0, drop_ge, app_nil_r by lia. Qed.

(** Overwriting a range forgets what was in it. *)
Lemma splice_agree {A} off (d l l' : list A) :
  take off l = take off l' -> drop (off + length d) l = drop (off + length d) l' ->
  splice off d l = splice off d l'.
Proof. unfold splice. by intros -> ->. Qed.

Lemma splice_splice_slice {A} a o n (d l : list A) :
  (o + length d <= n)%nat -> (a + n <= length l)%nat ->
  splice a (splice o d (slice a n l)) l = splice (a + o) d l.
Proof.
  intros. assert (length (slice a n l) = n) as Hn by (by apply length_slice).
  unfold splice at 1. rewrite length_splice by lia. rewrite Hn.
  unfold splice, slice.
  rewrite firstn_firstn, Nat.min_l by lia.
  assert (take (a + o) l = take a l ++ take o (drop a l)) as ->.
  { rewrite <- (take_drop a l) at 1. rewrite take_app, length_take, Nat.min_l by lia.
    rewrite firstn_firstn, Nat.min_r by lia. do 2 f_equal. lia. }
  rewrite <- !app_assoc. do 3 f_equal.
  rewrite skipn_firstn_comm, drop_drop.
  replace (drop (a + n) l) with (drop (n - (o + length d)) (drop (a + (o + length d)) l)).
  - rewrite take_drop. f_equal. lia.
  - rewrite drop_drop. f_equal. lia.
Qed.

Lemma lookup_splice {A} off (d l : list A) i :
  (off + length d <= length l)%nat ->
  splice off d l !! i = if decide (off <= i < off + length d)%nat then d !! (i - off)%nat else l !! i.
Proof.
  intros H. unfold splice. case_decide as Hi.
  - rewrite lookup_app_r by (rewrite length_take; lia).
    rewrite length_take, Nat.min_l by lia. by rewrite lookup_app_l by lia.
  - destruct (decide (i < off)%nat).
    + rewrite lookup_app_l by (rewrite length_take; lia). by rewrite lookup_take_lt by lia.
    + rewrite lookup_app_r by (rewrite length_take; lia). rewrite length_take, Nat.min_l by lia.
      rewrite lookup_app_r, lookup_drop by lia. f_equal. lia.
Qed.

Lemma lookup_slice {A} off n (l : list A) i :
  slice off n l !! i = if decide (i < n)%nat then l !! (off + i)%nat else None.
Proof.
  unfold slice. case_decide.
  - by rewrite lookup_take_lt, lookup_drop by lia.
  - by rewrite lookup_take_ge by lia.
Qed.

Lemma slice_splice_disjoint {A} a n off (d l : list A) :
  (off + length d <= length l)%nat -> (off + length d <= a \/ a + n <= off)%nat ->
  slice a n (splice off d l) = slice a n l.
Proof.
  intros Hl Hd. apply list_eq. intros i. rewrite !lookup_slice. case_decide; [|done].
  rewrite lookup_splice by done. by rewrite decide_False by lia.
Qed.

(** ** Bounded copies into a C array

    [store_at off d buf] is [memcpy(buf + off, d, |d|)]: it faults when the
    destination range is not inside the array.  [load_at] is the read. *)

Definition store_at (off : nat) (d buf : list byte) : outcome (list byte) :=
  if decide (off + length d <= length buf)%nat then Ok (splice off d buf)
  else Fault OutOfBounds.

Definition load_at (off n : nat) (buf : list byte) : outcome (list byte) :=
  if decide (off + n <= length buf)%nat then Ok (slice off n buf)
  else Fault OutOfBounds.

Lemma store_at_Ok off d buf buf' :
  store_at off d buf = Ok buf' <->
  (off + length d <= length buf)%nat /\ buf' = splice off d buf.
Proof. unfold store_at; case_decide; naive_solver. Qed.

Lemma load_at_Ok off n buf d :
  load_at off n buf = Ok d <-> (off + n <= length buf)%nat /\ d = slice off n buf.
Proof. unfold load_at; case_decide; naive_solver. Qed.

Lemma store_at_fits off d buf :
  (off + length d <= length buf)%nat -> store_at off d buf = Ok (splice off d buf).
Proof. intros. by apply store_at_Ok. Qed.

Lemma load_at_fits off n buf :
  (off + n <= length buf)%nat -> load_at off n buf = Ok (slice off n buf).
Proof. intros. by apply load_at_Ok. Qed.

Lemma store_at_length off d buf buf' :
  store_at off d buf = Ok buf' -> length buf' = length buf.
Proof. rewrite store_at_Ok. intros [? ->]. by apply length_splice. Qed.

(** ** Slot scans

    Every pool of the program is searched by the loop
    [for (i = 0; i < N; i++) if (status[i] == FREE) break;].  [find_slot] is the
    value of [i] after it: the length of the array when no slot matches. *)

Section find_slot.
Context {A : Type} (P : A -> bool).

Fixpoint find_slot (l : list A) : nat :=
  match l with
  | [] => O
  | x :: l => if P x then O else S (find_slot l)
  end.

Lemma find_slot_le l : (find_slot l <= length l)%nat.
Proof. induction l as [|x l IH]; simpl; [lia|]. destruct (P x); lia. Qed.

Lemma find_slot_lt l :
  (find_slot l < length l)%nat -> exists x, l !! find_slot l = Some x /\ P x = true.
Proof.
  induction l as [|x l IH]; simpl; [lia|].
  destruct (P x) eqn:E; [eauto|]. intros. apply IH. lia.
Qed.

Lemma find_slot_before l j x :
  (j < find_slot l)%nat -> l !! j = Some x -> P x = false.
Proof.
  revert j; induction l as [|y l IH]; simpl; intros j Hj Hx; [lia|].
  destruct (P y) eqn:E; [lia|]. destruct j as [|j]; simpl in *; [naive_solver|].
  eapply IH; [|done]. lia.
Qed.

Lemma find_slot_full l :
  find_slot l = length l <-> Forall (fun x => P x = false) l.
Proof.
  induction l as [|x l IH]; simpl; [naive_solver|].
  destruct (P x) eqn:E; split; intros H.
  - lia.
  - inversion H; congruence.
  - constructor; [done|]. apply IH; lia.
  - inversion H. f_equal. by apply IH.
Qed.

Lemma find_slot_unique l i x :
  l !! i = Some x -> P x = true ->
  (forall j y, (j < i)%nat -> l !! j = Some y -> P y = false) -> find_slot l = i.
Proof.
  revert i; induction l as [|y l IH]; intros i Hi HP Hb; [done|]; simpl.
  destruct i as [|i]; simpl in Hi; [simplify_eq; by rewrite HP|].
  rewrite (Hb O y); [|lia|done]. f_equal. apply IH; [done..|].
  intros j z Hj Hz. apply (Hb (S j)); [lia|done].
Qed.
End find_slot.

(** A status array whose first [n] slots are taken: the shape of a pool whose
    slots are never given back. *)
Section slots.
Context {A : Type} (used free : A) (N : nat).

Definition slots (n : nat) : list A := replicate n used ++ replicate (N - n) free.

Lemma length_slots n : (n <= N)%nat -> length (slots n) = N.
Proof. intros; unfold slots. rewrite length_app, !length_replicate. lia. Qed.

Lemma find_slot_slots P n :
  P used = false -> P free = true -> (n <= N)%nat -> find_slot P (slots n) = n.
Proof.
  intros Hu Hf. unfold slots. generalize (N - n)%nat as m. intros m _.
  induction n as [|n IH]; simpl; [destruct m; simpl; [done|by rewrite Hf]|by rewrite Hu, IH].
Qed.

Lemma slots_insert n : (n < N)%nat -> <[n := used]> (slots n) = slots (S n).
Proof.
  intros; unfold slots. replace (N - n)%nat with (S (N - S n)) by lia.
  rewrite insert_app_r_alt by (rewrite length_replicate; lia).
  rewrite length_replicate, Nat.sub_diag.
  by rewrite (replicate_S_end n), <- (assoc_L _).
Qed.

Lemma slots_lookup n i : (i < n)%nat -> slots n !! i = Some used.
Proof.
  intros; unfold slots. rewrite lookup_app_l by (rewrite length_replicate; lia).
  by apply lookup_replicate_2.
Qed.
End slots.

Create HintDb lwnbd.
#[export] Hint Resolve byte_to_Z_range le_combine_range be_combine_range bswap_range
  find_slot_le : lwnbd.
#[export] Hint Rewrite length_le_split length_be_split byte_of_to_Z @splice_nil @slice_0
  : lwnbd.
#[global] Arguments le_split : simpl never.
#[global] Arguments be_split : simpl never.
#[global] Arguments bswap : simpl never.
#[global] Arguments slice : simpl never.
#[global] Arguments splice : simpl never.
#[global] Arguments wrap : simpl never.
#[global] Arguments swrap : simpl never.

(** Reduces the monad operations at the head of a goal, and nothing else. *)
Ltac mred := cbn [mbind outcome_bind mret outcome_ret of_option].

(** Proves a closed decidable proposition by evaluating its decision. *)
Ltac by_decide := apply (bool_decide_unpack _); vm_compute; exact I.

(** Equality of concatenations up to associativity. *)
Ltac app_norm := repeat (rewrite <- ?app_assoc, ?app_nil_r; progress cbn [app]);
  rewrite <- ?app_assoc.
Ltac app_eq := app_norm; reflexivity.

(** Arithmetic on lengths of concatenations. *)
Ltac lens := repeat (progress (rewrite ?length_app in *; cbn [length app] in *)); lia.
