(* ===== verification/Endian.v ===== *)
(** * Byte order: [ports/playstation2/common/include/endian.h]

    The console's SDK has no [<byteswap.h>]; the port supplies [bswap64], and
    [ps2sdk-compat.h] defines [htobe64] and [be64toh] as it.  The rest of the
    development uses [bswap], which reverses a list of bytes; here the masks
    and shifts of the source are shown to compute the same. *)

From S2P Require Export Prelude.

(** A [uint64_t] shifted left keeps its low 64 bits. *)
Definition shl64 (x n : Z) : Z := wrap 64 (Z.shiftl x n).

Definition bswap64 (x : Z) : Z :=
  Z.lor (Z.lor (Z.lor (Z.lor (Z.lor (Z.lor (Z.lor
    (Z.shiftr (Z.land x 0xff00000000000000) 56)
    (Z.shiftr (Z.land x 0x00ff000000000000) 40))
    (Z.shiftr (Z.land x 0x0000ff0000000000) 24))
    (Z.shiftr (Z.land x 0x000000ff00000000) 8))
    (shl64 (Z.land x 0x00000000ff000000) 8))
    (shl64 (Z.land x 0x0000000000ff0000) 24))
    (shl64 (Z.land x 0x000000000000ff00) 40))
    (shl64 (Z.land x 0x00000000000000ff) 56).

(** [htonll] and [ntohll], [big_endian] being [__BIG_ENDIAN__]. *)
Definition htonll (big_endian : bool) (x : Z) : Z := if big_endian then x else bswap64 x.
Definition ntohll (big_endian : bool) (x : Z) : Z := if big_endian then x else bswap64 x.

(** The byte of [x] that starts at bit [k]. *)
Definition byte_at (x k : Z) : Z := Z.shiftr x k mod 256.

Lemma byte_at_range x k : 0 <= byte_at x k < 256.
Proof. apply Z.mod_pos_bound. lia. Qed.

Lemma land_byte_mask x k : 0 <= k -> Z.land x (Z.shiftl 255 k) = Z.shiftl (byte_at x k) k.
Proof.
  intros Hk. unfold byte_at. change 256 with (2 ^ 8). rewrite <- Z.land_ones by lia.
  change (Z.ones 8) with 255.
  apply Z.bits_inj'. intros n Hn. rewrite Z.land_spec, !Z.shiftl_spec by lia.
  destruct (decide (n < k)).
  - by rewrite !(Z.testbit_neg_r _ (n - k)), andb_false_r by lia.
  - rewrite Z.land_spec, Z.shiftr_spec by lia. by replace (n - k + k) with n by lia.
Qed.

Lemma shiftr_byte x k s d :
  0 <= s -> 0 <= d -> k = s + d ->
  Z.shiftr (Z.land x (Z.shiftl 255 k)) s = Z.shiftl (byte_at x k) d.
Proof.
  intros ? ? ->. rewrite land_byte_mask, Z.shiftr_shiftl_l by lia. by replace (s + d - s) with d by lia.
Qed.

Lemma shl64_byte x k s d :
  0 <= k -> 0 <= s -> d = k + s -> d <= 56 ->
  shl64 (Z.land x (Z.shiftl 255 k)) s = Z.shiftl (byte_at x k) d.
Proof.
  intros ? ? -> ?. unfold shl64. rewrite land_byte_mask, Z.shiftl_shiftl by lia. apply wrap_small.
  rewrite Z.shiftl_mul_pow2 by lia. pose proof (byte_at_range x k).
  assert (0 < 2 ^ (k + s) <= 2 ^ 56) by (split; [lia|apply Z.pow_le_mono_r; lia]). nia.
Qed.

Lemma lor_disjoint a b n : 0 <= n -> 0 <= a < 2 ^ n -> Z.lor a (Z.shiftl b n) = a + b * 2 ^ n.
Proof.
  intros Hn Ha. rewrite <- Z.shiftl_mul_pow2, Z.add_nocarry_lor; [done| |lia].
  apply Z.bits_inj'. intros i Hi. rewrite Z.land_spec, Z.bits_0, Z.shiftl_spec by lia.
  destruct (decide (i < n)).
  - by rewrite (Z.testbit_neg_r b), andb_false_r by lia.
  - rewrite <- (Z.mod_small a (2 ^ n)) by lia. by rewrite Z.mod_pow2_bits_high by lia.
Qed.

(** [bswap 8] as a sum of the bytes it exchanges. *)
Lemma bswap_bytes x :
  bswap 8 x = byte_at x 56 + 2 ^ 8 * byte_at x 48 + 2 ^ 16 * byte_at x 40 + 2 ^ 24 * byte_at x 32
    + 2 ^ 32 * byte_at x 24 + 2 ^ 40 * byte_at x 16 + 2 ^ 48 * byte_at x 8 + 2 ^ 56 * byte_at x 0.
Proof.
  unfold bswap, byte_at. rewrite !Z.shiftr_div_pow2 by lia. simpl rev. cbn [le_combine].
  rewrite !byte_to_of_Z, !Z.div_div by lia.
  change (2 ^ 0) with 1. rewrite Z.div_1_r. cbn -[Z.modulo Z.div Z.add Z.mul].
  repeat match goal with |- context [x / ?c] =>
    let c' := eval vm_compute in c in progress change (x / c) with (x / c') end.
  lia.
Qed.

(** The masks and shifts of [bswap64] reverse the bytes of their argument:
    [bswap64] agrees with [htobe64], so its image in the memory of a
    little-endian host is the network's, and applying it twice is the identity
    on 64-bit values. *)
Theorem bswap64_correct x :
  bswap64 x = htobe64 x /\ le_split 8 (htonll false x) = be_split 8 x /\
  ntohll false (htonll false x) = wrap 64 x.
Proof.
  assert (forall y, bswap64 y = htobe64 y) as Heq.
  { intros y. rewrite bswap_bytes. unfold bswap64.
    change 0xff00000000000000 with (Z.shiftl 255 56).
    change 0x00ff000000000000 with (Z.shiftl 255 48).
    change 0x0000ff0000000000 with (Z.shiftl 255 40).
    change 0x000000ff00000000 with (Z.shiftl 255 32).
    change 0x00000000ff000000 with (Z.shiftl 255 24).
    change 0x0000000000ff0000 with (Z.shiftl 255 16).
    change 0x000000000000ff00 with (Z.shiftl 255 8).
    change (Z.land y 0xff) with (Z.land y (Z.shiftl 255 0)).
    rewrite (shiftr_byte y 56 56 0), (shiftr_byte y 48 40 8), (shiftr_byte y 40 24 16),
      (shiftr_byte y 32 8 24), (shl64_byte y 24 8 32), (shl64_byte y 16 24 40), (shl64_byte y 8 40 48),
      (shl64_byte y 0 56 56) by lia.
    pose proof (byte_at_range y) as Hr.
    pose proof (Hr 56); pose proof (Hr 48); pose proof (Hr 40); pose proof (Hr 32).
    pose proof (Hr 24); pose proof (Hr 16); pose proof (Hr 8).
    rewrite Z.shiftl_0_r.
    repeat match goal with |- context [Z.lor ?a (Z.shiftl ?b ?n)] =>
      lazymatch a with context [Z.lor] => fail | _ => rewrite (lor_disjoint a b n) by lia end end.
    lia. }
  unfold htonll, ntohll. rewrite !Heq. split_and!; [done|apply le_split_bswap|].
  by rewrite bswap_bswap.
Qed.
