(* ===== verification/CString.v ===== *)
(** * C strings

    The string functions of the C library the program calls ([strlen],
    [strcmp], [strncmp], [strchr], [strcpy], [memset] and the one [sprintf]
    format it uses), over character arrays ([list byte]) and string contents
    (a [list byte] without the terminating NUL). *)

From S2P Require Export Prelude.

(** A string content: no NUL inside. *)
Definition no_nul (s : list byte) : Prop := x00 ∉ s.

#[export] Instance no_nul_dec s : Decision (no_nul s).
Proof. unfold no_nul; apply _. Defined.

(** The string that starts an array: the bytes before the first NUL. *)
Fixpoint c_str (buf : list byte) : option (list byte) :=
  match buf with
  | [] => None
  | b :: buf => if decide (b = x00) then Some [] else cons b <$> c_str buf
  end.

Definition cstr_at (buf : list byte) (p : nat) : option (list byte) := c_str (drop p buf).

Definition strlen (buf : list byte) : outcome nat :=
  of_option Unterminated (length <$> c_str buf).

(** [strcpy] of a string content into an array: the NUL is copied too. *)
Definition strcpy (dst src : list byte) : outcome (list byte) :=
  store_at 0 (src ++ [x00]) dst.

(** [strcmp] of two string contents. *)
Fixpoint strcmp (a b : list byte) : Z :=
  match a, b with
  | [], [] => 0
  | [], y :: _ => - byte_to_Z y
  | x :: _, [] => byte_to_Z x
  | x :: a, y :: b => if decide (x = y) then strcmp a b else byte_to_Z x - byte_to_Z y
  end.

(** [strncmp]: either argument may be an array (its NUL is in the list) or a
    content (its NUL is the end of the list). *)
Fixpoint strncmp (n : nat) (a b : list byte) : Z :=
  match n with
  | O => 0
  | S n =>
      let ca := default x00 (head a) in
      let cb := default x00 (head b) in
      if decide (ca = cb)
      then if decide (ca = x00) then 0 else strncmp n (tail a) (tail b)
      else byte_to_Z ca - byte_to_Z cb
  end.

(** [strchr(buf + p, c)]: the offset of the first [c], if it comes before the
    NUL that ends the string. *)
Fixpoint strchr_go (c : byte) (l : list byte) (i : nat) : outcome (option nat) :=
  match l with
  | [] => Fault Unterminated
  | b :: l =>
      if decide (b = c) then Ok (Some i)
      else if decide (b = x00) then Ok None
      else strchr_go c l (S i)
  end.

Definition strchr (buf : list byte) (p : nat) (c : byte) : outcome (option nat) :=
  strchr_go c (drop p buf) p.

(** [sprintf(dst, "%-32s: %s\n", name, desc)]: the characters it prints. *)
Definition pad32 (s : list byte) : list byte := s ++ replicate (32 - length s) x20.
Definition sprintf_entry (name desc : list byte) : list byte :=
  pad32 name ++ bs ": " ++ desc ++ [x0a].

(** An array of [n] characters initialised with a string. *)
Definition char_array (n : nat) (s : list byte) : list byte := s ++ replicate (n - length s) x00.

(** ** Lemmas *)

Lemma c_str_app s r : no_nul s -> c_str (s ++ x00 :: r) = Some s.
Proof.
  unfold no_nul. induction s as [|b s IH]; intros Hs; simpl; [done|].
  rewrite not_elem_of_cons in Hs. destruct Hs as [Hb Hs].
  rewrite decide_False by done. by rewrite IH.
Qed.

Lemma c_str_inv buf s : c_str buf = Some s -> no_nul s /\ exists r, buf = s ++ x00 :: r.
Proof.
  unfold no_nul. revert s; induction buf as [|b buf IH]; intros s Hs; simpl in Hs; [done|].
  case_decide as Hb; simplify_eq.
  - split; [apply not_elem_of_nil|by exists buf].
  - apply fmap_Some in Hs as (s' & Hs' & ->).
    destruct (IH _ Hs') as [Hn [r ->]].
    split; [by apply not_elem_of_cons|by exists r].
Qed.

Lemma c_str_length buf s : c_str buf = Some s -> (length s < length buf)%nat.
Proof. intros [_ [r ->]]%c_str_inv. rewrite length_app. simpl. lia. Qed.

Lemma strcpy_c_str dst src dst' :
  strcpy dst src = Ok dst' -> no_nul src ->
  c_str dst' = Some src /\ length dst' = length dst.
Proof.
  unfold strcpy. rewrite store_at_Ok. intros [Hlen ->] Hs. split.
  - unfold splice. rewrite take_0. simpl. rewrite <- app_assoc. by apply c_str_app.
  - by apply length_splice.
Qed.

Lemma strcpy_fits dst src :
  (length src < length dst)%nat ->
  strcpy dst src = Ok (src ++ x00 :: drop (S (length src)) dst).
Proof.
  intros. unfold strcpy. apply store_at_Ok. rewrite length_app. simpl. split; [lia|].
  unfold splice. rewrite take_0, length_app, <- (assoc_L _). simpl.
  do 3 f_equal. lia.
Qed.

(** Copying a string into an array with room for it. *)
Lemma strcpy_context_ok (dst s : list byte) :
  no_nul s -> (length s < length dst)%nat ->
  exists d, strcpy dst s = Ok d /\ length d = length dst /\ c_str d = Some s.
Proof.
  intros Hs Hl. eexists. split; [by apply strcpy_fits|]. split; [|by apply c_str_app].
  rewrite length_app. simpl. rewrite length_drop. lia.
Qed.

Lemma strcmp_refl a : strcmp a a = 0.
Proof. induction a; simpl; [done|]. by rewrite decide_True. Qed.

Lemma byte_to_Z_inj a b : byte_to_Z a = byte_to_Z b -> a = b.
Proof. intros H. rewrite <- (byte_of_to_Z a), <- (byte_of_to_Z b). by rewrite H. Qed.

Lemma byte_to_Z_nonzero b : b <> x00 -> byte_to_Z b <> 0.
Proof. intros Hb H. apply Hb, byte_to_Z_inj. by rewrite H. Qed.

Lemma strcmp_eq a b : no_nul a -> no_nul b -> strcmp a b = 0 <-> a = b.
Proof.
  unfold no_nul. intros Ha Hb. split; [|intros ->; apply strcmp_refl].
  revert b Hb; induction a as [|x a IH]; intros [|y b] Hb; simpl; intros H; [done| | |].
  - apply not_elem_of_cons in Hb as [Hy _]. destruct (byte_to_Z_nonzero y); [done|lia].
  - apply not_elem_of_cons in Ha as [Hx _]. by destruct (byte_to_Z_nonzero x).
  - apply not_elem_of_cons in Ha as [Hx Ha], Hb as [Hy Hb]. case_decide as Hxy.
    + subst. f_equal. by apply IH.
    + destruct Hxy. apply byte_to_Z_inj. lia.
Qed.

(** Comparing a NUL-terminated array shorter than [n] with a string. *)
Lemma strncmp_eq n s r t :
  no_nul s -> no_nul t -> (length s < n)%nat ->
  strncmp n (s ++ x00 :: r) t = 0 <-> s = t.
Proof.
  unfold no_nul. revert n t; induction s as [|x s IH]; intros n t Hs Ht Hn.
  - destruct n as [|n]; simpl in *; [lia|].
    destruct t as [|y t]; simpl; [done|].
    apply not_elem_of_cons in Ht as [Hy _].
    rewrite decide_False by done. split; [|done].
    intros H. destruct (byte_to_Z_nonzero y); [done|]. unfold byte_to_Z in *. simpl in H. lia.
  - apply not_elem_of_cons in Hs as [Hx Hs].
    destruct n as [|n]; simpl in *; [lia|].
    destruct t as [|y t]; simpl.
    + rewrite decide_False by done. split; [|done].
      intros H. destruct (byte_to_Z_nonzero x); [done|]. unfold byte_to_Z in *. simpl in H. lia.
    + apply not_elem_of_cons in Ht as [Hy Ht]. case_decide as Hxy.
      * subst. rewrite decide_False by done. rewrite IH by (done || lia). split; congruence.
      * split; [|congruence]. intros H. destruct Hxy. apply byte_to_Z_inj. lia.
Qed.

Lemma strchr_go_spec c l i s r :
  c <> x00 -> no_nul s -> l = s ++ x00 :: r ->
  (c ∉ s /\ strchr_go c l i = Ok None) \/
  (exists s1 s2, s = s1 ++ c :: s2 /\ c ∉ s1 /\ strchr_go c l i = Ok (Some (i + length s1)%nat)).
Proof.
  intros Hc. revert i l; induction s as [|b s IH]; intros i l Hs ->; simpl.
  - left. split; [apply not_elem_of_nil|]. by rewrite decide_False by congruence.
  - apply not_elem_of_cons in Hs as [Hb Hs]. case_decide as Hbc.
    + right. exists [], s. subst. rewrite Nat.add_0_r. split_and!; [done|apply not_elem_of_nil|done].
    + rewrite decide_False by congruence.
      destruct (IH (S i) _ Hs eq_refl) as [[Hn ->]|(s1 & s2 & -> & Hn & ->)].
      * left. split; [|done]. apply not_elem_of_cons; split; congruence.
      * right. exists (b :: s1), s2. split_and!; [done| |do 2 f_equal; simpl; lia].
        apply not_elem_of_cons; split; congruence.
Qed.

#[export] Hint Resolve c_str_app strcmp_refl : lwnbd.
