(* ===== verification/Scan.v ===== *)
(** * Scanning text: [sscanf], [atoi]

    The conversions of the C library the examples use to read their
    configuration and arguments, over string contents; what they do to printed
    words and numbers. *)

From S2P Require Export CString.

(** ** The conversions *)

Definition isspace (b : byte) : bool :=
  bool_decide (b = x20) || ((9 <=? byte_to_Z b) && (byte_to_Z b <=? 13)).
Definition isdigit (b : byte) : bool := (48 <=? byte_to_Z b) && (byte_to_Z b <=? 57).

Fixpoint skip_spaces (s : list byte) : list byte :=
  match s with
  | b :: s' => if isspace b then skip_spaces s' else s
  | [] => []
  end.

(** At most [n] characters that are not spaces, and what follows them. *)
Fixpoint span_word (n : nat) (s : list byte) : list byte * list byte :=
  match n, s with
  | S n, b :: s' => if isspace b then ([], s) else let '(w, r) := span_word n s' in (b :: w, r)
  | _, _ => ([], s)
  end.

(** The conversion [%ns]: fails at the end of the input. *)
Definition scan_word (n : nat) (s : list byte) : option (list byte * list byte) :=
  match span_word n (skip_spaces s) with
  | ([], _) => None
  | wr => Some wr
  end.

(** A literal of a format. *)
Fixpoint scan_literal (lit s : list byte) : option (list byte) :=
  match lit, s with
  | [], _ => Some s
  | a :: lit, b :: s => if decide (a = b) then scan_literal lit s else None
  | _, [] => None
  end.

Fixpoint digits_value (acc : Z) (s : list byte) : Z :=
  match s with
  | b :: s => if isdigit b then digits_value (10 * acc + (byte_to_Z b - 48)) s else acc
  | [] => acc
  end.

(** [(int)strtol(s, NULL, 10)] *)
Definition atoi (s : list byte) : Z :=
  let clamp z := Z.max (- 2 ^ 63) (Z.min (2 ^ 63 - 1) z) in
  let s := skip_spaces s in
  i32 (clamp (if decide (head s = Some x2d) then - digits_value 0 (tail s)
              else if decide (head s = Some x2b) then digits_value 0 (tail s)
              else digits_value 0 s)).

(** ** Words *)

Definition word (w : list byte) : Prop := w <> [] /\ Forall (fun b => isspace b = false /\ b <> x00) w.

#[export] Instance word_dec w : Decision (word w).
Proof. unfold word. apply _. Defined.

Definition begins_with_space (r : list byte) : Prop :=
  match r with [] => True | b :: _ => isspace b = true end.

Lemma span_word_word n w r :
  Forall (fun b => isspace b = false /\ b <> x00) w -> (length w <= n)%nat -> begins_with_space r ->
  span_word n (w ++ r) = (w, r).
Proof.
  intros Hw. revert n. induction Hw as [|b w [Hb _] _ IH]; intros n Hn Hr; cbn [app].
  - destruct n as [|n]; [done|]. destruct r as [|b r]; [done|]. cbn in *. by rewrite Hr.
  - destruct n as [|n]; [cbn in Hn; lia|]. cbn [span_word]. rewrite Hb.
    cbn in Hn. by rewrite IH by (done || lia).
Qed.

Lemma skip_spaces_spaces pre r :
  Forall (fun b => isspace b = true) pre -> skip_spaces (pre ++ r) = skip_spaces r.
Proof. induction 1 as [|b pre Hb _ IH]; cbn; [done|]. by rewrite Hb. Qed.

Lemma skip_spaces_word w r : word w -> skip_spaces (w ++ r) = w ++ r.
Proof. intros [Hne Hw]. destruct Hw as [|b w [Hb _] _]; [done|]. cbn. by rewrite Hb. Qed.

Lemma scan_word_word n pre w r :
  Forall (fun b => isspace b = true) pre -> word w -> (length w <= n)%nat -> begins_with_space r ->
  scan_word n (pre ++ w ++ r) = Some (w, r).
Proof.
  intros Hpre Hw Hn Hr. unfold scan_word. rewrite skip_spaces_spaces, skip_spaces_word by done.
  destruct Hw as [Hne Hw]. rewrite span_word_word by done. by destruct w.
Qed.

Lemma word_no_nul w : word w -> no_nul w.
Proof. intros [_ Hw] [i Hi]%list_elem_of_lookup_1. by apply (Forall_lookup_1 _ _ _ _ Hw) in Hi as []. Qed.

Lemma word_no_newline w : word w -> x0a ∉ w.
Proof. intros [_ Hw] [i Hi]%list_elem_of_lookup_1. by apply (Forall_lookup_1 _ _ _ _ Hw) in Hi as []. Qed.

Lemma word_last w : word w -> exists b, list.last w = Some b /\ isspace b = false.
Proof.
  intros [Hne Hw]. destruct w as [|b w _] using rev_ind; [done|]. exists b. rewrite last_snoc.
  apply Forall_app in Hw as [_ Hb]. inversion_clear Hb as [|? ? [? _] _]. done.
Qed.

(** ** Numbers *)

Definition digit (z : Z) : byte := byte_of_Z (48 + z).

(** [z] in decimal, for [z < 10 ^ fuel]. *)
Fixpoint dec (fuel : nat) (z : Z) : list byte :=
  match fuel with
  | O => []
  | S fuel => if z <? 10 then [digit z] else dec fuel (z / 10) ++ [digit (z mod 10)]
  end.

Definition decimal (z : Z) : list byte := dec 10 z.

Lemma digit_value z : 0 <= z < 10 -> byte_to_Z (digit z) = 48 + z.
Proof. intros. unfold digit. rewrite byte_to_of_Z, Z.mod_small by lia. done. Qed.

Lemma digit_isdigit z : 0 <= z < 10 -> isdigit (digit z) = true.
Proof.
  intros. unfold isdigit. rewrite digit_value by lia. apply andb_true_iff. split; apply Z.leb_le; lia.
Qed.

Lemma digit_not_space b : isdigit b = true -> isspace b = false /\ b <> x00.
Proof.
  unfold isdigit, isspace. intros [H1%Z.leb_le H2%Z.leb_le]%andb_true_iff.
  rewrite (proj2 (Z.leb_gt (byte_to_Z b) 13)) by lia. rewrite andb_false_r, orb_false_r.
  split; [apply bool_decide_eq_false_2|]; intros ->; vm_compute in H1; by destruct H1.
Qed.

Lemma digits_value_snoc acc s d :
  Forall (fun b => isdigit b = true) s -> isdigit d = true ->
  digits_value acc (s ++ [d]) = 10 * digits_value acc s + (byte_to_Z d - 48).
Proof.
  intros Hs Hd. revert acc. induction Hs as [|b s Hb _ IH]; intros acc; cbn [app digits_value].
  - by rewrite Hd.
  - rewrite Hb. apply IH.
Qed.

Lemma dec_spec fuel z :
  0 <= z < 10 ^ Z.of_nat fuel -> (0 < fuel)%nat ->
  Forall (fun b => isdigit b = true) (dec fuel z) /\ dec fuel z <> [] /\
  (length (dec fuel z) <= fuel)%nat /\ digits_value 0 (dec fuel z) = z.
Proof.
  revert z; induction fuel as [|fuel IH]; intros z Hz Hf; [lia|]. cbn [dec].
  case (Z.ltb_spec z 10) as [Hlt|Hge].
  - split_and!; [apply Forall_singleton, digit_isdigit; lia|done|cbn; lia|].
    cbn [digits_value]. rewrite digit_isdigit, digit_value by lia. lia.
  - rewrite Nat2Z.inj_succ, Z.pow_succ_r in Hz by lia.
    assert (0 <= z / 10 < 10 ^ Z.of_nat fuel) as Hq.
    { split; [by apply Z.div_pos; lia|by apply Z.div_lt_upper_bound; lia]. }
    assert (0 < fuel)%nat as Hf' by (destruct fuel; [cbn in Hq; pose proof (Z.div_le_mono 10 z 10); lia|lia]).
    destruct (IH (z / 10) Hq Hf') as (H1 & H2 & H3 & H4).
    pose proof (Z.mod_pos_bound z 10 ltac:(lia)) as Hm.
    split_and!.
    + apply Forall_app. split; [done|]. apply Forall_singleton, digit_isdigit; lia.
    + by intros [_ [=]]%app_eq_nil.
    + rewrite length_app. cbn. lia.
    + rewrite digits_value_snoc, H4, digit_value by (done || lia || by apply digit_isdigit).
      pose proof (Z.div_mod z 10). lia.
Qed.

Lemma decimal_word z : 0 <= z < 2 ^ 31 ->
  word (decimal z) /\ (length (decimal z) <= 10)%nat /\ digits_value 0 (decimal z) = z.
Proof.
  intros Hz. destruct (dec_spec 10 z) as (H1 & H2 & H3 & H4); [lia|lia|].
  split_and!; [|done|done]. split; [done|]. eapply Forall_impl; [apply digit_not_space|exact H1].
Qed.

Lemma atoi_decimal z : 0 <= z < 2 ^ 31 -> atoi (decimal z) = z.
Proof.
  intros Hz. destruct (decimal_word z Hz) as (Hw & _ & Hv).
  destruct (dec_spec 10 z) as (H1 & _); [lia|lia|]. fold (decimal z) in H1.
  unfold atoi. rewrite <- (app_nil_r (decimal z)), skip_spaces_word, app_nil_r by done.
  destruct Hw as [Hne _]. destruct (decimal z) as [|b s]; [done|].
  inversion_clear H1 as [|? ? Hb _]. cbn [head].
  rewrite !decide_False by (intros [= ->]; done).
  rewrite Hv, Z.min_r, Z.max_r by lia. apply swrap_small; lia.
Qed.
