(* ===== verification/NbdProtocol.v ===== *)
(** * The NBD wire protocol: [include/lwnbd/nbd-protocol.h]

    The constants of the protocol and the packed structures the server
    exchanges.  A structure is the record of its raw fields, the integers a
    little-endian host reads from memory; [_to_mem] and [_of_mem] are its memory
    image.  Byte-order conversions are the separate [ntohl]/[be64toh] steps the
    server performs, so the network format of a message is a theorem. *)

From S2P Require Export Prelude.

(** ** Constants *)

Definition NBD_MAGIC := 0x4e42444d41474943.
Definition NBD_NEW_VERSION := 0x49484156454F5054.
Definition NBD_REP_MAGIC := 0x3e889045565a9.
Definition NBD_REQUEST_MAGIC := 0x25609513.
Definition NBD_SIMPLE_REPLY_MAGIC := 0x67446698.

Definition NBD_FLAG_FIXED_NEWSTYLE := Z.shiftl 1 0.
Definition NBD_FLAG_NO_ZEROES := Z.shiftl 1 1.

Definition NBD_FLAG_HAS_FLAGS := Z.shiftl 1 0.
Definition NBD_FLAG_READ_ONLY := Z.shiftl 1 1.
Definition NBD_FLAG_SEND_FLUSH := Z.shiftl 1 2.

Definition NBD_OPT_EXPORT_NAME := 1.
Definition NBD_OPT_ABORT := 2.
Definition NBD_OPT_LIST := 3.
Definition NBD_OPT_STARTTLS := 5.
Definition NBD_OPT_INFO := 6.
Definition NBD_OPT_GO := 7.
Definition NBD_OPT_STRUCTURED_REPLY := 8.
Definition NBD_OPT_LIST_META_CONTEXT := 9.
Definition NBD_OPT_SET_META_CONTEXT := 10.

Definition NBD_REP_ERR (val : Z) := Z.lor 0x80000000 val.
Definition NBD_REP_ACK := 1.
Definition NBD_REP_SERVER := 2.
Definition NBD_REP_ERR_UNSUP := NBD_REP_ERR 1.

Definition NBD_CMD_READ := 0.
Definition NBD_CMD_WRITE := 1.
Definition NBD_CMD_DISC := 2.
Definition NBD_CMD_FLUSH := 3.
Definition NBD_CMD_TRIM := 4.
Definition NBD_CMD_CACHE := 5.
Definition NBD_CMD_WRITE_ZEROES := 6.
Definition NBD_CMD_BLOCK_STATUS := 7.

Definition NBD_SUCCESS := 0.
Definition NBD_EPERM := 1.
Definition NBD_EIO := 5.
Definition NBD_EINVAL := 22.
Definition NBD_ENOSPC := 28.
Definition NBD_EOVERFLOW := 75.

(** ** Fields of a memory image *)

Definition get_le (n : nat) (m : list byte) : Z * list byte := (le_combine (take n m), drop n m).

Lemma get_le_split n z m : get_le n (le_split n z ++ m) = (z mod 256 ^ Z.of_nat n, m).
Proof.
  unfold get_le. rewrite take_app_length', drop_app_length' by (by rewrite length_le_split).
  by rewrite le_combine_split.
Qed.

Lemma get_le_be n z m : get_le n (be_split n z ++ m) = (bswap n z, m).
Proof.
  unfold get_le. by rewrite take_app_length', drop_app_length' by (by rewrite length_be_split).
Qed.

Lemma get_le_image n m x m' :
  (n <= length m)%nat -> get_le n m = (x, m') -> m = le_split n x ++ m'.
Proof.
  unfold get_le. intros Hn [= <- <-].
  rewrite le_split_combine by (rewrite length_take; lia). by rewrite take_drop.
Qed.

Lemma get_le_range n m x m' :
  (n <= length m)%nat -> get_le n m = (x, m') ->
  0 <= x < 256 ^ Z.of_nat n /\ length m' = (length m - n)%nat.
Proof.
  unfold get_le. intros Hn [= <- <-]. rewrite length_drop. split; [|done].
  pose proof (le_combine_range (take n m)) as H. rewrite length_take, Nat.min_l in H by lia. done.
Qed.

Lemma get_le_eq n m : get_le n m = (le_combine (take n m), drop n m).
Proof. done. Qed.

Opaque get_le.

(** Reads the fields of a concrete memory image one after the other. *)
Ltac parse_fields :=
  repeat (rewrite <- ?app_assoc, ?get_le_split, ?get_le_be; cbv beta iota zeta).

(** ** [struct nbd_request] (client to server) *)

Record nbd_request := mk_request {
  rq_magic : Z; rq_flags : Z; rq_type : Z; rq_handle : Z; rq_offset : Z; rq_count : Z }.

Definition sizeof_nbd_request : nat := 28.

Definition request_to_mem (r : nbd_request) : list byte :=
  le_split 4 (rq_magic r) ++ le_split 2 (rq_flags r) ++ le_split 2 (rq_type r) ++
  le_split 8 (rq_handle r) ++ le_split 8 (rq_offset r) ++ le_split 4 (rq_count r).

Definition request_of_mem (m : list byte) : nbd_request :=
  let '(magic, m) := get_le 4 m in
  let '(flags, m) := get_le 2 m in
  let '(type, m) := get_le 2 m in
  let '(handle, m) := get_le 8 m in
  let '(offset, m) := get_le 8 m in
  let '(count, _) := get_le 4 m in
  mk_request magic flags type handle offset count.

(** What a client sends for a request: fields in network order, the cookie
    ([handle]) as eight bytes the server does not interpret. *)
Definition wire_request (r : nbd_request) : list byte :=
  be_split 4 (rq_magic r) ++ be_split 2 (rq_flags r) ++ be_split 2 (rq_type r) ++
  le_split 8 (rq_handle r) ++ be_split 8 (rq_offset r) ++ be_split 4 (rq_count r).

Definition request_ok (r : nbd_request) : Prop :=
  0 <= rq_magic r < 2 ^ 32 /\ 0 <= rq_flags r < 2 ^ 16 /\ 0 <= rq_type r < 2 ^ 16 /\
  0 <= rq_handle r < 2 ^ 64 /\ 0 <= rq_offset r < 2 ^ 64 /\ 0 <= rq_count r < 2 ^ 32.

#[export] Instance request_ok_dec r : Decision (request_ok r).
Proof. unfold request_ok; apply _. Defined.

Lemma length_request_to_mem r : length (request_to_mem r) = sizeof_nbd_request.
Proof. unfold request_to_mem. by rewrite !length_app, !length_le_split. Qed.

Lemma length_wire_request r : length (wire_request r) = sizeof_nbd_request.
Proof. unfold wire_request. by rewrite !length_app, !length_be_split, length_le_split. Qed.

Lemma request_of_to_mem r : request_ok r -> request_of_mem (request_to_mem r) = r.
Proof.
  destruct r as [mg fl ty h off cnt]; unfold request_ok; simpl; intros H.
  unfold request_of_mem, request_to_mem; simpl rq_magic; simpl rq_flags; simpl rq_type;
    simpl rq_handle; simpl rq_offset; simpl rq_count.
  rewrite <- (app_nil_r (le_split 4 cnt)). parse_fields.
  f_equal; apply Z.mod_small; simpl Z.of_nat; lia.
Qed.

Lemma request_to_of_mem m : length m = sizeof_nbd_request -> request_to_mem (request_of_mem m) = m.
Proof.
  unfold sizeof_nbd_request, request_of_mem, request_to_mem. intros Hm.
  destruct (get_le 4 m) as [x1 m1] eqn:E1. destruct (get_le 2 m1) as [x2 m2] eqn:E2.
  destruct (get_le 2 m2) as [x3 m3] eqn:E3. destruct (get_le 8 m3) as [x4 m4] eqn:E4.
  destruct (get_le 8 m4) as [x5 m5] eqn:E5. destruct (get_le 4 m5) as [x6 m6] eqn:E6.
  assert (forall n a x b, get_le n a = (x, b) -> (n <= length a)%nat ->
    a = le_split n x ++ b /\ length b = (length a - n)%nat) as Hstep.
  { intros n a x b E Hn. split; [by eapply get_le_image|]. by eapply get_le_range. }
  apply Hstep in E1 as [-> H1]; [|lia]. apply Hstep in E2 as [-> H2]; [|lia].
  apply Hstep in E3 as [-> H3]; [|lia]. apply Hstep in E4 as [-> H4]; [|lia].
  apply Hstep in E5 as [-> H5]; [|lia]. apply Hstep in E6 as [-> H6]; [|lia].
  rewrite !length_app, !length_le_split in *.
  destruct m6 as [|? ?]; [|simpl in *; lia]. by rewrite app_nil_r.
Qed.

Lemma request_of_wire r :
  request_of_mem (wire_request r)
  = mk_request (bswap 4 (rq_magic r)) (bswap 2 (rq_flags r)) (bswap 2 (rq_type r))
      (rq_handle r mod 2 ^ 64) (bswap 8 (rq_offset r)) (bswap 4 (rq_count r)).
Proof.
  unfold request_of_mem, wire_request. rewrite <- (app_nil_r (be_split 4 (rq_count r))).
  by parse_fields.
Qed.

(** ** [struct nbd_simple_reply] (server to client) *)

Record nbd_simple_reply := mk_reply { rp_magic : Z; rp_error : Z; rp_handle : Z }.

Definition sizeof_nbd_simple_reply : nat := 16.

Definition reply_to_mem (r : nbd_simple_reply) : list byte :=
  le_split 4 (rp_magic r) ++ le_split 4 (rp_error r) ++ le_split 8 (rp_handle r).

(** The reply a client expects: magic and error in network order, its own
    cookie back. *)
Definition wire_reply (error handle : Z) : list byte :=
  be_split 4 NBD_SIMPLE_REPLY_MAGIC ++ be_split 4 error ++ le_split 8 handle.

Lemma length_reply_to_mem r : length (reply_to_mem r) = sizeof_nbd_simple_reply.
Proof. unfold reply_to_mem. by rewrite !length_app, !length_le_split. Qed.

Lemma length_wire_reply e h : length (wire_reply e h) = sizeof_nbd_simple_reply.
Proof. unfold wire_reply. by rewrite !length_app, !length_be_split, length_le_split. Qed.

Lemma reply_network error handle :
  reply_to_mem (mk_reply (htonl NBD_SIMPLE_REPLY_MAGIC) (ntohl error) handle)
  = wire_reply error handle.
Proof. unfold reply_to_mem, wire_reply. simpl rp_magic. simpl rp_error. by rewrite !le_split_bswap. Qed.

(** ** Handshake structures *)

Record nbd_new_handshake := mk_new_handshake { hs_nbdmagic : Z; hs_version : Z; hs_gflags : Z }.
Definition sizeof_nbd_new_handshake : nat := 18.
Definition new_handshake_to_mem (h : nbd_new_handshake) : list byte :=
  le_split 8 (hs_nbdmagic h) ++ le_split 8 (hs_version h) ++ le_split 2 (hs_gflags h).

Record nbd_new_option := mk_new_option { op_version : Z; op_option : Z; op_optlen : Z }.
Definition sizeof_nbd_new_option : nat := 16.
Definition new_option_of_mem (m : list byte) : nbd_new_option :=
  let '(version, m) := get_le 8 m in
  let '(option, m) := get_le 4 m in
  let '(optlen, _) := get_le 4 m in
  mk_new_option version option optlen.
Definition new_option_to_mem (o : nbd_new_option) : list byte :=
  le_split 8 (op_version o) ++ le_split 4 (op_option o) ++ le_split 4 (op_optlen o).

(** What a client sends to open an option: version magic, option, data length. *)
Definition wire_option (option optlen : Z) : list byte :=
  be_split 8 NBD_NEW_VERSION ++ be_split 4 option ++ be_split 4 optlen.

Record nbd_export_name_option_reply := mk_export_reply {
  er_exportsize : Z; er_eflags : Z; er_zeroes : list byte }.
Definition sizeof_export_reply : nat := 134.
Definition offsetof_export_reply_zeroes : nat := 10.
Definition export_reply_to_mem (e : nbd_export_name_option_reply) : list byte :=
  le_split 8 (er_exportsize e) ++ le_split 2 (er_eflags e) ++ er_zeroes e.

Record nbd_fixed_new_option_reply := mk_option_reply {
  or_magic : Z; or_option : Z; or_reply : Z; or_replylen : Z }.
Definition sizeof_option_reply : nat := 20.
Definition option_reply_to_mem (o : nbd_fixed_new_option_reply) : list byte :=
  le_split 8 (or_magic o) ++ le_split 4 (or_option o) ++ le_split 4 (or_reply o) ++
  le_split 4 (or_replylen o).

(** An option reply as the client reads it. *)
Definition wire_option_reply (option reply replylen : Z) : list byte :=
  be_split 8 NBD_REP_MAGIC ++ be_split 4 option ++ be_split 4 reply ++ be_split 4 replylen.

Lemma length_new_option_to_mem o : length (new_option_to_mem o) = sizeof_nbd_new_option.
Proof. unfold new_option_to_mem. by rewrite !length_app, !length_le_split. Qed.

Lemma length_wire_option o l : length (wire_option o l) = sizeof_nbd_new_option.
Proof. unfold wire_option. by rewrite !length_app, !length_be_split. Qed.

Lemma length_option_reply_to_mem o : length (option_reply_to_mem o) = sizeof_option_reply.
Proof. unfold option_reply_to_mem. by rewrite !length_app, !length_le_split. Qed.

Lemma length_new_handshake_to_mem o : length (new_handshake_to_mem o) = sizeof_nbd_new_handshake.
Proof. unfold new_handshake_to_mem. by rewrite !length_app, !length_le_split. Qed.

Lemma new_option_of_wire o l :
  new_option_of_mem (wire_option o l)
  = mk_new_option (bswap 8 NBD_NEW_VERSION) (bswap 4 o) (bswap 4 l).
Proof.
  unfold new_option_of_mem, wire_option. rewrite <- (app_nil_r (be_split 4 l)).
  by parse_fields.
Qed.

#[export] Hint Rewrite length_request_to_mem length_wire_request length_reply_to_mem
  length_wire_reply length_new_option_to_mem length_wire_option
  length_option_reply_to_mem length_new_handshake_to_mem : lwnbd.
