(* ===== verification/NbdStructures.v ===== *)
(** * Packed structures: all of [include/lwnbd/nbd-protocol.h]

    The header declares the protocol's eighteen messages as packed structures
    and asks whoever reads or writes them to convert every field to network
    order.  A structure is its layout, the list of its fields; the memory image,
    the wire image and their inverses are computed from the layout, so each is
    proved right once.  These functions of a layout are the development's: the
    repository converts field by field where it uses a message.  A record with
    its layout is an instance of [Structure]; the images [NbdProtocol] writes
    out for the six messages the server exchanges are the computed ones.  The constants the server does not use are
    here too. *)

From S2P Require Export NbdProtocol.

(** ** Constants *)

Definition NBD_MAX_STRING := 4096.
Definition NBD_OLD_VERSION := 0x0000420281861253.

Definition NBD_FLAG_SEND_FUA := Z.shiftl 1 3.
Definition NBD_FLAG_ROTATIONAL := Z.shiftl 1 4.
Definition NBD_FLAG_SEND_TRIM := Z.shiftl 1 5.
Definition NBD_FLAG_SEND_WRITE_ZEROES := Z.shiftl 1 6.
Definition NBD_FLAG_SEND_DF := Z.shiftl 1 7.
Definition NBD_FLAG_CAN_MULTI_CONN := Z.shiftl 1 8.
Definition NBD_FLAG_SEND_CACHE := Z.shiftl 1 10.
Definition NBD_FLAG_SEND_FAST_ZERO := Z.shiftl 1 11.

Definition NBD_REP_IS_ERR (val : Z) : bool := negb (Z.land val 0x80000000 =? 0).
Definition NBD_REP_INFO := 3.
Definition NBD_REP_META_CONTEXT := 4.
Definition NBD_REP_ERR_POLICY := NBD_REP_ERR 2.
Definition NBD_REP_ERR_INVALID := NBD_REP_ERR 3.
Definition NBD_REP_ERR_PLATFORM := NBD_REP_ERR 4.
Definition NBD_REP_ERR_TLS_REQD := NBD_REP_ERR 5.
Definition NBD_REP_ERR_UNKNOWN := NBD_REP_ERR 6.
Definition NBD_REP_ERR_SHUTDOWN := NBD_REP_ERR 7.
Definition NBD_REP_ERR_BLOCK_SIZE_REQD := NBD_REP_ERR 8.
Definition NBD_REP_ERR_TOO_BIG := NBD_REP_ERR 9.

Definition NBD_INFO_EXPORT := 0.
Definition NBD_INFO_NAME := 1.
Definition NBD_INFO_DESCRIPTION := 2.
Definition NBD_INFO_BLOCK_SIZE := 3.

Definition NBD_STRUCTURED_REPLY_MAGIC := 0x668e33ef.
Definition NBD_REPLY_FLAG_DONE := Z.shiftl 1 0.
Definition NBD_REPLY_TYPE_ERR (val : Z) := Z.lor (Z.shiftl 1 15) val.
Definition NBD_REPLY_TYPE_IS_ERR (val : Z) : bool := negb (Z.land val (Z.shiftl 1 15) =? 0).
Definition NBD_REPLY_TYPE_NONE := 0.
Definition NBD_REPLY_TYPE_OFFSET_DATA := 1.
Definition NBD_REPLY_TYPE_OFFSET_HOLE := 2.
Definition NBD_REPLY_TYPE_BLOCK_STATUS := 5.
Definition NBD_REPLY_TYPE_ERROR := NBD_REPLY_TYPE_ERR 1.
Definition NBD_REPLY_TYPE_ERROR_OFFSET := NBD_REPLY_TYPE_ERR 2.

Definition NBD_CMD_FLAG_FUA := Z.shiftl 1 0.
Definition NBD_CMD_FLAG_NO_HOLE := Z.shiftl 1 1.
Definition NBD_CMD_FLAG_DF := Z.shiftl 1 2.
Definition NBD_CMD_FLAG_REQ_ONE := Z.shiftl 1 3.
Definition NBD_CMD_FLAG_FAST_ZERO := Z.shiftl 1 4.

Definition NBD_ENOMEM := 12.
Definition NBD_ENOTSUP := 95.
Definition NBD_ESHUTDOWN := 108.

(** ** Layouts *)

(** An integer field, an integer the server hands back as it came, a [char]
    array; each with its size in bytes. *)
Inductive field := FUint (n : nat) | FOpaque (n : nat) | FChars (n : nat).

Definition field_size (f : field) : nat :=
  match f with FUint n | FOpaque n | FChars n => n end.

Definition field_value (f : field) : Type :=
  match f with FUint _ | FOpaque _ => Z | FChars _ => list byte end.

Definition field_ok (f : field) : field_value f -> Prop :=
  match f with
  | FUint n | FOpaque n => fun z => 0 <= z < 256 ^ Z.of_nat n
  | FChars n => fun d => length d = n
  end.

(** The bytes of a field in the memory of a little-endian host, and back. *)
Definition put_field (f : field) : field_value f -> list byte :=
  match f with FUint n | FOpaque n => le_split n | FChars _ => fun d => d end.

Definition get_field (f : field) (d : list byte) : field_value f :=
  match f with FUint _ | FOpaque _ => le_combine d | FChars _ => d end.

(** The conversion between host and network order, and the bytes sent. *)
Definition swap_field (f : field) : field_value f -> field_value f :=
  match f with FUint n => bswap n | FOpaque _ => fun z => z | FChars _ => fun d => d end.

Definition wire_field (f : field) : field_value f -> list byte :=
  match f with FUint n => be_split n | FOpaque n => le_split n | FChars _ => fun d => d end.

(** A structure's fields in order, with their names. *)
Definition layout : Type := list (list byte * field).

Fixpoint values (l : layout) : Type :=
  match l with [] => unit | (_, f) :: l => field_value f * values l end.

Fixpoint sizeof (l : layout) : nat :=
  match l with [] => O | (_, f) :: l => (field_size f + sizeof l)%nat end.

(** [offsetof] and the field found there. *)
Fixpoint offsetof (name : list byte) (l : layout) : option (nat * field) :=
  match l with
  | [] => None
  | (n, f) :: l =>
      if decide (n = name) then Some (O, f)
      else '(off, g) ← offsetof name l; Some ((field_size f + off)%nat, g)
  end.

Fixpoint values_ok (l : layout) : values l -> Prop :=
  match l with
  | [] => fun _ => True
  | (_, f) :: l => fun v => field_ok f v.1 /\ values_ok l v.2
  end.

Fixpoint image (l : layout) : values l -> list byte :=
  match l with [] => fun _ => [] | (_, f) :: l => fun v => put_field f v.1 ++ image l v.2 end.

Fixpoint swapped (l : layout) : values l -> values l :=
  match l with [] => fun v => v | (_, f) :: l => fun v => (swap_field f v.1, swapped l v.2) end.

Fixpoint wire (l : layout) : values l -> list byte :=
  match l with [] => fun _ => [] | (_, f) :: l => fun v => wire_field f v.1 ++ wire l v.2 end.

(** The structure at the beginning of a buffer and what follows it. *)
Fixpoint of_image (l : layout) (m : list byte) : option (values l * list byte) :=
  match l with
  | [] => Some (tt, m)
  | (_, f) :: l =>
      if decide (field_size f <= length m)%nat then
        '(v, rest) ← of_image l (drop (field_size f) m);
        Some ((get_field f (take (field_size f) m), v), rest)
      else None
  end.

Definition of_wire (l : layout) (m : list byte) : option (values l * list byte) :=
  '(v, rest) ← of_image l m; Some (swapped l v, rest).

(** The fields of a buffer that is long enough. *)
Fixpoint read_image (l : layout) (m : list byte) : values l :=
  match l with
  | [] => tt
  | (_, f) :: l => (get_field f (take (field_size f) m), read_image l (drop (field_size f) m))
  end.

(** The bytes of the field of a given name. *)
Fixpoint field_image (name : list byte) (l : layout) : values l -> option (list byte) :=
  match l with
  | [] => fun _ => None
  | (n, f) :: l => fun v => if decide (n = name) then Some (put_field f v.1) else field_image name l v.2
  end.

(** *** One field *)

Lemma length_put_field f v : field_ok f v -> length (put_field f v) = field_size f.
Proof. destruct f; cbn; [intros _; apply length_le_split..|done]. Qed.

Lemma get_put_field f v : field_ok f v -> get_field f (put_field f v) = v.
Proof. destruct f; cbn; [intros; rewrite le_combine_split; by apply Z.mod_small..|done]. Qed.

Lemma put_get_field f d : length d = field_size f -> put_field f (get_field f d) = d.
Proof. destruct f; cbn; [apply le_split_combine..|done]. Qed.

Lemma get_field_ok f d : length d = field_size f -> field_ok f (get_field f d).
Proof. destruct f; cbn; [intros <-; apply le_combine_range..|done]. Qed.

Lemma swap_field_ok f v : field_ok f v -> field_ok f (swap_field f v).
Proof. destruct f; cbn; [intros; apply bswap_range|done..]. Qed.

Lemma swap_swap_field f v : field_ok f v -> swap_field f (swap_field f v) = v.
Proof. destruct f; cbn; [intros; rewrite bswap_bswap; by apply Z.mod_small|done..]. Qed.

Lemma put_swap_field f v : put_field f (swap_field f v) = wire_field f v.
Proof. destruct f; cbn; [apply le_split_bswap|done..]. Qed.

(** *** One structure *)

Lemma length_image l v : values_ok l v -> length (image l v) = sizeof l.
Proof.
  induction l as [|[n f] l IH]; [done|]. cbn. intros [Hf Hl].
  by rewrite length_app, length_put_field, IH.
Qed.

Lemma of_image_image l v rest : values_ok l v -> of_image l (image l v ++ rest) = Some (v, rest).
Proof.
  induction l as [|[n f] l IH]; [by destruct v|]. destruct v as [x v]. cbn. intros [Hf Hl].
  pose proof (length_put_field f x Hf) as Hx. rewrite <- app_assoc.
  rewrite decide_True by (rewrite length_app; lia).
  rewrite drop_app_length', take_app_length' by done. rewrite IH by done. cbn.
  by rewrite get_put_field.
Qed.

Lemma image_of_image l m v rest :
  of_image l m = Some (v, rest) -> m = image l v ++ rest /\ values_ok l v.
Proof.
  revert m rest; induction l as [|[n f] l IH]; intros m rest.
  - intros [= _ <-]. done.
  - destruct v as [x v]. cbn. case_decide as Hl; [|done]. intros H.
    destruct (of_image l _) as [[v' r]|] eqn:E; [|done]. cbn in H. simplify_eq.
    apply IH in E as [E Hok]. cbn.
    assert (length (take (field_size f) m) = field_size f) as Ht by (rewrite length_take; lia).
    rewrite put_get_field, <- app_assoc, <- E, take_drop by done.
    split; [done|]. split; [by apply get_field_ok|done].
Qed.

Lemma of_image_short l m : of_image l m = None <-> (length m < sizeof l)%nat.
Proof.
  revert m; induction l as [|[n f] l IH]; intros m; cbn.
  { split; [done|lia]. }
  case_decide as Hl; [|split; [lia|done]].
  destruct (of_image l (drop (field_size f) m)) as [[v r]|] eqn:E; cbn.
  - split; [done|]. intros Hlt. assert (of_image l (drop (field_size f) m) = None) as E'; [|congruence].
    apply IH. rewrite length_drop. lia.
  - split; [intros _|done]. apply IH in E. rewrite length_drop in E. lia.
Qed.

Lemma of_image_long l m :
  (sizeof l <= length m)%nat -> of_image l m = Some (read_image l m, drop (sizeof l) m).
Proof.
  revert m; induction l as [|[n f] l IH]; intros m; cbn; intros Hl; [by rewrite drop_0|].
  rewrite decide_True by lia. rewrite IH by (rewrite length_drop; lia). cbn. by rewrite drop_drop.
Qed.

Lemma swapped_ok l v : values_ok l v -> values_ok l (swapped l v).
Proof. induction l as [|[n f] l IH]; [done|]. intros [Hf Hl]. split; [by apply swap_field_ok|by apply IH]. Qed.

Lemma swapped_swapped l v : values_ok l v -> swapped l (swapped l v) = v.
Proof.
  induction l as [|[n f] l IH]; [done|]. destruct v as [x v]. intros [Hf Hl]. cbn.
  f_equal; [by apply swap_swap_field|by apply IH].
Qed.

Lemma image_swapped l v : image l (swapped l v) = wire l v.
Proof. induction l as [|[n f] l IH]; [done|]. cbn. by rewrite put_swap_field, IH. Qed.

Lemma of_wire_wire l v rest : values_ok l v -> of_wire l (wire l v ++ rest) = Some (v, rest).
Proof.
  intros Hok. unfold of_wire. rewrite <- image_swapped, of_image_image by by apply swapped_ok.
  cbn. by rewrite swapped_swapped.
Qed.

(** A field lies in the image where [offsetof] says. *)
Lemma image_offsetof name l v off f :
  values_ok l v -> offsetof name l = Some (off, f) ->
  field_image name l v = Some (slice off (field_size f) (image l v)).
Proof.
  revert off; induction l as [|[n g] l IH]; intros off Hok Hoff; [done|].
  destruct v as [x v]. destruct Hok as [Hg Hok]. cbn in *.
  pose proof (length_put_field g x Hg) as Hx. case_decide as Hn.
  - simplify_eq. f_equal. unfold slice. rewrite drop_0. by rewrite take_app_length'.
  - destruct (offsetof name l) as [[o h]|] eqn:E; [|done]. cbn in Hoff. simplify_eq.
    rewrite (IH v o Hok eq_refl). f_equal. unfold slice.
    by rewrite <- drop_drop, drop_app_length' by done.
Qed.

(** ** Records with a layout *)

Class Structure (R : Type) := {
  st_layout : layout;
  st_fields : R -> values st_layout;
  st_make : values st_layout -> R;
  st_make_fields r : st_make (st_fields r) = r;
  st_fields_make v : st_fields (st_make v) = v
}.

Section structure.
Context {R : Type} `{Structure R}.
Implicit Types (r : R).

Definition struct_ok r : Prop := values_ok st_layout (st_fields r).
Definition struct_size : nat := sizeof st_layout.
Definition struct_image r : list byte := image st_layout (st_fields r).
Definition struct_wire r : list byte := wire st_layout (st_fields r).

Definition struct_of_image (m : list byte) : option (R * list byte) :=
  '(v, rest) ← of_image st_layout m; Some (st_make v, rest).

Lemma length_struct_image r : struct_ok r -> length (struct_image r) = struct_size.
Proof. apply length_image. Qed.

Lemma struct_of_image_image r rest :
  struct_ok r -> struct_of_image (struct_image r ++ rest) = Some (r, rest).
Proof.
  intros Hok. unfold struct_of_image, struct_image. rewrite of_image_image by done. cbn.
  by rewrite st_make_fields.
Qed.

Lemma struct_image_of_image m r rest :
  struct_of_image m = Some (r, rest) -> m = struct_image r ++ rest /\ struct_ok r.
Proof.
  unfold struct_of_image, struct_image, struct_ok. intros E.
  destruct (of_image st_layout m) as [[v x]|] eqn:E'; [|done]. cbn in E. simplify_eq.
  rewrite st_fields_make. by apply image_of_image.
Qed.

Lemma struct_of_image_exact m :
  length m = struct_size -> struct_of_image m = Some (st_make (read_image st_layout m), []).
Proof.
  unfold struct_size, struct_of_image. intros Hl. rewrite of_image_long by lia. cbn.
  by rewrite drop_ge by lia.
Qed.

End structure.

(** Fills an instance whose functions only take a record apart. *)
Ltac fields_make v := first [by destruct v as [] | destruct v as [? v]; fields_make v].
Ltac structure := first [by intros [] | intros v; fields_make v].

(** ** The structures of the header *)

(** Old-style handshake. *)
Record nbd_old_handshake := mk_old_handshake {
  oh_nbdmagic : Z; oh_version : Z; oh_exportsize : Z; oh_gflags : Z; oh_eflags : Z; oh_zeroes :
    list byte }.
#[export, refine] Instance nbd_old_handshake_structure :
  Structure nbd_old_handshake := {|
  st_layout := [(bs "nbdmagic", FUint 8); (bs "version", FUint 8); (bs "exportsize", FUint 8);
    (bs "gflags", FUint 2); (bs "eflags", FUint 2); (bs "zeroes", FChars 124)];
  st_fields r := (oh_nbdmagic r, (oh_version r, (oh_exportsize r, (oh_gflags r, (oh_eflags r,
    (oh_zeroes r, tt))))));
  st_make '(x0, (x1, (x2, (x3, (x4, (x5, _)))))) := mk_old_handshake x0 x1 x2 x3 x4 x5 |}.
Proof. all: structure. Defined.

(** The information replies; a name or a description follows the second. *)
Record nbd_fixed_new_option_reply_info_export := mk_info_export {
  ie_info : Z; ie_exportsize : Z; ie_eflags : Z }.
#[export, refine] Instance nbd_fixed_new_option_reply_info_export_structure :
  Structure nbd_fixed_new_option_reply_info_export := {|
  st_layout := [(bs "info", FUint 2); (bs "exportsize", FUint 8); (bs "eflags", FUint 2)];
  st_fields r := (ie_info r, (ie_exportsize r, (ie_eflags r, tt)));
  st_make '(x0, (x1, (x2, _))) := mk_info_export x0 x1 x2 |}.
Proof. all: structure. Defined.
Record nbd_fixed_new_option_reply_info_name_or_desc := mk_info_name_or_desc {
  in_info : Z }.
#[export, refine] Instance nbd_fixed_new_option_reply_info_name_or_desc_structure :
  Structure nbd_fixed_new_option_reply_info_name_or_desc := {|
  st_layout := [(bs "info", FUint 2)];
  st_fields r := (in_info r, tt);
  st_make '(x0, _) := mk_info_name_or_desc x0 |}.
Proof. all: structure. Defined.
Record nbd_fixed_new_option_reply_info_block_size := mk_info_block_size {
  ib_info : Z; ib_minimum : Z; ib_preferred : Z; ib_maximum : Z }.
#[export, refine] Instance nbd_fixed_new_option_reply_info_block_size_structure :
  Structure nbd_fixed_new_option_reply_info_block_size := {|
  st_layout := [(bs "info", FUint 2); (bs "minimum", FUint 4); (bs "preferred", FUint 4);
    (bs "maximum", FUint 4)];
  st_fields r := (ib_info r, (ib_minimum r, (ib_preferred r, (ib_maximum r, tt))));
  st_make '(x0, (x1, (x2, (x3, _)))) := mk_info_block_size x0 x1 x2 x3 |}.
Proof. all: structure. Defined.

(** The data of [NBD_REP_SERVER] and [NBD_REP_META_CONTEXT]; strings follow. *)
Record nbd_fixed_new_option_reply_server := mk_reply_server {
  rs_export_name_len : Z }.
#[export, refine] Instance nbd_fixed_new_option_reply_server_structure :
  Structure nbd_fixed_new_option_reply_server := {|
  st_layout := [(bs "export_name_len", FUint 4)];
  st_fields r := (rs_export_name_len r, tt);
  st_make '(x0, _) := mk_reply_server x0 |}.
Proof. all: structure. Defined.
Record nbd_fixed_new_option_reply_meta_context := mk_reply_meta_context {
  rm_context_id : Z }.
#[export, refine] Instance nbd_fixed_new_option_reply_meta_context_structure :
  Structure nbd_fixed_new_option_reply_meta_context := {|
  st_layout := [(bs "context_id", FUint 4)];
  st_fields r := (rm_context_id r, tt);
  st_make '(x0, _) := mk_reply_meta_context x0 |}.
Proof. all: structure. Defined.

(** Structured replies. *)
Record nbd_block_descriptor := mk_block_descriptor {
  bd_length : Z; bd_status_flags : Z }.
#[export, refine] Instance nbd_block_descriptor_structure :
  Structure nbd_block_descriptor := {|
  st_layout := [(bs "length", FUint 4); (bs "status_flags", FUint 4)];
  st_fields r := (bd_length r, (bd_status_flags r, tt));
  st_make '(x0, (x1, _)) := mk_block_descriptor x0 x1 |}.
Proof. all: structure. Defined.
Record nbd_structured_reply := mk_structured_reply {
  sr_magic : Z; sr_flags : Z; sr_type : Z; sr_handle : Z; sr_length : Z }.
#[export, refine] Instance nbd_structured_reply_structure :
  Structure nbd_structured_reply := {|
  st_layout := [(bs "magic", FUint 4); (bs "flags", FUint 2); (bs "type", FUint 2);
    (bs "handle", FOpaque 8); (bs "length", FUint 4)];
  st_fields r := (sr_magic r, (sr_flags r, (sr_type r, (sr_handle r, (sr_length r, tt)))));
  st_make '(x0, (x1, (x2, (x3, (x4, _))))) := mk_structured_reply x0 x1 x2 x3 x4 |}.
Proof. all: structure. Defined.
Record nbd_structured_reply_offset_data := mk_offset_data {
  od_offset : Z }.
#[export, refine] Instance nbd_structured_reply_offset_data_structure :
  Structure nbd_structured_reply_offset_data := {|
  st_layout := [(bs "offset", FUint 8)];
  st_fields r := (od_offset r, tt);
  st_make '(x0, _) := mk_offset_data x0 |}.
Proof. all: structure. Defined.
Record nbd_structured_reply_offset_hole := mk_offset_hole {
  oo_offset : Z; oo_length : Z }.
#[export, refine] Instance nbd_structured_reply_offset_hole_structure :
  Structure nbd_structured_reply_offset_hole := {|
  st_layout := [(bs "offset", FUint 8); (bs "length", FUint 4)];
  st_fields r := (oo_offset r, (oo_length r, tt));
  st_make '(x0, (x1, _)) := mk_offset_hole x0 x1 |}.
Proof. all: structure. Defined.
Record nbd_structured_reply_error := mk_reply_error {
  re_error : Z; re_len : Z }.
#[export, refine] Instance nbd_structured_reply_error_structure :
  Structure nbd_structured_reply_error := {|
  st_layout := [(bs "error", FUint 4); (bs "len", FUint 2)];
  st_fields r := (re_error r, (re_len r, tt));
  st_make '(x0, (x1, _)) := mk_reply_error x0 x1 |}.
Proof. all: structure. Defined.

(** The six messages of [NbdProtocol]. *)

#[export, refine] Instance nbd_new_handshake_structure :
  Structure nbd_new_handshake := {|
  st_layout := [(bs "nbdmagic", FUint 8); (bs "version", FUint 8); (bs "gflags", FUint 2)];
  st_fields r := (hs_nbdmagic r, (hs_version r, (hs_gflags r, tt)));
  st_make '(x0, (x1, (x2, _))) := mk_new_handshake x0 x1 x2 |}.
Proof. all: structure. Defined.
#[export, refine] Instance nbd_new_option_structure :
  Structure nbd_new_option := {|
  st_layout := [(bs "version", FUint 8); (bs "option", FUint 4); (bs "optlen", FUint 4)];
  st_fields r := (op_version r, (op_option r, (op_optlen r, tt)));
  st_make '(x0, (x1, (x2, _))) := mk_new_option x0 x1 x2 |}.
Proof. all: structure. Defined.
#[export, refine] Instance nbd_export_name_option_reply_structure :
  Structure nbd_export_name_option_reply := {|
  st_layout := [(bs "exportsize", FUint 8); (bs "eflags", FUint 2); (bs "zeroes", FChars 124)];
  st_fields r := (er_exportsize r, (er_eflags r, (er_zeroes r, tt)));
  st_make '(x0, (x1, (x2, _))) := mk_export_reply x0 x1 x2 |}.
Proof. all: structure. Defined.
#[export, refine] Instance nbd_fixed_new_option_reply_structure :
  Structure nbd_fixed_new_option_reply := {|
  st_layout := [(bs "magic", FUint 8); (bs "option", FUint 4); (bs "reply", FUint 4);
    (bs "replylen", FUint 4)];
  st_fields r := (or_magic r, (or_option r, (or_reply r, (or_replylen r, tt))));
  st_make '(x0, (x1, (x2, (x3, _)))) := mk_option_reply x0 x1 x2 x3 |}.
Proof. all: structure. Defined.
#[export, refine] Instance nbd_request_structure :
  Structure nbd_request := {|
  st_layout := [(bs "magic", FUint 4); (bs "flags", FUint 2); (bs "type", FUint 2);
    (bs "handle", FOpaque 8); (bs "offset", FUint 8); (bs "count", FUint 4)];
  st_fields r := (rq_magic r, (rq_flags r, (rq_type r, (rq_handle r, (rq_offset r, (rq_count r,
    tt))))));
  st_make '(x0, (x1, (x2, (x3, (x4, (x5, _)))))) := mk_request x0 x1 x2 x3 x4 x5 |}.
Proof. all: structure. Defined.
#[export, refine] Instance nbd_simple_reply_structure :
  Structure nbd_simple_reply := {|
  st_layout := [(bs "magic", FUint 4); (bs "error", FUint 4); (bs "handle", FOpaque 8)];
  st_fields r := (rp_magic r, (rp_error r, (rp_handle r, tt)));
  st_make '(x0, (x1, (x2, _))) := mk_reply x0 x1 x2 |}.
Proof. all: structure. Defined.

(** ** Agreement with the images of [NbdProtocol] *)

Ltac same_image :=
  intros; unfold struct_image, struct_wire; cbn -[le_split be_split]; by rewrite !app_nil_r.

Lemma request_images r : request_to_mem r = struct_image r /\ wire_request r = struct_wire r.
Proof. split; same_image. Qed.

Lemma request_read m :
  length m = sizeof_nbd_request -> struct_of_image m = Some (request_of_mem m, []).
Proof. intros. rewrite struct_of_image_exact by done. unfold request_of_mem. by rewrite !get_le_eq. Qed.

Lemma new_option_read m :
  length m = sizeof_nbd_new_option -> struct_of_image m = Some (new_option_of_mem m, []).
Proof. intros. rewrite struct_of_image_exact by done. unfold new_option_of_mem. by rewrite !get_le_eq. Qed.

(** The images the server's model writes out by hand are those computed from
    the layouts: memory images, the inverses the server reads with, the wire
    images of the messages, the sizes, and the offset at which an export reply
    is cut when the client renounced the zeroes. *)
Theorem protocol_images_agree :
  (forall r, request_to_mem r = struct_image r /\ wire_request r = struct_wire r) /\
  (forall m, length m = sizeof_nbd_request -> struct_of_image m = Some (request_of_mem m, [])) /\
  (forall m, length m = sizeof_nbd_new_option -> struct_of_image m = Some (new_option_of_mem m, [])) /\
  (forall r, reply_to_mem r = struct_image r) /\
  (forall e h, wire_reply e h = struct_wire (mk_reply NBD_SIMPLE_REPLY_MAGIC e h)) /\
  (forall h, new_handshake_to_mem h = struct_image h) /\
  (forall o, new_option_to_mem o = struct_image o) /\
  (forall o l, wire_option o l = struct_wire (mk_new_option NBD_NEW_VERSION o l)) /\
  (forall e, export_reply_to_mem e = struct_image e) /\
  (forall o, option_reply_to_mem o = struct_image o) /\
  (forall o r l, wire_option_reply o r l = struct_wire (mk_option_reply NBD_REP_MAGIC o r l)) /\
  offsetof (bs "zeroes") (st_layout (R := nbd_export_name_option_reply))
    = Some (offsetof_export_reply_zeroes, FChars 124) /\
  struct_size (R := nbd_request) = sizeof_nbd_request /\
  struct_size (R := nbd_simple_reply) = sizeof_nbd_simple_reply /\
  struct_size (R := nbd_new_handshake) = sizeof_nbd_new_handshake /\
  struct_size (R := nbd_new_option) = sizeof_nbd_new_option /\
  struct_size (R := nbd_export_name_option_reply) = sizeof_export_reply /\
  struct_size (R := nbd_fixed_new_option_reply) = sizeof_option_reply.
Proof.
  split; [apply request_images|]. split; [apply request_read|]. split; [apply new_option_read|].
  repeat (split; [first [reflexivity|same_image]|]). reflexivity.
Qed.

(** ** The numbers *)

(** Every error reply is recognised as one and no acknowledgement is, for
    options and for structured replies; the errors stay errors in the field's
    width. *)
Theorem reply_errors_recognised val :
  NBD_REP_IS_ERR (NBD_REP_ERR val) = true /\
  NBD_REPLY_TYPE_IS_ERR (NBD_REPLY_TYPE_ERR val) = true /\
  (0 <= val < 2 ^ 32 -> 0 <= NBD_REP_ERR val < 2 ^ 32) /\
  (0 <= val < 2 ^ 16 -> 0 <= NBD_REPLY_TYPE_ERR val < 2 ^ 16) /\
  Forall (fun r => NBD_REP_IS_ERR r = false)
    [NBD_REP_ACK; NBD_REP_SERVER; NBD_REP_INFO; NBD_REP_META_CONTEXT] /\
  Forall (fun r => NBD_REPLY_TYPE_IS_ERR r = false)
    [NBD_REPLY_TYPE_NONE; NBD_REPLY_TYPE_OFFSET_DATA; NBD_REPLY_TYPE_OFFSET_HOLE;
     NBD_REPLY_TYPE_BLOCK_STATUS].
Proof.
  assert (forall m b, 0 < m -> negb (Z.land (Z.lor m b) m =? 0) = true) as Herr.
  { intros m b Hm.
    destruct (Z.eqb_spec (Z.land (Z.lor m b) m) 0) as [E|E]; [|done].
    assert (Z.land (Z.lor m b) m = m) as E'.
    { apply Z.bits_inj'. intros n Hn. rewrite Z.land_spec, Z.lor_spec.
      by destruct (Z.testbit m n), (Z.testbit b n). }
    lia. }
  assert (forall n m b, 0 <= n -> 0 <= m < 2 ^ n -> 0 <= b < 2 ^ n -> 0 <= Z.lor m b < 2 ^ n) as Hrange.
  { intros n m b Hn Hm Hb. split; [apply Z.lor_nonneg; lia|].
    replace (Z.lor m b) with (Z.land (Z.lor m b) (Z.ones n)).
    - rewrite Z.land_ones by lia. apply Z.mod_pos_bound. lia.
    - by rewrite Z.land_lor_distr_l, !Z.land_ones, !Z.mod_small by lia. }
  split_and!.
  - by apply Herr.
  - by apply Herr.
  - intros. by apply (Hrange 32).
  - intros. by apply (Hrange 16).
  - repeat constructor.
  - repeat constructor.
Qed.

(** No two flags of an export share a bit, so the server's test of one does not
    depend on the others; they fit the [uint16_t] they are sent in. *)
Lemma export_flags_independent :
  let flags := [NBD_FLAG_HAS_FLAGS; NBD_FLAG_READ_ONLY; NBD_FLAG_SEND_FLUSH; NBD_FLAG_SEND_FUA;
    NBD_FLAG_ROTATIONAL; NBD_FLAG_SEND_TRIM; NBD_FLAG_SEND_WRITE_ZEROES; NBD_FLAG_SEND_DF;
    NBD_FLAG_CAN_MULTI_CONN; NBD_FLAG_SEND_CACHE; NBD_FLAG_SEND_FAST_ZERO] in
  foldr Z.lor 0 flags = foldr Z.add 0 flags /\ foldr Z.add 0 flags < 2 ^ 16.
Proof. cbv zeta. by_decide. Qed.
