(* ===== verification/Contexts.v ===== *)
(** * The context pool: [src/contexts.c]

    Contexts are the exports of the server.  They live in a static array with
    a status array beside it; a context pointer is an index into the array. *)

From S2P Require Export CString.

(** A [struct lwnbd_plugin_t *]: plugins are static structures, so a pointer to
    one is the number of the structure; [NULL] is [None]. *)
Abbreviation plugin_ptr := (option nat).

(** The opaque [void *handle] a plugin hands out: [NULL] or a slot of its own
    handle array. *)
Abbreviation handle_ptr := (option nat).

Definition MAX_CONTEXTS : nat := 50.

Inductive context_state_t := CONTEXT_FREE | CONTEXT_CREATED.

#[export] Instance context_state_eq_dec : EqDecision context_state_t.
Proof. solve_decision. Defined.

(** [LWNBD_CONTEXT_FIELDS] *)
Record lwnbd_context_t := mk_context {
  c_handle : handle_ptr;
  c_p : plugin_ptr;
  c_name : list byte;         (** [char name[32]] *)
  c_description : list byte;  (** [char description[64]] *)
  c_exportsize : Z            (** [int64_t] *)
}.

Definition set_c_handle h c := mk_context h (c_p c) (c_name c) (c_description c) (c_exportsize c).
Definition set_c_p p c := mk_context (c_handle c) p (c_name c) (c_description c) (c_exportsize c).
Definition set_c_name n c := mk_context (c_handle c) (c_p c) n (c_description c) (c_exportsize c).
Definition set_c_description d c := mk_context (c_handle c) (c_p c) (c_name c) d (c_exportsize c).
Definition set_c_exportsize s c := mk_context (c_handle c) (c_p c) (c_name c) (c_description c) s.

Definition zero_context : lwnbd_context_t :=
  mk_context None None (replicate 32 x00) (replicate 64 x00) 0.

Record context_pool := mk_pool {
  contexts : list lwnbd_context_t;
  contexts_status : list context_state_t }.

(** The static arrays before any call. *)
Definition initial_pool : context_pool :=
  mk_pool (replicate MAX_CONTEXTS zero_context) (replicate MAX_CONTEXTS CONTEXT_FREE).

Definition context_is_free (s : context_state_t) : bool :=
  match s with CONTEXT_FREE => true | CONTEXT_CREATED => false end.

(** ** Operations *)

Definition lwnbd_new_context (pl : context_pool) : option nat * context_pool :=
  let i := find_slot context_is_free (contexts_status pl) in
  if decide (i = MAX_CONTEXTS) then (None, pl)
  else (Some i, mk_pool (contexts pl) (<[i := CONTEXT_CREATED]> (contexts_status pl))).

Definition lwnbd_contexts_count (pl : context_pool) : nat :=
  find_slot context_is_free (contexts_status pl).

(** [&contexts[i]]; reading it is a separate access. *)
Definition lwnbd_get_context_i (i : nat) : nat := i.

Definition context_at (pl : context_pool) (i : nat) : outcome lwnbd_context_t :=
  of_option OutOfBounds (contexts pl !! i).

Definition update_context (i : nat) (c : lwnbd_context_t) (pl : context_pool) : context_pool :=
  mk_pool (<[i := c]> (contexts pl)) (contexts_status pl).

(** The search loop, whose index is a [uint8_t]. *)
Fixpoint get_context_string_loop (fuel : nat) (pl : context_pool) (contextname : list byte) (i : Z)
  : outcome (option nat) :=
  match fuel with
  | O => Fault OutOfFuel
  | S fuel =>
      if i <? Z.of_nat (lwnbd_contexts_count pl) then
        let ptr_ctx := lwnbd_get_context_i (Z.to_nat i) in
        c ← context_at pl ptr_ctx;
        if strncmp 32 (c_name c) contextname =? 0 then Ok (Some ptr_ctx)
        else get_context_string_loop fuel pl contextname (u8 (i + 1))
      else Ok None
  end.

Definition lwnbd_get_context_string (pl : context_pool) (contextname : list byte)
  : outcome (option nat) :=
  get_context_string_loop (S MAX_CONTEXTS) pl contextname 0.

(** [lwnbd_dump_contexts]: the characters written from [s] on and the value
    returned. *)
Fixpoint dump_contexts_loop (l : list (lwnbd_context_t * context_state_t)) : outcome (list byte) :=
  match l with
  | [] => Ok []
  | (c, st) :: l =>
      if context_is_free st then dump_contexts_loop l
      else
        n ← of_option Unterminated (c_str (c_name c));
        d ← of_option Unterminated (c_str (c_description c));
        rest ← dump_contexts_loop l;
        Ok (sprintf_entry n d ++ rest)
  end.

Definition lwnbd_dump_contexts (pl : context_pool) : outcome (list byte * Z) :=
  out ← dump_contexts_loop (zip (contexts pl) (contexts_status pl));
  Ok (out, Z.of_nat (length out) + 1).

(** ** Invariant *)

Definition context_ok (c : lwnbd_context_t) : Prop :=
  length (c_name c) = 32%nat /\ is_Some (c_str (c_name c)) /\
  length (c_description c) = 64%nat /\ is_Some (c_str (c_description c)).

(** Contexts are taken from the front and never given back. *)
Definition pool_ok (pl : context_pool) : Prop :=
  length (contexts pl) = MAX_CONTEXTS /\
  Forall context_ok (contexts pl) /\
  exists n, (n <= MAX_CONTEXTS)%nat /\
    contexts_status pl = slots CONTEXT_CREATED CONTEXT_FREE MAX_CONTEXTS n.

Lemma initial_pool_ok : pool_ok initial_pool.
Proof.
  split_and!; [done| |].
  - apply Forall_replicate. by split_and!; try eexists; vm_compute.
  - exists O. split; [lia|done].
Qed.

Lemma contexts_count_le pl : pool_ok pl -> (lwnbd_contexts_count pl <= MAX_CONTEXTS)%nat.
Proof.
  intros (_ & _ & n & Hn & Hs). unfold lwnbd_contexts_count. by rewrite Hs, find_slot_slots.
Qed.

Lemma context_at_ok pl i :
  pool_ok pl -> (i < MAX_CONTEXTS)%nat -> exists c, contexts pl !! i = Some c /\ context_ok c.
Proof.
  intros (Hl & Hf & _) Hi. rewrite <- Hl in Hi.
  apply lookup_lt_is_Some in Hi as [c Hc]. exists c. split; [done|].
  by eapply Forall_lookup_1.
Qed.

Lemma update_context_ok pl i c : pool_ok pl -> context_ok c -> pool_ok (update_context i c pl).
Proof.
  intros (Hl & Hf & Hn) Hc. split_and!; simpl; [by rewrite length_insert| |done].
  by apply Forall_insert.
Qed.

Lemma update_context_count pl i c :
  lwnbd_contexts_count (update_context i c pl) = lwnbd_contexts_count pl.
Proof. done. Qed.

Lemma new_context_spec pl :
  pool_ok pl ->
  let n := lwnbd_contexts_count pl in
  if decide (n = MAX_CONTEXTS) then lwnbd_new_context pl = (None, pl)
  else exists pl', lwnbd_new_context pl = (Some n, pl') /\ pool_ok pl' /\
       contexts pl' = contexts pl /\ lwnbd_contexts_count pl' = S n.
Proof.
  intros (Hl & Hf & n & Hn & Hs). unfold lwnbd_contexts_count, lwnbd_new_context.
  rewrite Hs, find_slot_slots by done. case_decide as Hd; [done|].
  eexists; split; [done|]. rewrite slots_insert by lia. split; [|split; [done|]].
  - split_and!; simpl; [done..|]. exists (S n). split; [lia|done].
  - apply find_slot_slots; [done..|lia].
Qed.

(** A context of the pool carries a given name. *)
Definition named (pl : context_pool) (i : nat) (s : list byte) : Prop :=
  exists c, contexts pl !! i = Some c /\ c_str (c_name c) = Some s.

Lemma strncmp_name c s :
  context_ok c -> no_nul s -> strncmp 32 (c_name c) s = 0 <-> c_str (c_name c) = Some s.
Proof.
  intros (Hl & [n Hn] & _) Hs.
  destruct (c_str_inv _ _ Hn) as [Hnn [r Hr]].
  pose proof (c_str_length _ _ Hn) as Hlt.
  rewrite Hr, strncmp_eq by (done || lia). rewrite c_str_app by done.
  split; congruence.
Qed.

Definition lookup_result (pl : context_pool) (s : list byte) (r : option nat) : Prop :=
  match r with
  | Some i => (i < lwnbd_contexts_count pl)%nat /\ named pl i s /\
              forall j, (j < i)%nat -> ~ named pl j s
  | None => forall j, (j < lwnbd_contexts_count pl)%nat -> ~ named pl j s
  end.

Lemma get_context_string_loop_spec pl s fuel i :
  pool_ok pl -> no_nul s -> (lwnbd_contexts_count pl - i < fuel)%nat ->
  (forall j, (j < i)%nat -> ~ named pl j s) ->
  exists r, get_context_string_loop fuel pl s (Z.of_nat i) = Ok r /\ lookup_result pl s r.
Proof.
  intros Hp Hs. pose proof (contexts_count_le _ Hp) as Hc.
  revert i; induction fuel as [|fuel IH]; intros i Hf Hb; [lia|]; cbn [get_context_string_loop].
  case (Z.ltb_spec (Z.of_nat i) (Z.of_nat (lwnbd_contexts_count pl))) as [Hi|Hi].
  - unfold lwnbd_get_context_i, context_at. rewrite Nat2Z.id.
    destruct (context_at_ok pl i Hp) as (c & Hci & Hok); [lia|].
    rewrite Hci. cbn [of_option mbind outcome_bind]. case (Z.eqb_spec (strncmp 32 (c_name c) s) 0) as [He|He].
    + exists (Some i). split; [done|]. split_and!; [lia| |done].
      exists c. split; [done|]. by apply strncmp_name.
    + rewrite (wrap_small 8) by (unfold MAX_CONTEXTS in *; lia).
      replace (Z.of_nat i + 1) with (Z.of_nat (S i)) by lia.
      apply IH; [lia|]. intros j Hj. destruct (decide (j = i)) as [->|]; [|apply Hb; lia].
      intros (c' & Hc' & Hn). simplify_eq. by apply He, strncmp_name.
  - exists None. split; [done|]. intros j Hj. apply Hb. lia.
Qed.

Lemma get_context_string_spec pl s :
  pool_ok pl -> no_nul s ->
  exists r, lwnbd_get_context_string pl s = Ok r /\ lookup_result pl s r.
Proof.
  intros Hp Hs. pose proof (contexts_count_le _ Hp).
  pose proof (get_context_string_loop_spec pl s (S MAX_CONTEXTS) 0) as H0.
  apply H0; [done..| |]; lia.
Qed.

Lemma lookup_result_unique pl s r r' :
  lookup_result pl s r -> lookup_result pl s r' -> r = r'.
Proof.
  destruct r as [i|], r' as [j|]; simpl; [|naive_solver..].
  intros (Hi & Hni & Hbi) (Hj & Hnj & Hbj).
  destruct (Nat.lt_trichotomy i j) as [H|[->|H]]; [|done|].
  - by destruct (Hbj i).
  - by destruct (Hbi j).
Qed.

(** Allocating [k] contexts in a row: the pointers handed out. *)
Fixpoint new_contexts (k : nat) (pl : context_pool) : list (option nat) * context_pool :=
  match k with
  | O => ([], pl)
  | S k =>
      let '(r, pl) := lwnbd_new_context pl in
      let '(rs, pl) := new_contexts k pl in (r :: rs, pl)
  end.

Lemma new_contexts_spec k pl :
  pool_ok pl ->
  let '(rs, pl') := new_contexts k pl in
  pool_ok pl' /\ length rs = k /\
  forall j, (j < k)%nat ->
    rs !! j = Some (if decide (lwnbd_contexts_count pl + j < MAX_CONTEXTS)%nat
                    then Some (lwnbd_contexts_count pl + j)%nat else None).
Proof.
  revert pl; induction k as [|k IH]; intros pl Hp; cbn [new_contexts].
  - split_and!; [done..|lia].
  - pose proof (new_context_spec pl Hp) as Hn. pose proof (contexts_count_le pl Hp) as Hle.
    simpl in Hn. case_decide as Hc.
    + rewrite Hn. specialize (IH pl Hp). destruct (new_contexts k pl) as [rs pl'].
      destruct IH as (Hp' & Hl & Hr). split_and!; [done|simpl; lia|].
      intros [|j] Hj; simpl; [by rewrite decide_False by lia|].
      rewrite Hr by lia. rewrite !decide_False by lia. done.
    + destruct Hn as (pl1 & -> & Hp1 & _ & Hc1). specialize (IH pl1 Hp1).
      destruct (new_contexts k pl1) as [rs pl']. rewrite Hc1 in IH.
      destruct IH as (Hp' & Hl & Hr). split_and!; [done|simpl; lia|].
      intros [|j] Hj; simpl.
      * rewrite Nat.add_0_r, decide_True by lia. done.
      * rewrite Hr by lia. by rewrite <- Nat.add_succ_comm.
Qed.

(** The entries [lwnbd_dump_contexts] prints, from the pool alone. *)
Definition dump_entry (c : lwnbd_context_t) : list byte :=
  sprintf_entry (default [] (c_str (c_name c))) (default [] (c_str (c_description c))).

Lemma dump_contexts_loop_free l m :
  dump_contexts_loop (zip l (replicate m CONTEXT_FREE)) = Ok [].
Proof. revert m; induction l as [|c l IH]; intros [|m]; simpl; auto. Qed.

Lemma dump_contexts_loop_spec n m l :
  Forall context_ok l ->
  dump_contexts_loop (zip l (replicate n CONTEXT_CREATED ++ replicate m CONTEXT_FREE))
  = Ok (concat (dump_entry <$> take n l)).
Proof.
  intros Hf. revert n; induction Hf as [|c l Hc Hf IH]; intros n.
  - by destruct n.
  - destruct n as [|n]; [apply dump_contexts_loop_free|]. cbn [replicate app zip zip_with take].
    cbn [dump_contexts_loop context_is_free]. rewrite IH.
    destruct Hc as (_ & [nm Hn] & _ & [d Hd]). rewrite Hn, Hd. mred.
    rewrite fmap_cons. cbn [concat]. unfold dump_entry at 2; rewrite Hn, Hd; done.
Qed.

(** [lwnbd_new_context] hands out the slots in order and then [NULL]. *)
Theorem new_contexts_in_order k :
  let '(rs, pl) := new_contexts k initial_pool in
  pool_ok pl /\
  rs = (fun j => if decide (j < MAX_CONTEXTS)%nat then Some j else None) <$> seq 0 k.
Proof.
  pose proof (new_contexts_spec k initial_pool initial_pool_ok) as H.
  destruct (new_contexts k initial_pool) as [rs pl]. destruct H as (Hp & Hl & Hr).
  split; [done|]. apply list_eq. intros j. rewrite list_lookup_fmap.
  destruct (decide (j < k)%nat) as [Hj|Hj].
  - rewrite Hr by done. by rewrite lookup_seq_lt.
  - rewrite (lookup_ge_None_2 rs) by lia. by rewrite lookup_seq_ge by lia.
Qed.

(** A lookup finds the first context with exactly that name. *)
Theorem get_context_string_correct pl s r :
  pool_ok pl -> no_nul s ->
  lwnbd_get_context_string pl s = Ok r <-> lookup_result pl s r.
Proof.
  intros Hp Hs. destruct (get_context_string_spec pl s Hp Hs) as (r' & Hr & Hres).
  rewrite Hr. split; [by intros [= <-]|]. intros H. f_equal. by eapply lookup_result_unique.
Qed.

(** The dump lists every created context, in order, and nothing else. *)
Theorem dump_contexts_correct pl :
  pool_ok pl ->
  let out := concat (dump_entry <$> take (lwnbd_contexts_count pl) (contexts pl)) in
  lwnbd_dump_contexts pl = Ok (out, Z.of_nat (length out) + 1).
Proof.
  intros (Hl & Hf & n & Hn & Hs). unfold lwnbd_dump_contexts, lwnbd_contexts_count.
  rewrite Hs, find_slot_slots by done. unfold slots. by rewrite dump_contexts_loop_spec.
Qed.
