(* ===== verification/PluginApi.v ===== *)
(** * The plugin interface: [include/lwnbd/lwnbd-plugin.h]

    A plugin is a static structure of function pointers.  Its private static
    variables and the devices behind it are the world [W], threaded through
    every callback; [Cfg] is what [const void *pconfig] points to.  The file
    also holds the dispatch functions at the top of [src/contexts.c] and the
    classes that state what a block device promises to the servers above. *)

From S2P Require Export Contexts.

(** [struct query_t]: one key/value pair of a URI query. *)
Record query_t := mk_query { q_key : list byte; q_val : option (list byte) }.

(** The caller's array of parameters; [None] is an entry it never wrote. *)
Abbreviation query_params := (list (option query_t)).

Section api.
Context {W Cfg : Type}.

Record lwnbd_plugin_t := mk_plugin {
  pl_name : list byte;
  pl_longname : list byte;
  pl_load : option (W -> outcome W);
  pl_get_size : option (handle_ptr -> W -> outcome (Z * W));
  (** [pread] yields the bytes it stores at the start of the buffer. *)
  pl_pread : option (handle_ptr -> Z -> Z -> Z -> W -> outcome (Z * list byte * W));
  pl_pwrite : option (handle_ptr -> list byte -> Z -> Z -> Z -> W -> outcome (Z * W));
  pl_flush : option (handle_ptr -> Z -> W -> outcome (Z * W));
  pl_trim : option (handle_ptr -> Z -> Z -> Z -> W -> outcome (Z * W));
  pl_zero : option (handle_ptr -> Z -> Z -> Z -> W -> outcome (Z * W));
  (** minimum, preferred, maximum *)
  pl_block_size : option (handle_ptr -> W -> outcome (Z * Z * Z * W));
  pl_config : option (list byte -> option (list byte) -> W -> outcome (Z * W));
  pl_magic_config_key : option (list byte);
  pl_ctor : option (Cfg -> option lwnbd_context_t -> W ->
                    outcome (Z * option lwnbd_context_t * W));
  pl_query : option (handle_ptr -> query_params -> Z -> W -> outcome (Z * W));
  pl_export_without_handle : Z
}.

(** Default callbacks. *)
Definition func_no_error (h : handle_ptr) (flags : Z) (w : W) : outcome (Z * W) := Ok (0, w).

Definition char_block_size (h : handle_ptr) (w : W) : outcome (Z * Z * Z * W) := Ok (1, 1, 1, w).

Definition stream_get_size (h : handle_ptr) (w : W) : outcome (Z * W) := Ok (0x7FFFFFFFFFFFE00, w).

(** ** Dispatch ([src/contexts.c])

    The memory the static plugin structures live in. *)
Context (plugin_mem : nat -> lwnbd_plugin_t).

(** [me->p->f]: the two pointers are followed in turn. *)
Definition method {A} (f : lwnbd_plugin_t -> option A) (p : plugin_ptr) : outcome A :=
  a ← of_option NullDeref p;
  of_option NullDeref (f (plugin_mem a)).

Definition lwnbd_pread (me : lwnbd_context_t) (count offset flags : Z) (w : W)
  : outcome (Z * list byte * W) :=
  f ← method pl_pread (c_p me); f (c_handle me) count offset flags w.

Definition lwnbd_pwrite (me : lwnbd_context_t) (buf : list byte) (count offset flags : Z) (w : W)
  : outcome (Z * W) :=
  f ← method pl_pwrite (c_p me); f (c_handle me) buf count offset flags w.

Definition lwnbd_flush (me : lwnbd_context_t) (flags : Z) (w : W) : outcome (Z * W) :=
  f ← method pl_flush (c_p me); f (c_handle me) flags w.

Definition lwnbd_trim (me : lwnbd_context_t) (count offset flags : Z) (w : W) : outcome (Z * W) :=
  f ← method pl_trim (c_p me); f (c_handle me) count offset flags w.

Definition lwnbd_zero (me : lwnbd_context_t) (count offset flags : Z) (w : W) : outcome (Z * W) :=
  f ← method pl_zero (c_p me); f (c_handle me) count offset flags w.

(** The new context, the [int] returned and the new world. *)
Definition lwnbd_update_size (me : lwnbd_context_t) (w : W)
  : outcome (lwnbd_context_t * Z * W) :=
  f ← method pl_get_size (c_p me);
  '(sz, w) ← f (c_handle me) w;
  Ok (set_c_exportsize sz me, i32 sz, w).
End api.
Arguments lwnbd_plugin_t : clear implicits.

(** ** Block devices

    What a plugin promises about a handle: under the invariant [inv] its
    device holds the bytes [content w], and [pread]/[pwrite] move whole blocks
    of [bsz] bytes.  The servers are verified against these classes, the
    plugins discharge them. *)

Class ReadStore {W Cfg} (P : lwnbd_plugin_t W Cfg) (h : handle_ptr) (bsz : Z)
    (inv : W -> Prop) (content : W -> list byte) := {
  rs_bsz : 0 < bsz;
  rs_fun : handle_ptr -> Z -> Z -> Z -> W -> outcome (Z * list byte * W);
  rs_pread : pl_pread P = Some rs_fun;
  rs_read w cnt off :
    inv w -> 0 <= cnt < 2 ^ 16 -> 0 <= off ->
    (off + cnt) * bsz <= Z.of_nat (length (content w)) ->
    exists w', rs_fun h cnt off 0 w
      = Ok (0, slice (Z.to_nat (off * bsz)) (Z.to_nat (cnt * bsz)) (content w), w') /\
      inv w' /\ content w' = content w
}.

Class WriteStore {W Cfg} (P : lwnbd_plugin_t W Cfg) (h : handle_ptr) (bsz : Z)
    (inv : W -> Prop) (content : W -> list byte) := {
  ws_fun : handle_ptr -> list byte -> Z -> Z -> Z -> W -> outcome (Z * W);
  ws_pwrite : pl_pwrite P = Some ws_fun;
  ws_write w buf cnt off :
    inv w -> 0 < cnt < 2 ^ 16 -> 0 <= off ->
    cnt * bsz <= Z.of_nat (length buf) ->
    (off + cnt) * bsz <= Z.of_nat (length (content w)) ->
    exists w', ws_fun h buf cnt off 0 w = Ok (0, w') /\ inv w' /\
      content w' = splice (Z.to_nat (off * bsz)) (take (Z.to_nat (cnt * bsz)) buf) (content w)
}.

Class FlushStore {W Cfg} (P : lwnbd_plugin_t W Cfg) (h : handle_ptr)
    (inv : W -> Prop) (content : W -> list byte) := {
  fs_fun : handle_ptr -> Z -> W -> outcome (Z * W);
  fs_flush : pl_flush P = Some fs_fun;
  fs_spec w : inv w -> exists w', fs_fun h 0 w = Ok (0, w') /\ inv w' /\ content w' = content w
}.

Section dispatch.
Context {W Cfg : Type} (plugin_mem : nat -> lwnbd_plugin_t W Cfg).
Context (c : lwnbd_context_t) (a : nat) (bsz : Z) (inv : W -> Prop) (content : W -> list byte).
Context (Hp : c_p c = Some a).

Lemma lwnbd_pread_spec `{!ReadStore (plugin_mem a) (c_handle c) bsz inv content} w cnt off :
  inv w -> 0 <= cnt < 2 ^ 16 -> 0 <= off ->
  (off + cnt) * bsz <= Z.of_nat (length (content w)) ->
  exists w', lwnbd_pread plugin_mem c cnt off 0 w
    = Ok (0, slice (Z.to_nat (off * bsz)) (Z.to_nat (cnt * bsz)) (content w), w') /\
    inv w' /\ content w' = content w.
Proof.
  intros. unfold lwnbd_pread, method. rewrite Hp. mred. rewrite rs_pread. mred.
  by apply rs_read.
Qed.

Lemma lwnbd_pwrite_spec `{!WriteStore (plugin_mem a) (c_handle c) bsz inv content} w buf cnt off :
  inv w -> 0 < cnt < 2 ^ 16 -> 0 <= off ->
  cnt * bsz <= Z.of_nat (length buf) ->
  (off + cnt) * bsz <= Z.of_nat (length (content w)) ->
  exists w', lwnbd_pwrite plugin_mem c buf cnt off 0 w = Ok (0, w') /\ inv w' /\
    content w' = splice (Z.to_nat (off * bsz)) (take (Z.to_nat (cnt * bsz)) buf) (content w).
Proof.
  intros. unfold lwnbd_pwrite, method. rewrite Hp. mred. rewrite ws_pwrite. mred.
  by apply ws_write.
Qed.

Lemma lwnbd_flush_spec `{!FlushStore (plugin_mem a) (c_handle c) inv content} w :
  inv w ->
  exists w', lwnbd_flush plugin_mem c 0 w = Ok (0, w') /\ inv w' /\ content w' = content w.
Proof.
  intros. unfold lwnbd_flush, method. rewrite Hp. mred. rewrite fs_flush. mred.
  by apply fs_spec.
Qed.
End dispatch.
