(* ===== verification/Plugins.v ===== *)
(** * The plugin registry: [src/plugins.c]

    Plugins are registered in a static table of pointers; [lwnbd_plugin_new]
    asks a plugin to fill a fresh context.  The state of the library is the
    context pool, the plugin table and the plugins' own world. *)

From S2P Require Export PluginApi.

Definition MAX_NUM_PLUGINS : nat := 10.

Inductive plugin_state_t := PLUGIN_FREE | PLUGIN_CREATED.

Definition plugin_is_free (s : plugin_state_t) : bool :=
  match s with PLUGIN_FREE => true | PLUGIN_CREATED => false end.

Record lib (W : Type) := mk_lib {
  l_pool : context_pool;
  l_plugins : list plugin_ptr;
  l_plugins_status : list plugin_state_t;
  l_world : W }.
Arguments mk_lib {W} _ _ _ _.
Arguments l_pool {W} _.
Arguments l_plugins {W} _.
Arguments l_plugins_status {W} _.
Arguments l_world {W} _.

Section plugins.
Context {W Cfg : Type} (plugin_mem : nat -> lwnbd_plugin_t W Cfg).
Implicit Types (s : lib W) (p : lwnbd_plugin_t W Cfg).

Definition initial_lib (w : W) : lib W :=
  mk_lib initial_pool (replicate MAX_NUM_PLUGINS None)
    (replicate MAX_NUM_PLUGINS PLUGIN_FREE) w.

Definition set_pool (pl : context_pool) (s : lib W) := mk_lib pl (l_plugins s) (l_plugins_status s) (l_world s).
Definition set_world (w : W) (s : lib W) := mk_lib (l_pool s) (l_plugins s) (l_plugins_status s) w.

(** [plugins[plugin]], then the structure it points to. *)
Definition plugin_lookup (plugin : Z) s : outcome nat :=
  q ← of_option OutOfBounds (l_plugins s !! Z.to_nat plugin);
  of_option NullDeref q.

Definition lwnbd_plugin_new (plugin : Z) (pconfig : Cfg) s : outcome (Z * lib W) :=
  a ← plugin_lookup plugin s;
  let p := plugin_mem a in
  match pl_ctor p with
  | None => Ok (-1, s)
  | Some ctor =>
      if pl_export_without_handle p =? 1 then
        '(r, _, w) ← ctor pconfig None (l_world s);
        if negb (r =? 0) then Ok (-1, set_world w s) else Ok (0, set_world w s)
      else
        let '(oc, pl) := lwnbd_new_context (l_pool s) in
        i ← of_option NullDeref oc;
        c ← context_at pl i;
        d ← store_at 0 [x00] (c_description c);
        let c := set_c_description d c in
        '(r, oc', w) ← ctor pconfig (Some c) (l_world s);
        c ← of_option NullDeref oc';
        let s := mk_lib (update_context i c pl) (l_plugins s) (l_plugins_status s) w in
        if negb (r =? 0) then Ok (-1, s)
        else
          let c := set_c_p (Some a) c in
          n ← strlen (c_description c);
          d ← (if Nat.eqb n 0 then strcpy (c_description c) (pl_longname p)
               else Ok (c_description c));
          let c := set_c_description d c in
          Ok (0, set_pool (update_context i c (l_pool s)) s)
  end.

(** The body of [lwnbd_plugin_news]: [pconfig], the array, never becomes
    [NULL], so the loop has no exit of its own. *)
Fixpoint plugin_news_loop (fuel : nat) (plugin : Z) (pconfig : list Cfg) (i : nat) s
  : outcome (Z * lib W) :=
  match fuel with
  | O => Fault OutOfFuel
  | S fuel =>
      cfg ← of_option OutOfBounds (pconfig !! i);
      '(_, s) ← lwnbd_plugin_new plugin cfg s;
      plugin_news_loop fuel plugin pconfig (S i) s
  end.

Definition lwnbd_plugin_news (plugin : Z) (pconfig : option (list Cfg)) s : outcome (Z * lib W) :=
  match pconfig with
  | None => Ok (0, s)
  | Some l => plugin_news_loop (S (length l)) plugin l 0 s
  end.

Definition lwnbd_plugin_config (plugin : Z) (key value : option (list byte)) s
  : outcome (Z * lib W) :=
  a ← plugin_lookup plugin s;
  let p := plugin_mem a in
  match pl_config p with
  | None => Ok (-1, s)
  | Some config =>
      match (match key with Some _ => key | None => pl_magic_config_key p end) with
      | None => Ok (-1, s)
      | Some lkey =>
          '(r, w) ← config lkey value (l_world s);
          if r =? -1 then Ok (-1, set_world w s) else Ok (0, set_world w s)
      end
  end.

(** [init] is what the plugin's registration function returns.  The result
    has type [uint32_t], so [-1] is [4294967295]. *)
Definition lwnbd_plugin_init (init : plugin_ptr) s : outcome (Z * lib W) :=
  let i := find_slot plugin_is_free (l_plugins_status s) in
  if decide (i = MAX_NUM_PLUGINS) then Ok (u32 (-1), s)
  else
    match init with
    | None => Ok (u32 (-1), s)
    | Some a =>
        let p := plugin_mem a in
        match pl_pread p with
        | None => Ok (u32 (-1), s)
        | Some _ =>
            w ← (match pl_load p with Some load => load (l_world s) | None => Ok (l_world s) end);
            let s := mk_lib (l_pool s) (<[i := Some a]> (l_plugins s))
                       (<[i := PLUGIN_CREATED]> (l_plugins_status s)) w in
            if pl_export_without_handle p =? 1 then
              let '(oc, pl) := lwnbd_new_context (l_pool s) in
              k ← of_option NullDeref oc;
              c ← context_at pl k;
              let c := set_c_handle None c in
              d ← strcpy (c_description c) (pl_longname p);
              let c := set_c_description d c in
              n ← strcpy (c_name c) (bs "api");
              let c := set_c_name n c in
              let c := set_c_p (Some a) c in
              Ok (Z.of_nat i, set_pool (update_context k c pl) s)
            else Ok (Z.of_nat i, s)
        end
    end.

(** ** Invariant *)

Definition plugins_count s : nat := find_slot plugin_is_free (l_plugins_status s).

Definition lib_ok s : Prop :=
  pool_ok (l_pool s) /\ length (l_plugins s) = MAX_NUM_PLUGINS /\
  exists n, (n <= MAX_NUM_PLUGINS)%nat /\
    l_plugins_status s = slots PLUGIN_CREATED PLUGIN_FREE MAX_NUM_PLUGINS n /\
    forall i, (i < n)%nat -> exists a, l_plugins s !! i = Some (Some a).

Lemma initial_lib_ok w : lib_ok (initial_lib w).
Proof.
  split_and!; [apply initial_pool_ok|done|]. exists O. split_and!; [lia|done|lia].
Qed.

Lemma set_world_ok w s : lib_ok s -> lib_ok (set_world w s).
Proof. done. Qed.

Lemma set_pool_ok pl s : lib_ok s -> pool_ok pl -> lib_ok (set_pool pl s).
Proof. by intros (? & ? & ?) ?. Qed.

Lemma plugin_lookup_ok s i :
  lib_ok s -> (i < plugins_count s)%nat ->
  exists a, plugin_lookup (Z.of_nat i) s = Ok a /\ l_plugins s !! i = Some (Some a).
Proof.
  intros (_ & _ & n & Hn & Hs & Hp). unfold plugins_count. rewrite Hs, find_slot_slots by done.
  intros Hi. destruct (Hp i Hi) as [a Ha]. exists a. split; [|done].
  unfold plugin_lookup. by rewrite Nat2Z.id, Ha.
Qed.

(** Adding a plugin to the table. *)
Lemma register_slot_ok s a w :
  lib_ok s -> plugins_count s <> MAX_NUM_PLUGINS ->
  let i := plugins_count s in
  let s' := mk_lib (l_pool s) (<[i := Some a]> (l_plugins s))
              (<[i := PLUGIN_CREATED]> (l_plugins_status s)) w in
  lib_ok s' /\ plugins_count s' = S i /\ l_plugins s' !! i = Some (Some a).
Proof.
  intros (Hpl & Hl & n & Hn & Hs & Hp). unfold plugins_count. rewrite Hs, find_slot_slots by done.
  intros Hne. simpl.
  rewrite slots_insert, find_slot_slots by (done || lia). split_and!; [|done|].
  - split_and!; simpl; [done|by rewrite length_insert|].
    exists (S n). split_and!; [lia|done|]. intros i Hlt.
    destruct (decide (i = n)) as [->|].
    + exists a. apply list_lookup_insert_eq. lia.
    + rewrite list_lookup_insert_ne by done. apply Hp. lia.
  - apply list_lookup_insert_eq. lia.
Qed.

(** What a constructor does to the context it is given. *)
Definition ctor_fills p (cfg : Cfg) (w : W) (h : handle_ptr) (name desc : list byte) (w' : W)
  : Prop :=
  exists ctor, pl_ctor p = Some ctor /\
    forall c, context_ok c -> c_str (c_description c) = Some [] ->
    exists c', ctor cfg (Some c) w = Ok (0, Some c', w') /\ context_ok c' /\
      c_handle c' = h /\ c_str (c_name c') = Some name /\ c_str (c_description c') = Some desc.

(** The constructor refuses: non-zero, and the context arrays stay strings. *)
Definition ctor_refuses p (cfg : Cfg) (w w' : W) : Prop :=
  exists ctor, pl_ctor p = Some ctor /\
    forall c, context_ok c ->
    exists r c', ctor cfg (Some c) w = Ok (r, Some c', w') /\ r <> 0 /\ context_ok c'.

Lemma clear_description c :
  context_ok c ->
  exists d, store_at 0 [x00] (c_description c) = Ok d /\
    context_ok (set_c_description d c) /\ c_str d = Some [].
Proof.
  intros (Hn & Hns & Hd & _).
  eexists; split; [apply store_at_Ok; split; [simpl; lia|done]|].
  split; [|done]. split_and!; [done..| |by exists []].
  cbn. rewrite length_splice; simpl; lia.
Qed.

(** The description a context ends up with: the plugin's long name when the
    constructor left it empty. *)
Lemma default_description c desc longname :
  context_ok c -> c_str (c_description c) = Some desc ->
  no_nul longname -> (length longname < 64)%nat ->
  exists n d, strlen (c_description c) = Ok n /\
    (if Nat.eqb n 0 then strcpy (c_description c) longname else Ok (c_description c)) = Ok d /\
    context_ok (set_c_description d c) /\
    c_str d = Some (if decide (desc = []) then longname else desc).
Proof.
  intros (Hn & Hns & Hd & Hds) Hc Hl Hlen. unfold strlen. rewrite Hc. simpl.
  exists (length desc). destruct desc as [|b desc]; simpl.
  - rewrite strcpy_fits by lia. eexists; split; [done|split; [done|]].
    rewrite c_str_app by done. split; [|done]. split_and!; simpl; [done..| |].
    + rewrite length_app. simpl. rewrite length_drop. lia.
    + rewrite c_str_app by done. by eexists.
  - by eexists.
Qed.

Lemma new_context_slot s :
  lib_ok s -> lwnbd_contexts_count (l_pool s) <> MAX_CONTEXTS ->
  exists pl c, lwnbd_new_context (l_pool s) = (Some (lwnbd_contexts_count (l_pool s)), pl) /\
    pool_ok pl /\ contexts pl = contexts (l_pool s) /\
    lwnbd_contexts_count pl = S (lwnbd_contexts_count (l_pool s)) /\
    contexts pl !! lwnbd_contexts_count (l_pool s) = Some c /\ context_ok c.
Proof.
  intros (Hp & _) Hne. pose proof (new_context_spec _ Hp) as H. simpl in H.
  rewrite decide_False in H by done. destruct H as (pl & Hn & Hpl & Hc & Hcnt).
  pose proof (contexts_count_le _ Hpl) as Hle.
  destruct (context_at_ok pl (lwnbd_contexts_count (l_pool s)) Hpl) as (c & Hci & Hok); [lia|].
  exists pl, c. by rewrite <- Hc.
Qed.

Lemma new_context_full s :
  lib_ok s -> lwnbd_contexts_count (l_pool s) = MAX_CONTEXTS ->
  lwnbd_new_context (l_pool s) = (None, l_pool s).
Proof.
  intros (Hp & _) He. pose proof (new_context_spec _ Hp) as H. simpl in H.
  by rewrite decide_True in H by done.
Qed.

(** Registering a plugin takes the first free slot of the table. *)
Lemma plugin_init_registers s a w' :
  lib_ok s -> plugins_count s <> MAX_NUM_PLUGINS ->
  pl_pread (plugin_mem a) <> None ->
  (match pl_load (plugin_mem a) with
   | Some load => load (l_world s) = Ok w' | None => w' = l_world s end) ->
  pl_export_without_handle (plugin_mem a) <> 1 ->
  exists s', lwnbd_plugin_init (Some a) s = Ok (Z.of_nat (plugins_count s), s') /\
    lib_ok s' /\ plugins_count s' = S (plugins_count s) /\
    l_plugins s' !! plugins_count s = Some (Some a) /\
    l_pool s' = l_pool s /\ l_world s' = w'.
Proof.
  intros Hok Hne Hpr Hload Hexp. unfold lwnbd_plugin_init. fold (plugins_count s).
  rewrite decide_False by done. destruct (pl_pread (plugin_mem a)) as [rd|]; [|done].
  destruct (register_slot_ok s a w' Hok Hne) as (H1 & H2 & H3).
  destruct (pl_load (plugin_mem a)) as [load|]; [rewrite Hload|subst w']; mred;
    rewrite (proj2 (Z.eqb_neq _ _) Hexp); eexists; eauto 10.
Qed.

(** *** The library as a list of exports *)

(** What a client can see of a context. *)
Record export_view := mk_export {
  ex_name : option (list byte); ex_description : option (list byte);
  ex_plugin : plugin_ptr; ex_handle : handle_ptr }.

Definition view (c : lwnbd_context_t) : export_view :=
  mk_export (c_str (c_name c)) (c_str (c_description c)) (c_p c) (c_handle c).

Definition exports s : list export_view :=
  view <$> take (lwnbd_contexts_count (l_pool s)) (contexts (l_pool s)).

Lemma exports_snoc s s' c :
  let n := lwnbd_contexts_count (l_pool s) in
  lwnbd_contexts_count (l_pool s') = S n -> contexts (l_pool s') !! n = Some c ->
  (forall j, j <> n -> contexts (l_pool s') !! j = contexts (l_pool s) !! j) ->
  exports s' = exports s ++ [view c].
Proof.
  intros n Hn Hc Hj. unfold exports. rewrite Hn. fold n. rewrite (take_S_r _ _ c) by done.
  rewrite fmap_app. do 2 f_equal. apply list_eq. intros j.
  destruct (decide (j < n)%nat); [|by rewrite !lookup_take_ge by lia].
  rewrite !lookup_take_lt by done. apply Hj. lia.
Qed.

(** A plugin exported without a handle also gets the [api] context. *)
Theorem plugin_init_exports_api s a w' :
  lib_ok s -> plugins_count s <> MAX_NUM_PLUGINS ->
  lwnbd_contexts_count (l_pool s) <> MAX_CONTEXTS ->
  pl_pread (plugin_mem a) <> None ->
  (match pl_load (plugin_mem a) with
   | Some load => load (l_world s) = Ok w' | None => w' = l_world s end) ->
  pl_export_without_handle (plugin_mem a) = 1 ->
  no_nul (pl_longname (plugin_mem a)) ->
  (length (pl_longname (plugin_mem a)) < 64)%nat ->
  exists s', lwnbd_plugin_init (Some a) s = Ok (Z.of_nat (plugins_count s), s') /\
    lib_ok s' /\ plugins_count s' = S (plugins_count s) /\
    l_plugins s' !! plugins_count s = Some (Some a) /\ l_world s' = w' /\
    lwnbd_contexts_count (l_pool s') = S (lwnbd_contexts_count (l_pool s)) /\
    exports s' = exports s
      ++ [mk_export (Some (bs "api")) (Some (pl_longname (plugin_mem a))) (Some a) None].
Proof.
  intros Hok Hne Hcn Hpr Hload Hexp Hln Hlen. unfold lwnbd_plugin_init.
  fold (plugins_count s). rewrite decide_False by done.
  destruct (pl_pread (plugin_mem a)) as [rd|]; [|done].
  destruct (register_slot_ok s a w' Hok Hne) as (H1 & H2 & H3).
  assert ((match pl_load (plugin_mem a) with
           | Some load => load (l_world s) | None => Ok (l_world s) end) = Ok w') as ->
    by (destruct (pl_load (plugin_mem a)); congruence).
  mred. rewrite Hexp. cbn [Z.eqb Pos.eqb].
  destruct (new_context_slot _ H1 Hcn) as (pl & c & Hn & Hpl & Hsame & Hcnt & Hci & Hc).
  rewrite Hn. mred. unfold context_at. rewrite Hci. mred.
  destruct Hc as (Hl1 & _ & Hl2 & _). cbn in Hcnt, Hn, Hsame.
  rewrite strcpy_fits by (cbn; lia). mred. rewrite strcpy_fits by (cbn; lia). mred.
  eexists. split; [done|]. split; [|split; [done|split; [done|split; [done|split; [done|]]]]].
  - apply set_pool_ok; [done|]. apply update_context_ok; [done|].
    split_and!; cbn; rewrite ?c_str_app by done; [|by eexists| |by eexists].
    + rewrite length_drop. lia.
    + rewrite length_app. cbn. rewrite length_drop. lia.
  - erewrite (exports_snoc s); [|exact Hcnt|apply list_lookup_insert_eq; by eapply lookup_lt_Some|].
    + unfold view. cbn -[c_str app bs drop]. rewrite (c_str_app (bs "api")) by by_decide. by rewrite c_str_app by done.
    + intros j Hj. cbn. by rewrite list_lookup_insert_ne, Hsame by done.
Qed.

(** Such a plugin makes no context for a configuration. *)
Lemma plugin_new_without_handle s i a ctor cfg r oc w :
  l_plugins s !! i = Some (Some a) -> pl_export_without_handle (plugin_mem a) = 1 ->
  pl_ctor (plugin_mem a) = Some ctor -> ctor cfg None (l_world s) = Ok (r, oc, w) ->
  lwnbd_plugin_new (Z.of_nat i) cfg s = Ok (if r =? 0 then 0 else -1, set_world w s).
Proof.
  intros Hi Hexp Hct Hrun. unfold lwnbd_plugin_new, plugin_lookup.
  rewrite Nat2Z.id, Hi. mred. rewrite Hct, Hexp, Hrun. cbn. by destruct (r =? 0).
Qed.

(** A constructor that succeeds: exactly one context is added, attached to the
    plugin, named and described as the constructor says, with the plugin's long
    name for a missing description. *)
Lemma plugin_new_adds_context s i a cfg h name desc w' :
  lib_ok s -> l_plugins s !! i = Some (Some a) ->
  lwnbd_contexts_count (l_pool s) <> MAX_CONTEXTS ->
  pl_export_without_handle (plugin_mem a) <> 1 ->
  ctor_fills (plugin_mem a) cfg (l_world s) h name desc w' ->
  no_nul (pl_longname (plugin_mem a)) -> (length (pl_longname (plugin_mem a)) < 64)%nat ->
  let n := lwnbd_contexts_count (l_pool s) in
  exists s' c, lwnbd_plugin_new (Z.of_nat i) cfg s = Ok (0, s') /\ lib_ok s' /\
    l_world s' = w' /\ l_plugins s' = l_plugins s /\
    lwnbd_contexts_count (l_pool s') = S n /\
    contexts (l_pool s') !! n = Some c /\ c_p c = Some a /\ c_handle c = h /\
    c_str (c_name c) = Some name /\
    c_str (c_description c)
      = Some (if decide (desc = []) then pl_longname (plugin_mem a) else desc) /\
    forall j, j <> n -> contexts (l_pool s') !! j = contexts (l_pool s) !! j.
Proof.
  intros Hok Hi Hcn Hexp (ctor & Hct & Hfill) Hln Hlen n. unfold n in *; clear n.
  destruct (new_context_slot s Hok Hcn) as (pl & c & Hn & Hpl & Hsame & Hcnt & Hci & Hc).
  destruct (clear_description c Hc) as (d0 & Hd0 & Hc0 & Hz).
  destruct (Hfill _ Hc0 Hz) as (c1 & Hrun & Hc1 & Hh & Hnm & Hds).
  destruct (default_description c1 desc (pl_longname (plugin_mem a)) Hc1 Hds Hln Hlen)
    as (k & d1 & Hk & Hd1 & Hok1 & Hcd).
  unfold lwnbd_plugin_new, plugin_lookup. rewrite Nat2Z.id, Hi. mred. rewrite Hct.
  rewrite (proj2 (Z.eqb_neq _ _) Hexp), Hn. mred. unfold context_at. rewrite Hci. mred.
  rewrite Hd0. mred. rewrite Hrun. mred. cbn [Z.eqb negb c_description set_c_p].
  rewrite Hk. mred. rewrite Hd1. mred.
  assert (lwnbd_contexts_count (l_pool s) < length (contexts pl))%nat by (by eapply lookup_lt_Some).
  eexists _, (set_c_description d1 (set_c_p (Some a) c1)). split; [done|]. split.
  { destruct Hok as (Hpo & H2 & H3). split_and!; [|done..].
    by repeat apply update_context_ok. }
  split_and!; [done|done|exact Hcnt| |done|exact Hh|exact Hnm|exact Hcd|].
  - cbn. apply list_lookup_insert_eq. by rewrite length_insert.
  - intros j Hj. cbn. rewrite !list_lookup_insert_ne by done. by rewrite Hsame.
Qed.

Lemma plugin_new_status plugin cfg s r s' :
  lwnbd_plugin_new plugin cfg s = Ok (r, s') -> l_plugins_status s' = l_plugins_status s.
Proof.
  unfold lwnbd_plugin_new. intros H. run. destruct (pl_ctor _); run; [|done].
  destruct (_ =? 1); run.
  - by destruct (negb _); run.
  - destruct (lwnbd_new_context _) as [oc pl]. run. by destruct (negb _); run.
Qed.

(** The calls [lwnbd_plugin_new(plugin, &cfg)] an application makes in a row,
    without looking at their results. *)
Fixpoint plugin_new_each (plugin : Z) (cfgs : list Cfg) s : outcome (lib W) :=
  match cfgs with
  | [] => Ok s
  | cfg :: cfgs => '(_, s) ← lwnbd_plugin_new plugin cfg s; plugin_new_each plugin cfgs s
  end.

(** The constructor accepts every configuration of the list in turn; [vs] are
    the contexts of plugin [a] that result. *)
Inductive ctors_fill (a : nat) : list Cfg -> W -> list export_view -> W -> Prop :=
  | fill_nil w : ctors_fill a [] w [] w
  | fill_cons cfg cfgs w h name desc w1 vs w2 :
      ctor_fills (plugin_mem a) cfg w h name desc w1 -> ctors_fill a cfgs w1 vs w2 ->
      ctors_fill a (cfg :: cfgs) w
        (mk_export (Some name) (Some (if decide (desc = []) then pl_longname (plugin_mem a) else desc))
           (Some a) h :: vs) w2.

Definition longname_ok p : Prop := no_nul (pl_longname p) /\ (length (pl_longname p) < 64)%nat.

Lemma plugin_new_each_spec s i a cfgs vs w' :
  lib_ok s -> l_plugins s !! i = Some (Some a) ->
  (lwnbd_contexts_count (l_pool s) + length cfgs <= MAX_CONTEXTS)%nat ->
  pl_export_without_handle (plugin_mem a) <> 1 -> longname_ok (plugin_mem a) ->
  ctors_fill a cfgs (l_world s) vs w' ->
  exists s', plugin_new_each (Z.of_nat i) cfgs s = Ok s' /\ lib_ok s' /\ l_world s' = w' /\
    l_plugins s' = l_plugins s /\ l_plugins_status s' = l_plugins_status s /\
    exports s' = exports s ++ vs /\
    (lwnbd_contexts_count (l_pool s') = lwnbd_contexts_count (l_pool s) + length cfgs)%nat.
Proof.
  intros Hok Hi Hcn Hexp [Hln Hlen] Hfill. remember (l_world s) as w eqn:Hw.
  revert s Hok Hi Hcn Hw. induction Hfill as [w|cfg cfgs w h name desc w1 vs w2 Hc _ IH];
    intros s Hok Hi Hcn Hw; cbn [plugin_new_each length] in *.
  - exists s. rewrite app_nil_r, Nat.add_0_r. by split_and!.
  - subst w. destruct (plugin_new_adds_context s i a cfg h name desc w1 Hok Hi)
      as (s1 & c & Hrun & Hok1 & Hw1 & Hp1 & Hn1 & Hc1 & Hpc & Hhc & Hnm & Hds & Hj); [lia|done..|].
    rewrite Hrun. mred. pose proof (plugin_new_status _ _ _ _ _ Hrun) as Hst.
    destruct (IH s1) as (s2 & Hrun2 & Hok2 & Hw2 & Hp2 & Hst2 & He2 & Hn2); [done|by rewrite Hp1|lia|done|].
    exists s2. split_and!; [done|done|done|congruence|congruence| |lia].
    rewrite He2, (exports_snoc s s1 c) by done. rewrite <- app_assoc. cbn [app].
    unfold view. by rewrite Hnm, Hds, Hpc, Hhc.
Qed.

(** C21: registering a plugin and adding an export for each of its
    configurations appends exactly those exports to the library's list, in
    order, each attached to the plugin under the name its constructor gave
    it. *)
Theorem plugin_exports s a cfgs vs w' :
  lib_ok s -> plugins_count s <> MAX_NUM_PLUGINS ->
  (lwnbd_contexts_count (l_pool s) + length cfgs <= MAX_CONTEXTS)%nat ->
  pl_pread (plugin_mem a) <> None -> pl_load (plugin_mem a) = None ->
  pl_export_without_handle (plugin_mem a) <> 1 -> longname_ok (plugin_mem a) ->
  ctors_fill a cfgs (l_world s) vs w' ->
  exists s1 s2, lwnbd_plugin_init (Some a) s = Ok (Z.of_nat (plugins_count s), s1) /\
    plugin_new_each (Z.of_nat (plugins_count s)) cfgs s1 = Ok s2 /\ lib_ok s2 /\
    exports s2 = exports s ++ vs /\ l_world s2 = w'.
Proof.
  intros Hok Hne Hcn Hpr Hload Hexp Hln Hfill.
  destruct (plugin_init_registers s a (l_world s) Hok Hne Hpr) as (s1 & Hrun & Hok1 & Hc1 & Hp1 & Hpl & Hw1);
    [by rewrite Hload|done|].
  destruct (plugin_new_each_spec s1 (plugins_count s) a cfgs vs w' Hok1 Hp1)
    as (s2 & Hrun2 & Hok2 & Hw2 & _ & _ & He2 & _); [by rewrite Hpl|done|done|by rewrite Hw1|].
  exists s1, s2. split_and!; [done|done|done| |done]. rewrite He2. unfold exports. by rewrite Hpl.
Qed.

(** With the context pool exhausted, adding an export dereferences [NULL]. *)
Theorem plugin_new_exhausted s i a cfg ctor :
  lib_ok s -> l_plugins s !! i = Some (Some a) ->
  lwnbd_contexts_count (l_pool s) = MAX_CONTEXTS ->
  pl_ctor (plugin_mem a) = Some ctor ->
  pl_export_without_handle (plugin_mem a) <> 1 ->
  lwnbd_plugin_new (Z.of_nat i) cfg s = Fault NullDeref.
Proof.
  intros Hok Hi Hcn Hct Hexp. unfold lwnbd_plugin_new, plugin_lookup.
  rewrite Nat2Z.id, Hi. mred. rewrite Hct, (proj2 (Z.eqb_neq _ _) Hexp).
  by rewrite new_context_full.
Qed.

(** A constructor that refuses leaves its context in the pool, taken and
    attached to no plugin. *)
Theorem plugin_new_refused_leaks s i a cfg w' :
  lib_ok s -> l_plugins s !! i = Some (Some a) ->
  lwnbd_contexts_count (l_pool s) <> MAX_CONTEXTS ->
  pl_export_without_handle (plugin_mem a) <> 1 ->
  ctor_refuses (plugin_mem a) cfg (l_world s) w' ->
  exists s', lwnbd_plugin_new (Z.of_nat i) cfg s = Ok (-1, s') /\ lib_ok s' /\
    lwnbd_contexts_count (l_pool s') = S (lwnbd_contexts_count (l_pool s)).
Proof.
  intros Hok Hi Hcn Hexp (ctor & Hct & Href).
  destruct (new_context_slot s Hok Hcn) as (pl & c & Hn & Hpl & Hsame & Hcnt & Hci & Hc).
  destruct (clear_description c Hc) as (d0 & Hd0 & Hc0 & Hz).
  destruct (Href _ Hc0) as (r & c1 & Hrun & Hr & Hc1).
  unfold lwnbd_plugin_new, plugin_lookup. rewrite Nat2Z.id, Hi. mred. rewrite Hct.
  rewrite (proj2 (Z.eqb_neq _ _) Hexp), Hn. mred. unfold context_at. rewrite Hci. mred.
  rewrite Hd0. mred. rewrite Hrun. mred. rewrite (proj2 (Z.eqb_neq _ _) Hr).
  eexists. split; [done|]. split; [|done].
  destruct Hok as (_ & H2 & H3). split_and!; [|done..]. by apply update_context_ok.
Qed.

Lemma plugin_news_loop_no_exit fuel plugin l i s r :
  plugin_news_loop fuel plugin l i s <> Ok r.
Proof.
  revert i s; induction fuel as [|fuel IH]; intros i s; [done|].
  cbn [plugin_news_loop]. destruct (l !! i) as [cfg|]; [|done]. mred.
  destruct (lwnbd_plugin_new plugin cfg s) as [[r' s']|]; [|done]. apply IH.
Qed.

(** Given an array, [lwnbd_plugin_news] never returns. *)
Theorem plugin_news_never_returns plugin l s r :
  lwnbd_plugin_news plugin (Some l) s <> Ok r.
Proof. apply plugin_news_loop_no_exit. Qed.
End plugins.
