(* ===== verification/Combine.v ===== *)
(** * Several plugins in one program

    Each plugin is modelled over its own world and configuration.  A program
    that uses several of them has a world that contains each; [lift_plugin]
    is a plugin seen from there, and its contracts carry over. *)

From S2P Require Export Plugins.

(** How the program's world contains the plugin's. *)
Record lens (W W1 : Type) := mk_lens { lget : W -> W1; lput : W1 -> W -> W }.
Arguments mk_lens {W W1} _ _.
Arguments lget {W W1} _.
Arguments lput {W W1} _.

Definition lens_ok {W W1} (L : lens W W1) : Prop := forall x w, lget L (lput L x w) = x.

Definition lens_fst {A B} : lens (A * B) A := mk_lens fst (fun x w => (x, w.2)).
Definition lens_snd {A B} : lens (A * B) B := mk_lens snd (fun x w => (w.1, x)).

Lemma lens_fst_ok {A B} : lens_ok (@lens_fst A B).
Proof. done. Qed.

Lemma lens_snd_ok {A B} : lens_ok (@lens_snd A B).
Proof. done. Qed.

Section lift.
Context {W W1 Cfg Cfg1 : Type} (L : lens W W1).

Definition lift2 {A} (r : outcome (A * W1)) (w : W) : outcome (A * W) :=
  '(a, x) ← r; Ok (a, lput L x w).

(** [cfg] is the configuration a pointer to a configuration of the program
    is read as; a pointer to anything else is a type confusion. *)
Definition lift_plugin (cfg : Cfg -> option Cfg1) (p : lwnbd_plugin_t W1 Cfg1)
  : lwnbd_plugin_t W Cfg := {|
  pl_name := pl_name p;
  pl_longname := pl_longname p;
  pl_load := (fun f w => x ← f (lget L w); Ok (lput L x w)) <$> pl_load p;
  pl_get_size := (fun f h w => lift2 (f h (lget L w)) w) <$> pl_get_size p;
  pl_pread := (fun f h c o fl w => lift2 (f h c o fl (lget L w)) w) <$> pl_pread p;
  pl_pwrite := (fun f h b c o fl w => lift2 (f h b c o fl (lget L w)) w) <$> pl_pwrite p;
  pl_flush := (fun f h fl w => lift2 (f h fl (lget L w)) w) <$> pl_flush p;
  pl_trim := (fun f h c o fl w => lift2 (f h c o fl (lget L w)) w) <$> pl_trim p;
  pl_zero := (fun f h c o fl w => lift2 (f h c o fl (lget L w)) w) <$> pl_zero p;
  pl_block_size := (fun f h w => lift2 (f h (lget L w)) w) <$> pl_block_size p;
  pl_config := (fun f k v w => lift2 (f k v (lget L w)) w) <$> pl_config p;
  pl_magic_config_key := pl_magic_config_key p;
  pl_ctor := (fun f c oc w => c ← of_option Uninitialised (cfg c); lift2 (f c oc (lget L w)) w) <$> pl_ctor p;
  pl_query := (fun f h ps n w => lift2 (f h ps n (lget L w)) w) <$> pl_query p;
  pl_export_without_handle := pl_export_without_handle p
|}.

Context (HL : lens_ok L).

Lemma lift_ctor_fills cfg p c c1 w h name desc x :
  cfg c = Some c1 -> ctor_fills p c1 (lget L w) h name desc x ->
  ctor_fills (lift_plugin cfg p) c w h name desc (lput L x w).
Proof.
  intros Hc (ctor & Hct & H). unfold ctor_fills. cbn. rewrite Hct. eexists. split; [done|].
  intros d Hd Hz. destruct (H d Hd Hz) as (d' & Hrun & H1 & H2 & H3 & H4).
  exists d'. rewrite Hc. mred. rewrite Hrun. done.
Qed.

#[refine] Instance lift_read_store cfg p h bsz inv content (H : ReadStore p h bsz inv content) :
  ReadStore (lift_plugin cfg p) h bsz (fun w => inv (lget L w)) (fun w => content (lget L w)) :=
  {| rs_fun := fun h c o fl w => lift2 (rs_fun (ReadStore := H) h c o fl (lget L w)) w |}.
Proof.
  - exact (rs_bsz (ReadStore := H)).
  - cbn. by rewrite (rs_pread (ReadStore := H)).
  - intros w cnt off Hi Hc Ho Hle.
    destruct (rs_read (ReadStore := H) (lget L w) cnt off Hi Hc Ho Hle) as (x & -> & Hx & Hcx).
    eexists. split; [done|]. by rewrite !HL.
Defined.

#[refine] Instance lift_write_store cfg p h bsz inv content (H : WriteStore p h bsz inv content) :
  WriteStore (lift_plugin cfg p) h bsz (fun w => inv (lget L w)) (fun w => content (lget L w)) :=
  {| ws_fun := fun h b c o fl w => lift2 (ws_fun (WriteStore := H) h b c o fl (lget L w)) w |}.
Proof.
  - cbn. by rewrite (ws_pwrite (WriteStore := H)).
  - intros w buf cnt off Hi Hc Ho Hb Hle.
    destruct (ws_write (WriteStore := H) (lget L w) buf cnt off Hi Hc Ho Hb Hle) as (x & -> & Hx & Hcx).
    eexists. split; [done|]. by rewrite !HL.
Defined.
End lift.
