(* ===== verification/Yuarel.v ===== *)
(** * URI parsing in place: [src/yuarel.c]

    The parser copies nothing: it writes NULs into the caller's buffer and
    returns pointers into it.  The buffer is therefore an explicit store, a
    pointer is an offset, and every result is read back through the final
    buffer. *)

From S2P Require Export CString.

(** [struct yuarel] *)
Record yuarel := mk_yuarel {
  y_path : option nat; y_query : option nat; y_fragment : option nat }.

(** [struct yuarel_param] *)
Record yuarel_param := mk_param { yp_key : nat; yp_val : option nat }.

Definition find_and_terminate (str : nat) (find : byte) (buf : list byte)
  : outcome (option nat * list byte) :=
  r ← strchr buf str find;
  match r with
  | None => Ok (None, buf)
  | Some p => buf ← store_at p [x00] buf; Ok (Some (p + 1)%nat, buf)
  end.

Definition find_fragment (str : nat) (buf : list byte) := find_and_terminate str x23 buf.
Definition find_query (str : nat) (buf : list byte) := find_and_terminate str x3f buf.

Definition find_path (str : nat) (buf : list byte) : outcome (option nat * list byte) :=
  '(strt, buf) ← find_and_terminate str x2f buf;
  Ok (match strt with None => Some str | Some p => Some p end, buf).

(** [url] is the destination structure, [u] the string; both may be [NULL]. *)
Definition yuarel_parse (url : option yuarel) (u : option nat) (buf : list byte)
  : outcome (Z * option yuarel * list byte) :=
  match url, u with
  | Some _, Some u =>
      '(fragment, buf) ← find_fragment u buf;
      '(query, buf) ← find_query u buf;
      '(path, buf) ← find_path u buf;
      Ok (0, Some (mk_yuarel path query fragment), buf)
  | _, _ => Ok (-1, url, buf)
  end.

(** Skips the slashes at [path]: the inner [while] of the loop. *)
Fixpoint skip_slashes (fuel : nat) (path : nat) (buf : list byte) : outcome nat :=
  match fuel with
  | O => Fault OutOfFuel
  | S fuel =>
      c ← of_option OutOfBounds (buf !! path);
      if decide (c = x2f) then skip_slashes fuel (S path) buf else Ok path
  end.

Fixpoint split_path_loop (fuel : nat) (path : nat) (max_parts : Z) (parts : list nat)
    (buf : list byte) : outcome (list nat * list byte) :=
  match fuel with
  | O => Fault OutOfFuel
  | S fuel =>
      path ← skip_slashes (S (length buf)) path buf;
      c ← of_option OutOfBounds (buf !! path);
      if decide (c = x00) then Ok (parts, buf)
      else
        let parts := parts ++ [path] in
        r ← strchr buf path x2f;
        match r with
        | None => Ok (parts, buf)
        | Some p =>
            buf ← store_at p [x00] buf;
            if Z.of_nat (length parts) <? max_parts
            then split_path_loop fuel (S p) max_parts parts buf
            else Ok (parts, buf)
        end
  end.

(** The value returned, the parts stored and the buffer. *)
Definition yuarel_split_path (path : option nat) (max_parts : Z) (buf : list byte)
  : outcome (Z * list nat * list byte) :=
  match path with
  | None => Ok (-1, [], buf)
  | Some path =>
      c ← of_option OutOfBounds (buf !! path);
      if decide (c = x00) then Ok (-1, [], buf)
      else
        '(parts, buf) ← split_path_loop (S (length buf)) path max_parts [] buf;
        Ok (Z.of_nat (length parts), parts, buf)
  end.

(** The "split previous param" step: the value of a parameter is what follows the
    first [=] of its key, which becomes a NUL. *)
Definition split_param (key : nat) (buf : list byte) : outcome (yuarel_param * list byte) :=
  r ← strchr buf key x3d;
  match r with
  | None => Ok (mk_param key None, buf)
  | Some p => buf ← store_at p [x00] buf; Ok (mk_param key (Some (p + 1)%nat), buf)
  end.

(** The loop.  [params] are the entries whose value is settled, [last] the key
    of [params[i - 1]], [i] is [length params + 1]. *)
Fixpoint parse_query_loop (fuel : nat) (query : nat) (delimiter : byte) (max_params : Z)
    (params : list yuarel_param) (last : nat) (buf : list byte)
  : outcome (list yuarel_param * nat * list byte) :=
  match fuel with
  | O => Fault OutOfFuel
  | S fuel =>
      if Z.of_nat (length params + 1) <? max_params then
        r ← strchr buf query delimiter;
        match r with
        | None => Ok (params, last, buf)
        | Some p =>
            buf ← store_at p [x00] buf;
            let query := (p + 1)%nat in
            '(prev, buf) ← split_param last buf;
            parse_query_loop fuel query delimiter max_params (params ++ [prev]) query buf
        end
      else Ok (params, last, buf)
  end.

Definition yuarel_parse_query (query : option nat) (delimiter : byte) (max_params : Z)
    (buf : list byte) : outcome (Z * list yuarel_param * list byte) :=
  match query with
  | None => Ok (-1, [], buf)
  | Some q =>
      c ← of_option OutOfBounds (buf !! q);
      if decide (c = x00) then Ok (-1, [], buf)
      else
        _ ← outcome_require (0 < max_params) OutOfBounds;
        '(params, last, buf) ← parse_query_loop (S (length buf)) q delimiter max_params [] q buf;
        '(prev, buf) ← split_param last buf;
        Ok (Z.of_nat (length params + 1), params ++ [prev], buf)
  end.

(** ** Reference: splitting strings *)

(** [s] up to the first [c], and what follows it. *)
Fixpoint split_first (c : byte) (s : list byte) : list byte * option (list byte) :=
  match s with
  | [] => ([], None)
  | b :: s =>
      if decide (b = c) then ([], Some s)
      else let '(a, r) := split_first c s in (b :: a, r)
  end.

(** At most [S n] pieces separated by [c]; the last one keeps what is left. *)
Fixpoint split_max (n : nat) (c : byte) (s : list byte) : list (list byte) :=
  match n with
  | O => [s]
  | S n => match split_first c s with
           | (a, None) => [a]
           | (a, Some s) => a :: split_max n c s
           end
  end.

Lemma split_first_None c s a : split_first c s = (a, None) -> a = s /\ c ∉ s.
Proof.
  revert a; induction s as [|b s IH]; simpl; intros a H.
  - simplify_eq. split; [done|apply not_elem_of_nil].
  - case_decide; [done|]. destruct (split_first c s) as [a' r]. simplify_eq.
    destruct (IH _ eq_refl) as [-> ?]. split; [done|]. apply not_elem_of_cons; split; congruence.
Qed.

Lemma split_first_Some c s a r :
  split_first c s = (a, Some r) -> s = a ++ c :: r /\ c ∉ a.
Proof.
  revert a; induction s as [|b s IH]; simpl; intros a H; [done|].
  case_decide.
  - simplify_eq. split; [done|apply not_elem_of_nil].
  - destruct (split_first c s) as [a' r']. simplify_eq.
    destruct (IH _ eq_refl) as [-> ?]. split; [done|]. apply not_elem_of_cons; split; congruence.
Qed.

Lemma split_first_app c a r : c ∉ a -> split_first c (a ++ c :: r) = (a, Some r).
Proof.
  induction a as [|b a IH]; simpl; intros H; [by rewrite decide_True|].
  apply not_elem_of_cons in H as [? ?]. rewrite decide_False by congruence. by rewrite IH.
Qed.

Lemma split_first_absent c a : c ∉ a -> split_first c a = (a, None).
Proof.
  induction a as [|b a IH]; simpl; intros H; [done|].
  apply not_elem_of_cons in H as [? ?]. rewrite decide_False by congruence. by rewrite IH.
Qed.

Lemma no_nul_app a b : no_nul (a ++ b) <-> no_nul a /\ no_nul b.
Proof. unfold no_nul. rewrite elem_of_app. tauto. Qed.

Lemma no_nul_cons x a : no_nul (x :: a) -> no_nul a.
Proof. unfold no_nul. rewrite elem_of_cons. tauto. Qed.

Lemma split_first_no_nul c s a r :
  no_nul s -> split_first c s = (a, r) ->
  no_nul a /\ match r with Some t => no_nul t | None => True end.
Proof.
  intros Hs H. destruct r as [t|].
  - apply split_first_Some in H as [-> _]. apply no_nul_app in Hs as [? Ht].
    split; [done|by eapply no_nul_cons].
  - apply split_first_None in H as [-> _]. done.
Qed.

(** ** Reading results back *)

(** A pointer result denotes an optional string of the buffer. *)
Definition reads (buf : list byte) (p : option nat) (o : option (list byte)) : Prop :=
  match p, o with
  | None, None => True
  | Some p, Some s => cstr_at buf p = Some s
  | _, _ => False
  end.

(** A terminated block of the buffer. *)
Definition blk (o : option (list byte)) : list byte :=
  match o with None => [] | Some t => t ++ [x00] end.

Lemma cstr_at_app X t R p : no_nul t -> p = length X -> cstr_at (X ++ t ++ x00 :: R) p = Some t.
Proof. intros Ht ->. unfold cstr_at. rewrite drop_app_length. by apply c_str_app. Qed.

Lemma strchr_app A s R c :
  c <> x00 -> no_nul s ->
  strchr (A ++ s ++ x00 :: R) (length A) c
  = Ok (match split_first c s with
        | (a, Some _) => Some (length A + length a)%nat | (_, None) => None end).
Proof.
  intros Hc Hs. unfold strchr. rewrite drop_app_length.
  destruct (strchr_go_spec c _ (length A) s R Hc Hs eq_refl) as [[Hn ->]|(s1 & s2 & -> & Hn & ->)].
  - by rewrite split_first_absent.
  - by rewrite split_first_app.
Qed.

Lemma store_nul A a b R :
  store_at (length A + length a) [x00] (A ++ a ++ b :: R) = Ok (A ++ a ++ x00 :: R).
Proof.
  apply store_at_Ok. split; [rewrite !length_app; simpl; lia|]. unfold splice.
  rewrite (assoc_L (++) A a (b :: R)), <- (length_app A a), take_app_length.
  rewrite drop_app_ge by (simpl; lia). rewrite <- (assoc_L (++) A a). do 3 f_equal.
  by replace (_ - _)%nat with 1%nat by (simpl; lia).
Qed.

Lemma find_and_terminate_app A s R c :
  c <> x00 -> no_nul s ->
  find_and_terminate (length A) c (A ++ s ++ x00 :: R)
  = Ok (let '(a, o) := split_first c s in
        (match o with Some _ => Some (length A + length a + 1)%nat | None => None end,
         A ++ a ++ x00 :: blk o ++ R)).
Proof.
  intros Hc Hs. unfold find_and_terminate. rewrite strchr_app by done. mred.
  destruct (split_first c s) as [a [t|]] eqn:E.
  - apply split_first_Some in E as [-> _]. rewrite <- (assoc_L _ a). cbn [app].
    rewrite store_nul. mred. cbn [blk]. by rewrite <- (assoc_L _ t).
  - by apply split_first_None in E as [-> _].
Qed.

Lemma split_first_length c s a o :
  split_first c s = (a, o) -> length s = (length a + length (blk o))%nat.
Proof.
  destruct o as [t|]; intros H.
  - apply split_first_Some in H as [-> _]. cbn [blk]. rewrite !length_app. simpl. lia.
  - apply split_first_None in H as [-> _]. simpl. lia.
Qed.

(** The final buffer and pointers of a parse, explicitly. *)
Lemma yuarel_parse_buffer url A s R s1 fr s2 qu s3 pa :
  no_nul s -> split_first x23 s = (s1, fr) -> split_first x3f s1 = (s2, qu) ->
  split_first x2f s2 = (s3, pa) ->
  yuarel_parse (Some url) (Some (length A)) (A ++ s ++ x00 :: R)
  = Ok (0, Some (mk_yuarel
                   (Some (match pa with
                          | Some _ => length (A ++ s3 ++ [x00]) | None => length A end))
                   (match qu with
                    | Some _ => Some (length (A ++ s3 ++ x00 :: blk pa)) | None => None end)
                   (match fr with
                    | Some _ => Some (length (A ++ s3 ++ x00 :: blk pa ++ blk qu))
                    | None => None end)),
        A ++ s3 ++ x00 :: blk pa ++ blk qu ++ blk fr ++ R).
Proof.
  intros Hs E1 E2 E3.
  destruct (split_first_no_nul _ _ _ _ Hs E1) as [Hs1 _].
  destruct (split_first_no_nul _ _ _ _ Hs1 E2) as [Hs2 _].
  unfold yuarel_parse, find_fragment, find_query, find_path.
  rewrite find_and_terminate_app, E1 by done. mred.
  rewrite find_and_terminate_app, E2 by done. mred.
  rewrite find_and_terminate_app, E3 by done. mred.
  pose proof (split_first_length _ _ _ _ E2). pose proof (split_first_length _ _ _ _ E3).
  destruct pa, qu, fr;
    repeat first
      [ reflexivity
      | match goal with |- @eq nat _ _ => rewrite ?length_app; cbn [length];
          rewrite ?length_app; lia end
      | f_equal ].
Qed.

(** The parser splits the string at the first [#], the first [?] before it
    and the first [/] before that, and everything it returns can be read. *)
Lemma yuarel_parse_spec url A s R :
  no_nul s ->
  let '(s1, fragment) := split_first x23 s in
  let '(s2, query) := split_first x3f s1 in
  let '(s3, path) := split_first x2f s2 in
  exists y buf',
    yuarel_parse (Some url) (Some (length A)) (A ++ s ++ x00 :: R) = Ok (0, Some y, buf') /\
    length buf' = length (A ++ s ++ x00 :: R) /\ take (length A) buf' = A /\
    reads buf' (y_fragment y) fragment /\ reads buf' (y_query y) query /\
    reads buf' (y_path y) (Some (default s2 path)).
Proof.
  intros Hs. destruct (split_first x23 s) as [s1 fr] eqn:E1.
  destruct (split_first_no_nul _ _ _ _ Hs E1) as [Hs1 Hfr].
  destruct (split_first x3f s1) as [s2 qu] eqn:E2.
  destruct (split_first_no_nul _ _ _ _ Hs1 E2) as [Hs2 Hqu].
  destruct (split_first x2f s2) as [s3 pa] eqn:E3.
  destruct (split_first_no_nul _ _ _ _ Hs2 E3) as [Hs3 Hpa].
  rewrite (yuarel_parse_buffer url A s R s1 fr s2 qu s3 pa) by done.
  pose proof (split_first_length _ _ _ _ E1). pose proof (split_first_length _ _ _ _ E2).
  pose proof (split_first_length _ _ _ _ E3).
  eexists _, _. split; [done|]. split_and!; cbn [y_fragment y_query y_path].
  - rewrite !length_app. cbn [length]. rewrite !length_app. lia.
  - by rewrite take_app_length.
  - destruct fr as [f|]; [|done]. cbn [blk reads].
    replace (A ++ s3 ++ x00 :: blk pa ++ blk qu ++ (f ++ [x00]) ++ R)
      with ((A ++ s3 ++ x00 :: blk pa ++ blk qu) ++ f ++ x00 :: R) by app_eq.
    by apply cstr_at_app.
  - destruct qu as [q|]; [|done]. cbn [blk reads].
    replace (A ++ s3 ++ x00 :: blk pa ++ (q ++ [x00]) ++ blk fr ++ R)
      with ((A ++ s3 ++ x00 :: blk pa) ++ q ++ x00 :: blk fr ++ R) by app_eq.
    by apply cstr_at_app.
  - destruct pa as [p|]; cbn [blk reads default].
    + replace (A ++ s3 ++ x00 :: (p ++ [x00]) ++ blk qu ++ blk fr ++ R)
        with ((A ++ s3 ++ [x00]) ++ p ++ x00 :: blk qu ++ blk fr ++ R) by app_eq.
      by apply cstr_at_app.
    + apply split_first_None in E3 as [-> _]. by apply cstr_at_app.
Qed.

(** The text of a relative URL, as [yuarel.h] gives it:
    [path [ "?" query ] [ "#" fragment ]]. *)
Definition print_relative (path : list byte) (query fragment : option (list byte)) : list byte :=
  path ++ match query with Some q => x3f :: q | None => [] end
       ++ match fragment with Some f => x23 :: f | None => [] end.

(** What the parser makes of a path: all that follows its first slash, wherever
    it is, and the path itself when it has none. *)
Definition after_first_slash (path : list byte) : list byte := default path (split_first x2f path).2.

Lemma split_printed path query fragment :
  x23 ∉ path -> x3f ∉ path -> match query with Some q => x23 ∉ q | None => True end ->
  exists s1, split_first x23 (print_relative path query fragment) = (s1, fragment) /\
    split_first x3f s1 = (path, query).
Proof.
  intros Hp Hp' Hq. exists (path ++ match query with Some q => x3f :: q | None => [] end).
  unfold print_relative. split.
  - assert (x23 ∉ path ++ match query with Some q => x3f :: q | None => [] end) as Hn.
    { rewrite elem_of_app. intros [H|H]; [done|]. destruct query as [q|]; [|by apply elem_of_nil in H].
      by apply elem_of_cons in H as [H|H]. }
    rewrite app_assoc. destruct fragment as [f|]; [by apply split_first_app|].
    rewrite app_nil_r. by apply split_first_absent.
  - destruct query as [q|]; [by apply split_first_app|]. rewrite app_nil_r. by apply split_first_absent.
Qed.

(** C23: parsing a printed relative URL, whatever of query and fragment it has,
    gives back the query and the fragment exactly, and of the path what follows
    its first slash; so the path itself when it has no slash, or is a slash and
    the rest, but [b] for [a/b].  The path has no question mark and no number
    sign, the query no number sign. *)
Theorem yuarel_parse_roundtrip url path query fragment R :
  no_nul (print_relative path query fragment) ->
  x23 ∉ path -> x3f ∉ path -> match query with Some q => x23 ∉ q | None => True end ->
  exists y buf',
    yuarel_parse (Some url) (Some O) (print_relative path query fragment ++ x00 :: R) = Ok (0, Some y, buf') /\
    reads buf' (y_query y) query /\ reads buf' (y_fragment y) fragment /\
    reads buf' (y_path y) (Some (after_first_slash path)) /\
    (x2f ∉ path -> after_first_slash path = path) /\
    (forall dir p, path = dir ++ x2f :: p -> x2f ∉ dir -> after_first_slash path = p).
Proof.
  intros Hs Hp Hp' Hq. destruct (split_printed path query fragment Hp Hp' Hq) as (s1 & E1 & E2).
  pose proof (yuarel_parse_spec url [] _ R Hs) as H. rewrite E1, E2 in H. unfold after_first_slash.
  destruct (split_first x2f path) as [s3 pa] eqn:E3. destruct H as (y & buf' & Hrun & _ & _ & Hfr & Hqu & Hpa).
  exists y, buf'. split_and!; [exact Hrun|done..| |].
  - intros Hn. rewrite split_first_absent in E3 by done. by injection E3 as <- <-.
  - intros dir p -> Hn. rewrite split_first_app in E3 by done. by injection E3 as <- <-.
Qed.

(** ** Queries *)

(** A parameter as it stands in the buffer: key, and value if there is one. *)
Definition param_at (buf : list byte) (p : yuarel_param) (a : list byte) : Prop :=
  let '(k, v) := split_first x3d a in
  cstr_at buf (yp_key p) = Some k /\ reads buf (yp_val p) v.

Lemma cstr_at_prefix X Y p s : cstr_at X p = Some s -> cstr_at (X ++ Y) p = Some s.
Proof.
  unfold cstr_at. intros H. destruct (c_str_inv _ _ H) as [Hs [r Hr]].
  destruct (decide (p <= length X)%nat).
  - rewrite drop_app_le, Hr, <- app_assoc by done. cbn [app]. by apply c_str_app.
  - rewrite drop_ge in Hr by lia. by destruct s.
Qed.

Lemma param_at_prefix X Y p a : param_at X p a -> param_at (X ++ Y) p a.
Proof.
  unfold param_at. destruct (split_first x3d a) as [k v]. intros [Hk Hv].
  split; [by apply cstr_at_prefix|]. unfold reads in *.
  destruct (yp_val p), v; [by apply cstr_at_prefix|done..].
Qed.

Lemma split_param_app A a R :
  no_nul a ->
  exists p a', split_param (length A) (A ++ a ++ x00 :: R) = Ok (p, A ++ a' ++ x00 :: R) /\
    length a' = length a /\ param_at (A ++ a' ++ [x00]) p a.
Proof.
  intros Ha. unfold split_param, param_at. rewrite strchr_app by done. mred.
  destruct (split_first x3d a) as [k v] eqn:E.
  destruct (split_first_no_nul _ _ _ _ Ha E) as [Hk Hv].
  destruct v as [v|].
  - apply split_first_Some in E as [-> _]. rewrite <- (app_assoc k). cbn [app].
    rewrite store_nul. mred. eexists _, (k ++ x00 :: v). split; [f_equal; f_equal; app_eq|].
    rewrite !length_app. split; [done|]. cbn [yp_key yp_val reads]. split.
    + rewrite <- (app_assoc k). cbn [app]. by apply cstr_at_app.
    + replace (A ++ (k ++ x00 :: v) ++ [x00]) with ((A ++ k ++ [x00]) ++ v ++ [x00]) by app_eq.
      apply cstr_at_app; [done|]. rewrite !length_app. simpl. lia.
  - apply split_first_None in E as [-> _]. eexists _, a. split; [done|]. split; [done|].
    cbn [yp_key yp_val reads]. split; [|done]. by apply cstr_at_app.
Qed.

Definition finish_query (r : outcome (list yuarel_param * nat * list byte))
  : outcome (Z * list yuarel_param * list byte) :=
  '(params, last, buf) ← r;
  '(prev, buf) ← split_param last buf;
  Ok (Z.of_nat (length params + 1), params ++ [prev], buf).

Lemma parse_query_loop_spec d n fuel max params A q R :
  d <> x00 -> no_nul q -> (length q < fuel)%nat ->
  n = Z.to_nat (max - Z.of_nat (length params + 1)) ->
  exists ps B,
    finish_query (parse_query_loop fuel (length A) d max params (length A) (A ++ q ++ x00 :: R))
    = Ok (Z.of_nat (length (params ++ ps)), params ++ ps, A ++ B ++ R) /\
    length B = S (length q) /\ Forall2 (param_at (A ++ B)) ps (split_max n d q).
Proof.
  intros Hd. revert fuel params A q. induction n as [|n IH]; intros fuel params A q Hq Hf Hn;
    (destruct fuel as [|fuel]; [lia|]); cbn [parse_query_loop split_max].
  - rewrite (proj2 (Z.ltb_ge _ _)) by lia. unfold finish_query. mred.
    destruct (split_param_app A q R Hq) as (p & q' & Hp & Hl & Hat). rewrite Hp. mred.
    exists [p], (q' ++ [x00]). rewrite !length_app. split; [do 3 f_equal; app_eq|].
    split; [simpl; lia|]. by repeat constructor.
  - rewrite (proj2 (Z.ltb_lt _ _)) by lia. rewrite strchr_app by done. mred.
    destruct (split_first d q) as [a o] eqn:E.
    destruct (split_first_no_nul _ _ _ _ Hq E) as [Ha Ho].
    pose proof (split_first_length _ _ _ _ E) as Hlen. destruct o as [t|].
    + apply split_first_Some in E as [-> _]. rewrite <- (app_assoc a). cbn [app].
      rewrite store_nul. mred.
      destruct (split_param_app A a (t ++ x00 :: R) Ha) as (p & a' & Hp & Hl & Hat).
      rewrite Hp. mred.
      replace (length A + length a + 1)%nat with (length (A ++ a' ++ [x00]))
        by (rewrite !length_app; simpl; lia).
      replace (A ++ a' ++ x00 :: t ++ x00 :: R) with ((A ++ a' ++ [x00]) ++ t ++ x00 :: R) by app_eq.
      rewrite length_app in Hf. cbn [length] in Hf.
      destruct (IH fuel (params ++ [p]) (A ++ a' ++ [x00]) t) as (ps & B & Hrun & HB & Hall);
        [done|lia|rewrite length_app; simpl; lia|].
      exists (p :: ps), (a' ++ x00 :: B). rewrite Hrun. split; [|split].
      * replace (A ++ (a' ++ x00 :: B) ++ R) with ((A ++ a' ++ [x00]) ++ B ++ R) by app_eq.
        by rewrite <- (app_assoc params).
      * rewrite !length_app. simpl. lia.
      * replace (A ++ a' ++ x00 :: B) with ((A ++ a' ++ [x00]) ++ B) by app_eq.
        constructor; [by apply param_at_prefix|done].
    + apply split_first_None in E as [-> _]. unfold finish_query. mred.
      destruct (split_param_app A q R Hq) as (p & q' & Hp & Hl & Hat). rewrite Hp. mred.
      exists [p], (q' ++ [x00]). rewrite !length_app. split; [do 3 f_equal; app_eq|].
      split; [simpl; lia|]. by repeat constructor.
Qed.

Lemma yuarel_parse_query_spec A q R d max :
  d <> x00 -> no_nul q -> q <> [] -> 0 < max ->
  exists ps B,
    yuarel_parse_query (Some (length A)) d max (A ++ q ++ x00 :: R)
    = Ok (Z.of_nat (length ps), ps, A ++ B ++ R) /\
    length B = S (length q) /\
    Forall2 (param_at (A ++ B ++ R)) ps (split_max (Z.to_nat (max - 1)) d q).
Proof.
  intros Hd Hq Hne Hmax. unfold yuarel_parse_query.
  destruct q as [|b q]; [done|]. cbn [app]. rewrite list_lookup_middle by done. mred.
  rewrite decide_False by (intros ->; apply Hq, elem_of_cons; by left).
  rewrite require_true by done. mred.
  destruct (parse_query_loop_spec d (Z.to_nat (max - 1))
    (S (length (A ++ (b :: q) ++ x00 :: R))) max [] A (b :: q) R) as (ps & B & Hrun & HB & Hall);
    [done|done|rewrite !length_app; simpl; lia|simpl; lia|].
  exists ps, B. unfold finish_query in Hrun. cbn [app] in Hrun. rewrite Hrun. split; [done|].
  split; [done|]. eapply Forall2_impl; [|exact Hall].
  intros p a Hpa. rewrite (app_assoc A). by apply param_at_prefix.
Qed.

Lemma yuarel_parse_query_empty d max buf p :
  buf !! p = Some x00 -> yuarel_parse_query (Some p) d max buf = Ok (-1, [], buf).
Proof. intros Hp. unfold yuarel_parse_query. by rewrite Hp. Qed.

(** C29: a non-empty query is cut at the delimiters into at most [max_params]
    parameters, each cut at its first [=]; nothing outside the query changes. *)
Theorem yuarel_parse_query_correct A q R d max :
  d <> x00 -> no_nul q -> q <> [] -> 0 < max ->
  exists ps B,
    yuarel_parse_query (Some (length A)) d max (A ++ q ++ x00 :: R)
    = Ok (Z.of_nat (length ps), ps, A ++ B ++ R) /\
    length B = S (length q) /\
    Forall2 (param_at (A ++ B ++ R)) ps (split_max (Z.to_nat (max - 1)) d q).
Proof. apply yuarel_parse_query_spec. Qed.

(** Without a query, or with an empty one, the parser returns -1 and writes
    nothing. *)
Theorem yuarel_parse_query_none d max buf q :
  match q with None => True | Some p => buf !! p = Some x00 end ->
  yuarel_parse_query q d max buf = Ok (-1, [], buf).
Proof. destruct q as [p|]; simpl; [|done]. intros Hp. rewrite Hp. done. Qed.
