(* ===== verification/ContextRace.v ===== *)
(** * Concurrent callers of the context pool

    The programs call the library from several threads: [on_work] of
    [examples/lwnbd-server.c] runs on libuv's pool and [service_thread] of
    [examples/mini-xinetd.c] on its own thread, and both reach
    [lwnbd_new_context] of [src/contexts.c] through [lwnbd_server_run].  The
    table it scans has no lock.  Here each access to [contexts_status] is one
    step, and the steps of the callers interleave in any order.

    With no two callers about to claim the same slot, every interleaving hands
    out what some sequential order of the calls would have ([Contexts.new_contexts]);
    without that restriction two callers can be given the same context.  In
    both cases every caller returns, and [NULL] only when no context is left. *)

From S2P Require Export Contexts.

(** ** One call *)

(** A caller of [lwnbd_new_context]: about to read the status of a slot, about
    to claim the slot it found free, or returned. *)
Inductive alloc := Scan (i : nat) | Claim (i : nat) | Done (r : option nat).

#[export] Instance alloc_eq_dec : EqDecision alloc.
Proof. solve_decision. Defined.

Definition alloc_step (t : alloc) (status : list context_state_t)
  : option (alloc * list context_state_t) :=
  match t with
  | Scan i =>
      if decide (i = MAX_CONTEXTS) then Some (Done None, status)
      else x ← status !! i; Some (if context_is_free x then Claim i else Scan (S i), status)
  | Claim i => Some (Done (Some i), <[i := CONTEXT_CREATED]> status)
  | Done _ => None
  end.

(** ** Several calls *)

Record callers := mk_callers { cs_status : list context_state_t; cs_threads : list alloc }.

(** [k] threads enter the function. *)
Definition enter (k : nat) (pl : context_pool) : callers :=
  mk_callers (contexts_status pl) (replicate k (Scan 0)).

(** Thread [j] takes a step. *)
Definition callers_step (j : nat) (s : callers) : option callers :=
  t ← cs_threads s !! j;
  '(t, status) ← alloc_step t (cs_status s);
  Some (mk_callers status (<[j := t]> (cs_threads s))).

(** A schedule is the sequence of the threads that step. *)
Fixpoint run_schedule (sched : list nat) (s : callers) : option callers :=
  match sched with
  | [] => Some s
  | j :: sched => s ← callers_step j s; run_schedule sched s
  end.

(** Two threads have found the same slot free and neither has claimed it. *)
Definition racy (s : callers) : Prop :=
  exists j k i, j <> k /\ cs_threads s !! j = Some (Claim i) /\ cs_threads s !! k = Some (Claim i).

(** The states of the schedules that never get there. *)
Inductive race_free (s0 : callers) : callers -> Prop :=
  | rf_init : race_free s0 s0
  | rf_step j s s' :
      race_free s0 s -> callers_step j s = Some s' -> ~ racy s' -> race_free s0 s'.

(** What the threads that have returned were given. *)
Definition slot_given (t : alloc) : option nat :=
  match t with Done (Some i) => Some i | _ => None end.

Definition answer (t : alloc) : option (option nat) :=
  match t with Done r => Some r | _ => None end.

(** ** Every interleaving *)

(** The steps a thread still has to take. *)
Definition remaining (t : alloc) : nat :=
  match t with Scan i => (MAX_CONTEXTS - i + 2)%nat | Claim _ => 1 | Done _ => 0 end.

Definition work (s : callers) : nat := sum_list (remaining <$> cs_threads s).

(** A thread's knowledge: it has seen every slot before its index taken. *)
Definition taken_up_to (i : nat) (status : list context_state_t) : Prop :=
  forall m, (m < i)%nat -> status !! m = Some CONTEXT_CREATED.

Definition thread_ok (status : list context_state_t) (t : alloc) : Prop :=
  match t with
  | Scan i => (i <= MAX_CONTEXTS)%nat /\ taken_up_to i status
  | Claim i => (i < MAX_CONTEXTS)%nat /\ taken_up_to i status
  | Done (Some i) => (i < MAX_CONTEXTS)%nat /\ status !! i = Some CONTEXT_CREATED
  | Done None => taken_up_to MAX_CONTEXTS status
  end.

Definition callers_ok (s : callers) : Prop :=
  length (cs_status s) = MAX_CONTEXTS /\ Forall (thread_ok (cs_status s)) (cs_threads s).

(** Taken slots stay taken. *)
Lemma thread_ok_claim status i t :
  thread_ok status t -> thread_ok (<[i := CONTEXT_CREATED]> status) t.
Proof.
  assert (forall m, status !! m = Some CONTEXT_CREATED ->
    <[i := CONTEXT_CREATED]> status !! m = Some CONTEXT_CREATED) as Hm.
  { intros m Hm. destruct (decide (i = m)) as [->|]; [|by rewrite list_lookup_insert_ne].
    apply list_lookup_insert_eq. by eapply lookup_lt_Some. }
  destruct t as [j|j|[j|]]; cbn; unfold taken_up_to; naive_solver.
Qed.

Lemma alloc_step_ok t status t' status' :
  length status = MAX_CONTEXTS -> thread_ok status t -> alloc_step t status = Some (t', status') ->
  length status' = MAX_CONTEXTS /\ thread_ok status' t' /\
  (forall u, thread_ok status u -> thread_ok status' u) /\ (remaining t' < remaining t)%nat.
Proof.
  intros Hl Hok Hs. destruct t as [i|i|r]; cbn in Hs.
  - destruct Hok as [Hi Hseen]. case_decide as Hd; [simplify_eq; split_and!; cbn; auto; lia|].
    destruct (status !! i) as [x|] eqn:Hx; [|done]. cbn in Hs. simplify_eq.
    split; [done|]. destruct x; cbn [context_is_free thread_ok remaining].
    + split_and!; auto; lia.
    + split; [|split; [auto|lia]]. split; [lia|]. intros m Hm.
      destruct (decide (m = i)) as [->|]; [done|]. apply Hseen. lia.
  - simplify_eq. destruct Hok as [Hi Hseen]. split; [by rewrite length_insert|].
    split; [|split; [intros u; apply thread_ok_claim|cbn; lia]].
    split; [done|]. apply list_lookup_insert_eq. lia.
  - done.
Qed.

Lemma alloc_step_enabled t status :
  length status = MAX_CONTEXTS -> thread_ok status t -> (0 < remaining t)%nat ->
  is_Some (alloc_step t status).
Proof.
  intros Hl Hok Hr. destruct t as [i|i|r]; cbn in *; [|by eexists|lia].
  case_decide as Hd; [by eexists|].
  destruct (lookup_lt_is_Some_2 status i) as [x ->]; [lia|]. by eexists.
Qed.

Lemma callers_step_inv j s s' :
  callers_step j s = Some s' -> exists t t' status', cs_threads s !! j = Some t /\
    alloc_step t (cs_status s) = Some (t', status') /\
    s' = mk_callers status' (<[j := t']> (cs_threads s)).
Proof.
  unfold callers_step. intros H. destruct (cs_threads s !! j) as [t|] eqn:Ht; [|done]. cbn in H.
  destruct (alloc_step t _) as [[t' status']|] eqn:E; [|done]. cbn in H. simplify_eq. by eexists _, _, _.
Qed.

Lemma sum_list_insert (l : list nat) j x y :
  l !! j = Some x -> (sum_list (<[j := y]> l) + x = sum_list l + y)%nat.
Proof.
  revert j; induction l as [|z l IH]; intros [|j] Hj; simpl in *; [done|done|simplify_eq; lia|].
  specialize (IH j Hj). lia.
Qed.

Lemma callers_step_ok j s s' :
  callers_ok s -> callers_step j s = Some s' ->
  callers_ok s' /\ (work s' < work s)%nat /\ length (cs_threads s') = length (cs_threads s).
Proof.
  intros [Hl Hts] Hs. apply callers_step_inv in Hs as (t & t' & status' & Ht & Ha & ->).
  destruct (alloc_step_ok t (cs_status s) t' status' Hl) as (Hl' & Hok' & Hall & Hrem);
    [by eapply Forall_lookup_1|done|].
  split; [|split; [|cbn; by rewrite length_insert]].
  - split; [done|]. cbn. apply Forall_insert; [|done]. by eapply Forall_impl.
  - unfold work. cbn. rewrite list_fmap_insert.
    pose proof (sum_list_insert (remaining <$> cs_threads s) j (remaining t) (remaining t')) as H.
    rewrite list_lookup_fmap, Ht in H. specialize (H eq_refl). lia.
Qed.

Lemma run_schedule_ok sched s s' :
  callers_ok s -> run_schedule sched s = Some s' ->
  callers_ok s' /\ (length sched + work s' <= work s)%nat /\
  length (cs_threads s') = length (cs_threads s).
Proof.
  revert s; induction sched as [|j sched IH]; intros s Hok Hs; cbn in Hs; [simplify_eq; done|].
  destruct (callers_step j s) as [s1|] eqn:E; [|done]. cbn in Hs.
  apply callers_step_ok in E as (Hok1 & Hw & Hl); [|done].
  apply IH in Hs as (Hok2 & Hw2 & Hl2); [|done]. split; [done|]. cbn. lia.
Qed.

Lemma enter_ok k pl : pool_ok pl -> callers_ok (enter k pl).
Proof.
  intros (_ & _ & n & Hn & Hs). split; cbn; [by rewrite Hs, length_slots|].
  apply Forall_replicate. split; [lia|]. intros m. lia.
Qed.

Lemma work_enter k pl : work (enter k pl) = (k * (MAX_CONTEXTS + 2))%nat.
Proof. unfold work, enter. cbn [cs_threads]. induction k; cbn -[MAX_CONTEXTS remaining] in *; [done|]. cbn [remaining]. lia. Qed.

(** C16: under every interleaving of [k] callers: whoever is given a context is given
    one of the pool, marked as created; [NULL] is answered only when every
    context is taken, by then or for good; each step brings the calls nearer
    to their end, so that no schedule has more than [k * (MAX_CONTEXTS + 2)]
    steps, and a caller that has not returned can always step. *)
Theorem concurrent_new_context_safe k pl sched s :
  pool_ok pl -> run_schedule sched (enter k pl) = Some s ->
  (length sched <= k * (MAX_CONTEXTS + 2))%nat /\
  forall j t, cs_threads s !! j = Some t ->
    match t with
    | Done (Some i) => (i < MAX_CONTEXTS)%nat /\ cs_status s !! i = Some CONTEXT_CREATED
    | Done None => cs_status s = replicate MAX_CONTEXTS CONTEXT_CREATED
    | _ => is_Some (callers_step j s)
    end.
Proof.
  intros Hp Hs. pose proof (enter_ok k pl Hp) as Hok.
  destruct (run_schedule_ok _ _ _ Hok Hs) as ([Hl Hts] & Hw & _). rewrite work_enter in Hw.
  split; [lia|]. intros j t Ht. pose proof (Forall_lookup_1 _ _ _ _ Hts Ht) as Hok'.
  assert ((0 < remaining t)%nat -> is_Some (callers_step j s)) as Hen.
  { intros Hr. destruct (alloc_step_enabled t (cs_status s) Hl Hok' Hr) as [[t' status'] E].
    unfold callers_step. rewrite Ht. cbn. rewrite E. by eexists. }
  destruct t as [i|i|[i|]]; [apply Hen; cbn [remaining]; lia|apply Hen; cbn; lia|done|].
  apply list_eq. intros m. destruct (decide (m < MAX_CONTEXTS)%nat) as [Hm|Hm].
  - rewrite lookup_replicate_2 by done. by apply Hok'.
  - by rewrite !lookup_ge_None_2 by (rewrite ?length_replicate; lia).
Qed.

(** ** Callers that do not race *)

Lemma slots_free_lookup n :
  (n < MAX_CONTEXTS)%nat ->
  slots CONTEXT_CREATED CONTEXT_FREE MAX_CONTEXTS n !! n = Some CONTEXT_FREE.
Proof.
  intros. unfold slots. rewrite lookup_app_r by (rewrite length_replicate; lia).
  rewrite length_replicate, Nat.sub_diag. apply lookup_replicate_2. lia.
Qed.

(** The statuses are a prefix of taken slots; nobody has looked beyond it, and
    the slots handed out are those added to it. *)
Definition ordered_thread (n : nat) (t : alloc) : Prop :=
  match t with
  | Scan i => (i <= n)%nat
  | Claim i => i = n /\ (n < MAX_CONTEXTS)%nat
  | Done (Some _) => True
  | Done None => n = MAX_CONTEXTS
  end.

Definition ordered (n0 n : nat) (s : callers) : Prop :=
  (n0 <= n <= MAX_CONTEXTS)%nat /\
  cs_status s = slots CONTEXT_CREATED CONTEXT_FREE MAX_CONTEXTS n /\
  Forall (ordered_thread n) (cs_threads s) /\
  omap slot_given (cs_threads s) ≡ₚ seq n0 (n - n0).

Lemma omap_insert_none {A B} (f : A -> option B) (l : list A) j x y :
  l !! j = Some x -> f x = None -> f y = None -> omap f (<[j := y]> l) = omap f l.
Proof.
  revert j; induction l as [|z l IH]; intros [|j] Hj Hx Hy; simpl in *; [done|done| |].
  - simplify_eq. by rewrite Hx, Hy.
  - by rewrite IH.
Qed.

Lemma omap_insert_some {A B} (f : A -> option B) (l : list A) j x y b :
  l !! j = Some x -> f x = None -> f y = Some b -> omap f (<[j := y]> l) ≡ₚ b :: omap f l.
Proof.
  revert j; induction l as [|z l IH]; intros [|j] Hj Hx Hy; simpl in *; [done|done| |].
  - simplify_eq. by rewrite Hx, Hy.
  - specialize (IH j Hj Hx Hy). destruct (f z); [|done].
    etransitivity; [by apply perm_skip|apply perm_swap].
Qed.

Lemma ordered_step n0 n j s s' :
  ordered n0 n s -> ~ racy s -> callers_step j s = Some s' -> exists n', ordered n0 n' s'.
Proof.
  intros (Hn & Hst & Hts & Hg) Hr Hs. apply callers_step_inv in Hs as (t & t' & status' & Ht & Ha & ->).
  pose proof (Forall_lookup_1 _ _ _ _ Hts Ht) as Hok. rewrite Hst in Ha.
  destruct t as [i|i|r]; cbn in Ha; [| |done].
  - exists n. case_decide as Hd.
    + simplify_eq. cbn in Hok. split; [done|]. split; [done|]. cbn. split.
      * apply Forall_insert; [done|]. cbn. lia.
      * by erewrite omap_insert_none by done.
    + cbn in Hok. destruct (decide (i = n)) as [->|Hne].
      * rewrite slots_free_lookup in Ha by lia. cbn in Ha. simplify_eq. split; [done|].
        split; [done|]. cbn. split; [apply Forall_insert; [done|]; cbn; lia|].
        by erewrite omap_insert_none by done.
      * rewrite slots_lookup in Ha by lia. cbn in Ha. simplify_eq. split; [done|].
        split; [done|]. cbn. split; [apply Forall_insert; [done|]; cbn; lia|].
        by erewrite omap_insert_none by done.
  - destruct Hok as [-> Hlt]. simplify_eq. exists (S n). split; [lia|]. cbn. split; [by apply slots_insert|].
    split.
    + apply Forall_lookup_2. intros k u Hu.
      destruct (decide (j = k)) as [<-|Hjk].
      { rewrite list_lookup_insert_eq in Hu by (by eapply lookup_lt_Some). by simplify_eq. }
      rewrite list_lookup_insert_ne in Hu by done.
      pose proof (Forall_lookup_1 _ _ _ _ Hts Hu) as Hok. destruct u as [i|i|[i|]]; cbn in *; try lia.
      destruct Hok as [-> _]. destruct Hr. by exists j, k, n.
    + rewrite omap_insert_some by done. rewrite Hg.
      replace (S n - n0)%nat with (n - n0 + 1)%nat by lia. rewrite seq_app. cbn.
      replace (n0 + (n - n0))%nat with n by lia. by rewrite Permutation_app_comm.
Qed.

Lemma enter_ordered k pl :
  pool_ok pl -> ordered (lwnbd_contexts_count pl) (lwnbd_contexts_count pl) (enter k pl) /\ ~ racy (enter k pl).
Proof.
  intros (_ & _ & n & Hn & Hs). unfold lwnbd_contexts_count. rewrite Hs, find_slot_slots by done.
  split.
  - split; [lia|]. split; [done|]. cbn. split.
    + apply Forall_replicate. cbn. lia.
    + rewrite Nat.sub_diag. by induction k.
  - intros (j & m & i & _ & Hj & _). cbn in Hj. by apply lookup_replicate in Hj as [? _].
Qed.

Lemma race_free_ordered k pl s :
  pool_ok pl -> race_free (enter k pl) s ->
  exists n, ordered (lwnbd_contexts_count pl) n s /\ ~ racy s /\ length (cs_threads s) = k.
Proof.
  intros Hp. destruct (enter_ordered k pl Hp) as [Ho Hr].
  induction 1 as [|j s s' _ (n & Hos & Hrs & Hl) Hs Hr'].
  - eexists. split; [done|]. split; [done|]. apply length_replicate.
  - destruct (ordered_step _ _ _ _ _ Hos Hrs Hs) as [n' Hn']. exists n'. split; [done|]. split; [done|].
    apply callers_step_inv in Hs as (t & t' & status' & _ & _ & ->). cbn. by rewrite length_insert.
Qed.

Lemma new_contexts_status k pl :
  pool_ok pl ->
  contexts_status (new_contexts k pl).2
  = slots CONTEXT_CREATED CONTEXT_FREE MAX_CONTEXTS (Nat.min MAX_CONTEXTS (lwnbd_contexts_count pl + k)).
Proof.
  revert pl; induction k as [|k IH]; intros pl Hp; cbn [new_contexts].
  - destruct Hp as (_ & _ & n & Hn & Hs). unfold lwnbd_contexts_count.
    cbn [snd]. rewrite Hs, find_slot_slots by done. f_equal. lia.
  - pose proof (new_context_spec pl Hp) as Hn. pose proof (contexts_count_le pl Hp). cbv zeta in Hn.
    case_decide as Hc.
    + rewrite Hn. specialize (IH pl Hp). destruct (new_contexts k pl) as [rs pl']. cbn [snd] in *.
      rewrite IH. f_equal. lia.
    + destruct Hn as (pl1 & -> & Hp1 & _ & Hc1). specialize (IH pl1 Hp1).
      destruct (new_contexts k pl1) as [rs pl']. cbn [snd] in *. rewrite IH, Hc1. f_equal. lia.
Qed.

(** The answers of [k] calls in a row. *)
Lemma new_contexts_answers k pl :
  pool_ok pl ->
  let n0 := lwnbd_contexts_count pl in
  let m := Nat.min k (MAX_CONTEXTS - n0) in
  (new_contexts k pl).1 = (Some <$> seq n0 m) ++ replicate (k - m) None.
Proof.
  intros Hp n0 m. pose proof (new_contexts_spec k pl Hp) as H. pose proof (contexts_count_le pl Hp).
  destruct (new_contexts k pl) as [rs pl']. destruct H as (_ & Hl & Hr). cbn [fst].
  apply list_eq. intros j. destruct (decide (j < k)%nat) as [Hj|Hj].
  - rewrite (Hr j Hj). fold n0. case_decide as Hd.
    + rewrite lookup_app_l by (rewrite length_fmap, length_seq; lia).
      rewrite list_lookup_fmap, lookup_seq_lt by lia. done.
    + rewrite lookup_app_r by (rewrite length_fmap, length_seq; lia).
      rewrite length_fmap, length_seq, lookup_replicate_2 by lia. done.
  - rewrite !lookup_ge_None_2; [done| |lia].
    rewrite length_app, length_fmap, length_seq, length_replicate. lia.
Qed.

Lemma answers_split l :
  Forall (fun t => is_Some (answer t)) l ->
  omap answer l ≡ₚ (Some <$> omap slot_given l) ++ replicate (length l - length (omap slot_given l)) None /\
  (length (omap slot_given l) <= length l)%nat /\
  (length (omap slot_given l) < length l -> Done None ∈ l)%nat.
Proof.
  induction 1 as [|t l [r Hr] _ (IH & Hle & Hin)]; [split; [done|]; simpl; lia|].
  destruct t as [i|i|r']; simplify_eq/=. destruct r as [i|]; simpl.
  - rewrite IH. split; [done|]. split; [lia|]. intros. right. apply Hin. lia.
  - split; [|split; [lia|by left]]. rewrite IH.
    replace (S (length l) - length (omap slot_given l))%nat
      with (S (length l - length (omap slot_given l))) by lia. cbn.
    apply Permutation_middle.
Qed.

(** C14: calls that do not race are atomic: when they have all returned, the answers
    are those [Contexts.new_contexts] gives to as many calls one after the
    other, in some order, and the table is the one it leaves.  In particular
    no two callers are given the same context. *)
Theorem race_free_linearizable k pl s :
  pool_ok pl -> race_free (enter k pl) s ->
  Forall (fun t => is_Some (answer t)) (cs_threads s) ->
  omap answer (cs_threads s) ≡ₚ (new_contexts k pl).1 /\
  cs_status s = contexts_status (new_contexts k pl).2 /\
  NoDup (omap slot_given (cs_threads s)).
Proof.
  intros Hp Hrf Hdone. destruct (race_free_ordered k pl s Hp Hrf) as (n & (Hn & Hst & Hts & Hg) & _ & Hl).
  destruct (answers_split _ Hdone) as (Hans & Hle & Hnone).
  assert (length (omap slot_given (cs_threads s)) = n - lwnbd_contexts_count pl)%nat as Hlen
    by (by rewrite Hg, length_seq).
  rewrite Hlen, Hl in *.
  assert (n - lwnbd_contexts_count pl = Nat.min k (MAX_CONTEXTS - lwnbd_contexts_count pl))%nat as Hm.
  { destruct (decide (n - lwnbd_contexts_count pl < k)%nat) as [Hlt|]; [|lia].
    apply Hnone in Hlt. apply list_elem_of_lookup_1 in Hlt as [j Hj].
    pose proof (Forall_lookup_1 _ _ _ _ Hts Hj) as Hok. cbn in Hok. lia. }
  split; [|split].
  - rewrite (new_contexts_answers k pl Hp). cbv zeta. rewrite <- Hm, Hans, Hg. done.
  - rewrite Hst, new_contexts_status by done. f_equal. lia.
  - rewrite Hg. apply NoDup_seq.
Qed.

(** ** A call that is not interrupted, and two that are *)

Lemma run_schedule_app a b s :
  run_schedule (a ++ b) s = s ← run_schedule a s; run_schedule b s.
Proof.
  revert s; induction a as [|j a IH]; intros s; [done|]. cbn. destruct (callers_step j s) as [s1|]; [|done].
  cbn. apply IH.
Qed.

(** A thread that scans alone: it stops at the first free slot. *)
Lemma scan_alone m n ts j i :
  (i + m <= n)%nat -> (n <= MAX_CONTEXTS)%nat -> ts !! j = Some (Scan i) ->
  run_schedule (replicate m j) (mk_callers (slots CONTEXT_CREATED CONTEXT_FREE MAX_CONTEXTS n) ts)
  = Some (mk_callers (slots CONTEXT_CREATED CONTEXT_FREE MAX_CONTEXTS n) (<[j := Scan (i + m)]> ts)).
Proof.
  revert i ts; induction m as [|m IH]; intros i ts Hi Hn Hj; cbn [replicate run_schedule].
  - rewrite Nat.add_0_r, list_insert_id by done. done.
  - unfold callers_step at 1. cbn [cs_threads cs_status]. rewrite Hj. cbn.
    rewrite decide_False by lia. rewrite slots_lookup by lia. cbn.
    rewrite (IH (S i)); [|lia|done|].
    + rewrite list_insert_insert_eq. by rewrite Nat.add_succ_comm.
    + apply list_lookup_insert_eq. by eapply lookup_lt_Some.
Qed.

(** ... and finds it free. *)
Lemma scan_finds n ts j :
  (n < MAX_CONTEXTS)%nat -> ts !! j = Some (Scan 0) ->
  run_schedule (replicate (n + 1) j) (mk_callers (slots CONTEXT_CREATED CONTEXT_FREE MAX_CONTEXTS n) ts)
  = Some (mk_callers (slots CONTEXT_CREATED CONTEXT_FREE MAX_CONTEXTS n) (<[j := Claim n]> ts)).
Proof.
  intros Hn Hj. rewrite replicate_add, run_schedule_app, (scan_alone n n ts j 0) by (done || lia).
  cbn. unfold callers_step. cbn [cs_threads cs_status].
  rewrite list_lookup_insert_eq by by eapply lookup_lt_Some. cbn.
  rewrite decide_False by lia. rewrite slots_free_lookup by done. cbn. by rewrite list_insert_insert_eq.
Qed.

(** A thread that is not interrupted performs the atomic operation. *)
Theorem uninterrupted_call k pl j :
  pool_ok pl -> (j < k)%nat ->
  exists m, (m <= MAX_CONTEXTS + 2)%nat /\
    run_schedule (replicate m j) (enter k pl)
    = Some (mk_callers (contexts_status (lwnbd_new_context pl).2)
              (<[j := Done (lwnbd_new_context pl).1]> (replicate k (Scan 0)))).
Proof.
  intros (_ & _ & n & Hn & Hs) Hj. unfold lwnbd_new_context, enter. rewrite Hs, find_slot_slots by done.
  assert (replicate k (Scan 0) !! j = Some (Scan 0)) as Ht by by apply lookup_replicate_2.
  destruct (decide (n = MAX_CONTEXTS)) as [->|Hne]; cbn [fst snd contexts_status].
  - exists (MAX_CONTEXTS + 1)%nat. split; [lia|].
    rewrite replicate_add, run_schedule_app, (scan_alone MAX_CONTEXTS MAX_CONTEXTS _ j 0) by (done || lia).
    cbn [mbind option_bind replicate run_schedule]. unfold callers_step. cbn [cs_threads cs_status].
    rewrite list_lookup_insert_eq by by rewrite length_replicate. cbn -[MAX_CONTEXTS].
    rewrite decide_True by done. cbn. by rewrite Hs, list_insert_insert_eq.
  - exists (n + 1 + 1)%nat. split; [lia|].
    rewrite replicate_add, run_schedule_app, scan_finds by (done || lia).
    cbn. unfold callers_step. cbn [cs_threads cs_status].
    rewrite list_lookup_insert_eq by by rewrite length_replicate. cbn. by rewrite list_insert_insert_eq.
Qed.

(** C15: two connections that negotiate at the same time: as long as a context is
    left, there is an interleaving in which both are given the first free one,
    of which the table counts one. *)
Theorem concurrent_new_context_race pl :
  pool_ok pl -> (lwnbd_contexts_count pl < MAX_CONTEXTS)%nat ->
  let n := lwnbd_contexts_count pl in
  exists sched s, run_schedule sched (enter 2 pl) = Some s /\
    cs_threads s = [Done (Some n); Done (Some n)] /\
    cs_status s = contexts_status (lwnbd_new_context pl).2 /\
    (new_contexts 2 pl).1 <> [Some n; Some n].
Proof.
  intros Hp Hlt. cbv zeta. pose proof (new_contexts_answers 2 pl Hp) as Hseq. cbv zeta in Hseq.
  destruct Hp as (_ & _ & n & Hn & Hs).
  assert (lwnbd_contexts_count pl = n) as Hc
    by (unfold lwnbd_contexts_count; by rewrite Hs, find_slot_slots).
  rewrite Hc in *.
  assert ((new_contexts 2 pl).1 <> [Some n; Some n]) as Hne.
  { rewrite Hseq. destruct (MAX_CONTEXTS - n)%nat as [|[|x]]; cbn; intros [=]; lia. }
  exists (replicate (n + 1) 0%nat ++ replicate (n + 1) 1%nat ++ [0; 1])%nat. eexists.
  unfold enter. rewrite Hs, run_schedule_app, scan_finds by done. cbn [mbind option_bind].
  rewrite run_schedule_app, scan_finds by done. cbn. unfold callers_step. cbn.
  split; [done|]. split; [done|]. split; [|exact Hne].
  unfold lwnbd_new_context. rewrite Hs, find_slot_slots by done. rewrite decide_False by lia.
  cbn. by rewrite list_insert_insert_eq.
Qed.

(** ** Two callers *)

Definition both (t u : alloc) (n : nat) : callers :=
  mk_callers (slots CONTEXT_CREATED CONTEXT_FREE MAX_CONTEXTS n) [t; u].

Lemma concurrent_new_context_safe_witness :
  run_schedule [0; 1; 0]%nat (enter 2 initial_pool) = Some (both (Done (Some 0%nat)) (Claim 0) 1) /\
  (3 <= 2 * (MAX_CONTEXTS + 2))%nat /\
  forall j t, [Done (Some 0%nat); Claim 0] !! j = Some t ->
    match t with
    | Done (Some i) => (i < MAX_CONTEXTS)%nat /\
        slots CONTEXT_CREATED CONTEXT_FREE MAX_CONTEXTS 1 !! i = Some CONTEXT_CREATED
    | Done None => slots CONTEXT_CREATED CONTEXT_FREE MAX_CONTEXTS 1
        = replicate MAX_CONTEXTS CONTEXT_CREATED
    | _ => is_Some (callers_step j (both (Done (Some 0%nat)) (Claim 0) 1))
    end.
Proof.
  split; [reflexivity|].
  apply (concurrent_new_context_safe 2 initial_pool [0; 1; 0]%nat (both (Done (Some 0%nat)) (Claim 0) 1)).
  - exact initial_pool_ok.
  - reflexivity.
Defined.

Lemma both_not_racy t u n : (forall i, t = Claim i -> u <> Claim i) -> ~ racy (both t u n).
Proof.
  intros H (j & k & i & Hjk & Hj & Hk). destruct j as [|[|j]], k as [|[|k]]; simplify_eq/=; naive_solver.
Qed.

Lemma two_calls_race_free :
  race_free (enter 2 initial_pool) (both (Done (Some 0%nat)) (Done (Some 1%nat)) 2).
Proof.
  apply (rf_step _ 1 (both (Done (Some 0%nat)) (Claim 1) 1)); [|reflexivity|by apply both_not_racy].
  apply (rf_step _ 1 (both (Done (Some 0%nat)) (Scan 1) 1)); [|reflexivity|by apply both_not_racy].
  apply (rf_step _ 1 (both (Done (Some 0%nat)) (Scan 0) 1)); [|reflexivity|by apply both_not_racy].
  apply (rf_step _ 0 (both (Claim 0) (Scan 0) 0)); [|reflexivity|by apply both_not_racy].
  apply (rf_step _ 0 (both (Scan 0) (Scan 0) 0)); [apply rf_init|reflexivity|by apply both_not_racy].
Qed.

Lemma race_free_linearizable_witness :
  omap answer [Done (Some 0%nat); Done (Some 1%nat)] ≡ₚ (new_contexts 2 initial_pool).1 /\
  slots CONTEXT_CREATED CONTEXT_FREE MAX_CONTEXTS 2 = contexts_status (new_contexts 2 initial_pool).2 /\
  NoDup (omap slot_given [Done (Some 0%nat); Done (Some 1%nat)]).
Proof.
  apply (race_free_linearizable 2 initial_pool (both (Done (Some 0%nat)) (Done (Some 1%nat)) 2)).
  - exact initial_pool_ok.
  - exact two_calls_race_free.
  - repeat constructor; by eexists.
Defined.

Lemma concurrent_new_context_race_witness :
  exists sched s, run_schedule sched (enter 2 initial_pool) = Some s /\
    cs_threads s = [Done (Some 0%nat); Done (Some 0%nat)] /\
    cs_status s = contexts_status (lwnbd_new_context initial_pool).2 /\
    (new_contexts 2 initial_pool).1 <> [Some 0%nat; Some 0%nat].
Proof. apply (concurrent_new_context_race initial_pool); [exact initial_pool_ok|by_decide]. Defined.

Lemma uninterrupted_call_witness :
  exists m, (m <= MAX_CONTEXTS + 2)%nat /\
    run_schedule (replicate m 0%nat) (enter 2 initial_pool)
    = Some (mk_callers (contexts_status (lwnbd_new_context initial_pool).2)
              (<[0%nat := Done (lwnbd_new_context initial_pool).1]> [Scan 0; Scan 0])).
Proof. apply (uninterrupted_call 2 initial_pool 0); [exact initial_pool_ok|lia]. Defined.
