(* ===== verification/ContextsUri.v ===== *)
(** * Looking an export up by URI: [src/contexts_uri.c]

    [lwnbd_get_context] parses the option data a client sent, in place, finds
    the context the path names, lets its plugin handle the query and refreshes
    its size.  The parameters a plugin receives are pointers into the parsed
    buffer; they are read back from it here. *)

From S2P Require Export Plugins Yuarel.

Definition MAX_QUERY : nat := 3.

Section uri.
Context {W Cfg : Type} (plugin_mem : nat -> lwnbd_plugin_t W Cfg).
Implicit Types (s : lib W).

(** A [struct yuarel_param] seen as a [struct query_t]. *)
Definition read_param (buf : list byte) (p : yuarel_param) : outcome query_t :=
  k ← of_option Unterminated (cstr_at buf (yp_key p));
  match yp_val p with
  | None => Ok (mk_query k None)
  | Some q => v ← of_option Unterminated (cstr_at buf q); Ok (mk_query k (Some v))
  end.

Fixpoint read_params (buf : list byte) (ps : list yuarel_param) : outcome (list query_t) :=
  match ps with
  | [] => Ok []
  | p :: ps => q ← read_param buf p; qs ← read_params buf ps; Ok (q :: qs)
  end.

(** The local array [params[MAX_QUERY]] after the parse: the entries that
    were not written are indeterminate. *)
Definition params_array (buf : list byte) (ps : list yuarel_param) : outcome query_params :=
  qs ← read_params buf ps;
  Ok ((Some <$> qs) ++ replicate (MAX_QUERY - length qs) None).

(** The debug lines that print path, query and fragment with [%s], also when
    there is no query or no fragment, are left out with the rest of logging. *)
Definition lwnbd_get_context (uri : nat) (buf : list byte) s
  : outcome (option nat * list byte * lib W) :=
  '(r, url, buf) ← yuarel_parse (Some (mk_yuarel None None None)) (Some uri) buf;
  if r =? -1 then Ok (None, buf, s)
  else
    url ← of_option Uninitialised url;
    '(pa, ps, buf) ← yuarel_parse_query (y_query url) x26 (Z.of_nat MAX_QUERY) buf;
    path ← of_option NullDeref (y_path url);
    path ← of_option Unterminated (cstr_at buf path);
    oc ← lwnbd_get_context_string (l_pool s) path;
    match oc with
    | None => Ok (None, buf, s)
    | Some i =>
        c ← context_at (l_pool s) i;
        a ← of_option NullDeref (c_p c);
        '(ret, w) ← (match pl_query (plugin_mem a) with
                     | None => Ok (0, l_world s)
                     | Some query =>
                         params ← params_array buf ps;
                         query (c_handle c) params pa (l_world s)
                     end);
        if negb (ret =? 0) then Ok (None, buf, set_world w s)
        else
          '(c, _, w) ← lwnbd_update_size plugin_mem c w;
          Ok (Some i, buf, set_pool (update_context i c (l_pool s)) (set_world w s))
    end.

(** ** What a URI means *)

(** The text before the fragment, then before the query. *)
Definition uri_resource (uri : list byte) : list byte * option (list byte) :=
  split_first x3f (split_first x23 uri).1.

(** What follows the first slash, or everything when there is none. *)
Definition uri_path (uri : list byte) : list byte :=
  let p := (uri_resource uri).1 in default p (split_first x2f p).2.

Definition uri_query (uri : list byte) : option (list byte) := (uri_resource uri).2.

Definition query_of (a : list byte) : query_t :=
  let '(k, v) := split_first x3d a in mk_query k v.

(** The parameters a plugin is handed and their count: at most three, and
    [-1] when there is no query. *)
Definition uri_params (uri : list byte) : query_params * Z :=
  match uri_query uri with
  | None | Some [] => (replicate MAX_QUERY None, -1)
  | Some q =>
      let ps := split_max (MAX_QUERY - 1) x26 q in
      ((Some <$> (query_of <$> ps)) ++ replicate (MAX_QUERY - length ps) None,
       Z.of_nat (length ps))
  end.

(** The first created context of a name. *)
Definition export_named (pl : context_pool) (name : list byte) : option (nat * lwnbd_context_t) :=
  list_find (fun c => c_str (c_name c) = Some name)
    (take (lwnbd_contexts_count pl) (contexts pl)).

(** Opening an export, on the URI as a value. *)
Definition open_export (uri : list byte) s : outcome (option nat * lib W) :=
  match export_named (l_pool s) (uri_path uri) with
  | None => Ok (None, s)
  | Some (i, c) =>
      a ← of_option NullDeref (c_p c);
      let '(params, n) := uri_params uri in
      '(ret, w) ← (match pl_query (plugin_mem a) with
                   | None => Ok (0, l_world s)
                   | Some query => query (c_handle c) params n (l_world s)
                   end);
      if negb (ret =? 0) then Ok (None, set_world w s)
      else
        '(c, _, w) ← lwnbd_update_size plugin_mem c w;
        Ok (Some i, set_pool (update_context i c (l_pool s)) (set_world w s))
  end.

(** ** Lemmas *)

Lemma export_named_result pl name :
  pool_ok pl -> lookup_result pl name (fst <$> export_named pl name).
Proof.
  intros Hp. pose proof (contexts_count_le _ Hp) as Hle. destruct Hp as (Hl & _).
  unfold export_named. destruct (list_find _ _) as [[i c]|] eqn:E; simpl.
  - apply list_find_Some in E as (Hi & Hc & Hb). apply lookup_take_Some in Hi as [Hi Hlt].
    split_and!; [done|by exists c|]. intros j Hj (c' & Hc' & Hn).
    apply (Hb j c'); [|done..]. apply lookup_take_Some. split; [done|lia].
  - apply list_find_None in E. intros j Hj (c' & Hc' & Hn).
    rewrite Forall_lookup in E. apply (E j c'); [|done]. by apply lookup_take_Some.
Qed.

Lemma export_named_Some pl name i c :
  export_named pl name = Some (i, c) -> contexts pl !! i = Some c.
Proof. intros (Hi & _)%list_find_Some. by apply lookup_take_Some in Hi as [? _]. Qed.

Lemma read_params_spec buf ps l :
  Forall2 (param_at buf) ps l -> read_params buf ps = Ok (query_of <$> l).
Proof.
  induction 1 as [|p a ps l Hp _ IH]; cbn [read_params]; [done|]. rewrite IH.
  unfold param_at in Hp. unfold read_param. rewrite fmap_cons. unfold query_of at 2.
  destruct (split_first x3d a) as [k v]. destruct Hp as [-> Hv]. mred.
  destruct (yp_val p), v; cbn [reads] in Hv; try done. by rewrite Hv.
Qed.

Lemma length_split_max n c q : (0 < length (split_max n c q))%nat.
Proof. destruct n; simpl; [lia|]. destruct (split_first c q) as [? [?|]]; simpl; lia. Qed.

(** The parse leaves the path where the pointer says and yields the query's
    parameters. *)
Lemma parse_uri_spec uri R :
  no_nul uri ->
  exists y buf1 ps buf2,
    yuarel_parse (Some (mk_yuarel None None None)) (Some O) (uri ++ x00 :: R)
      = Ok (0, Some y, buf1) /\
    yuarel_parse_query (y_query y) x26 (Z.of_nat MAX_QUERY) buf1
      = Ok ((uri_params uri).2, ps, buf2) /\
    (exists p, y_path y = Some p /\ cstr_at buf2 p = Some (uri_path uri)) /\
    params_array buf2 ps = Ok (uri_params uri).1 /\
    length buf2 = length (uri ++ x00 :: R).
Proof.
  intros Hs. unfold uri_params, uri_path, uri_query, uri_resource.
  destruct (split_first x23 uri) as [s1 fr] eqn:E1. cbn [fst].
  destruct (split_first x3f s1) as [s2 qu] eqn:E2. cbn [fst snd].
  destruct (split_first x2f s2) as [s3 pa] eqn:E3. cbn [snd].
  destruct (split_first_no_nul _ _ _ _ Hs E1) as [Hs1 Hfr].
  destruct (split_first_no_nul _ _ _ _ Hs1 E2) as [Hs2 Hqu].
  destruct (split_first_no_nul _ _ _ _ Hs2 E3) as [Hs3 Hpa].
  pose proof (split_first_length _ _ _ _ E1). pose proof (split_first_length _ _ _ _ E2).
  pose proof (split_first_length _ _ _ _ E3).
  pose proof (yuarel_parse_buffer (mk_yuarel None None None) [] uri R _ _ _ _ _ _ Hs E1 E2 E3) as HP.
  cbn [app length] in HP. set (X := s3 ++ x00 :: blk pa) in *.
  assert (s3 ++ x00 :: blk pa ++ blk qu ++ blk fr ++ R = X ++ blk qu ++ blk fr ++ R) as HX
    by (unfold X; app_eq).
  rewrite HX in HP.
  assert (cstr_at X (match pa with Some _ => length (s3 ++ [x00]) | None => O end)
          = Some (default s2 pa)) as Hpath.
  { unfold X. destruct pa as [p|]; cbn [blk default].
    - replace (s3 ++ x00 :: p ++ [x00]) with ((s3 ++ [x00]) ++ p ++ [x00]) by app_eq.
      by apply cstr_at_app.
    - apply split_first_None in E3 as [-> _]. unfold cstr_at. by apply c_str_app. }
  destruct qu as [[|b q]|]; eexists _, _.
  - exists [], (X ++ x00 :: blk fr ++ R). split; [exact HP|]. split.
    { apply yuarel_parse_query_empty. by apply list_lookup_middle. }
    split; [eexists; split; [done|by apply cstr_at_prefix]|]. split; [done|].
    clear HP HX. unfold X. cbn [blk] in *. lens.
  - destruct (yuarel_parse_query_spec X (b :: q) (blk fr ++ R) x26 (Z.of_nat MAX_QUERY))
      as (ps & B & Hrun & HB & Hall); [done..|].
    exists ps, (X ++ B ++ blk fr ++ R). split; [exact HP|]. cbn [y_query blk].
    rewrite <- (app_assoc (b :: q)). cbn [app]. cbn [app] in Hrun. rewrite Hrun.
    rewrite (Forall2_length Hall). split; [done|].
    split; [eexists; split; [done|by apply cstr_at_prefix]|]. split.
    + unfold params_array. rewrite (read_params_spec _ _ _ Hall). mred.
      by rewrite length_fmap.
    + clear HP HX Hrun. unfold X. cbn [blk] in *. lens.
  - exists [], (X ++ blk fr ++ R). split; [exact HP|]. split; [done|].
    split; [eexists; split; [done|by apply cstr_at_prefix]|]. split; [done|].
    clear HP HX. unfold X. cbn [blk] in *. lens.
Qed.

(** What [lwnbd_get_context] computes, on any buffer that holds a string. *)
Lemma get_context_spec uri R s :
  pool_ok (l_pool s) -> no_nul uri ->
  exists buf', length buf' = length (uri ++ x00 :: R) /\
    lwnbd_get_context O (uri ++ x00 :: R) s
    = ('(r, s') ← open_export uri s; Ok (r, buf', s')).
Proof.
  intros Hp Hs.
  destruct (parse_uri_spec uri R Hs) as (y & buf1 & ps & buf2 & H1 & H2 & (p & Hy & Hpath) & Hpar & Hlen).
  exists buf2. split; [done|]. unfold lwnbd_get_context, open_export. rewrite H1. mred.
  cbn [Z.eqb]. rewrite H2. mred. rewrite Hy. mred. rewrite Hpath. mred.
  assert (no_nul (uri_path uri)) as Hnn.
  { unfold cstr_at in Hpath. by destruct (c_str_inv _ _ Hpath). }
  destruct (get_context_string_spec (l_pool s) (uri_path uri) Hp Hnn) as (r & Hr & Hres).
  pose proof (lookup_result_unique _ _ _ _ Hres (export_named_result _ _ Hp)) as ->.
  rewrite Hr. mred. destruct (export_named _ _) as [[i c]|] eqn:E; [|done]. cbn [fst option_map fmap option_fmap].
  unfold context_at. rewrite (export_named_Some _ _ _ _ E). mred.
  destruct (c_p c) as [a|]; [|done]. mred. rewrite Hpar. mred.
  destruct (uri_params uri) as [params n]. cbn [fst snd].
  destruct (pl_query (plugin_mem a)) as [query|].
  - destruct (query _ _ _ _) as [[ret w]|]; [|done]. mred.
    destruct (negb _); [done|]. by destruct (lwnbd_update_size _ _ _) as [[[c' z] w']|].
  - mred. destruct (negb _); [done|]. by destruct (lwnbd_update_size _ _ _) as [[[c' z] w']|].
Qed.

(** C11: the in-place lookup of a URI is the lookup of the value: the export
    the path names, the plugin's query on at most three parameters, and a
    fresh size. *)
Theorem get_context_refines uri R s :
  pool_ok (l_pool s) -> no_nul uri ->
  exists buf', length buf' = length (uri ++ x00 :: R) /\
    lwnbd_get_context O (uri ++ x00 :: R) s
    = ('(r, s') ← open_export uri s; Ok (r, buf', s')).
Proof. apply get_context_spec. Qed.

(** A successful lookup returns a created context that carries the path's
    name, with the size its plugin reports, and touches no other context. *)
Theorem get_context_sound uri R s i buf' s' :
  pool_ok (l_pool s) -> no_nul uri ->
  lwnbd_get_context O (uri ++ x00 :: R) s = Ok (Some i, buf', s') ->
  exists c a f w sz,
    contexts (l_pool s) !! i = Some c /\ c_str (c_name c) = Some (uri_path uri) /\
    (i < lwnbd_contexts_count (l_pool s))%nat /\
    c_p c = Some a /\ pl_get_size (plugin_mem a) = Some f /\
    f (c_handle c) w = Ok (sz, l_world s') /\
    contexts (l_pool s') = <[i := set_c_exportsize sz c]> (contexts (l_pool s)) /\
    pool_ok (l_pool s').
Proof.
  intros Hp Hs Hrun. destruct (get_context_spec uri R s Hp Hs) as (b & _ & E).
  rewrite E in Hrun. clear E. run. rename Hr into Hrun. unfold open_export in Hrun.
  pose proof (export_named_result (l_pool s) (uri_path uri) Hp) as Hres.
  destruct (export_named _ _) as [[k c]|] eqn:E; [|done]. cbn in Hres.
  apply export_named_Some in E as Hk. destruct Hres as (Hlt & (c0 & Hc0 & Hn) & _). simplify_eq.
  run. destruct (uri_params uri) as [ps n]. run.
  destruct (negb _); run. unfold lwnbd_update_size, method in *. run.
  exists c0. eexists _, _, _, _. split_and!; [done..|].
  apply update_context_ok; [done|]. destruct (context_at_ok (l_pool s) i Hp) as (c' & Hc' & Hok).
  { pose proof (contexts_count_le _ Hp). lia. }
  by simplify_eq.
Qed.
End uri.
