(* ===== verification/Library.v ===== *)
(** * The library as a whole: [src/contexts.c], [src/plugins.c],
      [src/contexts_uri.c]

    The calls an application and its servers make, in any order, as a
    transition system, and the typing of the states they reach: the arrays of
    every context are strings, every plugin table entry up to the count holds a
    plugin with a [pread], and a context is attached to a registered plugin or
    to none. *)

From S2P Require Export ContextsUri.

(** What a plugin's constructor promises of the context it is given, whatever
    it answers. *)
Class CtorTyped {W Cfg} (p : lwnbd_plugin_t W Cfg) : Prop := {
  ctor_typed f cfg c w r c' w' :
    pl_ctor p = Some f -> context_ok c -> f cfg (Some c) w = Ok (r, Some c', w') ->
    context_ok c' /\ c_p c' = c_p c
}.

Section library.
Context {W Cfg : Type} (plugin_mem : nat -> lwnbd_plugin_t W Cfg).
Context (Hctor : forall a, CtorTyped (plugin_mem a)).
Implicit Types (s : lib W).

(** [ls_io]: a transfer on a context, or the outside, changes the plugins'
    world and nothing else. *)
Inductive lib_step : lib W -> lib W -> Prop :=
  | ls_init init s z s' : lwnbd_plugin_init plugin_mem init s = Ok (z, s') -> lib_step s s'
  | ls_new plugin cfg s z s' : lwnbd_plugin_new plugin_mem plugin cfg s = Ok (z, s') -> lib_step s s'
  | ls_config plugin k v s z s' : lwnbd_plugin_config plugin_mem plugin k v s = Ok (z, s') -> lib_step s s'
  | ls_context s : lib_step s (set_pool (snd (lwnbd_new_context (l_pool s))) s)
  | ls_lookup uri buf s o buf' s' :
      lwnbd_get_context plugin_mem uri buf s = Ok (o, buf', s') -> lib_step s s'
  | ls_io w s : lib_step s (set_world w s).

Inductive lib_reachable (w : W) : lib W -> Prop :=
  | lr_init : lib_reachable w (initial_lib w)
  | lr_step s s' : lib_reachable w s -> lib_step s s' -> lib_reachable w s'.

(** ** Typing *)

Definition registered s (a : nat) : Prop := exists i, l_plugins s !! i = Some (Some a).

Record lib_typed s : Prop := {
  lt_ok : lib_ok s;
  lt_count i a : l_plugins s !! i = Some (Some a) -> (i < plugins_count s)%nat;
  lt_plugins a : registered s a -> is_Some (pl_pread (plugin_mem a));
  lt_contexts i c a : contexts (l_pool s) !! i = Some c -> c_p c = Some a -> registered s a
}.

(** The context at [i] is replaced by a well-formed one, attached as before or
    to a registered plugin. *)
Lemma update_typed s i c pl :
  lib_typed s -> pool_ok pl -> contexts pl = contexts (l_pool s) -> context_ok c ->
  (forall a, c_p c = Some a -> registered s a) ->
  lib_typed (set_pool (update_context i c pl) s).
Proof.
  intros [(Hp & H2 & H3) Hct Hpl Hcx] Hpo Hsame Hc Ha. split.
  - split; [by apply update_context_ok|done].
  - done.
  - done.
  - cbn. rewrite Hsame. intros j c' a Hj.
    apply list_lookup_insert_Some in Hj as [(-> & -> & _)|[_ Hj]]; [apply Ha|by apply (Hcx j)].
Qed.

Lemma set_world_typed w s : lib_typed s -> lib_typed (set_world w s).
Proof. intros [H1 H2 H3 H4]. by split. Qed.

Lemma set_pool_typed pl s :
  lib_typed s -> pool_ok pl -> contexts pl = contexts (l_pool s) -> lib_typed (set_pool pl s).
Proof.
  intros [(Hp & H2 & H3) Hct Hpl Hcx] Hpo Hsame. split; [done|done|done|]. intros j c a. cbn.
  rewrite Hsame. apply Hcx.
Qed.

Lemma new_context_typed s o pl :
  pool_ok (l_pool s) -> lwnbd_new_context (l_pool s) = (o, pl) ->
  pool_ok pl /\ contexts pl = contexts (l_pool s).
Proof.
  intros Hp Hn. pose proof (new_context_spec _ Hp) as H. cbn in H. case_decide.
  - rewrite H in Hn. by simplify_eq.
  - destruct H as (pl' & H & Hpl & Hc & _). rewrite H in Hn. by simplify_eq.
Qed.

Lemma initial_typed w : lib_typed (initial_lib w).
Proof.
  split; [apply initial_lib_ok| | |].
  - intros i a [[=] _]%lookup_replicate.
  - intros a (i & [[=] _]%lookup_replicate).
  - intros i c a Hc Ha. change (replicate MAX_CONTEXTS zero_context !! i = Some c) in Hc. apply lookup_replicate in Hc as [-> _]. done.
Qed.

(** [strcpy] into an array of the context leaves a string. *)
Lemma strcpy_string dst src dst' :
  strcpy dst src = Ok dst' -> length dst' = length dst /\ is_Some (c_str dst').
Proof.
  intros H. split; [by eapply store_at_length|].
  unfold strcpy in H. apply store_at_Ok in H as [_ ->]. unfold splice. rewrite take_0. cbn [app].
  rewrite <- app_assoc. cbn [app].
  generalize (drop (0 + length (src ++ [x00])) dst) as r. intros r.
  induction src as [|b src IH]; cbn; [by eexists|].
  case_decide; [by eexists|]. destruct IH as [x Hx]. rewrite Hx. by eexists.
Qed.

Lemma store_nul_string buf buf' :
  store_at 0 [x00] buf = Ok buf' -> length buf' = length buf /\ is_Some (c_str buf').
Proof. apply (strcpy_string buf []). Qed.

(** Registering a plugin that can read. *)
Lemma register_typed s a w :
  lib_typed s -> plugins_count s <> MAX_NUM_PLUGINS -> is_Some (pl_pread (plugin_mem a)) ->
  let i := plugins_count s in
  let s' := mk_lib (l_pool s) (<[i := Some a]> (l_plugins s))
              (<[i := PLUGIN_CREATED]> (l_plugins_status s)) w in
  lib_typed s' /\ registered s' a.
Proof.
  intros [Hok Hct Hpl Hcx] Hne Hrd i s'.
  destruct (register_slot_ok s a w Hok Hne) as (Hok' & Hcnt & Hi). fold i s' in Hok', Hcnt, Hi.
  assert (registered s' a) as Hreg by (by exists i).
  assert (forall j b, j <> i -> l_plugins s' !! j = Some b <-> l_plugins s !! j = Some b) as Hsame.
  { intros j b Hj. cbn. by rewrite list_lookup_insert_ne by lia. }
  split; [|done]. split; [done| | |].
  - intros j b Hj. destruct (decide (j = i)) as [->|Hne']; [lia|].
    apply Hsame, Hct in Hj; [lia|done].
  - intros b (j & Hj). destruct (decide (j = i)) as [->|Hne'].
    + rewrite Hi in Hj. by injection Hj as ->.
    + apply Hpl. exists j. by apply Hsame.
  - intros j c b Hj Hb. destruct (Hcx j c b Hj Hb) as (k & Hk). exists k. apply Hsame; [|done].
    apply Hct in Hk. fold i in Hk. lia.
Qed.

Lemma plugin_init_typed init s z s' :
  lib_typed s -> lwnbd_plugin_init plugin_mem init s = Ok (z, s') -> lib_typed s'.
Proof.
  intros Ht Hrun. unfold lwnbd_plugin_init in Hrun. fold (plugins_count s) in Hrun.
  case_decide as Hne; [by simplify_eq|]. destruct init as [a|]; [|by simplify_eq].
  destruct (pl_pread (plugin_mem a)) as [rd|] eqn:Erd; [|by simplify_eq]. run.
  destruct (register_typed s a a0 Ht Hne) as [Ht1 Hreg]; [by rewrite Erd|].
  set (s1 := mk_lib _ _ _ _) in *. destruct (_ =? 1); [|by simplify_eq].
  destruct (lwnbd_new_context (l_pool s)) as [oc pl] eqn:En. run.
  destruct (new_context_typed s1 _ _ (proj1 (lt_ok _ Ht1)) En) as [Hpo Hsame].
  apply strcpy_string in Hr2 as [Hl1 Hs1], Hr3 as [Hl2 Hs2]. cbn in *.
  apply (update_typed s1); [done..| |].
  - destruct Hpo as (_ & Hf & _). unfold context_at in Hr1. run.
    pose proof (Forall_lookup_1 _ _ _ _ Hf Hr1) as (Hc1 & _ & Hc2 & _).
    split_and!; cbn; [congruence|done|congruence|done].
  - cbn. intros b [= <-]. done.
Qed.

Lemma plugin_new_typed plugin cfg s z s' :
  lib_typed s -> lwnbd_plugin_new plugin_mem plugin cfg s = Ok (z, s') -> lib_typed s'.
Proof.
  intros Ht Hrun. unfold lwnbd_plugin_new, plugin_lookup in Hrun. run.
  destruct (pl_ctor _) as [ctor|] eqn:Ector; [|by simplify_eq].
  destruct (_ =? 1); run.
  { destruct (negb _); simplify_eq; by apply set_world_typed. }
  destruct (lwnbd_new_context (l_pool s)) as [oc pl] eqn:En. run.
  destruct (new_context_typed s _ _ (proj1 (lt_ok _ Ht)) En) as [Hpo Hsame].
  unfold context_at in Hr1. run. rewrite Hsame in Hr1.
  assert (context_ok a1) as Hc1.
  { destruct (lt_ok _ Ht) as ((_ & Hf & _) & _). by eapply Forall_lookup_1. }
  apply store_nul_string in Hr2 as [Hl2 Hs2].
  assert (context_ok (set_c_description a2 a1)) as Hc2.
  { destruct Hc1 as (? & ? & ? & _). split_and!; cbn; [done|done|congruence|done]. }
  destruct (ctor_typed (CtorTyped := Hctor a) _ _ _ _ _ _ _ Ector Hc2 Hr3) as [Hc3 Hp3].
  assert (lib_typed (set_pool (update_context a0 a3 pl) (set_world w s))) as Ht3.
  { apply update_typed; [by apply set_world_typed|done|done|done|].
    intros b Hb. rewrite Hp3 in Hb. by apply (lt_contexts _ Ht a0 a1). }
  destruct (negb _); [by simplify_eq|]. run.
  assert (length a5 = length (c_description a3) /\ is_Some (c_str a5)) as [Hl5 Hs5].
  { destruct (Nat.eqb _ _); [by eapply strcpy_string|]. simplify_eq. by destruct Hc3 as (_ & _ & _ & ?). }
  apply (update_typed _ _ _ _ Ht3); [apply (lt_ok _ Ht3)|done| |].
  - destruct Hc3 as (? & ? & ? & _). split_and!; cbn; [done|done|congruence|done].
  - cbn. intros b [= <-]. by eexists.
Qed.

Lemma plugin_config_typed plugin k v s z s' :
  lib_typed s -> lwnbd_plugin_config plugin_mem plugin k v s = Ok (z, s') -> lib_typed s'.
Proof.
  intros Ht Hrun. unfold lwnbd_plugin_config, plugin_lookup in Hrun. run.
  destruct (pl_config _); [|by simplify_eq].
  destruct (match k with Some _ => k | None => _ end); [|by simplify_eq]. run.
  destruct (_ =? -1); simplify_eq; by apply set_world_typed.
Qed.

Lemma get_context_typed uri buf s o buf' s' :
  lib_typed s -> lwnbd_get_context plugin_mem uri buf s = Ok (o, buf', s') -> lib_typed s'.
Proof.
  intros Ht Hrun. unfold lwnbd_get_context in Hrun. run. destruct (_ =? -1); [by simplify_eq|]. run.
  destruct a1 as [i|]; [|by simplify_eq]. run.
  destruct (negb _); [simplify_eq; by apply set_world_typed|]. unfold lwnbd_update_size in Hrun. run.
  unfold context_at in *. run.
  destruct (lt_ok _ Ht) as (Hpo & _).
  apply (update_typed (set_world _ s)); [by apply set_world_typed|done|done| |].
  - destruct Hpo as (_ & Hf & _).
    match goal with H : contexts _ !! _ = Some _ |- _ => exact (Forall_lookup_1 _ _ _ _ Hf H) end.
  - intros b Hb. match goal with H : contexts _ !! _ = Some _ |- _ => exact (lt_contexts _ Ht _ _ _ H Hb) end.
Qed.

(** C13: the typing is kept by every call the library offers, in whatever order and
    with whatever arguments: in a reachable state the name and the description
    of every context are strings in their arrays, the plugin table is filled
    from the front, and a read on an attached context always finds its plugin
    and the plugin's [pread]. *)
Theorem library_typed w s :
  lib_reachable w s ->
  lib_typed s /\
  forall i c, contexts (l_pool s) !! i = Some c ->
    context_ok c /\
    match c_p c with
    | None => True
    | Some a => exists rd, forall count offset flags,
        lwnbd_pread plugin_mem c count offset flags (l_world s) = rd (c_handle c) count offset flags (l_world s)
    end.
Proof.
  intros Hr. assert (lib_typed s) as Ht.
  { induction Hr as [|s s' _ IH Hstep]; [apply initial_typed|].
    destruct Hstep as [init s z s' H|plugin cfg s z s' H|plugin k v s z s' H|s|uri buf s o buf' s' H|x s].
    - by eapply plugin_init_typed.
    - by eapply plugin_new_typed.
    - by eapply plugin_config_typed.
    - destruct (lwnbd_new_context (l_pool s)) as [o pl] eqn:En.
      destruct (new_context_typed s _ _ (proj1 (lt_ok _ IH)) En). by apply set_pool_typed.
    - by eapply get_context_typed.
    - by apply set_world_typed. }
  split; [done|]. intros i c Hc. split.
  { destruct (lt_ok _ Ht) as ((_ & Hf & _) & _). by eapply Forall_lookup_1. }
  destruct (c_p c) as [a|] eqn:Ea; [|done].
  destruct (lt_plugins _ Ht a) as [rd Hrd]; [by eapply lt_contexts|].
  exists rd. intros. unfold lwnbd_pread, method. rewrite Ea. mred. by rewrite Hrd.
Qed.
End library.
