(* ===== verification/Tcp.v ===== *)
(** * Streams and [tcp_recv_block]: [src/tcp.c]

    A server talks to its client through the two callbacks of its structure,
    [sync_recv_cb] and [sync_send_cb].  [Callbacks] is their interface,
    [Transport] what the NBD server relies on: a receive of [len] bytes
    delivers all of them.  POSIX [recv] promises less; [tcp_recv_block] makes up
    the difference, and the instance at the end is the proof. *)

From S2P Require Export Prelude.

Definition MSG_MORE := 0x8000.

(** [sync_recv_cb sock mem len n] receives into the array [mem]: value
    returned, array, network. *)
Class Callbacks (N : Type) := {
  sync_recv_cb : Z -> list byte -> Z -> N -> outcome (Z * list byte * N);
  sync_send_cb : Z -> list byte -> Z -> N -> outcome (Z * N)
}.

(** [inbox]: what the peer sends before it closes; [outbox]: what it was sent. *)
Class Transport (N : Type) {CB : Callbacks N} (sock : Z) := {
  inbox : N -> list byte;
  outbox : N -> list byte;
  tr_recv n mem len :
    Z.of_nat len < 2 ^ 31 -> (len <= length mem)%nat -> (len <= length (inbox n))%nat ->
    exists n', sync_recv_cb sock mem (Z.of_nat len) n
      = Ok (Z.of_nat len, splice 0 (take len (inbox n)) mem, n') /\
      inbox n' = drop len (inbox n) /\ outbox n' = outbox n;
  tr_recv_eof n mem len :
    Z.of_nat len < 2 ^ 31 -> (len <= length mem)%nat -> (length (inbox n) < len)%nat ->
    exists r mem' n', sync_recv_cb sock mem (Z.of_nat len) n = Ok (r, mem', n') /\
      0 <= r < Z.of_nat len /\ length mem' = length mem /\ outbox n' = outbox n;
  tr_send n d flags :
    flags = 0 \/ flags = MSG_MORE ->
    exists n', sync_send_cb sock d flags n = Ok (Z.of_nat (length d), n') /\
      inbox n' = inbox n /\ outbox n' = outbox n ++ d
}.
Arguments inbox {N CB} sock {Transport} _.
Arguments outbox {N CB} sock {Transport} _.

(** The same laws with a non-negative [Z] length, the form the servers use. *)
Section transport.
Context {N : Type} `{CB : Callbacks N} (sock : Z) {T : Transport N sock}.

Lemma transport_recv n mem len d rest :
  len = Z.of_nat (length d) -> len < 2 ^ 31 -> (length d <= length mem)%nat -> inbox sock n = d ++ rest ->
  exists n', sync_recv_cb sock mem len n = Ok (len, splice 0 d mem, n') /\
    inbox sock n' = rest /\ outbox sock n' = outbox sock n.
Proof.
  intros -> Hb Hm Hi. destruct (tr_recv n mem (length d) Hb Hm) as (n' & Hr & Hi' & Ho).
  { rewrite Hi, length_app. lia. }
  rewrite Hi in *. rewrite take_app_length, drop_app_length in *. eauto.
Qed.
End transport.

(** A network of which nothing is known but that its calls return: a receive
    leaves the array its length. *)
Record answers {N : Type} `{CB : Callbacks N} (sock : Z) : Prop := {
  an_recv mem len (n : N) : 0 <= len <= Z.of_nat (length mem) -> len < 2 ^ 31 ->
    completes (fun '(_, mem', _) => length mem' = length mem) (sync_recv_cb sock mem len n);
  an_send d flags (n : N) : completes (fun _ => True) (sync_send_cb sock d flags n)
}.

(** A transport is one, if it takes every flag of [send]. *)
Lemma transport_answers {N : Type} `{CB : Callbacks N} sock {T : Transport N sock} :
  (forall d flags (n : N), completes (fun _ => True) (sync_send_cb sock d flags n)) -> answers (N := N) sock.
Proof.
  intros Hsend. split; [|exact Hsend]. intros mem len n Hl Hb. rewrite <- (Z2Nat.id len) by lia.
  destruct (le_lt_dec (Z.to_nat len) (length (inbox sock n))) as [Hle|Hlt].
  - destruct (tr_recv n mem (Z.to_nat len)) as (n' & -> & _); [lia|lia|done|]. cbn.
    apply length_splice. rewrite length_take. lia.
  - destruct (tr_recv_eof n mem (Z.to_nat len)) as (r & mem' & n' & -> & _ & Hm & _); [lia|lia|done|done].
Qed.

(** ** [tcp_recv_block]

    [recv] is the operating system's: bytes returned, the bytes themselves,
    the new state. *)

Section tcp.
Context {N : Type} (recv : Z -> Z -> Z -> N -> Z * list byte * N).

(** One turn of the [do ... while (left)] loop per unit of fuel. *)
Fixpoint tcp_recv_loop (fuel : nat) (s flags left totalRead : Z) (mem : list byte) (n : N)
  : outcome (Z * list byte * N) :=
  match fuel with
  | O => Fault OutOfFuel
  | S fuel =>
      let '(bytesRead, d, n) := recv s left flags n in
      mem ← store_at (Z.to_nat totalRead) d mem;
      if bytesRead <=? 0 then Ok (bytesRead, mem, n)
      else
        let left := left - bytesRead in
        let totalRead := totalRead + bytesRead in
        if left =? 0 then Ok (totalRead, mem, n)
        else tcp_recv_loop fuel s flags left totalRead mem n
  end.

Definition tcp_recv_block (s : Z) (mem : list byte) (len flags : Z) (n : N)
  : outcome (Z * list byte * N) :=
  tcp_recv_loop (S (Z.to_nat (i64 len))) s flags (i64 len) 0 mem n.

(** What POSIX says of [recv] and [send] on a connected stream socket whose
    peer keeps reading. *)
Context (send : Z -> list byte -> Z -> N -> Z * N).
Context (s : Z) (ibox obox : N -> list byte).

Record posix_stream : Prop := {
  ps_recv n len :
    0 < len -> ibox n <> [] ->
    exists k n', (0 < k <= length (ibox n))%nat /\ Z.of_nat k <= len /\
      recv s len 0 n = (Z.of_nat k, take k (ibox n), n') /\
      ibox n' = drop k (ibox n) /\ obox n' = obox n;
  ps_recv_end n len :
    0 < len -> ibox n = [] ->
    exists n', recv s len 0 n = (0, [], n') /\ ibox n' = [] /\ obox n' = obox n;
  ps_recv_0 n :
    exists n', recv s 0 0 n = (0, [], n') /\ ibox n' = ibox n /\ obox n' = obox n;
  ps_send n d flags :
    flags = 0 \/ flags = MSG_MORE ->
    exists n', send s d flags n = (Z.of_nat (length d), n') /\
      ibox n' = ibox n /\ obox n' = obox n ++ d
}.

Context (HP : posix_stream).

Lemma tcp_recv_loop_full fuel left total mem n :
  (left < fuel)%nat -> (0 < left <= length (ibox n))%nat -> (total + left <= length mem)%nat ->
  exists n', tcp_recv_loop fuel s 0 (Z.of_nat left) (Z.of_nat total) mem n
    = Ok (Z.of_nat (total + left), splice total (take left (ibox n)) mem, n') /\
    ibox n' = drop left (ibox n) /\ obox n' = obox n.
Proof.
  revert left total mem n; induction fuel as [|fuel IH]; intros left total mem n Hf Hl Hm; [lia|].
  cbn [tcp_recv_loop].
  destruct (ps_recv HP n (Z.of_nat left)) as (k & n' & Hk & Hkl & Hr & Hi & Ho); [lia|by destruct (ibox n); simpl in *; [lia|]|].
  assert (length (take k (ibox n)) = k) as Hlen by (rewrite length_take; lia).
  rewrite Hr, Nat2Z.id. rewrite store_at_fits by lia. mred.
  rewrite (proj2 (Z.leb_gt _ _)) by lia.
  case (Z.eqb_spec (Z.of_nat left - Z.of_nat k) 0) as [He|He].
  - assert (k = left) as -> by lia. exists n'. split_and!; [|done..]. do 3 f_equal; lia.
  - replace (Z.of_nat left - Z.of_nat k) with (Z.of_nat (left - k)) by lia.
    replace (Z.of_nat total + Z.of_nat k) with (Z.of_nat (total + k)) by lia.
    destruct (IH (left - k)%nat (total + k)%nat (splice total (take k (ibox n)) mem) n')
      as (n2 & Hrun & Hi2 & Ho2).
    + lia.
    + rewrite Hi, length_drop. lia.
    + rewrite length_splice by lia. lia.
    + exists n2. rewrite Hrun, Hi2, Ho2, Hi, drop_drop. split_and!; [|f_equal; lia|done].
      do 3 f_equal; [f_equal; lia|].
      replace (splice total (take left (ibox n)) mem)
        with (splice total (take k (ibox n) ++ take (left - k) (drop k (ibox n))) mem).
      * rewrite splice_app; rewrite Hlen; [done|]. rewrite length_take, length_drop. lia.
      * f_equal. rewrite take_take_drop. f_equal. lia.
Qed.

Lemma tcp_recv_loop_short fuel left total mem n :
  (left < fuel)%nat -> (length (ibox n) < left)%nat -> (total + left <= length mem)%nat ->
  exists n', tcp_recv_loop fuel s 0 (Z.of_nat left) (Z.of_nat total) mem n
    = Ok (0, splice total (ibox n) mem, n') /\ ibox n' = [] /\ obox n' = obox n.
Proof.
  revert left total mem n; induction fuel as [|fuel IH]; intros left total mem n Hf Hl Hm; [lia|].
  cbn [tcp_recv_loop]. destruct (decide (ibox n = [])) as [Hnil|Hne].
  - destruct (ps_recv_end HP n (Z.of_nat left)) as (n' & Hr & Hi & Ho); [lia|done|].
    rewrite Hr, Nat2Z.id. rewrite store_at_fits by (simpl; lia).
    mred. exists n'. rewrite Hnil. by split_and!.
  - destruct (ps_recv HP n (Z.of_nat left)) as (k & n' & Hk & Hkl & Hr & Hi & Ho); [lia|done|].
    assert (length (take k (ibox n)) = k) as Hlen by (rewrite length_take; lia).
    rewrite Hr, Nat2Z.id. rewrite store_at_fits by lia. mred.
    rewrite (proj2 (Z.leb_gt _ _)), (proj2 (Z.eqb_neq _ _)) by lia.
    replace (Z.of_nat left - Z.of_nat k) with (Z.of_nat (left - k)) by lia.
    replace (Z.of_nat total + Z.of_nat k) with (Z.of_nat (total + k)) by lia.
    destruct (IH (left - k)%nat (total + k)%nat (splice total (take k (ibox n)) mem) n')
      as (n2 & Hrun & Hi2 & Ho2).
    + lia.
    + rewrite Hi, length_drop. lia.
    + rewrite length_splice by lia. lia.
    + exists n2. rewrite Hrun, Ho2, Hi. split_and!; [|done..].
      do 3 f_equal. rewrite <- (take_drop k (ibox n)) at 3.
      rewrite splice_app; rewrite Hlen; [done|]. rewrite length_drop. lia.
Qed.

Lemma tcp_recv_block_full len mem n :
  Z.of_nat len < 2 ^ 63 ->
  (len <= length (ibox n))%nat -> (len <= length mem)%nat ->
  exists n', tcp_recv_block s mem (Z.of_nat len) 0 n
    = Ok (Z.of_nat len, splice 0 (take len (ibox n)) mem, n') /\
    ibox n' = drop len (ibox n) /\ obox n' = obox n.
Proof.
  intros Hb Hi Hm. unfold tcp_recv_block. rewrite swrap_small, Nat2Z.id by lia.
  destruct len as [|len].
  - cbn [tcp_recv_loop]. change (Z.of_nat 0) with 0. destruct (ps_recv_0 HP n) as (n' & Hr & Hi' & Ho).
    rewrite Hr, store_at_fits by (simpl; lia). mred.
    exists n'. rewrite Hi', drop_0. by split_and!.
  - apply (tcp_recv_loop_full (S (S len)) (S len) O); lia.
Qed.

Lemma tcp_recv_block_short len mem n :
  Z.of_nat len < 2 ^ 63 ->
  (length (ibox n) < len)%nat -> (len <= length mem)%nat ->
  exists n', tcp_recv_block s mem (Z.of_nat len) 0 n = Ok (0, splice 0 (ibox n) mem, n') /\
    ibox n' = [] /\ obox n' = obox n.
Proof.
  intros Hb Hi Hm. unfold tcp_recv_block. rewrite swrap_small, Nat2Z.id by lia.
  apply (tcp_recv_loop_short (S len) len O); lia.
Qed.

(** C12: over a POSIX socket, [tcp_recv_block] returns [len] with the first
    [len] bytes of the stream in memory, in order, however [recv] cuts the
    stream; when the peer closes before that many bytes it returns 0, never
    [len], the bytes that did come being in memory.  Either way it takes from
    the stream exactly what it stores. *)
Theorem tcp_recv_block_exact len mem n :
  Z.of_nat len < 2 ^ 63 -> (len <= length mem)%nat ->
  exists n', tcp_recv_block s mem (Z.of_nat len) 0 n
    = Ok (if decide (len <= length (ibox n))%nat then Z.of_nat len else 0,
          splice 0 (take len (ibox n)) mem, n') /\
    ibox n' = drop len (ibox n) /\ obox n' = obox n.
Proof.
  intros Hb Hm. case_decide as Hi; [by apply tcp_recv_block_full|].
  rewrite take_ge, drop_ge by lia. apply tcp_recv_block_short; lia.
Qed.

(** Whatever [recv] answers, the loop ends, as long as nothing is received
    into an empty buffer. *)
Lemma tcp_recv_block_returns mem len n :
  (forall s len fl n, len <= 0 -> (recv s len fl n).1.1 <= 0) ->
  tcp_recv_block s mem len 0 n <> Fault OutOfFuel.
Proof.
  intros Hempty. unfold tcp_recv_block.
  pose proof (Nat.lt_succ_diag_r (Z.to_nat (i64 len))) as Hfuel. revert Hfuel.
  generalize (S (Z.to_nat (i64 len))). intros fuel. generalize (i64 len) at 1 2, 0 at 2. revert mem n.
  induction fuel as [|fuel IH]; intros m n0 left total Hfuel; [lia|].
  cbn [tcp_recv_loop]. pose proof (Hempty s left 0 n0) as He.
  destruct (recv s left 0 n0) as [[k d] n1]. cbn [fst] in He.
  unfold store_at. case_decide; [|done]. mred. case (Z.leb_spec k 0) as [|Hk]; [done|].
  case (Z.eqb_spec (left - k) 0) as [|Hne]; [done|]. apply IH. lia.
Qed.

(** The callbacks of the NBD server ([.sync_recv_cb = tcp_recv_block],
    [.sync_send_cb = send]) and the proof that they are a transport. *)
#[local] Instance tcp_callbacks : Callbacks N := {
  sync_recv_cb sock mem len n := tcp_recv_block sock mem len 0 n;
  sync_send_cb sock d flags n := Ok (send sock d flags n)
}.

#[local, refine] Instance tcp_transport : Transport N s :=
  {| inbox := ibox; outbox := obox; tr_recv := _; tr_recv_eof := _; tr_send := _ |}.
Proof.
  - intros n mem len Hb Hm Hi. apply tcp_recv_block_full; [lia|done..].
  - intros n mem len Hb Hm Hi.
    destruct (tcp_recv_block_short len mem n) as (n' & Hr & _ & Ho); [lia|done..|].
    exists 0, (splice 0 (ibox n) mem), n'.
    split_and!; [exact Hr|lia|lia|apply length_splice; lia|done].
  - intros n d flags Hf. destruct (ps_send HP n d flags Hf) as (n' & Hs & Hi & Ho).
    exists n'. cbn. by rewrite Hs.
Defined.
End tcp.
Arguments posix_stream {N} recv send s ibox obox.

(** ** A concrete socket

    The peer's bytes arrive in segments: one [recv] returns bytes of the first
    segment only.  It is the socket of the examples. *)

Record pipe := mk_pipe { pipe_in : list (list byte); pipe_out : list byte }.

Fixpoint pipe_recv_segments (len : nat) (l : list (list byte)) : list byte * list (list byte) :=
  match l with
  | [] => ([], [])
  | [] :: l => pipe_recv_segments len l
  | seg :: l => (take len seg, if decide (len < length seg)%nat then drop len seg :: l else l)
  end.

Definition pipe_recv (s len flags : Z) (n : pipe) : Z * list byte * pipe :=
  if len <=? 0 then (0, [], n)
  else
    let '(d, l) := pipe_recv_segments (Z.to_nat len) (pipe_in n) in
    (Z.of_nat (length d), d, mk_pipe l (pipe_out n)).

Definition pipe_send (s : Z) (d : list byte) (flags : Z) (n : pipe) : Z * pipe :=
  (Z.of_nat (length d), mk_pipe (pipe_in n) (pipe_out n ++ d)).

Lemma pipe_recv_segments_spec len l :
  (0 < len)%nat ->
  let '(d, l') := pipe_recv_segments len l in
  concat l = d ++ concat l' /\ (length d <= len)%nat /\ (concat l = [] <-> d = []).
Proof.
  intros Hlen. induction l as [|[|b seg] l IH]; cbn [pipe_recv_segments concat app]; [split_and!; simpl; done || lia|done|].
  case_decide as Hd.
  - cbn [concat]. rewrite (app_assoc (take _ _)), take_drop. split; [done|].
    rewrite length_take. split; [lia|]. destruct len; [lia|done].
  - rewrite take_ge by lia. split; [done|]. split; [lia|done].
Qed.

Lemma pipe_posix s : posix_stream pipe_recv pipe_send s (fun n => concat (pipe_in n)) pipe_out.
Proof.
  split.
  - intros [i o] len Hlen Hne. unfold pipe_recv. rewrite (proj2 (Z.leb_gt _ _)) by lia. cbn in *.
    pose proof (pipe_recv_segments_spec (Z.to_nat len) i) as H.
    destruct (pipe_recv_segments _ i) as [d l]. destruct H as (Hc & Hle & Hn); [lia|].
    exists (length d). eexists. rewrite Hc, take_app_length, drop_app_length.
    split; [|split; [lia|done]]. rewrite length_app.
    destruct d; [exfalso; by apply Hne, Hn|]. simpl. lia.
  - intros [i o] len Hlen He. unfold pipe_recv. rewrite (proj2 (Z.leb_gt _ _)) by lia. cbn in *.
    pose proof (pipe_recv_segments_spec (Z.to_nat len) i) as H.
    destruct (pipe_recv_segments _ i) as [d l]. destruct H as (Hc & Hle & Hn); [lia|].
    rewrite (proj1 Hn He) in *. eexists. split; [done|]. cbn in *. by rewrite <- Hc.
  - intros n. by exists n.
  - intros [i o] d flags _. by eexists.
Qed.
