(* ===== verification/Sockets.v ===== *)
(** * Listening sockets: [tcp_close] and [listener] of [src/tcp.c],
      [nbd_server_create] of [servers/nbd/nbd.c]

    The socket calls are the operating system's: [SocketApi] lists the ones the
    code uses, over an abstract state [W], and [SocketLaws] what POSIX says of
    them, in terms of the open descriptors and of the data exchanged. *)

From S2P Require Export NbdProtocol.
From stdpp Require Import gmap sets.
#[local] Open Scope Z_scope.

Definition MAX_NUM_CLIENTS : Z := 2.
Definition AF_INET : Z := 2.
Definition SOCK_STREAM : Z := 1.
Definition INADDR_ANY : Z := 0.

(** [struct sockaddr_in], as far as the code fills it; both numbers are the
    integers stored, already in network order. *)
Record sockaddr_in := mk_sockaddr { sin_family : Z; sin_port : Z; sin_addr : Z }.

Class SocketApi (W : Type) := {
  sys_socket : Z -> Z -> Z -> W -> Z * W;
  sys_bind : Z -> sockaddr_in -> W -> Z * W;
  sys_listen : Z -> Z -> W -> Z * W;
  sys_accept : Z -> W -> Z * W;
  sys_close : Z -> W -> Z * W;
}.

Section sockets.
Context {W : Type} `{SocketApi W}.

(** ** [src/tcp.c] *)

Definition tcp_close (socket : Z) (w : W) : Z * W := sys_close socket w.

(** The body of [listener]'s loop: a connection is accepted and closed. *)
Definition listener_turn (socket : Z) (w : W) : W :=
  let '(sock, w) := sys_accept socket w in snd (sys_close sock w).

Fixpoint listener (fuel : nat) (socket : Z) (w : W) : outcome W :=
  match fuel with
  | O => Fault OutOfFuel
  | S fuel => listener fuel socket (listener_turn socket w)
  end.

(** ** [nbd_server_create]

    The parameter [server] is not used. *)

Definition nbd_peer : sockaddr_in := mk_sockaddr AF_INET (htons 10809) (htonl INADDR_ANY).

Definition error_trap (sock : Z) (w : W) : Z * W := let '(_, w) := sys_close sock w in (-1, w).

Definition nbd_server_create (w : W) : Z * W :=
  let '(sock, w) := sys_socket AF_INET SOCK_STREAM 0 w in
  if decide (sock < 0) then error_trap sock w
  else
    let '(r, w) := sys_bind sock nbd_peer w in
    if decide (r < 0) then error_trap sock w
    else
      let '(r, w) := sys_listen sock MAX_NUM_CLIENTS w in
      if decide (r < 0) then error_trap sock w else (0, w).

End sockets.

(** ** What POSIX says of the calls

    [fds] are the open descriptors, [bound] and [listening] what a descriptor
    was bound to and listens with, [traffic] everything received and sent. *)
Class SocketLaws (W T : Type) `{SocketApi W} := {
  fds : W -> gset Z;
  bound : W -> Z -> option sockaddr_in;
  listening : W -> Z -> option Z;
  traffic : W -> T;
  socket_spec d t p w : let '(s, w') := sys_socket d t p w in
    traffic w' = traffic w /\
    (s = -1 /\ fds w' = fds w \/ 0 <= s /\ s ∉ fds w /\ fds w' = fds w ∪ {[s]});
  bind_spec s a w : let '(r, w') := sys_bind s a w in
    fds w' = fds w /\ traffic w' = traffic w /\
    (r = -1 \/ r = 0 /\ s ∈ fds w /\ bound w' s = Some a);
  listen_spec s n w : let '(r, w') := sys_listen s n w in
    fds w' = fds w /\ traffic w' = traffic w /\ bound w' = bound w /\
    (r = -1 \/ r = 0 /\ s ∈ fds w /\ listening w' s = Some n);
  accept_spec s w : let '(c, w') := sys_accept s w in
    traffic w' = traffic w /\
    (c = -1 /\ fds w' = fds w \/ 0 <= c /\ c ∉ fds w /\ fds w' = fds w ∪ {[c]});
  close_spec s w : let '(_, w') := sys_close s w in
    traffic w' = traffic w /\ fds w' = fds w ∖ {[s]};
  fds_nonneg w s : s ∈ fds w -> 0 <= s;
}.

Section theorems.
Context {W T : Type} `{SocketLaws W T}.

(** Closing what was just opened, or the -1 of a failed call, restores the
    descriptors. *)
Lemma close_opened (w w1 w2 : W) s :
  (s = -1 /\ fds w1 = fds w \/ 0 <= s /\ s ∉ fds w /\ fds w1 = fds w ∪ {[s]}) ->
  fds w2 = fds w1 -> fds (snd (sys_close s w2)) = fds w.
Proof.
  intros Hs E. pose proof (close_spec s w2) as Hc. destruct (sys_close s w2) as [r w3].
  cbn. destruct Hc as [_ ->]. rewrite E. destruct Hs as [[-> ->]|(_ & Hn & ->)]; [|set_solver].
  assert (-1 ∉ fds w) by (intros ?%fds_nonneg; lia). set_solver.
Qed.

Lemma listener_turn_spec s (w : W) :
  fds (listener_turn s w) = fds w /\ traffic (listener_turn s w) = traffic w.
Proof.
  unfold listener_turn. pose proof (accept_spec s w) as Ha.
  destruct (sys_accept s w) as [c w1]. destruct Ha as [Ht Hs].
  split; [by eapply close_opened|]. pose proof (close_spec c w1) as Hc.
  destruct (sys_close c w1); cbn. by destruct Hc as [-> _].
Qed.

(** [listener] never returns and never serves: however many connections it has
    accepted, no byte has been received or sent, and every connection is
    closed again. *)
Theorem listener_serves_nobody fuel s (w : W) :
  listener fuel s w = Fault OutOfFuel /\
  traffic (Nat.iter fuel (listener_turn s) w) = traffic w /\
  fds (Nat.iter fuel (listener_turn s) w) = fds w.
Proof.
  split.
  - revert w. induction fuel as [|fuel IH]; intros w; [done|apply IH].
  - induction fuel as [|fuel [IHt IHf]]; [done|]. rewrite !Nat.iter_succ.
    destruct (listener_turn_spec s (Nat.iter fuel (listener_turn s) w)) as [-> ->]. done.
Qed.

(** [nbd_server_create] answers 0 exactly when it has opened one new socket,
    bound to port 10809 of every interface and listening for two clients, whose
    number it does not hand over; when any call fails it answers -1 and leaves
    no descriptor behind. *)
Theorem nbd_server_create_correct (w w' : W) r :
  nbd_server_create w = (r, w') ->
  traffic w' = traffic w /\
  (r = -1 /\ fds w' = fds w \/
   r = 0 /\ exists sock, sock ∉ fds w /\ fds w' = fds w ∪ {[sock]} /\
     bound w' sock = Some nbd_peer /\ listening w' sock = Some MAX_NUM_CLIENTS).
Proof.
  unfold nbd_server_create, error_trap. intros Hrun.
  pose proof (socket_spec AF_INET SOCK_STREAM 0 w) as Hs.
  destruct (sys_socket _ _ _ w) as [sock w1]. destruct Hs as [Ht Hs].
  assert (Hclose : forall w2, fds w2 = fds w1 -> traffic w2 = traffic w1 ->
    (let '(_, w3) := sys_close sock w2 in (-1, w3)) = (r, w') ->
    traffic w' = traffic w /\ r = -1 /\ fds w' = fds w).
  { intros w2 E1 E2 E. pose proof (close_opened w w1 w2 sock Hs E1) as Hf.
    pose proof (close_spec sock w2) as Hc. destruct (sys_close sock w2) as [x w3].
    cbn in Hf. simplify_eq. destruct Hc as [-> _]. split_and!; congruence. }
  case_decide; [edestruct (Hclose w1) as (? & ? & ?); [done..|by split; [|left]]|].
  destruct Hs as [[-> _]|(_ & Hn & Hf)]; [lia|].
  pose proof (bind_spec sock nbd_peer w1) as Hb. destruct (sys_bind _ _ w1) as [rb w2].
  destruct Hb as (Hf2 & Ht2 & Hb).
  case_decide; [edestruct (Hclose w2) as (? & ? & ?); [done..|by split; [|left]]|].
  destruct Hb as [->|(_ & _ & Hb)]; [lia|].
  pose proof (listen_spec sock MAX_NUM_CLIENTS w2) as Hl. destruct (sys_listen _ _ w2) as [rl w3].
  destruct Hl as (Hf3 & Ht3 & Hb3 & Hl).
  case_decide; [edestruct (Hclose w3) as (? & ? & ?); [congruence..|by split; [|left]]|].
  destruct Hl as [->|(_ & _ & Hl)]; [lia|]. simplify_eq.
  split; [congruence|]. right. split; [done|]. exists sock. split_and!; congruence.
Qed.

End theorems.
