(* ===== verification/Handles.v ===== *)
(** * Handle arrays of the plugins and servers

    [memory.c], [file.c], [pcmstream.c] and [nbd.c] each keep a static array of
    handles with an array of [handle_state_t] beside it, and claim a handle
    with the same loop.  The loop falls through with the length of the array
    when every handle is taken; the callers do not look. *)

From S2P Require Export Prelude.

Inductive handle_state_t := HANDLE_FREE | HANDLE_CREATED.

#[export] Instance handle_state_eq_dec : EqDecision handle_state_t.
Proof. solve_decision. Defined.

Definition handle_is_free (x : handle_state_t) : bool :=
  match x with HANDLE_FREE => true | HANDLE_CREATED => false end.

(** The index after the loop and the array with that entry marked. *)
Definition claim_handle (in_use : list handle_state_t) : nat * list handle_state_t :=
  let i := find_slot handle_is_free in_use in (i, <[i := HANDLE_CREATED]> in_use).

Abbreviation handle_slots := (slots HANDLE_CREATED HANDLE_FREE).

Lemma claim_handle_slots M n :
  (n < M)%nat -> claim_handle (handle_slots M n) = (n, handle_slots M (S n)).
Proof.
  intros. unfold claim_handle. rewrite find_slot_slots by (done || lia).
  by rewrite slots_insert.
Qed.

Lemma claim_handle_full M :
  claim_handle (handle_slots M M) = (M, handle_slots M M).
Proof.
  unfold claim_handle. rewrite find_slot_slots by (done || lia).
  by rewrite list_insert_ge by (by rewrite length_slots).
Qed.

(** Claiming [k] handles in a row: the indices used. *)
Fixpoint claim_handles (k : nat) (in_use : list handle_state_t) : list nat * list handle_state_t :=
  match k with
  | O => ([], in_use)
  | S k =>
      let '(i, in_use) := claim_handle in_use in
      let '(ks, in_use) := claim_handles k in_use in (i :: ks, in_use)
  end.

Lemma claim_handles_slots M n k :
  (n <= M)%nat ->
  (claim_handles k (handle_slots M n)).1 = (fun j => Nat.min (n + j) M) <$> seq 0 k.
Proof.
  revert n; induction k as [|k IH]; intros n Hn; [done|]. cbn [claim_handles].
  rewrite <- cons_seq, <- fmap_S_seq, fmap_cons, <- list_fmap_compose.
  destruct (decide (n = M)) as [->|].
  - rewrite claim_handle_full. specialize (IH M Hn).
    destruct (claim_handles k _) as [ks u]. cbn [fst] in *. rewrite IH. f_equal; [lia|].
    apply list_fmap_ext. intros i x _. unfold compose. lia.
  - rewrite claim_handle_slots by lia. specialize (IH (S n) ltac:(lia)).
    destruct (claim_handles k _) as [ks u]. cbn [fst] in *. rewrite IH. f_equal; [lia|].
    apply list_fmap_ext. intros i x _. unfold compose. lia.
Qed.
