(* ===== verification/NbdContext.v ===== *)
(** * State of the NBD server: [include/lwnbd/piconbd.h]

    The server context and the per-connection client record.  The C code of the
    server reads through its context the fields every context has
    ([LWNBD_CONTEXT_FIELDS]), which are the [n_base] component here. *)

From S2P Require Export NbdProtocol PluginApi Tcp.

(** The build-time configuration ([servers/nbd/Kconfig], [config.h]). *)
Class NbdConfig := {
  CONFIG_NBD_BUFFER_LEN : Z;
  MAX_REQUEST_SIZE : Z;   (** [NBD_BUFFER_LEN], the size of [nbd_buffer] *)
  CONFIG_MAX_RETRIES : Z
}.

Class NbdConfigOk `{NbdConfig} := {
  cfg_buffer : 0 < CONFIG_NBD_BUFFER_LEN <= MAX_REQUEST_SIZE;
  cfg_request : MAX_REQUEST_SIZE < 2 ^ 16;
  cfg_retries : 0 <= CONFIG_MAX_RETRIES
}.

(** A build with the buffer lengths equal and five retries. *)
#[global] Instance default_config : NbdConfig := {
  CONFIG_NBD_BUFFER_LEN := 4096; MAX_REQUEST_SIZE := 4096; CONFIG_MAX_RETRIES := 5 }.

#[global] Instance default_config_ok : NbdConfigOk.
Proof. split; cbn; lia. Qed.

(** [enum client_states] *)
Inductive client_states := HANDSHAKE | TRANSMISSION | ABORT.

#[export] Instance client_states_eq_dec : EqDecision client_states.
Proof. solve_decision. Defined.

(** [struct lwnbd_context_nbd_s] *)
Record lwnbd_context_nbd_t := mk_nbd_context {
  n_base : lwnbd_context_t;
  n_eflags : Z;                (** [uint16_t] *)
  n_minimum_block_size : Z;    (** [uint32_t], like the next two *)
  n_preferred_block_size : Z;
  n_maximum_block_size : Z;
  n_gflags : Z;                (** [uint32_t] *)
  n_readonly : Z;              (** [uint8_t] *)
  n_preinit : Z;               (** [uint8_t] *)
  n_sock : Z;
  n_state : client_states
}.

Definition set_n_state (s : client_states) (x : lwnbd_context_nbd_t) : lwnbd_context_nbd_t :=
  mk_nbd_context (n_base x) (n_eflags x) (n_minimum_block_size x) (n_preferred_block_size x)
    (n_maximum_block_size x) (n_gflags x) (n_readonly x) (n_preinit x) (n_sock x) s.

(** [struct nbd_client]; [cl_ctx] is an index into the context pool. *)
Record nbd_client := mk_client {
  cl_sock : Z;
  cl_state : client_states;
  cl_ctx : option nat
}.

(** How a loop body or a request ends: on to the next one, [break], or
    [return] from the function. *)
Inductive ctl (A : Type) := Next (a : A) | Break (a : A) | Return (r : Z) (a : A).
Arguments Next {A} a.
Arguments Break {A} a.
Arguments Return {A} r a.
