(* ===== verification/Transmission.v ===== *)
(** * The transmission phase: [servers/nbd/protocol.c]

    [transmission_phase] is one function with two nested loops; its [register]
    locals keep their values from one request to the next, so they are a record
    that every piece of the body takes and returns.  The body is cut where the
    C code cuts it: the two transfer loops, the cases of the [switch], one
    request, the outer loop. *)

From S2P Require Export NbdContext.

(** The locals of the transfer loops. *)
Record xfer := mk_xfer {
  x_retry : Z;       (** [int] *)
  x_sendflag : Z;    (** [int] *)
  x_blkremains : Z;  (** [uint32_t], like the next two *)
  x_byteread : Z;
  x_bufblksz : Z;
  x_offset : Z       (** [uint64_t] *)
}.

Definition set_sendflag (f : Z) (x : xfer) : xfer :=
  mk_xfer (x_retry x) f (x_blkremains x) (x_byteread x) (x_bufblksz x) (x_offset x).

(** The memory image [request] and the buffer [nbd_buffer] of the frame, the
    network and the plugins' world. *)
Record frame (N W : Type) := mk_frame {
  f_x : xfer;
  f_request : list byte;
  f_buffer : list byte;
  f_net : N;
  f_world : W
}.
Arguments mk_frame {N W} _ _ _ _ _.
Arguments f_x {N W} _.
Arguments f_request {N W} _.
Arguments f_buffer {N W} _.
Arguments f_net {N W} _.
Arguments f_world {N W} _.

Section transmission.
Context `{CFG : NbdConfig} {W Cfg : Type} (plugin_mem : nat -> lwnbd_plugin_t W Cfg).
Context {N : Type} `{CB : Callbacks N}.
Implicit Types (ctx : lwnbd_context_nbd_t) (x : xfer) (f : frame N W).

(** The table has eight entries; the lookup happens before the [switch]. *)
Definition nbd_commands : list (list byte) :=
  [bs "NBD_CMD_READ"; bs "NBD_CMD_WRITE"; bs "NBD_CMD_DISC"; bs "NBD_CMD_FLUSH";
   bs "NBD_CMD_TRIM"; bs "NBD_CMD_CACHE"; bs "NBD_CMD_WRITE_ZEROES"; bs "NBD_CMD_BLOCK_STATUS"].

Definition nbd_commands_to_string (c : Z) : outcome (list byte) :=
  of_option OutOfBounds (nbd_commands !! Z.to_nat c).

(** Entry of a transfer: the [else] branch of the range check. *)
Definition start_transfer (blocksize : Z) (request : nbd_request) x : outcome xfer :=
  _ ← outcome_require (blocksize <> 0) DivByZero;
  let bufblksz := u32 (CONFIG_NBD_BUFFER_LEN / blocksize) in
  let blkremains := rq_count request / blocksize in
  let offset := rq_offset request / blocksize in
  Ok (mk_xfer (x_retry x) MSG_MORE blkremains (u32 (bufblksz * blocksize)) bufblksz offset).

(** The top of both loops: shrink the last block run, and clear [sendflag]
    when this run is the last. *)
Definition clip (blocksize : Z) x : xfer :=
  let x := if x_blkremains x <? x_bufblksz x
           then mk_xfer (x_retry x) (x_sendflag x) (x_blkremains x)
                  (u32 (x_blkremains x * blocksize)) (x_blkremains x) (x_offset x)
           else x in
  if x_blkremains x <=? x_bufblksz x then set_sendflag 0 x else x.

(** [offset += bufblksz; blkremains -= bufblksz; retry = CONFIG_MAX_RETRIES;] *)
Definition advance x : xfer :=
  mk_xfer CONFIG_MAX_RETRIES (x_sendflag x) (u32 (x_blkremains x - x_bufblksz x))
    (x_byteread x) (x_bufblksz x) (u64 (x_offset x + x_bufblksz x)).

Definition read_step ctx (blocksize : Z) f : outcome (ctl (frame N W)) :=
  let x := clip blocksize (f_x f) in
  '(r, d, w) ← lwnbd_pread plugin_mem (n_base ctx) (x_bufblksz x) (x_offset x) 0 (f_world f);
  buf ← store_at 0 d (f_buffer f);
  if r =? 0 then
    data ← load_at 0 (Z.to_nat (x_byteread x)) buf;
    '(r, net) ← sync_send_cb (n_sock ctx) data (x_sendflag x) (f_net f);
    if negb (u32 r =? x_byteread x) then Ok (Break (mk_frame x (f_request f) buf net w))
    else Ok (Next (mk_frame (advance x) (f_request f) buf net w))
  else if negb (x_retry x =? 0) then
    Ok (Next (mk_frame (mk_xfer (x_retry x - 1) 1 (x_blkremains x) (x_byteread x)
                         (x_bufblksz x) (x_offset x)) (f_request f) buf (f_net f) w))
  else Ok (Return (-1) (mk_frame x (f_request f) buf (f_net f) w)).

(** [while (sendflag)] of [NBD_CMD_READ]; [Some r] is [return r]. *)
Fixpoint read_loop (fuel : nat) ctx (blocksize : Z) f : outcome (option Z * frame N W) :=
  if x_sendflag (f_x f) =? 0 then Ok (None, f)
  else
    match fuel with
    | O => Fault OutOfFuel
    | S fuel =>
        c ← read_step ctx blocksize f;
        match c with
        | Next f => read_loop fuel ctx blocksize f
        | Break f => Ok (None, f)
        | Return r f => Ok (Some r, f)
        end
    end.

(** The request lies beyond the end of the export. *)
Definition out_of_range ctx (request : nbd_request) : bool :=
  u64 (c_exportsize (n_base ctx)) <? u64 (rq_offset request + rq_count request).

Definition set_x x f : frame N W := mk_frame x (f_request f) (f_buffer f) (f_net f) (f_world f).
Definition set_net net f : frame N W :=
  mk_frame (f_x f) (f_request f) (f_buffer f) net (f_world f).
Definition set_fworld w f : frame N W :=
  mk_frame (f_x f) (f_request f) (f_buffer f) (f_net f) w.

(** [reply.error = ntohl(error)] and the send of the reply header. *)
Definition send_reply ctx (handle error flags : Z) f : outcome (Z * frame N W) :=
  let reply := mk_reply (htonl NBD_SIMPLE_REPLY_MAGIC) (ntohl error) handle in
  '(r, net) ← sync_send_cb (n_sock ctx) (reply_to_mem reply) flags (f_net f);
  Ok (r, set_net net f).

Definition cmd_read (lfuel : nat) ctx (blocksize : Z) (request : nbd_request) f
  : outcome (option Z * frame N W) :=
  '(error, x) ← (if out_of_range ctx request then Ok (NBD_EIO, f_x f)
                 else x ← start_transfer blocksize request (f_x f); Ok (NBD_SUCCESS, x));
  '(_, f) ← send_reply ctx (rq_handle request) error (x_sendflag x) (set_x x f);
  read_loop lfuel ctx blocksize f.

(** One turn of the loop of [NBD_CMD_WRITE], with the local [error]. *)
Definition write_step ctx (blocksize error : Z) f : outcome (Z * frame N W) :=
  let x := clip blocksize (f_x f) in
  '(r, buf, net) ← sync_recv_cb (n_sock ctx) (f_buffer f) (x_byteread x) (f_net f);
  if u32 r =? x_byteread x then
    '(r, w) ← lwnbd_pwrite plugin_mem (n_base ctx) buf (x_bufblksz x) (x_offset x) 0 (f_world f);
    let '(error, x) := if negb (r =? 0) then (NBD_EIO, set_sendflag 0 x) else (error, x) in
    Ok (error, mk_frame (advance x) (f_request f) buf net w)
  else Ok (NBD_EOVERFLOW, mk_frame (set_sendflag 0 x) (f_request f) buf net (f_world f)).

Fixpoint write_loop (fuel : nat) ctx (blocksize error : Z) f : outcome (Z * frame N W) :=
  if x_sendflag (f_x f) =? 0 then Ok (error, f)
  else
    match fuel with
    | O => Fault OutOfFuel
    | S fuel =>
        '(error, f) ← write_step ctx blocksize error f;
        write_loop fuel ctx blocksize error f
    end.

Definition cmd_write (lfuel : nat) ctx (blocksize : Z) (request : nbd_request) f
  : outcome (frame N W) :=
  '(error, x) ← (if negb (Z.land (n_eflags ctx) NBD_FLAG_READ_ONLY =? 0) then Ok (NBD_EPERM, f_x f)
                 else if out_of_range ctx request then Ok (NBD_ENOSPC, f_x f)
                 else x ← start_transfer blocksize request (f_x f); Ok (NBD_SUCCESS, x));
  '(error, f) ← write_loop lfuel ctx blocksize error (set_x x f);
  '(_, f) ← send_reply ctx (rq_handle request) error 0 f;
  Ok f.

Definition cmd_flush ctx (request : nbd_request) f : outcome (frame N W) :=
  '(r, w) ← lwnbd_flush plugin_mem (n_base ctx) 0 (f_world f);
  let error := if r =? 0 then NBD_SUCCESS else NBD_EIO in
  '(_, f) ← send_reply ctx (rq_handle request) error 0 (set_fworld w f);
  Ok f.

(** The request in host byte order. *)
Definition decode_request (m : list byte) : nbd_request :=
  let rq := request_of_mem m in
  mk_request (ntohl (rq_magic rq)) (ntohs (rq_flags rq)) (ntohs (rq_type rq)) (rq_handle rq)
    (be64toh (rq_offset rq)) (ntohl (rq_count rq)).

(** The [switch] on the type of the request. *)
Definition dispatch (lfuel : nat) ctx (request : nbd_request) f
  : outcome (ctl (lwnbd_context_nbd_t * frame N W)) :=
  let blocksize := n_minimum_block_size ctx in
  _ ← nbd_commands_to_string (rq_type request);
  if rq_type request =? NBD_CMD_READ then
    '(o, f) ← cmd_read lfuel ctx blocksize request f;
    Ok (match o with Some r => Return r (ctx, f) | None => Next (ctx, f) end)
  else if rq_type request =? NBD_CMD_WRITE then
    f ← cmd_write lfuel ctx blocksize request f; Ok (Next (ctx, f))
  else if rq_type request =? NBD_CMD_DISC then
    Ok (Return 0 (set_n_state ABORT ctx, f))
  else if rq_type request =? NBD_CMD_FLUSH then
    f ← cmd_flush ctx request f; Ok (Next (ctx, f))
  else
    '(_, f) ← send_reply ctx (rq_handle request) NBD_EINVAL 0 f;
    Ok (Next (ctx, f)).

(** One turn of [while (1)]. *)
Definition serve_request (lfuel : nat) ctx f
  : outcome (ctl (lwnbd_context_nbd_t * frame N W)) :=
  '(r, m, net) ← sync_recv_cb (n_sock ctx) (f_request f) (Z.of_nat sizeof_nbd_request) (f_net f);
  let f := mk_frame (f_x f) m (f_buffer f) net (f_world f) in
  if size_t (i32 r) <? Z.of_nat sizeof_nbd_request then Ok (Return (-1) (ctx, f))
  else
    let request := decode_request m in
    if negb (rq_magic request =? NBD_REQUEST_MAGIC) then Ok (Return (-1) (ctx, f))
    else
      dispatch lfuel ctx request
        (mk_frame (f_x f) (request_to_mem request) (f_buffer f) net (f_world f)).

Fixpoint transmission_loop (fuel lfuel : nat) ctx f
  : outcome (Z * (lwnbd_context_nbd_t * frame N W)) :=
  match fuel with
  | O => Fault OutOfFuel
  | S fuel =>
      c ← serve_request lfuel ctx f;
      match c with
      | Next (ctx, f) | Break (ctx, f) => transmission_loop fuel lfuel ctx f
      | Return r s => Ok (r, s)
      end
  end.

Definition initial_xfer : xfer := mk_xfer CONFIG_MAX_RETRIES 0 0 0 0 0.

(** [request] and [nbd_buffer] hold whatever the stack held. *)
Definition transmission_phase (fuel lfuel : nat) (ctx : option lwnbd_context_nbd_t)
    (request nbd_buffer : list byte) (net : N) (w : W)
  : outcome (Z * option (lwnbd_context_nbd_t * frame N W)) :=
  match ctx with
  | None => Ok (-1, None)
  | Some ctx =>
      '(r, s) ← transmission_loop fuel lfuel ctx
                   (mk_frame initial_xfer request nbd_buffer net w);
      Ok (r, Some s)
  end.
End transmission.
