(* ===== verification/TransmissionSpec.v ===== *)
(** * Correctness of the transmission phase

    What a client observes, for any transport and any plugin that keep the
    promises of [Transport], [ReadStore], [WriteStore] and [FlushStore]: each
    request has one reply, reads return the device's bytes, writes change
    exactly the range they name, and a whole session behaves as the sequence
    of its commands on a byte array. *)

From S2P Require Export Transmission.

(** ** The transfer loops *)

(** Blocks [blk .. blk + n) of a device. *)
Definition blocks (bsz blk n : Z) (l : list byte) : list byte :=
  slice (Z.to_nat (blk * bsz)) (Z.to_nat (n * bsz)) l.

Definition write_blocks (bsz blk : Z) (d l : list byte) : list byte :=
  splice (Z.to_nat (blk * bsz)) d l.

Lemma blocks_split bsz blk n m l :
  0 <= bsz -> 0 <= blk -> 0 <= n -> 0 <= m ->
  blocks bsz blk (n + m) l = blocks bsz blk n l ++ blocks bsz (blk + n) m l.
Proof.
  intros. unfold blocks. rewrite !Z.mul_add_distr_r, !Z2Nat.inj_add by nia. apply slice_app.
Qed.

Lemma length_blocks bsz blk n l :
  0 <= bsz -> 0 <= blk -> 0 <= n -> (blk + n) * bsz <= Z.of_nat (length l) ->
  length (blocks bsz blk n l) = Z.to_nat (n * bsz).
Proof. intros. apply length_slice. nia. Qed.

Lemma div_mul_le a b : 0 < b -> a / b * b <= a.
Proof. intros. pose proof (Z.mul_div_le a b). lia. Qed.

Lemma div_le_self a b : 0 <= a -> 0 < b -> a / b <= a.
Proof. intros. apply Z.div_le_upper_bound; [done|]. nia. Qed.

Section spec.
Context `{CFG : NbdConfig} {CFGok : NbdConfigOk}.
Context {W Cfg : Type} (plugin_mem : nat -> lwnbd_plugin_t W Cfg).
Context {N : Type} `{CB : Callbacks N}.
Context (ctx : lwnbd_context_nbd_t) (a : nat) (inv : W -> Prop) (content : W -> list byte).
Context {T : Transport N (n_sock ctx)}.
Context (Hplugin : c_p (n_base ctx) = Some a).

Local Abbreviation bsz := (n_minimum_block_size ctx).
Local Abbreviation ibox := (inbox (n_sock ctx)).
Local Abbreviation obox := (outbox (n_sock ctx)).

Implicit Types (f : frame N W) (x : xfer).

(** The memory of the frame. *)
Definition frame_ok f : Prop :=
  length (f_request f) = sizeof_nbd_request /\
  Z.of_nat (length (f_buffer f)) = MAX_REQUEST_SIZE.

(** A transfer in progress: [blkremains] blocks from [offset] on are inside
    the device and a run of [bufblksz] blocks fits the buffer. *)
Definition xfer_ok x (size : Z) : Prop :=
  0 <= x_blkremains x < 2 ^ 32 /\ 0 <= x_offset x /\
  (x_offset x + x_blkremains x) * bsz <= size /\
  0 < x_bufblksz x /\ x_byteread x = x_bufblksz x * bsz /\
  x_byteread x <= CONFIG_NBD_BUFFER_LEN.

(** After [clip]: the run is the part of the remainder that fits. *)
Definition clipped x : xfer :=
  let n := Z.min (x_blkremains x) (x_bufblksz x) in
  mk_xfer (x_retry x) (if x_blkremains x <=? x_bufblksz x then 0 else x_sendflag x)
    (x_blkremains x) (n * bsz) n (x_offset x).

Lemma clip_ok x size :
  0 < bsz -> xfer_ok x size -> clip bsz x = clipped x.
Proof.
  destruct CFGok. destruct x as [rt sf rem br bb off]. unfold xfer_ok, clip, clipped. cbn.
  intros Hb (Hrem & Hoff & Hsz & Hbb & Hbr & Hlen).
  case (Z.ltb_spec rem bb) as [H|H]; cbn.
  - rewrite Z.leb_refl, (proj2 (Z.leb_le _ _)), Z.min_l by lia. unfold set_sendflag. cbn.
    f_equal. apply wrap_small. nia.
  - rewrite Z.min_r by lia. case (Z.leb_spec rem bb) as [H'|H']; unfold set_sendflag; cbn; f_equal; lia.
Qed.

Lemma bufblksz_small x size : 0 < bsz -> xfer_ok x size -> x_bufblksz x < 2 ^ 16.
Proof. destruct CFGok. unfold xfer_ok. intros Hb H. nia. Qed.

(** The state after one completed run. *)
Definition advanced x : xfer :=
  let n := Z.min (x_blkremains x) (x_bufblksz x) in
  mk_xfer CONFIG_MAX_RETRIES (if x_blkremains x <=? x_bufblksz x then 0 else x_sendflag x)
    (x_blkremains x - n) (n * bsz) n (x_offset x + n).

Lemma advance_clipped x size :
  0 < bsz -> size < 2 ^ 63 -> xfer_ok x size -> advance (clipped x) = advanced x.
Proof.
  destruct x as [rt sf rem br bb off]. unfold xfer_ok, advance, clipped, advanced. cbn.
  intros Hb Hs (Hrem & Hoff & Hsz & Hbb & Hbr & Hlen).
  f_equal; apply wrap_small; [lia|]. assert (off + rem <= size) by nia. lia.
Qed.

Lemma advanced_ok x size :
  0 < bsz -> xfer_ok x size -> x_bufblksz x < x_blkremains x -> xfer_ok (advanced x) size.
Proof.
  destruct x as [rt sf rem br bb off]. unfold xfer_ok, advanced. cbn.
  intros Hb (Hrem & Hoff & Hsz & Hbb & Hbr & Hlen) Hlt. rewrite Z.min_r by lia.
  split_and!; try lia.
Qed.

(** One run of a READ, in terms of the bytes [v] it reads and of nothing else of
    the device. *)
Lemma read_step_local `{!ReadStore (plugin_mem a) (c_handle (n_base ctx)) bsz inv content} f size v :
  frame_ok f -> size < 2 ^ 63 -> xfer_ok (f_x f) size -> x_sendflag (f_x f) = MSG_MORE ->
  let n := Z.min (x_blkremains (f_x f)) (x_bufblksz (f_x f)) in
  length v = Z.to_nat (n * bsz) ->
  exists f', frame_ok f' /\ f_x f' = advanced (f_x f) /\ ibox (f_net f') = ibox (f_net f) /\
    obox (f_net f') = obox (f_net f) ++ v /\
    forall w, inv w -> Z.of_nat (length (content w)) = size ->
      blocks bsz (x_offset (f_x f)) n (content w) = v ->
      exists w', read_step plugin_mem ctx bsz (set_fworld w f) = Ok (Next (set_fworld w' f')) /\
        inv w' /\ content w' = content w.
Proof.
  intros [Hreq Hbuf] H63 Hx Hsf n Hv. pose proof rs_bsz as Hb.
  pose proof (bufblksz_small _ _ Hb Hx) as H16.
  assert (advance (clipped (f_x f)) = advanced (f_x f)) as Hadv by (by eapply advance_clipped).
  pose proof (clip_ok _ _ Hb Hx) as Hclip.
  unfold xfer_ok in Hx. destruct Hx as (Hrem & Hoff & Hsz & Hbb & Hbr & Hlen).
  destruct CFGok as [Hc1 Hc2 Hc3].
  assert (0 <= n <= x_blkremains (f_x f)) as Hn by lia.
  assert (n * bsz <= CONFIG_NBD_BUFFER_LEN) as Hnb by nia.
  destruct (tr_send (f_net f) v (if x_blkremains (f_x f) <=? x_bufblksz (f_x f) then 0
    else x_sendflag (f_x f))) as (net & Hsend & Hi & Ho).
  { rewrite Hsf. destruct (_ <=? _); auto. }
  exists (mk_frame (advanced (f_x f)) (f_request f) (splice 0 v (f_buffer f)) net (f_world f)).
  split_and!; [split; cbn; [done|rewrite length_splice; lia]|done|done|done|].
  intros w Hinv Hsize Hw. unfold read_step. cbn [f_x set_fworld f_world f_buffer f_net f_request].
  rewrite Hclip. cbv zeta.
  destruct (lwnbd_pread_spec plugin_mem (n_base ctx) a bsz inv content Hplugin w n
    (x_offset (f_x f))) as (w' & Hrd & Hinv' & Hcon); [done|lia|lia|rewrite Hsize; nia|].
  cbn [clipped x_bufblksz x_offset x_byteread x_sendflag]. fold n. rewrite Hrd. mred.
  fold (blocks bsz (x_offset (f_x f)) n (content w)). rewrite Hw.
  rewrite store_at_fits by lia. mred. cbn [Z.eqb].
  rewrite load_at_fits by (rewrite length_splice; lia). mred.
  rewrite <- Hv, slice_splice by lia. rewrite Hsend. mred.
  rewrite Hv, Z2Nat.id, wrap_small, Z.eqb_refl by nia. cbn [negb].
  exists w'. by rewrite Hadv.
Qed.

Lemma set_fworld_id f : set_fworld (f_world f) f = f.
Proof. by destruct f. Qed.

Lemma read_step_spec `{!ReadStore (plugin_mem a) (c_handle (n_base ctx)) bsz inv content} f :
  inv (f_world f) -> frame_ok f ->
  Z.of_nat (length (content (f_world f))) < 2 ^ 63 ->
  xfer_ok (f_x f) (Z.of_nat (length (content (f_world f)))) ->
  x_sendflag (f_x f) = MSG_MORE ->
  let n := Z.min (x_blkremains (f_x f)) (x_bufblksz (f_x f)) in
  exists f', read_step plugin_mem ctx bsz f = Ok (Next f') /\ frame_ok f' /\
    inv (f_world f') /\ content (f_world f') = content (f_world f) /\
    f_x f' = advanced (f_x f) /\ ibox (f_net f') = ibox (f_net f) /\
    obox (f_net f') = obox (f_net f) ++ blocks bsz (x_offset (f_x f)) n (content (f_world f)).
Proof.
  intros Hinv Hf H63 Hx Hsf n.
  destruct (read_step_local f _ (blocks bsz (x_offset (f_x f)) n (content (f_world f))) Hf H63 Hx Hsf)
    as (f' & Hf' & Hx' & Hi & Ho & Hw).
  { unfold xfer_ok in Hx. pose proof rs_bsz. apply length_blocks; nia. }
  destruct (Hw (f_world f) Hinv eq_refl eq_refl) as (w' & Hrun & Hinv' & Hc).
  rewrite set_fworld_id in Hrun. eexists. split; [done|]. by split_and!.
Qed.

Lemma read_loop_done fuel f :
  x_sendflag (f_x f) = 0 -> read_loop plugin_mem fuel ctx bsz f = Ok (None, f).
Proof. intros H. destruct fuel; cbn [read_loop]; by rewrite H. Qed.

Lemma read_loop_spec `{!ReadStore (plugin_mem a) (c_handle (n_base ctx)) bsz inv content} fuel f :
  inv (f_world f) -> frame_ok f ->
  Z.of_nat (length (content (f_world f))) < 2 ^ 63 ->
  xfer_ok (f_x f) (Z.of_nat (length (content (f_world f)))) ->
  x_sendflag (f_x f) = MSG_MORE -> x_blkremains (f_x f) < Z.of_nat fuel ->
  exists f', read_loop plugin_mem fuel ctx bsz f = Ok (None, f') /\ frame_ok f' /\
    inv (f_world f') /\ content (f_world f') = content (f_world f) /\
    x_sendflag (f_x f') = 0 /\ ibox (f_net f') = ibox (f_net f) /\
    obox (f_net f') = obox (f_net f) ++
      blocks bsz (x_offset (f_x f)) (x_blkremains (f_x f)) (content (f_world f)).
Proof.
  pose proof rs_bsz as Hb. revert f; induction fuel as [|fuel IH]; intros f Hinv Hf H63 Hx Hsf Hfuel.
  { unfold xfer_ok in Hx. lia. }
  cbn [read_loop]. rewrite Hsf. cbn [Z.eqb MSG_MORE].
  destruct (read_step_spec f Hinv Hf H63 Hx Hsf) as (f1 & Hst & Hf1 & Hinv1 & Hc1 & Hx1 & Hi1 & Ho1).
  rewrite Hst. mred. destruct (Z.le_gt_cases (x_blkremains (f_x f)) (x_bufblksz (f_x f))) as [Hle|Hgt].
  - rewrite read_loop_done; [|rewrite Hx1; unfold advanced; cbn; by rewrite (proj2 (Z.leb_le _ _))].
    exists f1. rewrite Ho1, Hi1, Hx1, Z.min_l by lia. unfold advanced; cbn.
    by rewrite (proj2 (Z.leb_le _ _)) by lia.
  - destruct (IH f1) as (f2 & Hrun & Hf2 & Hinv2 & Hc2 & Hs2 & Hi2 & Ho2); [done|done|by rewrite Hc1| | | |].
    + rewrite Hx1, Hc1. by apply advanced_ok.
    + rewrite Hx1. unfold advanced. cbn. by rewrite (proj2 (Z.leb_gt _ _)).
    + rewrite Hx1. unfold advanced. cbn. unfold xfer_ok in Hx. lia.
    + exists f2. rewrite Hrun, Hc2, Hc1, Hi2, Hi1, Ho2, Ho1. split_and!; try done.
      rewrite <- app_assoc. f_equal. rewrite Hx1, Hc1. unfold advanced; cbn.
      unfold xfer_ok in Hx. rewrite Z.min_r by lia. rewrite <- blocks_split by lia.
      f_equal. lia.
Qed.

Lemma take_splice_0 (d l : list byte) n :
  n = length d -> take n (splice 0 d l) = d.
Proof. intros ->. unfold splice. by rewrite take_0, app_nil_l, take_app_length. Qed.

Lemma write_blocks_app blk n (d1 d2 l : list byte) :
  0 <= blk -> 0 <= n -> 0 < bsz -> length d1 = Z.to_nat (n * bsz) ->
  blk * bsz + n * bsz + Z.of_nat (length d2) <= Z.of_nat (length l) ->
  write_blocks bsz (blk + n) d2 (write_blocks bsz blk d1 l) = write_blocks bsz blk (d1 ++ d2) l.
Proof.
  intros. unfold write_blocks. rewrite splice_app by nia. f_equal. nia.
Qed.

Lemma length_write_blocks blk (d l : list byte) :
  0 <= blk -> 0 < bsz -> blk * bsz + Z.of_nat (length d) <= Z.of_nat (length l) ->
  length (write_blocks bsz blk d l) = length l.
Proof. intros. apply length_splice. nia. Qed.

(** One run of a WRITE, whatever the device holds. *)
Lemma write_step_local `{!WriteStore (plugin_mem a) (c_handle (n_base ctx)) bsz inv content}
    error f size d rest :
  0 < bsz -> frame_ok f -> size < 2 ^ 63 -> xfer_ok (f_x f) size -> 0 < x_blkremains (f_x f) ->
  let n := Z.min (x_blkremains (f_x f)) (x_bufblksz (f_x f)) in
  ibox (f_net f) = d ++ rest -> length d = Z.to_nat (n * bsz) ->
  exists f', frame_ok f' /\ f_x f' = advanced (f_x f) /\ ibox (f_net f') = rest /\
    obox (f_net f') = obox (f_net f) /\
    forall w, inv w -> Z.of_nat (length (content w)) = size ->
      exists w', write_step plugin_mem ctx bsz error (set_fworld w f) = Ok (error, set_fworld w' f') /\
        inv w' /\ content w' = write_blocks bsz (x_offset (f_x f)) d (content w).
Proof.
  intros Hb [Hreq Hbuf] H63 Hx Hrem0 n Hin Hd.
  pose proof (bufblksz_small _ _ Hb Hx) as H16.
  assert (advance (clipped (f_x f)) = advanced (f_x f)) as Hadv by (by eapply advance_clipped).
  pose proof (clip_ok _ _ Hb Hx) as Hclip.
  unfold xfer_ok in Hx. destruct Hx as (Hrem & Hoff & Hsz & Hbb & Hbr & Hlen).
  destruct CFGok as [Hc1 Hc2 Hc3].
  assert (0 < n <= x_blkremains (f_x f)) as Hn by lia.
  assert (n * bsz <= CONFIG_NBD_BUFFER_LEN) as Hnb by nia.
  destruct (transport_recv (n_sock ctx) (f_net f) (f_buffer f) (n * bsz) d rest)
    as (net & Hrecv & Hi & Ho); [lia..|done|].
  exists (mk_frame (advanced (f_x f)) (f_request f) (splice 0 d (f_buffer f)) net (f_world f)).
  split_and!; [split; cbn; [done|rewrite length_splice; lia]|done|done|done|].
  intros w Hinv Hsize. unfold write_step. cbn [f_x set_fworld f_world f_buffer f_net f_request].
  rewrite Hclip. cbv zeta.
  cbn [clipped x_bufblksz x_offset x_byteread x_sendflag]. fold n.
  rewrite Hrecv. mred. rewrite wrap_small, Z.eqb_refl by nia.
  destruct (lwnbd_pwrite_spec plugin_mem (n_base ctx) a bsz inv content Hplugin w
    (splice 0 d (f_buffer f)) n (x_offset (f_x f))) as (w' & Hwr & Hinv' & Hcon);
    [done|lia|lia|rewrite length_splice; lia|rewrite Hsize; nia|].
  rewrite Hwr. mred. cbn [Z.eqb negb]. exists w'. rewrite Hcon, take_splice_0 by done. by rewrite Hadv.
Qed.

Lemma write_step_spec `{!WriteStore (plugin_mem a) (c_handle (n_base ctx)) bsz inv content}
    error f d rest :
  0 < bsz -> inv (f_world f) -> frame_ok f ->
  Z.of_nat (length (content (f_world f))) < 2 ^ 63 ->
  xfer_ok (f_x f) (Z.of_nat (length (content (f_world f)))) ->
  0 < x_blkremains (f_x f) ->
  let n := Z.min (x_blkremains (f_x f)) (x_bufblksz (f_x f)) in
  ibox (f_net f) = d ++ rest -> length d = Z.to_nat (n * bsz) ->
  exists f', write_step plugin_mem ctx bsz error f = Ok (error, f') /\ frame_ok f' /\
    inv (f_world f') /\
    content (f_world f') = write_blocks bsz (x_offset (f_x f)) d (content (f_world f)) /\
    f_x f' = advanced (f_x f) /\ ibox (f_net f') = rest /\ obox (f_net f') = obox (f_net f).
Proof.
  intros Hb Hinv Hf H63 Hx Hrem n Hin Hd.
  destruct (write_step_local error f _ d rest Hb Hf H63 Hx Hrem Hin Hd)
    as (f' & Hf' & Hx' & Hi & Ho & Hw).
  destruct (Hw (f_world f) Hinv eq_refl) as (w' & Hrun & Hinv' & Hc).
  rewrite set_fworld_id in Hrun. eexists. split; [done|]. by split_and!.
Qed.

Lemma write_loop_done fuel error f :
  x_sendflag (f_x f) = 0 -> write_loop plugin_mem fuel ctx bsz error f = Ok (error, f).
Proof. intros H. destruct fuel; cbn [write_loop]; by rewrite H. Qed.

Lemma write_loop_spec `{!WriteStore (plugin_mem a) (c_handle (n_base ctx)) bsz inv content}
    fuel error f d rest :
  0 < bsz -> inv (f_world f) -> frame_ok f ->
  Z.of_nat (length (content (f_world f))) < 2 ^ 63 ->
  xfer_ok (f_x f) (Z.of_nat (length (content (f_world f)))) ->
  x_sendflag (f_x f) = MSG_MORE -> 0 < x_blkremains (f_x f) < Z.of_nat fuel ->
  ibox (f_net f) = d ++ rest -> length d = Z.to_nat (x_blkremains (f_x f) * bsz) ->
  exists f', write_loop plugin_mem fuel ctx bsz error f = Ok (error, f') /\ frame_ok f' /\
    inv (f_world f') /\
    content (f_world f') = write_blocks bsz (x_offset (f_x f)) d (content (f_world f)) /\
    x_sendflag (f_x f') = 0 /\ ibox (f_net f') = rest /\ obox (f_net f') = obox (f_net f).
Proof.
  intros Hb. revert f d; induction fuel as [|fuel IH]; intros f d Hinv Hf H63 Hx Hsf Hfuel Hin Hd;
    [lia|].
  cbn [write_loop]. rewrite Hsf. cbn [Z.eqb MSG_MORE].
  assert (xfer_ok (f_x f) (Z.of_nat (length (content (f_world f))))) as Hx' by done.
  destruct Hx' as (Hrem & Hoff & Hsz & Hbb & Hbr & Hlen).
  set (n := Z.min (x_blkremains (f_x f)) (x_bufblksz (f_x f))).
  destruct (write_step_spec error f (take (Z.to_nat (n * bsz)) d) (drop (Z.to_nat (n * bsz)) d ++ rest))
    as (f1 & Hst & Hf1 & Hinv1 & Hc1 & Hx1 & Hi1 & Ho1); [done..|lia| | |].
  { by rewrite app_assoc, take_drop. }
  { rewrite length_take. nia. }
  rewrite Hst. mred. destruct (Z.le_gt_cases (x_blkremains (f_x f)) (x_bufblksz (f_x f))) as [Hle|Hgt].
  - rewrite write_loop_done; [|rewrite Hx1; unfold advanced; cbn; by rewrite (proj2 (Z.leb_le _ _))].
    assert (n = x_blkremains (f_x f)) as Hn by lia. rewrite Hn, <- Hd, ?firstn_all, ?drop_all in *.
    exists f1. rewrite Hx1. unfold advanced; cbn.
    by rewrite (proj2 (Z.leb_le _ _)) by lia.
  - assert (length (content (f_world f1)) = length (content (f_world f))) as Hlc.
    { rewrite Hc1. apply length_write_blocks; [lia..|]. rewrite length_take. nia. }
    destruct (IH f1 (drop (Z.to_nat (n * bsz)) d)) as (f2 & Hrun & Hf2 & Hinv2 & Hc2 & Hs2 & Hi2 & Ho2);
      [done|done|by rewrite Hlc| | | |done| |].
    + rewrite Hx1, Hlc. by apply advanced_ok.
    + rewrite Hx1. unfold advanced. cbn. by rewrite (proj2 (Z.leb_gt _ _)).
    + rewrite Hx1. unfold advanced. cbn. lia.
    + rewrite Hx1. unfold advanced. cbn. fold n. rewrite length_drop. nia.
    + exists f2. rewrite Hrun, Ho2, Ho1. split_and!; try done.
      rewrite Hc2, Hc1, Hx1. unfold advanced; cbn. fold n.
      rewrite write_blocks_app; [by rewrite take_drop|lia..| |].
      * rewrite length_take. nia.
      * rewrite length_drop. nia.
Qed.

(** ** One request *)

Lemma decode_wire_request rq : request_ok rq -> decode_request (wire_request rq) = rq.
Proof.
  unfold request_ok, decode_request. intros H. rewrite request_of_wire. cbn.
  rewrite !bswap_bswap, !Z.mod_small; [by destruct rq|cbn; lia..].
Qed.

Lemma send_reply_spec handle error flags f :
  flags = 0 \/ flags = MSG_MORE ->
  exists net, send_reply ctx handle error flags f = Ok (16, set_net net f) /\
    ibox net = ibox (f_net f) /\ obox net = obox (f_net f) ++ wire_reply error handle.
Proof.
  intros Hf. unfold send_reply. rewrite reply_network.
  destruct (tr_send (f_net f) (wire_reply error handle) flags Hf) as (net & Hs & Hi & Ho).
  rewrite Hs. mred. rewrite length_wire_reply. by exists net.
Qed.

Lemma splice_whole (d l : list byte) : length d = length l -> splice 0 d l = d.
Proof. intros H. unfold splice. by rewrite take_0, drop_ge, app_nil_r by lia. Qed.

(** Receiving a request: the [switch] sees the client's fields. *)
Lemma serve_request_dispatch lfuel f rq rest :
  frame_ok f -> request_ok rq -> rq_magic rq = NBD_REQUEST_MAGIC ->
  ibox (f_net f) = wire_request rq ++ rest ->
  exists net, ibox net = rest /\ obox net = obox (f_net f) /\
    serve_request plugin_mem lfuel ctx f
    = dispatch plugin_mem lfuel ctx rq
        (mk_frame (f_x f) (request_to_mem rq) (f_buffer f) net (f_world f)).
Proof.
  intros [Hreq Hbuf] Hok Hmagic Hin. unfold serve_request.
  destruct (transport_recv (n_sock ctx) (f_net f) (f_request f) (Z.of_nat sizeof_nbd_request)
    (wire_request rq) rest) as (net & Hrecv & Hi & Ho); [done|done|by rewrite Hreq, length_wire_request|done|].
  exists net. split_and!; [done..|]. rewrite Hrecv. mred.
  rewrite splice_whole by (by rewrite Hreq, length_wire_request).
  rewrite decode_wire_request by done. by rewrite Hmagic.
Qed.

(** ** Commands and their meaning on a byte array *)

Definition read_only : Prop := Z.land (n_eflags ctx) NBD_FLAG_READ_ONLY <> 0.
Definition flushable : Prop := Z.land (n_eflags ctx) NBD_FLAG_SEND_FLUSH <> 0.

Context {RS : ReadStore (plugin_mem a) (c_handle (n_base ctx)) bsz inv content}.
Context (WS : ~ read_only -> WriteStore (plugin_mem a) (c_handle (n_base ctx)) bsz inv content).
Context (FS : flushable -> FlushStore (plugin_mem a) (c_handle (n_base ctx)) inv content).
Context (Hblock : bsz <= CONFIG_NBD_BUFFER_LEN).

(** The export as the server believes it: the size it advertised. *)
Definition device_ok (w : W) : Prop :=
  inv w /\ Z.of_nat (length (content w)) = c_exportsize (n_base ctx) /\
  c_exportsize (n_base ctx) < 2 ^ 63.

(** The state of the loop between two requests. *)
Definition idle f : Prop :=
  frame_ok f /\ x_sendflag (f_x f) = 0 /\ device_ok (f_world f).

Definition in_range (rq : nbd_request) : Prop :=
  rq_offset rq + rq_count rq <= c_exportsize (n_base ctx).

Lemma out_of_range_false rq :
  c_exportsize (n_base ctx) < 2 ^ 63 -> 0 <= rq_count rq -> 0 <= rq_offset rq ->
  in_range rq -> out_of_range ctx rq = false.
Proof. unfold out_of_range, in_range. intros. rewrite !wrap_small by lia. by apply Z.ltb_ge. Qed.

Lemma out_of_range_true rq :
  0 <= c_exportsize (n_base ctx) < 2 ^ 63 -> 0 <= rq_count rq -> 0 <= rq_offset rq ->
  rq_offset rq + rq_count rq < 2 ^ 64 ->
  ~ in_range rq -> out_of_range ctx rq = true.
Proof. unfold out_of_range, in_range. intros. rewrite !wrap_small by lia. apply Z.ltb_lt. lia. Qed.

(** The transfer a request starts, in whole blocks. *)
Lemma start_transfer_spec rq x size :
  request_ok rq -> rq_offset rq + rq_count rq <= size ->
  exists x', start_transfer bsz rq x = Ok x' /\ xfer_ok x' size /\
    x_sendflag x' = MSG_MORE /\ x_blkremains x' = rq_count rq / bsz /\
    x_offset x' = rq_offset rq / bsz.
Proof.
  unfold request_ok. intros Hrq Hsz. pose proof rs_bsz as Hb. unfold start_transfer.
  destruct CFGok as [Hc1 Hc2 Hc3].
  rewrite require_true by lia. mred.
  pose proof (div_mul_le CONFIG_NBD_BUFFER_LEN bsz Hb).
  pose proof (div_mul_le (rq_count rq) bsz Hb). pose proof (div_mul_le (rq_offset rq) bsz Hb).
  assert (0 < CONFIG_NBD_BUFFER_LEN / bsz) by (apply Z.div_str_pos; lia).
  assert (0 <= rq_count rq / bsz) by (apply Z.div_pos; lia).
  assert (0 <= rq_offset rq / bsz) by (apply Z.div_pos; lia).
  rewrite (wrap_small 32 (CONFIG_NBD_BUFFER_LEN / bsz)), wrap_small by nia.
  eexists. split; [done|]. unfold xfer_ok. cbn. split_and!; try done; try nia.
Qed.

Lemma cmd_read_spec lfuel f rq :
  idle f -> request_ok rq -> in_range rq -> rq_count rq / bsz < Z.of_nat lfuel ->
  exists f', cmd_read plugin_mem lfuel ctx bsz rq f = Ok (None, f') /\ idle f' /\
    content (f_world f') = content (f_world f) /\ ibox (f_net f') = ibox (f_net f) /\
    obox (f_net f') = obox (f_net f) ++ wire_reply NBD_SUCCESS (rq_handle rq) ++
      blocks bsz (rq_offset rq / bsz) (rq_count rq / bsz) (content (f_world f)).
Proof.
  intros (Hf & Hsf & Hinv & Hsz & H63) Hrq Hr Hfuel. unfold cmd_read.
  unfold request_ok in Hrq. unfold in_range in Hr.
  rewrite out_of_range_false by (done || lia).
  destruct (start_transfer_spec rq (f_x f) _ Hrq Hr) as (x & Hst & Hx & Hxs & Hrem & Hoff).
  rewrite Hst. mred.
  destruct (send_reply_spec (rq_handle rq) NBD_SUCCESS (x_sendflag x) (set_x x f))
    as (net & Hsend & Hi & Ho); [by right|]. rewrite Hsend. mred.
  destruct (read_loop_spec lfuel (set_net net (set_x x f)))
    as (f' & Hrun & Hf' & Hinv' & Hc & Hs' & Hi' & Ho'); cbn;
    [done|done|by rewrite Hsz|by rewrite Hsz|done|by rewrite Hrem|].
  exists f'. rewrite Hrun. split; [done|]. cbn in Hc, Hi', Ho'.
  split; [split; [done|split; [done|]]; split_and!; [done|by rewrite Hc|done]|].
  rewrite Hc, Hi', Hi, Ho', Ho, Hrem, Hoff. cbn. by rewrite <- app_assoc.
Qed.

Lemma cmd_read_out_of_range lfuel f rq :
  idle f -> request_ok rq -> rq_offset rq + rq_count rq < 2 ^ 64 -> ~ in_range rq ->
  exists f', cmd_read plugin_mem lfuel ctx bsz rq f = Ok (None, f') /\ idle f' /\
    content (f_world f') = content (f_world f) /\ ibox (f_net f') = ibox (f_net f) /\
    obox (f_net f') = obox (f_net f) ++ wire_reply NBD_EIO (rq_handle rq).
Proof.
  intros (Hf & Hsf & Hinv & Hsz & H63) Hrq Hov Hr. unfold cmd_read.
  unfold request_ok in Hrq.
  rewrite out_of_range_true by (done || lia). mred.
  destruct (send_reply_spec (rq_handle rq) NBD_EIO (x_sendflag (f_x f)) (set_x (f_x f) f))
    as (net & Hsend & Hi & Ho); [by left|]. rewrite Hsend. mred.
  rewrite read_loop_done by done. by eexists.
Qed.

Lemma cmd_write_spec lfuel f rq d rest :
  ~ read_only -> idle f -> request_ok rq -> in_range rq ->
  0 < rq_count rq / bsz < Z.of_nat lfuel ->
  ibox (f_net f) = d ++ rest -> length d = Z.to_nat (rq_count rq / bsz * bsz) ->
  exists f', cmd_write plugin_mem lfuel ctx bsz rq f = Ok f' /\ idle f' /\
    content (f_world f')
      = write_blocks bsz (rq_offset rq / bsz) d (content (f_world f)) /\
    ibox (f_net f') = rest /\
    obox (f_net f') = obox (f_net f) ++ wire_reply NBD_SUCCESS (rq_handle rq).
Proof.
  intros Hro (Hf & Hsf & Hinv & Hsz & H63) Hrq Hr Hfuel Hin Hd. unfold cmd_write.
  pose proof (WS Hro) as HWS. pose proof rs_bsz as Hb.
  unfold request_ok in Hrq. unfold in_range in Hr.
  assert (Z.land (n_eflags ctx) NBD_FLAG_READ_ONLY =? 0 = true) as -> by
    (apply Z.eqb_eq; destruct (decide (Z.land (n_eflags ctx) NBD_FLAG_READ_ONLY = 0)); [done|by destruct Hro]).
  cbn [negb]. rewrite out_of_range_false by (done || lia).
  destruct (start_transfer_spec rq (f_x f) _ Hrq Hr) as (x & Hst & Hx & Hxs & Hrem & Hoff).
  rewrite Hst. mred.
  destruct (write_loop_spec lfuel NBD_SUCCESS (set_x x f) d rest)
    as (f1 & Hrun & Hf1 & Hinv1 & Hc & Hs1 & Hi1 & Ho1); cbn;
    [done..|by rewrite Hsz|by rewrite Hsz|done|by rewrite Hrem|done|by rewrite Hrem|].
  rewrite Hrun. mred.
  destruct (send_reply_spec (rq_handle rq) NBD_SUCCESS 0 f1) as (net & Hsend & Hi & Ho); [by left|].
  rewrite Hsend. mred. eexists. split; [done|]. cbn in Hc, Ho1. cbn.
  rewrite Hc, Hi, Hi1, Ho, Ho1, Hoff in *. split; [|done].
  split; [done|split; [done|]]. split_and!; [done| |done]. cbn. rewrite Hc, length_write_blocks; [done|by apply Z.div_pos; lia|done|].
  pose proof (div_mul_le (rq_count rq) bsz Hb). pose proof (div_mul_le (rq_offset rq) bsz Hb).
  assert (0 <= rq_offset rq / bsz) by (apply Z.div_pos; lia). nia.
Qed.

Lemma cmd_flush_spec f rq :
  flushable -> idle f ->
  exists f', cmd_flush plugin_mem ctx rq f = Ok f' /\ idle f' /\
    content (f_world f') = content (f_world f) /\ ibox (f_net f') = ibox (f_net f) /\
    obox (f_net f') = obox (f_net f) ++ wire_reply NBD_SUCCESS (rq_handle rq).
Proof.
  intros Hfl (Hf & Hsf & Hinv & Hsz & H63). unfold cmd_flush. pose proof (FS Hfl) as HFS.
  destruct (lwnbd_flush_spec plugin_mem (n_base ctx) a inv content Hplugin (f_world f) Hinv)
    as (w' & Hrun & Hinv' & Hc). rewrite Hrun. mred. cbn [Z.eqb].
  destruct (send_reply_spec (rq_handle rq) NBD_SUCCESS 0 (set_fworld w' f)) as (net & Hsend & Hi & Ho);
    [by left|]. rewrite Hsend. mred. eexists. split; [done|]. cbn.
  rewrite Hc, Hi, Ho. split; [|done]. split; [done|split; [done|]]. split_and!; [done|cbn; by rewrite Hc|done].
Qed.

(** ** Sessions

    A command is a request and the payload the client sends after it. *)

Record command := mk_command { cmd_rq : nbd_request; cmd_data : list byte }.

Definition client_bytes (c : command) : list byte := wire_request (cmd_rq c) ++ cmd_data c.

(** A conforming client on this export: known command types, no wrap-around
    of the range, whole blocks, writes and flushes only if the transmission
    flags announce them, and a payload of the announced length. *)
Definition conforming (c : command) : Prop :=
  let rq := cmd_rq c in
  request_ok rq /\ rq_magic rq = NBD_REQUEST_MAGIC /\
  rq_offset rq + rq_count rq < 2 ^ 64 /\ rq_type rq < 8 /\ rq_type rq <> NBD_CMD_DISC /\
  (rq_type rq = NBD_CMD_READ -> rq_offset rq mod bsz = 0 /\ rq_count rq mod bsz = 0) /\
  (rq_type rq = NBD_CMD_WRITE ->
     ~ read_only /\ in_range rq /\ rq_offset rq mod bsz = 0 /\ rq_count rq mod bsz = 0 /\
     0 < rq_count rq) /\
  (rq_type rq = NBD_CMD_FLUSH -> flushable) /\
  Z.of_nat (length (cmd_data c))
    = (if rq_type rq =? NBD_CMD_WRITE then rq_count rq else 0).

(** What the command means: the reply and the new bytes of the export. *)
Definition command_spec (c : command) (l : list byte) : list byte * list byte :=
  let rq := cmd_rq c in
  let off := Z.to_nat (rq_offset rq) in
  if rq_type rq =? NBD_CMD_READ then
    if decide (rq_offset rq + rq_count rq <= Z.of_nat (length l))
    then (wire_reply NBD_SUCCESS (rq_handle rq) ++ slice off (Z.to_nat (rq_count rq)) l, l)
    else (wire_reply NBD_EIO (rq_handle rq), l)
  else if rq_type rq =? NBD_CMD_WRITE then
    (wire_reply NBD_SUCCESS (rq_handle rq), splice off (cmd_data c) l)
  else if rq_type rq =? NBD_CMD_FLUSH then (wire_reply NBD_SUCCESS (rq_handle rq), l)
  else (wire_reply NBD_EINVAL (rq_handle rq), l).

Fixpoint session_spec (cs : list command) (l : list byte) : list byte * list byte :=
  match cs with
  | [] => ([], l)
  | c :: cs =>
      let '(r, l) := command_spec c l in
      let '(rs, l) := session_spec cs l in (r ++ rs, l)
  end.

Lemma session_spec_app cs cs' l :
  session_spec (cs ++ cs') l
  = ((session_spec cs l).1 ++ (session_spec cs' (session_spec cs l).2).1,
     (session_spec cs' (session_spec cs l).2).2).
Proof.
  revert l; induction cs as [|c cs IH]; intros l; cbn [app session_spec].
  - cbn [fst snd app]. by destruct (session_spec cs' l).
  - destruct (command_spec c l) as [r l1]. rewrite IH.
    destruct (session_spec cs l1) as [rs l2]. cbn [fst snd]. by rewrite app_assoc.
Qed.

Lemma div_exact_mul z : z mod bsz = 0 -> z / bsz * bsz = z.
Proof. intros H. pose proof rs_bsz. pose proof (Z.div_mod z bsz). lia. Qed.

Lemma nbd_commands_known t : 0 <= t < 8 -> exists s, nbd_commands_to_string t = Ok s.
Proof.
  intros H. unfold nbd_commands_to_string.
  destruct (lookup_lt_is_Some_2 nbd_commands (Z.to_nat t)) as [s Hs]; [cbn; lia|].
  exists s. by rewrite Hs.
Qed.

(** One turn of the loop refines the meaning of the command. *)
Lemma serve_command lfuel f c rest :
  idle f -> conforming c -> c_exportsize (n_base ctx) / bsz < Z.of_nat lfuel ->
  ibox (f_net f) = client_bytes c ++ rest ->
  let '(reply, l) := command_spec c (content (f_world f)) in
  exists f', serve_request plugin_mem lfuel ctx f = Ok (Next (ctx, f')) /\ idle f' /\
    ibox (f_net f') = rest /\ obox (f_net f') = obox (f_net f) ++ reply /\
    content (f_world f') = l.
Proof.
  intros Hidle (Hok & Hmagic & Hov & Hty & Hnd & Hrd & Hwr & Hfl & Hlen) Hfuel Hin.
  pose proof rs_bsz as Hb. destruct Hidle as (Hf & Hsf & Hdev).
  unfold client_bytes in Hin. rewrite <- app_assoc in Hin.
  destruct (serve_request_dispatch lfuel f (cmd_rq c) (cmd_data c ++ rest) Hf Hok Hmagic Hin)
    as (net & Hi & Ho & Hrun).
  set (f1 := mk_frame _ _ _ _ _) in Hrun. set (rq := cmd_rq c) in *.
  assert (idle f1) as Hidle1.
  { destruct Hf. split; [|done]. split; cbn; [apply length_request_to_mem|done]. }
  assert (content (f_world f1) = content (f_world f)) as Hcf by done.
  rewrite <- Ho, <- Hcf. change (obox net) with (obox (f_net f1)).
  rewrite Hrun. unfold dispatch. unfold request_ok in Hok.
  destruct (nbd_commands_known (rq_type rq)) as [s ->]; [lia|]. mred.
  destruct Hdev as (Hinv & Hsz & H63). rewrite <- Hcf in Hsz.
  assert (in_range rq -> rq_count rq / bsz < Z.of_nat lfuel) as Hcf'.
  { unfold in_range. intros. eapply Z.le_lt_trans; [apply (Z.div_le_mono _ (c_exportsize (n_base ctx)))|]; lia. }
  unfold command_spec. fold rq.
  case (Z.eqb_spec (rq_type rq) NBD_CMD_READ) as [Ht|Ht].
  - destruct (Hrd Ht) as [Ho1 Ho2].
    assert (cmd_data c = []) as Hd.
    { rewrite Ht in Hlen. apply nil_length_inv. cbn in Hlen. lia. }
    rewrite Hd in *. cbn [app] in Hi. rewrite Hsz. case_decide as Hr.
    + destruct (cmd_read_spec lfuel f1 rq Hidle1 Hok Hr (Hcf' Hr)) as (f' & -> & Hid & Hc & Hi' & Ho').
      mred. exists f'. rewrite Hc, Hi', Ho'. split_and!; try done.
      do 2 f_equal. unfold blocks. by rewrite !div_exact_mul.
    + destruct (cmd_read_out_of_range lfuel f1 rq Hidle1 Hok Hov Hr) as (f' & -> & Hid & Hc & Hi' & Ho').
      mred. exists f'. by rewrite Hc, Hi', Ho'.
  - case (Z.eqb_spec (rq_type rq) NBD_CMD_WRITE) as [Hw|Hw].
    + destruct (Hwr Hw) as (Hro & Hr & Ho1 & Ho2 & Hpos).
      pose proof (div_exact_mul _ Ho2) as E.
      destruct (cmd_write_spec lfuel f1 rq (cmd_data c) rest Hro Hidle1 Hok Hr)
        as (f' & -> & Hid & Hc & Hi' & Ho'); [split; [nia|auto]|done|rewrite E; lia|].
      mred. exists f'. rewrite Hc, Hi', Ho'. split_and!; try done.
      unfold write_blocks. by rewrite div_exact_mul.
    + assert (cmd_data c = []) as Hd.
      { apply nil_length_inv. lia. }
      rewrite Hd in *. cbn [app] in Hi. rewrite (proj2 (Z.eqb_neq _ _) Hnd).
      case (Z.eqb_spec (rq_type rq) NBD_CMD_FLUSH) as [Hfs|Hfs].
      * destruct (cmd_flush_spec f1 rq (Hfl Hfs) Hidle1) as (f' & -> & Hid & Hc & Hi' & Ho').
        mred. exists f'. by rewrite Hc, Hi', Ho'.
      * destruct (send_reply_spec (rq_handle rq) NBD_EINVAL 0 f1) as (net' & Hsend & Hi' & Ho'); [by left|].
        rewrite Hsend. mred. eexists. split; [done|]. cbn. by rewrite Hi', Ho'.
Qed.

Lemma serve_session lfuel cs f rest k :
  idle f -> Forall conforming cs -> c_exportsize (n_base ctx) / bsz < Z.of_nat lfuel ->
  ibox (f_net f) = concat (client_bytes <$> cs) ++ rest ->
  let '(replies, l) := session_spec cs (content (f_world f)) in
  exists f', transmission_loop plugin_mem (length cs + k) lfuel ctx f
      = transmission_loop plugin_mem k lfuel ctx f' /\ idle f' /\
    ibox (f_net f') = rest /\ obox (f_net f') = obox (f_net f) ++ replies /\
    content (f_world f') = l.
Proof.
  intros Hid Hcs Hfuel. revert f Hid. induction Hcs as [|c cs Hc Hcs IH]; intros f Hid Hin.
  - cbn [session_spec]. exists f. rewrite app_nil_r. by split_and!.
  - cbn [session_spec]. rewrite fmap_cons in Hin. cbn [concat] in Hin. rewrite <- app_assoc in Hin.
    pose proof (serve_command lfuel f c _ Hid Hc Hfuel Hin) as Hstep.
    destruct (command_spec c _) as [r l1]. destruct Hstep as (f1 & Hrun & Hid1 & Hi1 & Ho1 & <-).
    specialize (IH f1 Hid1 Hi1). destruct (session_spec cs _) as [rs l2].
    destruct IH as (f2 & Hrun2 & Hid2 & Hi2 & Ho2 & Hc2).
    exists f2. cbn [length Nat.add transmission_loop]. rewrite Hrun. mred.
    rewrite Hrun2, Ho2, Ho1, app_assoc. by split_and!.
Qed.

(** [NBD_CMD_DISC] ends the phase without a reply. *)
Definition is_disconnect (rq : nbd_request) : Prop :=
  request_ok rq /\ rq_magic rq = NBD_REQUEST_MAGIC /\ rq_type rq = NBD_CMD_DISC.

Definition stack_ok (request nbd_buffer : list byte) : Prop :=
  length request = sizeof_nbd_request /\ Z.of_nat (length nbd_buffer) = MAX_REQUEST_SIZE.

Lemma initial_idle request nbd_buffer net w :
  stack_ok request nbd_buffer -> device_ok w ->
  idle (mk_frame initial_xfer request nbd_buffer net w).
Proof. intros [H1 H2] Hd. by split. Qed.

Lemma session_run lfuel cs disc request nbd_buffer net w rest k :
  stack_ok request nbd_buffer -> device_ok w ->
  Forall conforming cs -> is_disconnect disc ->
  c_exportsize (n_base ctx) / bsz < Z.of_nat lfuel ->
  ibox net = concat (client_bytes <$> cs) ++ wire_request disc ++ rest ->
  exists f, transmission_phase plugin_mem (length cs + S k) lfuel (Some ctx) request nbd_buffer net w
      = Ok (0, Some (set_n_state ABORT ctx, f)) /\
    ibox (f_net f) = rest /\ obox (f_net f) = obox net ++ (session_spec cs (content w)).1 /\
    content (f_world f) = (session_spec cs (content w)).2 /\ device_ok (f_world f).
Proof.
  intros Hst Hdev Hcs (Hok & Hmagic & Hty) Hfuel Hin.
  pose proof (serve_session lfuel cs _ _ (S k) (initial_idle request nbd_buffer net w Hst Hdev) Hcs Hfuel Hin) as H.
  cbn [f_world] in H. destruct (session_spec cs _) as [rs l].
  destruct H as (f & Hrun & (Hf & Hsf & Hd) & Hi & Ho & Hc).
  unfold transmission_phase. rewrite Hrun. cbn [transmission_loop].
  destruct (serve_request_dispatch lfuel f disc rest Hf Hok Hmagic Hi) as (net' & Hi' & Ho' & ->).
  unfold dispatch. rewrite Hty. cbn. eexists. split; [done|]. cbn. by rewrite Ho', Ho.
Qed.

Lemma hangup_run lfuel cs request nbd_buffer net w tail k :
  stack_ok request nbd_buffer -> device_ok w ->
  Forall conforming cs -> (length tail < sizeof_nbd_request)%nat ->
  c_exportsize (n_base ctx) / bsz < Z.of_nat lfuel ->
  ibox net = concat (client_bytes <$> cs) ++ tail ->
  exists f, transmission_phase plugin_mem (length cs + S k) lfuel (Some ctx) request nbd_buffer net w
      = Ok (-1, Some (ctx, f)) /\
    obox (f_net f) = obox net ++ (session_spec cs (content w)).1 /\
    content (f_world f) = (session_spec cs (content w)).2 /\ device_ok (f_world f).
Proof.
  intros Hst Hdev Hcs Htail Hfuel Hin.
  pose proof (serve_session lfuel cs _ _ (S k) (initial_idle request nbd_buffer net w Hst Hdev) Hcs Hfuel Hin) as H.
  cbn [f_world] in H. destruct (session_spec cs _) as [rs l].
  destruct H as (f & Hrun & ([Hreq Hbuf] & Hsf & Hd) & Hi & Ho & Hc).
  unfold transmission_phase. rewrite Hrun. cbn [transmission_loop]. unfold serve_request.
  destruct (tr_recv_eof (f_net f) (f_request f) sizeof_nbd_request) as (r & m & n' & Hr & Hrr & _ & Ho');
    [done|by rewrite Hreq|by rewrite Hi|].
  rewrite Hr. mred. unfold sizeof_nbd_request in *.
  rewrite swrap_small, wrap_small by lia. rewrite (proj2 (Z.ltb_lt _ _)) by lia. mred.
  eexists. split; [done|]. cbn. by rewrite Ho', Ho.
Qed.

(** C1: a session of a conforming client that ends with a disconnection gets
    exactly the replies of its commands, in order, the device ends up with
    the bytes the commands leave, nothing of the following stream is read,
    and the phase returns [0] with the state [ABORT]. *)
Theorem transmission_session lfuel cs disc request nbd_buffer net w rest :
  stack_ok request nbd_buffer -> device_ok w ->
  Forall conforming cs -> is_disconnect disc ->
  c_exportsize (n_base ctx) / bsz < Z.of_nat lfuel ->
  ibox net = concat (client_bytes <$> cs) ++ wire_request disc ++ rest ->
  let '(replies, l) := session_spec cs (content w) in
  exists f, transmission_phase plugin_mem (length cs + 1) lfuel (Some ctx) request nbd_buffer net w
      = Ok (0, Some (set_n_state ABORT ctx, f)) /\
    ibox (f_net f) = rest /\ obox (f_net f) = obox net ++ replies /\
    content (f_world f) = l /\ device_ok (f_world f).
Proof.
  intros Hst Hdev Hcs Hdisc Hfuel Hin.
  pose proof (session_run lfuel cs disc _ _ net w rest 0 Hst Hdev Hcs Hdisc Hfuel Hin) as H.
  by destruct (session_spec cs (content w)).
Qed.

(** When the client goes away between two requests, the phase returns
    [-1]; everything it was asked before has been done and answered. *)
Theorem transmission_hangup lfuel cs request nbd_buffer net w tail :
  stack_ok request nbd_buffer -> device_ok w ->
  Forall conforming cs -> (length tail < sizeof_nbd_request)%nat ->
  c_exportsize (n_base ctx) / bsz < Z.of_nat lfuel ->
  ibox net = concat (client_bytes <$> cs) ++ tail ->
  let '(replies, l) := session_spec cs (content w) in
  exists f, transmission_phase plugin_mem (length cs + 1) lfuel (Some ctx) request nbd_buffer net w
      = Ok (-1, Some (ctx, f)) /\
    obox (f_net f) = obox net ++ replies /\ content (f_world f) = l /\ device_ok (f_world f).
Proof.
  intros Hst Hdev Hcs Htail Hfuel Hin.
  pose proof (hangup_run lfuel cs _ _ net w tail 0 Hst Hdev Hcs Htail Hfuel Hin) as H.
  by destruct (session_spec cs (content w)).
Qed.

(** C2: what a write stored is what a read of the same range returns, in the
    same session. *)
Theorem write_then_read lfuel rq rq' d disc request nbd_buffer net w rest :
  stack_ok request nbd_buffer -> device_ok w ->
  conforming (mk_command rq d) -> rq_type rq = NBD_CMD_WRITE ->
  conforming (mk_command rq' []) -> rq_type rq' = NBD_CMD_READ ->
  rq_offset rq' = rq_offset rq -> rq_count rq' = rq_count rq ->
  is_disconnect disc -> c_exportsize (n_base ctx) / bsz < Z.of_nat lfuel ->
  ibox net = (wire_request rq ++ d) ++ wire_request rq' ++ wire_request disc ++ rest ->
  exists f, transmission_phase plugin_mem 3 lfuel (Some ctx) request nbd_buffer net w
      = Ok (0, Some (set_n_state ABORT ctx, f)) /\
    obox (f_net f) = obox net ++ wire_reply NBD_SUCCESS (rq_handle rq) ++
      wire_reply NBD_SUCCESS (rq_handle rq') ++ d.
Proof.
  intros Hst Hdev Hw Hwt Hr Hrt Hoff Hcnt (Hok & Hmagic & Hty) Hfuel Hin.
  pose proof (serve_session lfuel [mk_command rq d; mk_command rq' []] _ (wire_request disc ++ rest) 1
    (initial_idle request nbd_buffer net w Hst Hdev)) as H.
  cbn [fmap list_fmap concat client_bytes cmd_rq cmd_data] in H.
  unfold client_bytes in H. cbn [cmd_rq cmd_data] in H.
  specialize (H (Forall_cons_2 _ _ _ Hw (Forall_cons_2 _ _ _ Hr (Forall_nil_2 _))) Hfuel).
  cbn [f_net f_world session_spec] in H.
  rewrite Hin in H. rewrite !app_nil_r in H. rewrite <- !app_assoc in H. specialize (H eq_refl).
  unfold command_spec in H. cbn [cmd_rq cmd_data] in H. rewrite Hwt, Hrt, Hoff, Hcnt in H.
  destruct Hw as (Hrq & _ & _ & _ & _ & _ & Hwr & _ & Hlen). cbn [cmd_rq cmd_data] in *.
  destruct (Hwr Hwt) as (_ & Hrange & _). rewrite Hwt in Hlen. cbn [NBD_CMD_WRITE Z.eqb Pos.eqb] in Hlen.
  unfold request_ok in Hrq. unfold in_range in Hrange. destruct Hdev as (_ & Hsz & _).
  cbn [NBD_CMD_WRITE NBD_CMD_READ Z.eqb Pos.eqb] in H.
  assert (length (splice (Z.to_nat (rq_offset rq)) d (content w)) = length (content w)) as Hl
    by (apply length_splice; lia).
  rewrite decide_True in H by lia.
  replace (Z.to_nat (rq_count rq)) with (length d) in H by lia.
  rewrite slice_splice in H by lia. rewrite app_nil_r in H.
  destruct H as (f & Hrun & ([Hreq Hbuf] & Hsf & Hd) & Hi & Ho & Hc).
  unfold transmission_phase. cbn [length Nat.add] in Hrun. rewrite Hrun. cbn [transmission_loop].
  destruct (serve_request_dispatch lfuel f disc rest (conj Hreq Hbuf) Hok Hmagic Hi) as (net' & Hi' & Ho' & ->).
  unfold dispatch. rewrite Hty. cbn. eexists. split; [done|]. cbn. by rewrite Ho', Ho.
Qed.
End spec.
