(* ===== verification/Interleaving.v ===== *)
(** * Several transmission phases on one device

    The servers of [examples/lwnbd-server.c] and [examples/mini-xinetd.c] run
    each connection on a thread of its own, so that several instances of
    [transmission_phase] ([servers/nbd/protocol.c]) use the plugins at the same
    time.  Here the phase is cut into turns: receiving a request and answering
    it as far as it can be without the loops, then one turn of a transfer loop
    after another.  The turns of several tasks interleave in any order; what a
    plugin does in one call is atomic.

    Alone, a task does what [transmission_phase] does, turn by turn; [Tenants]
    says what tasks do to each other. *)

From S2P Require Export TransmissionSpec.

(** ** Tasks *)

(** Where a thread is: at the top of [while (1)], in the loop of [NBD_CMD_READ],
    in the loop of [NBD_CMD_WRITE] with its locals [reply.handle] and [error],
    or returned. *)
Inductive activity := Waiting | Sending | Receiving (handle error : Z) | Over (r : Z).

Record task (N W : Type) := mk_task {
  t_ctx : lwnbd_context_nbd_t; t_act : activity; t_frame : frame N W }.
Arguments mk_task {N W} _ _ _.
Arguments t_ctx {N W} _.
Arguments t_act {N W} _.
Arguments t_frame {N W} _.

Section turns.
Context `{CFG : NbdConfig} {W Cfg : Type} (plugin_mem : nat -> lwnbd_plugin_t W Cfg).
Context {N : Type} `{CB : Callbacks N}.
Implicit Types (ctx : lwnbd_context_nbd_t) (f : frame N W) (t : task N W).

(** A request of the client, or the reason to return. *)
Definition receive_request ctx f : outcome (option nbd_request * frame N W) :=
  '(r, m, net) ← sync_recv_cb (n_sock ctx) (f_request f) (Z.of_nat sizeof_nbd_request) (f_net f);
  let f := mk_frame (f_x f) m (f_buffer f) net (f_world f) in
  if size_t (i32 r) <? Z.of_nat sizeof_nbd_request then Ok (None, f)
  else
    let request := decode_request m in
    if negb (rq_magic request =? NBD_REQUEST_MAGIC) then Ok (None, f)
    else Ok (Some request, mk_frame (f_x f) (request_to_mem request) (f_buffer f) net (f_world f)).

(** [NBD_CMD_READ] up to its loop: the reply goes first. *)
Definition read_start ctx (blocksize : Z) (request : nbd_request) f : outcome (frame N W) :=
  '(error, x) ← (if out_of_range ctx request then Ok (NBD_EIO, f_x f)
                 else x ← start_transfer blocksize request (f_x f); Ok (NBD_SUCCESS, x));
  '(_, f) ← send_reply ctx (rq_handle request) error (x_sendflag x) (set_x x f);
  Ok f.

(** [NBD_CMD_WRITE] up to its loop. *)
Definition write_start ctx (blocksize : Z) (request : nbd_request) f : outcome (Z * frame N W) :=
  '(error, x) ← (if negb (Z.land (n_eflags ctx) NBD_FLAG_READ_ONLY =? 0) then Ok (NBD_EPERM, f_x f)
                 else if out_of_range ctx request then Ok (NBD_ENOSPC, f_x f)
                 else x ← start_transfer blocksize request (f_x f); Ok (NBD_SUCCESS, x));
  Ok (error, set_x x f).

(** Where a thread is after a request. *)
Definition after (c : ctl (lwnbd_context_nbd_t * frame N W)) : task N W :=
  match c with
  | Next (ctx, f) | Break (ctx, f) => mk_task ctx Waiting f
  | Return r (ctx, f) => mk_task ctx (Over r) f
  end.

(** The [switch]; its other cases have no loop. *)
Definition begin_request ctx (request : nbd_request) f : outcome (task N W) :=
  let blocksize := n_minimum_block_size ctx in
  _ ← nbd_commands_to_string (rq_type request);
  if rq_type request =? NBD_CMD_READ then
    f ← read_start ctx blocksize request f; Ok (mk_task ctx Sending f)
  else if rq_type request =? NBD_CMD_WRITE then
    '(error, f) ← write_start ctx blocksize request f;
    Ok (mk_task ctx (Receiving (rq_handle request) error) f)
  else c ← dispatch plugin_mem 0 ctx request f; Ok (after c).

Definition task_turn t : outcome (task N W) :=
  let ctx := t_ctx t in
  let blocksize := n_minimum_block_size ctx in
  match t_act t with
  | Waiting =>
      '(o, f) ← receive_request ctx (t_frame t);
      match o with
      | None => Ok (mk_task ctx (Over (-1)) f)
      | Some request => begin_request ctx request f
      end
  | Sending =>
      if x_sendflag (f_x (t_frame t)) =? 0 then Ok (mk_task ctx Waiting (t_frame t))
      else
        c ← read_step plugin_mem ctx blocksize (t_frame t);
        Ok (match c with
            | Next f => mk_task ctx Sending f
            | Break f => mk_task ctx Waiting f
            | Return r f => mk_task ctx (Over r) f
            end)
  | Receiving handle error =>
      if x_sendflag (f_x (t_frame t)) =? 0 then
        '(_, f) ← send_reply ctx handle error 0 (t_frame t); Ok (mk_task ctx Waiting f)
      else
        '(error, f) ← write_step plugin_mem ctx blocksize error (t_frame t);
        Ok (mk_task ctx (Receiving handle error) f)
  | Over _ => Ok t
  end.

Fixpoint turns (n : nat) t : outcome (task N W) :=
  match n with O => Ok t | S n => t ← task_turn t; turns n t end.

(** ** Threads *)

(** A task on the device as it is now. *)
Definition at_world (w : W) t : task N W := mk_task (t_ctx t) (t_act t) (set_fworld w (t_frame t)).

Record threads := mk_threads { th_tasks : list (task N W); th_world : W }.

Definition thread_turn (j : nat) (s : threads) : outcome threads :=
  match th_tasks s !! j with
  | None => Ok s
  | Some t =>
      t ← task_turn (at_world (th_world s) t);
      Ok (mk_threads (<[j := t]> (th_tasks s)) (f_world (t_frame t)))
  end.

(** A schedule says which thread takes the next turn. *)
Fixpoint run_threads (sched : list nat) (s : threads) : outcome threads :=
  match sched with [] => Ok s | j :: sched => s ← thread_turn j s; run_threads sched s end.

(** ** A task alone *)

Lemma turns_add n m t : turns (n + m) t = (t ← turns n t; turns m t).
Proof.
  revert t; induction n as [|n IH]; intros t; [done|]. cbn [Nat.add turns].
  destruct (task_turn t) as [t'|]; mred; [apply IH|done].
Qed.

Lemma turns_trans n m t t1 t2 : turns n t = Ok t1 -> turns m t1 = Ok t2 -> turns (n + m) t = Ok t2.
Proof. intros H1 H2. by rewrite turns_add, H1. Qed.

Lemma turns_over n ctx r f : turns n (mk_task ctx (Over r) f) = Ok (mk_task ctx (Over r) f).
Proof. by induction n. Qed.

Lemma at_world_id t : at_world (f_world (t_frame t)) t = t.
Proof. by destruct t as [c act []]. Qed.

(** A thread that takes several turns in a row. *)
Lemma run_thread n j (s : threads) t t' :
  th_tasks s !! j = Some t -> turns (S n) (at_world (th_world s) t) = Ok t' ->
  run_threads (replicate (S n) j) s = Ok (mk_threads (<[j := t']> (th_tasks s)) (f_world (t_frame t'))).
Proof.
  revert s t; induction n as [|n IH]; intros s t Hj Ht.
  - cbn [turns replicate run_threads] in *. unfold thread_turn. rewrite Hj.
    apply bind_Ok in Ht as (t1 & Ht & [= ->]). rewrite Ht. by mred.
  - change (turns (S (S n)) (at_world (th_world s) t))
      with (t1 ← task_turn (at_world (th_world s) t); turns (S n) t1) in Ht.
    apply bind_Ok in Ht as (t1 & Ht1 & Ht).
    change (replicate (S (S n)) j) with (j :: replicate (S n) j). cbn [run_threads].
    unfold thread_turn at 1. rewrite Hj, Ht1. mred.
    rewrite (IH _ t1); cbn [th_tasks th_world].
    + by rewrite list_insert_insert_eq.
    + apply list_lookup_insert_eq. by eapply lookup_lt_Some.
    + by rewrite at_world_id.
Qed.

Lemma serve_request_receive lfuel ctx f :
  serve_request plugin_mem lfuel ctx f
  = ('(o, f) ← receive_request ctx f;
     match o with
     | None => Ok (Return (-1) (ctx, f))
     | Some rq => dispatch plugin_mem lfuel ctx rq f
     end).
Proof.
  unfold serve_request, receive_request.
  destruct (sync_recv_cb _ _ _ _) as [[[r m] net]|]; mred; [|done].
  destruct (_ <? _); [done|]. by destruct (negb _).
Qed.

Lemma cmd_read_start lfuel ctx bsz rq f :
  cmd_read plugin_mem lfuel ctx bsz rq f = (f ← read_start ctx bsz rq f; read_loop plugin_mem lfuel ctx bsz f).
Proof.
  unfold cmd_read, read_start. destruct (if out_of_range _ _ then _ else _) as [[e x]|]; mred; [|done].
  by destruct (send_reply _ _ _ _ _) as [[r f']|].
Qed.

Lemma cmd_write_start lfuel ctx bsz rq f :
  cmd_write plugin_mem lfuel ctx bsz rq f
  = ('(error, f) ← write_start ctx bsz rq f;
     '(error, f) ← write_loop plugin_mem lfuel ctx bsz error f;
     '(_, f) ← send_reply ctx (rq_handle rq) error 0 f; Ok f).
Proof.
  unfold cmd_write, write_start. by destruct (if negb _ then _ else _) as [[e x]|]; mred.
Qed.

Lemma read_loop_turns lfuel ctx f o f' :
  read_loop plugin_mem lfuel ctx (n_minimum_block_size ctx) f = Ok (o, f') ->
  exists n, turns n (mk_task ctx Sending f)
    = Ok (match o with None => mk_task ctx Waiting f' | Some r => mk_task ctx (Over r) f' end).
Proof.
  revert f; induction lfuel as [|lfuel IH]; intros f; cbn [read_loop];
    destruct (x_sendflag (f_x f) =? 0) eqn:E.
  1, 3: intros [= <- <-]; exists 1%nat; cbn; by rewrite E.
  { done. }
  intros H. apply bind_Ok in H as (c & Hc & H).
  assert (task_turn (mk_task ctx Sending f) = Ok (match c with
    | Next f => mk_task ctx Sending f | Break f => mk_task ctx Waiting f
    | Return r f => mk_task ctx (Over r) f end)) as Hturn by (unfold task_turn; cbn; by rewrite E, Hc).
  destruct c as [f1|f1|r f1]; [|exists 1%nat; cbn [turns]; rewrite Hturn; mred; by simplify_eq..].
  apply IH in H as [n Hn]. exists (S n). cbn [turns]. by rewrite Hturn.
Qed.

Lemma write_loop_turns lfuel ctx h e f e' f' :
  write_loop plugin_mem lfuel ctx (n_minimum_block_size ctx) e f = Ok (e', f') ->
  exists n, turns n (mk_task ctx (Receiving h e) f) = Ok (mk_task ctx (Receiving h e') f') /\
    x_sendflag (f_x f') = 0.
Proof.
  revert e f; induction lfuel as [|lfuel IH]; intros e f; cbn [write_loop];
    destruct (Z.eqb_spec (x_sendflag (f_x f)) 0) as [E|E].
  1, 3: intros [= <- <-]; by exists 0%nat.
  { done. }
  intros H. apply bind_Ok in H as ([e1 f1] & Hc & H). apply IH in H as (n & Hn & Hs).
  exists (S n). cbn [turns]. unfold task_turn at 1. cbn. rewrite (proj2 (Z.eqb_neq _ _) E), Hc. by split.
Qed.

(** A request served is some turns of its thread. *)
Lemma serve_request_turns lfuel ctx f c :
  serve_request plugin_mem lfuel ctx f = Ok c ->
  exists n, turns n (mk_task ctx Waiting f) = Ok (after c).
Proof.
  rewrite serve_request_receive. intros H. apply bind_Ok in H as ([o f1] & Hrecv & H).
  assert (forall t, (match o with None => Ok (mk_task ctx (Over (-1)) f1)
    | Some rq => begin_request ctx rq f1 end = Ok t) -> task_turn (mk_task ctx Waiting f) = Ok t) as Hturn.
  { intros t Ht. unfold task_turn. cbn. by rewrite Hrecv. }
  destruct o as [rq|]; [|exists 1%nat; cbn [turns]; rewrite (Hturn _ eq_refl); mred; by simplify_eq].
  unfold dispatch in H. unfold begin_request, dispatch in Hturn.
  destruct (nbd_commands_to_string (rq_type rq)) as [nm|]; cbn [mbind outcome_bind] in H, Hturn; [|done].
  destruct (rq_type rq =? NBD_CMD_READ).
  { apply bind_Ok in H as ([o f2] & Hr & H). rewrite cmd_read_start in Hr.
    apply bind_Ok in Hr as (f3 & Hs & Hl). apply read_loop_turns in Hl as [n Hn].
    rewrite Hs in Hturn. exists (S n). cbn [turns]. rewrite (Hturn _ eq_refl). mred. rewrite Hn.
    destruct o; by simplify_eq. }
  destruct (rq_type rq =? NBD_CMD_WRITE).
  { apply bind_Ok in H as (f2 & Hw & H). rewrite cmd_write_start in Hw.
    apply bind_Ok in Hw as ([e f3] & Hs & Hw). apply bind_Ok in Hw as ([e' f4] & Hl & Hw).
    apply (write_loop_turns _ _ (rq_handle rq)) in Hl as (n & Hn & Hsf).
    rewrite Hs in Hturn. exists (S (n + 1)). cbn [turns]. rewrite (Hturn _ eq_refl). mred.
    eapply turns_trans; [exact Hn|]. cbn. unfold task_turn. cbn. rewrite Hsf. cbn.
    apply bind_Ok in Hw as ([r f5] & Hr & [= ->]). rewrite Hr. mred. by simplify_eq. }
  exists 1%nat. cbn [turns]. rewrite (Hturn (after c)); [done|]. by rewrite H.
Qed.

Lemma transmission_loop_turns fuel lfuel ctx f r ctx' f' :
  transmission_loop plugin_mem fuel lfuel ctx f = Ok (r, (ctx', f')) ->
  exists n, turns n (mk_task ctx Waiting f) = Ok (mk_task ctx' (Over r) f').
Proof.
  revert ctx f; induction fuel as [|fuel IH]; intros ctx f; cbn [transmission_loop]; [done|].
  intros H. apply bind_Ok in H as (c & Hc & H). apply serve_request_turns in Hc as [n Hn].
  destruct c as [[ctx1 f1]|[ctx1 f1]|r1 [ctx1 f1]]; cbn [after] in Hn.
  1, 2: apply IH in H as [m Hm]; exists (n + m)%nat; by eapply turns_trans.
  simplify_eq. by exists n.
Qed.

(** C7: the turns of a thread that is alone are [transmission_phase]: whatever the
    client, the network and the plugin do, a phase that returns is some number
    of turns, after which the thread stays where it is. *)
Theorem phase_is_turns fuel lfuel ctx request nbd_buffer (net : N) (w : W) r ctx' f' :
  transmission_phase plugin_mem fuel lfuel (Some ctx) request nbd_buffer net w = Ok (r, Some (ctx', f')) ->
  exists n, forall m, (n <= m)%nat ->
    turns m (mk_task ctx Waiting (mk_frame initial_xfer request nbd_buffer net w))
    = Ok (mk_task ctx' (Over r) f').
Proof.
  intros H. unfold transmission_phase in H. apply bind_Ok in H as ([r1 [c f]] & Hrun & H). simplify_eq.
  apply transmission_loop_turns in Hrun as [n Hn]. exists n. intros m Hm.
  replace m with (n + (m - n))%nat by lia. rewrite turns_add, Hn. mred. apply turns_over.
Qed.
End turns.
