(* ===== verification/Tenants.v ===== *)
(** * Clients that share a device

    Several threads of [Interleaving] on one device, each with a client that
    keeps to a part of the export of its own.  A turn of such a thread depends on
    its part of the device only, changes nothing else, and brings the thread
    nearer to its end ([turn_local]); therefore every thread of a conforming
    client ends, whatever the parts and the order of the turns
    ([connections_always_end]), and when the parts are disjoint each thread goes
    through the states it would go through alone ([tenants_served_alone]). *)

From S2P Require Export Interleaving.

(** ** A task among others *)

Section client.
Context `{CFG : NbdConfig} {CFGok : NbdConfigOk}.
Context {W Cfg : Type} (plugin_mem : nat -> lwnbd_plugin_t W Cfg).
Context {N : Type} `{CB : Callbacks N}.
Context (ctx : lwnbd_context_nbd_t) (a : nat) (inv : W -> Prop) (content : W -> list byte).
Context {T : Transport N (n_sock ctx)}.
Context (Hplugin : c_p (n_base ctx) = Some a).
Context {RS : ReadStore (plugin_mem a) (c_handle (n_base ctx)) (n_minimum_block_size ctx) inv content}.
Context (WS : ~ read_only ctx ->
  WriteStore (plugin_mem a) (c_handle (n_base ctx)) (n_minimum_block_size ctx) inv content).
Context (FS : flushable ctx -> FlushStore (plugin_mem a) (c_handle (n_base ctx)) inv content).
Context (Hblock : n_minimum_block_size ctx <= CONFIG_NBD_BUFFER_LEN).
Context (Hsize : c_exportsize (n_base ctx) < 2 ^ 63).
(** The part of the export the client keeps to. *)
Context (lo hi : Z) (Hlo : 0 <= lo <= hi) (Hhi : hi <= c_exportsize (n_base ctx)).

Local Abbreviation bsz := (n_minimum_block_size ctx).
Local Abbreviation size := (c_exportsize (n_base ctx)).
Local Abbreviation ibox := (inbox (n_sock ctx)).
Local Abbreviation obox := (outbox (n_sock ctx)).
Implicit Types (f : frame N W) (t : task N W) (w : W).

(** The device, and the part of it. *)
Definition device w : Prop := inv w /\ Z.of_nat (length (content w)) = size.
Definition part (l : list byte) : list byte := slice (Z.to_nat lo) (Z.to_nat (hi - lo)) l.

(** A read inside the export and every write are inside the part. *)
Definition local_command (c : command) : Prop :=
  conforming ctx c /\
  (rq_type (cmd_rq c) = NBD_CMD_READ \/ rq_type (cmd_rq c) = NBD_CMD_WRITE ->
   in_range ctx (cmd_rq c) ->
   lo <= rq_offset (cmd_rq c) /\ rq_offset (cmd_rq c) + rq_count (cmd_rq c) <= hi).

(** The turns of a command at most: the request, the runs, and the end of the
    loop. *)
Definition command_turns : nat := (Z.to_nat (size / bsz) + 3)%nat.

(** What the client has still to send: whole commands, then less than one.  They
    take [k] turns at most. *)
Definition pending (k : nat) (d : list byte) : Prop :=
  exists cs tail, d = concat (client_bytes <$> cs) ++ tail /\ Forall local_command cs /\
    (length tail < sizeof_nbd_request)%nat /\ (S (length cs * command_turns) <= k)%nat.

(** A transfer inside the part. *)
Definition moving (x : xfer) : Prop :=
  x_sendflag x = MSG_MORE /\ xfer_ok ctx x hi /\ lo <= x_offset x * bsz.

(** The turns a transfer takes at most, with the end of its loop. *)
Definition transfer_turns (x : xfer) : nat := (Z.to_nat (x_blkremains x) + 2)%nat.

(** A thread that has [k] turns left at most. *)
Definition task_ok (k : nat) t : Prop :=
  t_ctx t = ctx /\ frame_ok (t_frame t) /\
  let x := f_x (t_frame t) in
  let d := ibox (f_net (t_frame t)) in
  match t_act t with
  | Waiting => x_sendflag x = 0 /\ pending k d
  | Sending => exists n, pending n d /\
      ((x_sendflag x = 0 /\ (n < k)%nat) \/ (moving x /\ (transfer_turns x + n <= k)%nat))
  | Receiving _ _ => exists n,
      (x_sendflag x = 0 /\ pending n d /\ (n < k)%nat) \/
      (moving x /\ 0 < x_blkremains x /\ ~ read_only ctx /\ (transfer_turns x + n <= k)%nat /\
       exists d1 d2, d = d1 ++ d2 /\ length d1 = Z.to_nat (x_blkremains x * bsz) /\ pending n d2)
  | Over r => r = -1
  end.

(** What a turn does, if the client's part holds [v]: the same on every device
    whose part is [v], and nothing outside the part. *)
Definition turn_is (v : list byte) t t' : Prop :=
  exists off d, lo <= Z.of_nat off /\ Z.of_nat off + Z.of_nat (length d) <= hi /\
  forall w, device w -> part (content w) = v ->
    exists w', task_turn plugin_mem (at_world w t) = Ok (at_world w' t') /\ device w' /\
      content w' = splice off d (content w).

Lemma turn_is_pure v t t' :
  (forall w, device w -> part (content w) = v ->
     exists w', task_turn plugin_mem (at_world w t) = Ok (at_world w' t') /\ device w' /\
       content w' = content w) ->
  turn_is v t t'.
Proof.
  intros H. exists (Z.to_nat lo), []. cbn. split_and!; [lia..|]. intros w Hd Hw.
  destruct (H w Hd Hw) as (w' & Hrun & Hd' & Hc). exists w'. by rewrite splice_nil.
Qed.

Lemma pending_le k k' d : (k <= k')%nat -> pending k d -> pending k' d.
Proof. intros H (cs & tail & Hd & Hcs & Hl & Hk). exists cs, tail. split_and!; [done..|lia]. Qed.

Lemma task_ok_le k k' t : (k <= k')%nat -> task_ok k t -> task_ok k' t.
Proof.
  intros Hle (Hc & Hf & Ht). split; [done|]. split; [done|]. cbv zeta in *. destruct (t_act t); [| | |done].
  - destruct Ht. split; [done|]. by apply (pending_le k).
  - destruct Ht as (n & Hp & H). exists n. split; [done|]. destruct H as [[??]|[??]]; [left|right]; (split; [done|lia]).
  - destruct Ht as (n & [(? & ? & ?)|(? & ? & ? & ? & ?)]); exists n; [left|right]; split_and!; done || lia.
Qed.

Lemma task_ok_over k k' t r : t_act t = Over r -> task_ok k t -> task_ok k' t.
Proof. intros Ha. unfold task_ok. by rewrite Ha. Qed.

(** A thread with no turn left has returned. *)
Lemma task_ok_0 t : task_ok 0 t -> t_act t = Over (-1).
Proof.
  intros (_ & _ & Ht). cbv zeta in Ht. destruct (t_act t); [| | |by subst].
  - destruct Ht as (_ & cs & tail & _ & _ & _ & H). lia.
  - destruct Ht as (n & _ & [[_ H]|[_ H]]); unfold transfer_turns in *; lia.
  - destruct Ht as (n & [(_ & _ & H)|(_ & _ & _ & H & _)]); unfold transfer_turns in *; lia.
Qed.

Lemma transfer_turns_le x : xfer_ok ctx x hi -> (transfer_turns x <= Z.to_nat (size / bsz) + 2)%nat.
Proof.
  pose proof rs_bsz as Hb. unfold transfer_turns, xfer_ok. intros (Hrem & Hoff & Hend & _).
  assert (x_blkremains x <= size / bsz) by (apply Z.div_le_lower_bound; nia). lia.
Qed.

Lemma part_blocks l blk n :
  Z.of_nat (length l) = size -> 0 <= blk -> 0 <= n -> lo <= blk * bsz -> (blk + n) * bsz <= hi ->
  blocks bsz blk n l = slice (Z.to_nat (blk * bsz - lo)) (Z.to_nat (n * bsz)) (part l).
Proof.
  intros Hl Hblk Hn H1 H2. pose proof rs_bsz as Hb. unfold blocks, part.
  rewrite slice_slice by nia. f_equal. nia.
Qed.

Lemma xfer_ok_mono x : xfer_ok ctx x hi -> xfer_ok ctx x size.
Proof. unfold xfer_ok. intros H. intuition lia. Qed.

Lemma send_reply_at handle error flags f :
  flags = 0 \/ flags = MSG_MORE ->
  exists net, ibox net = ibox (f_net f) /\ forall w,
    send_reply ctx handle error flags (set_fworld w f) = Ok (16, set_fworld w (set_net net f)).
Proof.
  intros Hf. destruct (send_reply_spec ctx handle error flags f Hf) as (net & Hs & Hi & _).
  exists net. split; [done|]. intros w. unfold send_reply in *. cbn [set_fworld f_net].
  apply bind_Ok in Hs as ([r n] & -> & [= -> Hn]). mred. unfold set_net, set_fworld in *. by simplify_eq.
Qed.

(** After a run, inside the part. *)
Lemma moving_advanced x :
  moving x -> x_sendflag (advanced ctx x) = 0 /\ x_blkremains x <= x_bufblksz x \/
    moving (advanced ctx x) /\ x_bufblksz x < x_blkremains x /\
    (transfer_turns (advanced ctx x) < transfer_turns x)%nat.
Proof.
  intros (Hsf & Hx & Hl). pose proof rs_bsz as Hb.
  destruct (Z.le_gt_cases (x_blkremains x) (x_bufblksz x)) as [Hle|Hgt].
  - left. unfold advanced. cbn. by rewrite (proj2 (Z.leb_le _ _)).
  - right. split; [split; [|split; [by apply advanced_ok|]]|split; [lia|]];
      unfold transfer_turns, advanced; cbn; unfold xfer_ok in Hx.
    + by rewrite (proj2 (Z.leb_gt _ _)).
    + nia.
    + lia.
Qed.

Lemma turn_sending k v t :
  task_ok (S k) t -> t_act t = Sending -> length v = Z.to_nat (hi - lo) ->
  exists t', task_ok k t' /\ turn_is v t t'.
Proof.
  destruct t as [c act f]. intros (Hc & Hf & Ht) Ha Hv. cbn in *. subst c act.
  destruct Ht as (n0 & Hp & [[Hsf Hk]|[Hm Hk]]).
  { exists (mk_task ctx Waiting f). split.
    { split; [done|]. split; [done|]. split; [done|]. refine (pending_le n0 _ _ _ Hp). lia. }
    apply turn_is_pure. intros w Hd _. exists w.
    unfold task_turn. cbn. by rewrite Hsf. }
  destruct Hm as (Hsf & Hx & Hl). pose proof rs_bsz as Hb.
  set (n := Z.min (x_blkremains (f_x f)) (x_bufblksz (f_x f))).
  pose proof Hx as (Hrem & Hoff & Hend & Hbb & _).
  assert (0 <= n <= x_blkremains (f_x f)) as Hn by lia.
  destruct (read_step_local plugin_mem ctx a inv content Hplugin f size
    (slice (Z.to_nat (x_offset (f_x f) * bsz - lo)) (Z.to_nat (n * bsz)) v))
    as (f' & Hf' & Hx' & Hi & _ & Hrun); [done|done|by apply xfer_ok_mono|done| |].
  { apply length_slice. rewrite Hv. nia. }
  exists (mk_task ctx Sending f'). split.
  - split; [done|]. split; [done|]. cbn. rewrite Hi, Hx'. exists n0. split; [done|].
    destruct (moving_advanced (f_x f)) as [[H _]|(H & _ & Hlt)]; [done|left|right].
    + split; [done|]. unfold transfer_turns in Hk. lia.
    + split; [done|lia].
  - apply turn_is_pure. intros w [Hinv Hsz] Hw. destruct (Hrun w Hinv Hsz) as (w' & Hst & Hinv' & Hcon).
    { rewrite <- Hw. apply part_blocks; [done|lia|lia|done|nia]. }
    exists w'. unfold task_turn. cbn. rewrite Hsf. cbn. rewrite Hst. mred. split; [done|]. split; [|done].
    split; [done|by rewrite Hcon].
Qed.

Lemma turn_receiving k v t h e :
  task_ok (S k) t -> t_act t = Receiving h e -> exists t', task_ok k t' /\ turn_is v t t'.
Proof.
  destruct t as [c act f]. intros (Hc & Hf & Ht) Ha. cbn in *. subst c act.
  destruct Ht as (n0 & [(Hsf & Hp & Hk)|(Hm & Hrem0 & Hro & Hk & d1 & d2 & Hin & Hd1 & Hp)]).
  { destruct (send_reply_at h e 0 f) as (net & Hi & Hs); [by left|].
    exists (mk_task ctx Waiting (set_net net f)). split.
    - split; [done|]. split; [done|]. cbn. rewrite Hi. split; [done|]. refine (pending_le n0 _ _ _ Hp). lia.
    - apply turn_is_pure. intros w Hd _. exists w. unfold task_turn. cbn. rewrite Hsf. cbn. by rewrite Hs. }
  pose proof Hm as (Hsf & Hx & Hl). pose proof rs_bsz as Hb. pose proof (WS Hro) as HWS.
  set (n := Z.min (x_blkremains (f_x f)) (x_bufblksz (f_x f))).
  pose proof Hx as (Hrem & Hoff & Hend & Hbb & _).
  assert (0 < n <= x_blkremains (f_x f)) as Hn by lia.
  destruct (write_step_local plugin_mem ctx a inv content Hplugin e f size
    (take (Z.to_nat (n * bsz)) d1) (drop (Z.to_nat (n * bsz)) d1 ++ d2))
    as (f' & Hf' & Hx' & Hi & _ & Hrun); [done|done|done|by apply xfer_ok_mono|done| | |].
  { by rewrite app_assoc, take_drop. }
  { rewrite length_take. nia. }
  exists (mk_task ctx (Receiving h e) f'). split.
  - split; [done|]. split; [done|]. cbn. rewrite Hi, Hx'.
    exists n0. destruct (moving_advanced (f_x f) Hm) as [[H Hle]|(H & Hgt & Hlt)].
    + left. split; [done|]. split; [|unfold transfer_turns in Hk; lia]. rewrite drop_ge; [done|]. unfold n in *. rewrite Hd1. nia.
    + right. split; [done|]. split; [unfold advanced; cbn; lia|]. split; [done|]. split; [lia|].
      unfold advanced. cbn. fold n.
      eexists _, d2. split; [done|]. split; [|done]. rewrite length_drop, Hd1. nia.
  - exists (Z.to_nat (x_offset (f_x f) * bsz)), (take (Z.to_nat (n * bsz)) d1).
    assert (length (take (Z.to_nat (n * bsz)) d1) = Z.to_nat (n * bsz)) as Ht by (rewrite length_take; nia).
    split; [lia|]. split; [rewrite Ht; nia|]. intros w [Hinv Hsz] _.
    destruct (Hrun w Hinv Hsz) as (w' & Hst & Hinv' & Hcon).
    exists w'. unfold task_turn. cbn. rewrite Hsf. cbn. rewrite Hst. mred. split; [done|]. split; [|done].
    split; [done|]. rewrite Hcon, length_write_blocks; [done|lia|done|rewrite Ht; nia].
Qed.

(** A client that has sent less than a request and gone. *)
Lemma receive_eof f :
  frame_ok f -> (length (ibox (f_net f)) < sizeof_nbd_request)%nat ->
  exists f', frame_ok f' /\ obox (f_net f') = obox (f_net f) /\
    forall w, receive_request ctx (set_fworld w f) = Ok (None, set_fworld w f').
Proof.
  intros [Hreq Hbuf] Hl.
  destruct (tr_recv_eof (f_net f) (f_request f) sizeof_nbd_request) as (r & m & net & Hr & Hrr & Hm & Ho);
    [done|by rewrite Hreq|done|].
  exists (mk_frame (f_x f) m (f_buffer f) net (f_world f)). split; [by rewrite Hreq in Hm|].
  split; [exact Ho|].
  intros w. unfold receive_request. cbn [set_fworld f_request f_net f_x f_buffer f_world]. rewrite Hr. mred.
  unfold sizeof_nbd_request in *. rewrite swrap_small, wrap_small by lia.
  by rewrite (proj2 (Z.ltb_lt _ _)) by lia.
Qed.

Lemma receive_command f rq rest :
  frame_ok f -> request_ok rq -> rq_magic rq = NBD_REQUEST_MAGIC ->
  ibox (f_net f) = wire_request rq ++ rest ->
  exists f', frame_ok f' /\ f_x f' = f_x f /\ ibox (f_net f') = rest /\
    obox (f_net f') = obox (f_net f) /\
    forall w, receive_request ctx (set_fworld w f) = Ok (Some rq, set_fworld w f').
Proof.
  intros [Hreq Hbuf] Hok Hmagic Hin.
  destruct (transport_recv (n_sock ctx) (f_net f) (f_request f) (Z.of_nat sizeof_nbd_request)
    (wire_request rq) rest) as (net & Hrecv & Hi & Ho); [done|done|by rewrite Hreq, length_wire_request|done|].
  exists (mk_frame (f_x f) (request_to_mem rq) (f_buffer f) net (f_world f)).
  split; [split; [apply length_request_to_mem|done]|]. split; [done|]. split; [done|].
  split; [exact Ho|]. intros w. unfold receive_request. cbn [set_fworld f_request f_net f_x f_buffer f_world]. rewrite Hrecv. mred.
  rewrite splice_whole by (by rewrite Hreq, length_wire_request).
  rewrite decode_wire_request by done. by rewrite Hmagic.
Qed.

Lemma not_read_only : ~ read_only ctx -> negb (Z.land (n_eflags ctx) NBD_FLAG_READ_ONLY =? 0) = false.
Proof.
  intros Hro. apply negb_false_iff, Z.eqb_eq.
  destruct (decide (Z.land (n_eflags ctx) NBD_FLAG_READ_ONLY = 0)); [done|by destruct Hro].
Qed.

Lemma set_x_at x w f : set_x x (set_fworld w f) = set_fworld w (set_x x f).
Proof. done. Qed.

(** The turn that takes a command. *)
Lemma begin_read k f rq :
  frame_ok f -> x_sendflag (f_x f) = 0 -> request_ok rq -> rq_type rq = NBD_CMD_READ ->
  rq_offset rq + rq_count rq < 2 ^ 64 -> rq_offset rq mod bsz = 0 ->
  (in_range ctx rq -> lo <= rq_offset rq /\ rq_offset rq + rq_count rq <= hi) ->
  pending k (ibox (f_net f)) ->
  exists t', task_ok (k + Z.to_nat (size / bsz) + 2) t' /\
    forall w, begin_request plugin_mem ctx rq (set_fworld w f) = Ok (at_world w t').
Proof.
  intros Hf Hsf Hok Hty Hov Hal Hpart Hp. unfold begin_request. rewrite Hty.
  cbn [nbd_commands_to_string NBD_CMD_READ Z.eqb]. mred. unfold read_start. unfold request_ok in Hok.
  assert (in_range ctx rq \/ ~ in_range ctx rq) as [Hr|Hr] by (unfold in_range; lia).
  - destruct (Hpart Hr) as [H1 H2].
    destruct (start_transfer_spec plugin_mem ctx a inv content Hblock rq (f_x f) hi Hok H2)
      as (x & Hst & Hx & Hxs & Hrem & Hoff).
    destruct (send_reply_at (rq_handle rq) NBD_SUCCESS (x_sendflag x) (set_x x f)) as (net & Hi & Hs);
      [by right|].
    exists (mk_task ctx Sending (set_net net (set_x x f))). split.
    + split; [done|]. split; [done|]. cbn. rewrite Hi. exists k. split; [done|]. right. split.
      * split; [done|]. split; [done|]. by rewrite Hoff, (div_exact_mul plugin_mem ctx a inv content _ Hal).
      * pose proof (transfer_turns_le x Hx). lia.
    + intros w. rewrite out_of_range_false by (done || lia).
      change (f_x (set_fworld w f)) with (f_x f). rewrite Hst. mred.
      rewrite set_x_at, Hs. by mred.
  - destruct (send_reply_at (rq_handle rq) NBD_EIO (x_sendflag (f_x f)) (set_x (f_x f) f)) as (net & Hi & Hs);
      [by left|].
    exists (mk_task ctx Sending (set_net net (set_x (f_x f) f))). split.
    + split; [done|]. split; [done|]. cbn. rewrite Hi. exists k. split; [done|]. left. split; [done|lia].
    + intros w. rewrite out_of_range_true by (done || lia). mred.
      change (f_x (set_fworld w f)) with (f_x f). rewrite set_x_at, Hs. by mred.
Qed.

Lemma begin_write k f rq d rest :
  frame_ok f -> request_ok rq -> rq_type rq = NBD_CMD_WRITE -> ~ read_only ctx -> in_range ctx rq ->
  rq_offset rq mod bsz = 0 -> rq_count rq mod bsz = 0 -> 0 < rq_count rq ->
  lo <= rq_offset rq -> rq_offset rq + rq_count rq <= hi ->
  ibox (f_net f) = d ++ rest -> Z.of_nat (length d) = rq_count rq -> pending k rest ->
  exists t', task_ok (k + Z.to_nat (size / bsz) + 2) t' /\
    forall w, begin_request plugin_mem ctx rq (set_fworld w f) = Ok (at_world w t').
Proof.
  intros Hf Hok Hty Hro Hr Ha1 Ha2 Hpos H1 H2 Hin Hd Hp. unfold begin_request. rewrite Hty.
  cbn [nbd_commands_to_string NBD_CMD_READ NBD_CMD_WRITE Z.eqb Pos.eqb]. mred. unfold write_start.
  rewrite not_read_only by done. unfold request_ok in Hok. pose proof rs_bsz as Hb.
  destruct (start_transfer_spec plugin_mem ctx a inv content Hblock rq (f_x f) hi Hok H2)
    as (x & Hst & Hx & Hxs & Hrem & Hoff).
  pose proof (div_exact_mul plugin_mem ctx a inv content _ Ha1) as E1.
  pose proof (div_exact_mul plugin_mem ctx a inv content _ Ha2) as E2.
  exists (mk_task ctx (Receiving (rq_handle rq) NBD_SUCCESS) (set_x x f)). split.
  - split; [done|]. split; [done|]. cbn. exists k. right. split; [|split; [|split; [done|split]]].
    + split; [done|]. split; [done|]. by rewrite Hoff, E1.
    + rewrite Hrem. nia.
    + pose proof (transfer_turns_le x Hx). lia.
    + exists d, rest. split; [done|]. split; [|done]. rewrite Hrem, E2. lia.
  - intros w. rewrite out_of_range_false by (done || lia).
    change (f_x (set_fworld w f)) with (f_x f). rewrite Hst. by mred.
Qed.

(** FLUSH and the commands that are refused by their type. *)
Lemma begin_other k v f rq :
  frame_ok f -> x_sendflag (f_x f) = 0 -> 0 <= rq_type rq < 8 ->
  rq_type rq <> NBD_CMD_READ -> rq_type rq <> NBD_CMD_WRITE -> rq_type rq <> NBD_CMD_DISC ->
  (rq_type rq = NBD_CMD_FLUSH -> flushable ctx) -> pending k (ibox (f_net f)) ->
  exists t', task_ok k t' /\ forall w, device w -> part (content w) = v ->
    exists w', begin_request plugin_mem ctx rq (set_fworld w f) = Ok (at_world w' t') /\ device w' /\
      content w' = content w.
Proof.
  intros Hf Hsf H8 Hnr Hnw Hnd Hfl Hp. unfold begin_request, dispatch.
  destruct (nbd_commands_known (rq_type rq) H8) as [nm ->]. mred.
  rewrite (proj2 (Z.eqb_neq _ _) Hnr), (proj2 (Z.eqb_neq _ _) Hnw), (proj2 (Z.eqb_neq _ _) Hnd).
  assert (forall e, exists net, task_ok k (mk_task ctx Waiting (set_net net f)) /\ forall w,
    send_reply ctx (rq_handle rq) e 0 (set_fworld w f) = Ok (16, set_fworld w (set_net net f))) as Hreply.
  { intros e. destruct (send_reply_at (rq_handle rq) e 0 f) as (net & Hi & Hs); [by left|].
    exists net. split; [|done]. split; [done|]. split; [done|]. cbn. by rewrite Hi. }
  case (Z.eqb_spec (rq_type rq) NBD_CMD_FLUSH) as [Hfs|Hfs].
  - pose proof (FS (Hfl Hfs)) as HFS. destruct (Hreply NBD_SUCCESS) as (net & Ht' & Hs).
    eexists. split; [exact Ht'|]. intros w [Hinv Hsz] _.
    destruct (lwnbd_flush_spec plugin_mem (n_base ctx) a inv content Hplugin w Hinv)
      as (w' & Hrun & Hinv' & Hc).
    exists w'. split; [|split; [split; [done|by rewrite Hc]|done]].
    unfold cmd_flush. cbn [set_fworld f_world]. rewrite Hrun. mred. cbn [Z.eqb].
    change (set_fworld w' (set_fworld w f)) with (set_fworld w' f). rewrite Hs. by mred.
  - destruct (Hreply NBD_EINVAL) as (net & Ht' & Hs). eexists. split; [exact Ht'|]. intros w Hd _.
    exists w. split; [|done]. rewrite Hs. by mred.
Qed.

Lemma turn_waiting k v t :
  task_ok (S k) t -> t_act t = Waiting -> exists t', task_ok k t' /\ turn_is v t t'.
Proof.
  destruct t as [c act f]. intros (Hc & Hf & Ht) Ha. cbn in *. subst c act.
  destruct Ht as [Hsf (cs & tail & Hin & Hcs & Htail & Hk)].
  destruct Hcs as [|c cs [Hconf Hpart] Hcs].
  { destruct (receive_eof f Hf) as (f' & Hf' & _ & Hrun); [by rewrite Hin|].
    exists (mk_task ctx (Over (-1)) f'). split; [by split|]. apply turn_is_pure. intros w Hd _.
    exists w. unfold task_turn. cbn. by rewrite Hrun. }
  rewrite fmap_cons in Hin. cbn [concat] in Hin. unfold client_bytes at 1 in Hin.
  rewrite <- !app_assoc in Hin.
  destruct Hconf as (Hok & Hmagic & Hov & Hty & Hnd & Hrd & Hwr & Hfl & Hlen).
  destruct (receive_command f (cmd_rq c) _ Hf Hok Hmagic Hin) as (f1 & Hf1 & Hx1 & Hi1 & _ & Hrun).
  cbn [length Nat.mul] in Hk. set (n := S (length cs * command_turns)).
  assert (n + Z.to_nat (size / bsz) + 2 <= k)%nat as Hn by (unfold n, command_turns in *; lia).
  assert (pending n (concat (client_bytes <$> cs) ++ tail)) as Hp by (by eexists cs, tail).
  assert (exists t', task_ok (n + Z.to_nat (size / bsz) + 2) t' /\ forall w, device w -> part (content w) = v ->
    exists w', begin_request plugin_mem ctx (cmd_rq c) (set_fworld w f1) = Ok (at_world w' t') /\
      device w' /\ content w' = content w) as (t' & Ht' & Hbegin).
  { destruct (Z.eq_dec (rq_type (cmd_rq c)) NBD_CMD_READ) as [Er|Er];
      [|destruct (Z.eq_dec (rq_type (cmd_rq c)) NBD_CMD_WRITE) as [Ew|Ew]].
    - destruct (Hrd Er) as [Hal _].
      assert (cmd_data c = []) as Hd by (rewrite Er in Hlen; apply nil_length_inv; cbn in Hlen; lia).
      destruct (begin_read n f1 (cmd_rq c)) as (t' & Ht' & Hb);
        [done|by rewrite Hx1|done|done|done|done|auto|by rewrite Hi1, Hd|].
      exists t'. split; [done|]. intros w Hw _. exists w. by rewrite Hb.
    - destruct (Hwr Ew) as (Hro & Hr & Ha1 & Ha2 & Hpos). destruct (Hpart (or_intror Ew) Hr) as [H1 H2].
      rewrite Ew in Hlen. cbn in Hlen.
      destruct (begin_write n f1 (cmd_rq c) (cmd_data c) _ Hf1 Hok Ew Hro Hr Ha1 Ha2 Hpos H1 H2 Hi1 Hlen Hp)
        as (t' & Ht' & Hb).
      exists t'. split; [done|]. intros w Hw _. exists w. by rewrite Hb.
    - assert (cmd_data c = []) as Hd.
      { rewrite (proj2 (Z.eqb_neq _ _) Ew) in Hlen. apply nil_length_inv. lia. }
      destruct (begin_other n v f1 (cmd_rq c)) as (t' & Ht' & Hb);
        [done|by rewrite Hx1|unfold request_ok in Hok; lia|done..|by rewrite Hi1, Hd|].
      exists t'. split; [|exact Hb]. eapply task_ok_le; [|exact Ht']. lia. }
  exists t'. split; [by eapply task_ok_le|]. apply turn_is_pure. intros w Hd Hw.
  destruct (Hbegin w Hd Hw) as (w' & Hb & H). exists w'. split; [|done].
  unfold task_turn. cbn. rewrite Hrun. mred. done.
Qed.

(** One turn of a client that keeps to its part. *)
Lemma turn_local k v t :
  task_ok k t -> length v = Z.to_nat (hi - lo) -> exists t', task_ok (pred k) t' /\ turn_is v t t'.
Proof.
  intros Ht Hv. destruct (t_act t) as [| |h e|r] eqn:Ha.
  1, 2, 3: destruct k as [|k]; [apply task_ok_0 in Ht; congruence|].
  - by apply turn_waiting.
  - by apply turn_sending.
  - by eapply turn_receiving.
  - exists t. split; [by eapply task_ok_over|]. apply turn_is_pure. intros w Hd _. exists w.
    destruct t as [c act f]. cbn in Ha. by subst act.
Qed.
End client.

(** ** Tenants of a device *)

Section tenants.
Context `{CFG : NbdConfig} {CFGok : NbdConfigOk}.
Context {W Cfg : Type} (plugin_mem : nat -> lwnbd_plugin_t W Cfg).
Context {N : Type} `{CB : Callbacks N}.
Context (inv : W -> Prop) (content : W -> list byte) (size : Z) (Hsize : size < 2 ^ 63).

(** A connection: the server's context with the plugin behind it, the part of
    the export its client keeps to, what the client sends, and what the
    thread's stack holds. *)
Record tenant := mk_tenant {
  tn_ctx : lwnbd_context_nbd_t;
  tn_plugin : nat;
  tn_lo : Z;
  tn_hi : Z;
  tn_cmds : list command;
  tn_tail : list byte;
  tn_net : N;
  tn_request : list byte;
  tn_buffer : list byte;
  tn_transport : Transport N (n_sock tn_ctx);
  tn_attached : c_p (n_base tn_ctx) = Some tn_plugin;
  tn_read : ReadStore (plugin_mem tn_plugin) (c_handle (n_base tn_ctx)) (n_minimum_block_size tn_ctx) inv content;
  tn_write : ~ read_only tn_ctx ->
    WriteStore (plugin_mem tn_plugin) (c_handle (n_base tn_ctx)) (n_minimum_block_size tn_ctx) inv content;
  tn_flush : flushable tn_ctx -> FlushStore (plugin_mem tn_plugin) (c_handle (n_base tn_ctx)) inv content;
  tn_block : n_minimum_block_size tn_ctx <= CONFIG_NBD_BUFFER_LEN;
  tn_size : c_exportsize (n_base tn_ctx) = size
}.

Implicit Types (c : tenant) (t : task N W) (w : W).

Definition tn_inbox c (n : N) : list byte := inbox (Transport := tn_transport c) (n_sock (tn_ctx c)) n.
Definition tn_outbox c (n : N) : list byte := outbox (Transport := tn_transport c) (n_sock (tn_ctx c)) n.
Definition tn_part c (l : list byte) : list byte := part (tn_lo c) (tn_hi c) l.

Definition tenant_ok c : Prop :=
  0 <= tn_lo c <= tn_hi c /\ tn_hi c <= size /\ stack_ok (tn_request c) (tn_buffer c) /\
  Forall (local_command (tn_ctx c) (tn_lo c) (tn_hi c)) (tn_cmds c) /\
  (length (tn_tail c) < sizeof_nbd_request)%nat /\
  tn_inbox c (tn_net c) = concat (client_bytes <$> tn_cmds c) ++ tn_tail c.

Definition apart c c' : Prop := tn_hi c <= tn_lo c' \/ tn_hi c' <= tn_lo c.

Definition start w0 c : task N W :=
  mk_task (tn_ctx c) Waiting (mk_frame initial_xfer (tn_request c) (tn_buffer c) (tn_net c) w0).

Definition on_device w : Prop := inv w /\ Z.of_nat (length (content w)) = size.

Definition tn_task_ok c (k : nat) t : Prop :=
  task_ok (T := tn_transport c) (tn_ctx c) (tn_lo c) (tn_hi c) k t.

(** The turns of the whole connection at most. *)
Definition tn_turns c : nat := S (length (tn_cmds c) * command_turns (tn_ctx c)).

Lemma tenant_turn c k t v :
  tenant_ok c -> tn_task_ok c k t -> length v = Z.to_nat (tn_hi c - tn_lo c) ->
  exists t', tn_task_ok c (pred k) t' /\
    exists off d, tn_lo c <= Z.of_nat off /\ Z.of_nat off + Z.of_nat (length d) <= tn_hi c /\
    forall w, on_device w -> tn_part c (content w) = v ->
      exists w', task_turn plugin_mem (at_world w t) = Ok (at_world w' t') /\ on_device w' /\
        content w' = splice off d (content w).
Proof.
  destruct c as [ctx a lo hi cmds tail net rq bf T Ha RS WS FS Hblk Hsz]. cbn. intros (H1 & H2 & _) Ht Hv.
  destruct (turn_local plugin_mem ctx a inv content Ha WS FS Hblk ltac:(by rewrite Hsz) lo hi H1
    ltac:(by rewrite Hsz) k v t Ht Hv) as (t' & Ht' & off & d & Hoff & Hend & Hturn).
  exists t'. split; [done|]. exists off, d. split_and!; [done..|]. intros w [Hinv Hl] Hw.
  destruct (Hturn w) as (w' & Hrun & [Hinv' Hl'] & Hc); [split; [done|by rewrite Hsz]|done|].
  rewrite Hsz in Hl'. by exists w'.
Qed.

Lemma tenant_start c w0 : tenant_ok c -> tn_task_ok c (tn_turns c) (start w0 c).
Proof.
  intros (_ & _ & [Hrq Hbf] & Hcs & Htail & Hin). split; [done|]. split; [by split|].
  split; [done|]. by exists (tn_cmds c), (tn_tail c).
Qed.

(** Alone, a tenant's thread ends with its session served. *)
Lemma tenant_alone c w0 :
  on_device w0 -> tenant_ok c ->
  exists b f, (forall m, (b <= m)%nat -> turns plugin_mem m (start w0 c) = Ok (mk_task (tn_ctx c) (Over (-1)) f)) /\
    tn_outbox c (f_net f) = tn_outbox c (tn_net c) ++ (session_spec (tn_cmds c) (content w0)).1 /\
    content (f_world f) = (session_spec (tn_cmds c) (content w0)).2 /\ on_device (f_world f).
Proof.
  destruct c as [ctx a lo hi cmds tail net rq bf T Ha RS WS FS Hblk Hsz].
  unfold tn_outbox, tenant_ok, tn_inbox, start. cbn. intros [Hinv Hl] (_ & _ & Hst & Hcs & Htail & Hin).
  assert (Forall (conforming ctx) cmds) as Hconf by (eapply Forall_impl; [|exact Hcs]; by intros c []).
  destruct (hangup_run plugin_mem ctx a inv content Ha WS FS Hblk (S (Z.to_nat (size / n_minimum_block_size ctx)))
    cmds rq bf net w0 tail 0 Hst) as (f & Hrun & Ho & Hc & Hd & Hd' & _); [|done|done| |done|].
  { split; [done|]. by rewrite Hsz. }
  { rewrite Hsz. lia. }
  unfold transmission_phase in Hrun. apply bind_Ok in Hrun as ([r s] & Hrun & [= -> ->]).
  apply transmission_loop_turns in Hrun as [n Hn]. exists n, f. split; [|by split_and!; [..|split; [|rewrite <- Hsz]]].
  intros m Hm. replace m with (n + (m - n))%nat by lia. rewrite turns_add, Hn. mred. apply turns_over.
Qed.

Lemma tenants_bound cs w0 :
  on_device w0 -> Forall tenant_ok cs ->
  exists b, forall c, c ∈ cs -> exists f,
    (forall m, (b <= m)%nat -> turns plugin_mem m (start w0 c) = Ok (mk_task (tn_ctx c) (Over (-1)) f)) /\
    tn_outbox c (f_net f) = tn_outbox c (tn_net c) ++ (session_spec (tn_cmds c) (content w0)).1 /\
    content (f_world f) = (session_spec (tn_cmds c) (content w0)).2.
Proof.
  intros Hw0. induction 1 as [|c cs Hc Hcs [b IH]].
  { exists O. intros c Hc. by apply not_elem_of_nil in Hc. }
  destruct (tenant_alone c w0 Hw0 Hc) as (b' & f & Hb & Ho & Hl & _). exists (Nat.max b b').
  intros c' [->|Hin]%elem_of_cons; [exists f; by split; [intros m Hm; apply Hb; lia|]|].
  destruct (IH c' Hin) as (f' & Hb' & Hf'). exists f'. split; [intros m Hm; apply Hb'; lia|done].
Qed.

(** *** Other parts *)

Lemma part_update c off d l l' :
  length l = length l' -> (off + length d <= length l)%nat -> tn_part c l = tn_part c l' ->
  tn_part c (splice off d l) = tn_part c (splice off d l').
Proof.
  unfold tn_part, part. intros Hl Hd Hp. apply list_eq. intros i. apply (f_equal (fun l => l !! i)) in Hp.
  rewrite !lookup_slice in *. case_decide; [|done]. rewrite !lookup_splice by lia. by case_decide.
Qed.

Lemma part_apart c c' off d l :
  apart c c' -> tenant_ok c -> tenant_ok c' -> Z.of_nat (length l) = size ->
  tn_lo c <= Z.of_nat off -> Z.of_nat off + Z.of_nat (length d) <= tn_hi c ->
  tn_part c' (splice off d l) = tn_part c' l.
Proof.
  intros Ha (H1 & H2 & _) (H3 & H4 & _) Hl Hlo Hhi. apply slice_splice_disjoint; unfold apart in Ha; lia.
Qed.

(** *** All of them *)

Definition disjoint_tenants (cs : list tenant) : Prop :=
  forall i j c c', i <> j -> cs !! i = Some c -> cs !! j = Some c' -> apart c c'.

Context (cs : list tenant) (w0 : W) (Hw0 : on_device w0) (Hcs : Forall tenant_ok cs).

Definition turns_of (i : nat) (sched : list nat) : nat := count_occ Nat.eq_dec sched i.

Definition untouched (l : list byte) : Prop :=
  forall k, (forall c, c ∈ cs -> ~ (tn_lo c <= Z.of_nat k < tn_hi c)) -> l !! k = content w0 !! k.

(** The threads after a schedule, whatever the parts. *)
Definition threads_ok (sched : list nat) (s : threads) : Prop :=
  on_device (th_world s) /\ untouched (content (th_world s)) /\ length (th_tasks s) = length cs /\
  forall i c, cs !! i = Some c ->
    exists t, th_tasks s !! i = Some t /\ tn_task_ok c (tn_turns c - turns_of i sched) t.

Lemma turns_of_snoc i sched j :
  turns_of i (sched ++ [j]) = (turns_of i sched + if decide (i = j) then 1 else 0)%nat.
Proof.
  unfold turns_of. rewrite count_occ_app. cbn. destruct (Nat.eq_dec j i), (decide (i = j)); congruence || lia.
Qed.

(** A turn of a thread, and what the same turn is on a device that agrees on
    its part. *)
Lemma thread_turn_local sched s j c :
  threads_ok sched s -> cs !! j = Some c ->
  exists t t' w off d, th_tasks s !! j = Some t /\
    thread_turn plugin_mem j s = Ok (mk_threads (<[j := at_world w t']> (th_tasks s)) w) /\
    tn_task_ok c (tn_turns c - turns_of j (sched ++ [j])) t' /\
    tn_lo c <= Z.of_nat off /\ Z.of_nat off + Z.of_nat (length d) <= tn_hi c /\
    on_device w /\ content w = splice off d (content (th_world s)) /\
    forall w1, on_device w1 -> tn_part c (content w1) = tn_part c (content (th_world s)) ->
      exists w2, task_turn plugin_mem (at_world w1 t) = Ok (at_world w2 t') /\ on_device w2 /\
        content w2 = splice off d (content w1).
Proof.
  intros (Hdev & Hun & Hlen & Hall) Hc. destruct (Hall j c Hc) as (t & Ht & Hok).
  pose proof (Forall_lookup_1 _ _ _ _ Hcs Hc) as Hten. pose proof Hten as (Hr1 & Hr2 & _).
  destruct (tenant_turn c _ t (tn_part c (content (th_world s))) Hten Hok)
    as (t' & Hok' & off & d & Hoff & Hend & Hturn); [destruct Hdev; apply length_slice; lia|].
  destruct (Hturn (th_world s) Hdev eq_refl) as (w & E & Hw & Hcw).
  exists t, t', w, off, d. split; [done|]. unfold thread_turn. rewrite Ht, E. mred.
  split; [done|]. split; [|done]. rewrite turns_of_snoc, decide_True by done.
  replace (tn_turns c - (turns_of j sched + 1))%nat with (pred (tn_turns c - turns_of j sched)) by lia. done.
Qed.

Lemma threads_step sched s j :
  threads_ok sched s -> exists s', thread_turn plugin_mem j s = Ok s' /\ threads_ok (sched ++ [j]) s'.
Proof.
  intros Hs. pose proof Hs as (Hdev & Hun & Hlen & Hall). destruct (cs !! j) as [c|] eqn:Hc.
  2: { exists s. unfold thread_turn. rewrite (lookup_ge_None_2 (th_tasks s))
         by (rewrite Hlen; by apply lookup_ge_None_1). split; [done|]. split_and!; [done..|].
       intros i c Hi. destruct (Hall i c Hi) as (t & Ht & Hok). exists t.
       rewrite turns_of_snoc, decide_False, Nat.add_0_r by congruence. done. }
  destruct (thread_turn_local _ _ _ _ Hs Hc) as (t & t' & w & off & d & Ht & E & Hok & Hlo & Hhi & Hw & Hcw & _).
  destruct Hdev as [Hinv Hsz]. pose proof (Forall_lookup_1 _ _ _ _ Hcs Hc) as (Hr1 & Hr2 & _).
  eexists. split; [exact E|]. split; [done|]. cbn [th_world th_tasks].
  split; [|split; [by rewrite length_insert|]].
  { intros k Hk. rewrite Hcw, lookup_splice by lia. rewrite decide_False; [by apply Hun|].
    intros Hin. apply (Hk c); [by eapply list_elem_of_lookup_2|lia]. }
  intros i c' Hc'. destruct (decide (i = j)) as [->|Hij].
  - assert (c' = c) as -> by congruence. exists (at_world w t'). split; [|exact Hok].
    apply list_lookup_insert_eq. by eapply lookup_lt_Some.
  - destruct (Hall i c' Hc') as (ti & Hti & Hoki). exists ti.
    by rewrite list_lookup_insert_ne, turns_of_snoc, decide_False, Nat.add_0_r.
Qed.

Lemma run_threads_app sched sched' (s : threads) :
  run_threads plugin_mem (sched ++ sched') s = (s ← run_threads plugin_mem sched s; run_threads plugin_mem sched' s).
Proof.
  revert s; induction sched as [|j sched IH]; intros s; [done|]. cbn [app run_threads].
  destruct (thread_turn plugin_mem j s); mred; [apply IH|done].
Qed.

Lemma threads_run sched :
  exists s, run_threads plugin_mem sched (mk_threads (start w0 <$> cs) w0) = Ok s /\ threads_ok sched s.
Proof.
  induction sched as [|j sched (s & Hrun & Hok)] using rev_ind.
  - eexists. split; [done|]. split; [done|]. split; [done|]. cbn [th_tasks th_world].
    split; [by rewrite length_fmap|]. intros i c Hc. exists (start w0 c).
    rewrite list_lookup_fmap, Hc. split; [done|]. cbn [turns_of count_occ]. rewrite Nat.sub_0_r.
    by eapply tenant_start, (Forall_lookup_1 _ _ i).
  - destruct (threads_step sched s j Hok) as (s' & Hs & Hok'). exists s'. split; [|done].
    rewrite run_threads_app, Hrun. mred. cbn [run_threads]. rewrite Hs. by mred.
Qed.

(** C5: connections served at the same time, whatever parts of the export their
    clients use: in every order of the turns no thread faults, the device stays
    a device of the same size, no byte outside the clients' parts changes, and
    a thread returns after at most as many turns of its own as [tn_turns]
    says, whatever the others do. *)
Theorem connections_always_end sched :
  exists s, run_threads plugin_mem sched (mk_threads (start w0 <$> cs) w0) = Ok s /\
    on_device (th_world s) /\ untouched (content (th_world s)) /\
    forall i c, cs !! i = Some c -> exists t, th_tasks s !! i = Some t /\
      ((tn_turns c <= turns_of i sched)%nat -> t_act t = Over (-1)).
Proof.
  destruct (threads_run sched) as (s & Hrun & Hdev & Hun & _ & Hall). exists s. split_and!; [done..|].
  intros i c Hc. destruct (Hall i c Hc) as (t & Ht & Hok). exists t. split; [done|]. intros Hle.
  rewrite (proj2 (Nat.sub_0_le _ _) Hle) in Hok. by eapply task_ok_0.
Qed.

(** *** Disjoint parts *)

Context (Hdis : disjoint_tenants cs).

(** Thread [i] is where it would be alone after as many turns, and its part of
    the device holds what it would hold. *)
Definition as_alone (sched : list nat) (s : threads) (i : nat) c : Prop :=
  exists t w, th_tasks s !! i = Some t /\
    turns plugin_mem (turns_of i sched) (start w0 c) = Ok (at_world w t) /\ on_device w /\
    tn_part c (content w) = tn_part c (content (th_world s)).

Definition all_as_alone (sched : list nat) (s : threads) : Prop :=
  forall i c, cs !! i = Some c -> as_alone sched s i c.

Lemma alone_step sched s s' j :
  threads_ok sched s -> all_as_alone sched s -> thread_turn plugin_mem j s = Ok s' ->
  all_as_alone (sched ++ [j]) s'.
Proof.
  intros Hs Hall Hturn. pose proof Hs as ([Hinv Hsz] & _ & Hlen & _). intros i c' Hc'.
  destruct (Hall i c' Hc') as (ti & wi & Hi & Hruni & Hwi & Hpi). destruct (cs !! j) as [c|] eqn:Hc.
  2: { unfold thread_turn in Hturn. rewrite (lookup_ge_None_2 (th_tasks s)) in Hturn
         by (rewrite Hlen; by apply lookup_ge_None_1). injection Hturn as <-. exists ti, wi.
       by rewrite turns_of_snoc, decide_False, Nat.add_0_r by congruence. }
  destruct (thread_turn_local _ _ _ _ Hs Hc) as (t & t' & w & off & d & Ht & E & _ & Hlo & Hhi & Hw & Hcw & Hany).
  rewrite E in Hturn. injection Hturn as <-. unfold as_alone. cbn [th_tasks th_world].
  pose proof (Forall_lookup_1 _ _ _ _ Hcs Hc) as Hten. pose proof Hten as (Hr1 & Hr2 & _).
  rewrite turns_of_snoc. destruct (decide (i = j)) as [->|Hij].
  - assert (c' = c) as -> by congruence. assert (ti = t) as -> by congruence.
    destruct (Hany wi Hwi Hpi) as (w2 & E2 & Hw2 & Hc2). exists (at_world w t'), w2.
    rewrite list_lookup_insert_eq by by eapply lookup_lt_Some. split; [done|].
    split; [|split; [done|]].
    + rewrite turns_add, Hruni. mred. cbn [turns]. rewrite E2. by mred.
    + destruct Hwi. rewrite Hcw, Hc2. apply part_update; [lia|lia|done].
  - exists ti, wi. rewrite list_lookup_insert_ne, Nat.add_0_r by done. split_and!; [done..|].
    rewrite Hcw, Hpi. symmetry. apply (part_apart c c'); [by eapply (Hdis j i)|done|by eapply Forall_lookup_1|done..].
Qed.

Lemma alone_run sched s :
  run_threads plugin_mem sched (mk_threads (start w0 <$> cs) w0) = Ok s -> all_as_alone sched s.
Proof.
  revert s; induction sched as [|j sched IH] using rev_ind; intros s Hrun.
  - injection Hrun as <-. intros i c Hc. exists (start w0 c), w0. cbn [th_tasks th_world].
    rewrite list_lookup_fmap, Hc. split_and!; done.
  - rewrite run_threads_app in Hrun. apply bind_Ok in Hrun as (s1 & Hrun1 & Hrun).
    cbn [run_threads] in Hrun. apply bind_Ok in Hrun as (s2 & Hturn & [= ->]).
    destruct (threads_run sched) as (s1' & Hrun1' & Hok). assert (s1' = s1) as -> by congruence.
    by eapply alone_step; [|apply IH|].
Qed.

(** C3: connections served at the same time, whose clients keep to disjoint parts of
    the export, do not disturb each other: whatever the order in which the
    threads take their turns, none of them faults, no byte outside the parts
    changes, and there is a number of turns after which a thread has returned,
    its client has the replies of a session of its own, and its part of the
    device holds what that session alone would have left there. *)
Theorem tenants_served_alone :
  exists b, forall sched, exists s,
    run_threads plugin_mem sched (mk_threads (start w0 <$> cs) w0) = Ok s /\
    on_device (th_world s) /\ untouched (content (th_world s)) /\
    forall i c, cs !! i = Some c -> (b <= turns_of i sched)%nat ->
      let '(replies, l) := session_spec (tn_cmds c) (content w0) in
      exists t, th_tasks s !! i = Some t /\ t_act t = Over (-1) /\
        tn_outbox c (f_net (t_frame t)) = tn_outbox c (tn_net c) ++ replies /\
        tn_part c (content (th_world s)) = tn_part c l.
Proof.
  destruct (tenants_bound cs w0 Hw0 Hcs) as [b Hb]. exists b. intros sched.
  destruct (threads_run sched) as (s & Hrun & Hdev & Hun & _). exists s. split_and!; [done..|].
  intros i c Hc Hle. destruct (Hb c) as (f & Hf & Ho & Hl); [by eapply list_elem_of_lookup_2|].
  destruct (session_spec _ _) as [replies l]. cbn [fst snd] in *.
  destruct (alone_run sched s Hrun i c Hc) as (t & w & Ht & Hturns & _ & Hp). rewrite Hf in Hturns by done.
  exists t. split; [done|]. destruct t as [ctx act g]. unfold at_world in Hturns. cbn in Hturns |- *.
  simplify_eq. cbn in *. split; [done|]. split; [exact Ho|]. by rewrite <- Hp.
Qed.
End tenants.
