(* ===== verification/TornReads.v ===== *)
(** * A read that another client writes under

    [NBD_CMD_READ] of [servers/nbd/protocol.c] answers a request longer than its
    buffer in several runs, each with a [pread] of its own, and nothing locks
    the device between them.  When another connection writes the range
    meanwhile, the runs that are sent before have the old bytes and the others
    the new ones ([torn_read]): the reply is then the content of the range at no
    moment of the device.  A request of one run is not torn, since what a
    plugin does in one call is atomic here ([SerialRequests]); and [Tenants] says that clients that
    keep to different parts of the export cannot do this to each other. *)

From S2P Require Export Tenants.

(** ** The reading thread *)

Section reader.
Context `{CFG : NbdConfig} {CFGok : NbdConfigOk}.
Context {W Cfg : Type} (plugin_mem : nat -> lwnbd_plugin_t W Cfg).
Context {N : Type} `{CB : Callbacks N}.
Context (ctx : lwnbd_context_nbd_t) (a : nat) (inv : W -> Prop) (content : W -> list byte).
Context {T : Transport N (n_sock ctx)}.
Context (Hplugin : c_p (n_base ctx) = Some a).
Context {RS : ReadStore (plugin_mem a) (c_handle (n_base ctx)) (n_minimum_block_size ctx) inv content}.
Context (Hblock : n_minimum_block_size ctx <= CONFIG_NBD_BUFFER_LEN).
Context (Hsize : c_exportsize (n_base ctx) < 2 ^ 63).

Local Abbreviation bsz := (n_minimum_block_size ctx).
Local Abbreviation size := (c_exportsize (n_base ctx)).
Local Abbreviation ibox := (inbox (n_sock ctx)).
Local Abbreviation obox := (outbox (n_sock ctx)).
Implicit Types (f : frame N W) (t : task N W) (w : W).

(** In the loop of [NBD_CMD_READ]. *)
Definition sending f : Prop :=
  frame_ok f /\ x_sendflag (f_x f) = MSG_MORE /\ xfer_ok ctx (f_x f) size /\
  device ctx inv content (f_world f).

(** The blocks of a run, when the buffer is full. *)
Definition run_blocks : Z := CONFIG_NBD_BUFFER_LEN / bsz.

Lemma start_transfer_run rq x x' :
  start_transfer bsz rq x = Ok x' -> x_bufblksz x' = run_blocks.
Proof.
  destruct CFGok. pose proof rs_bsz as Hb. unfold start_transfer. rewrite require_true by lia. mred.
  intros [= <-]. cbn. pose proof (div_le_self CONFIG_NBD_BUFFER_LEN bsz). apply wrap_small.
  split; [apply Z.div_pos; lia|]. unfold run_blocks. lia.
Qed.

(** The request is taken and the header of its reply sent. *)
Lemma reader_asks f rq tail :
  frame_ok f -> request_ok rq -> rq_magic rq = NBD_REQUEST_MAGIC -> rq_type rq = NBD_CMD_READ ->
  in_range ctx rq -> ibox (f_net f) = wire_request rq ++ tail -> device ctx inv content (f_world f) ->
  exists f', task_turn plugin_mem (mk_task ctx Waiting f) = Ok (mk_task ctx Sending f') /\
    sending f' /\ f_world f' = f_world f /\ x_bufblksz (f_x f') = run_blocks /\
    x_offset (f_x f') = rq_offset rq / bsz /\ x_blkremains (f_x f') = rq_count rq / bsz /\
    ibox (f_net f') = tail /\
    obox (f_net f') = obox (f_net f) ++ wire_reply NBD_SUCCESS (rq_handle rq).
Proof.
  intros Hf Hok Hmagic Hty Hr Hin Hd.
  destruct (receive_command ctx f rq tail Hf Hok Hmagic Hin) as (f1 & Hf1 & Hx1 & Hi1 & Ho1 & Hrun).
  specialize (Hrun (f_world f)). rewrite set_fworld_id in Hrun.
  destruct (start_transfer_spec plugin_mem ctx a inv content Hblock rq (f_x f1) size Hok Hr)
    as (x & Hst & Hx & Hxs & Hrem & Hoff).
  pose proof (start_transfer_run _ _ _ Hst) as Hbb.
  destruct (send_reply_spec ctx (rq_handle rq) NBD_SUCCESS (x_sendflag x)
    (set_x x (set_fworld (f_world f) f1))) as (net & Hs & Hi & Ho); [by right|].
  exists (set_net net (set_x x (set_fworld (f_world f) f1))).
  split; [|split; [by split|split; [done|]]; split_and!; [done..|by etrans|]].
  2: { etrans; [exact Ho|]. by rewrite <- Ho1. }
  unfold task_turn. cbn [t_act t_ctx t_frame]. rewrite Hrun. mred. unfold begin_request. rewrite Hty.
  cbn [nbd_commands_to_string NBD_CMD_READ Z.eqb]. mred. unfold read_start. unfold request_ok in Hok.
  rewrite out_of_range_false by (done || lia). change (f_x (set_fworld (f_world f) f1)) with (f_x f1).
  rewrite Hst. mred. rewrite Hs. by mred.
Qed.

(** Runs of which none is the last. *)
Lemma reader_runs m f :
  sending f -> Z.of_nat m * x_bufblksz (f_x f) < x_blkremains (f_x f) ->
  let k := Z.of_nat m * x_bufblksz (f_x f) in
  exists f', turns plugin_mem m (mk_task ctx Sending f) = Ok (mk_task ctx Sending f') /\
    sending f' /\ content (f_world f') = content (f_world f) /\
    x_offset (f_x f') = x_offset (f_x f) + k /\ x_blkremains (f_x f') = x_blkremains (f_x f) - k /\
    ibox (f_net f') = ibox (f_net f) /\
    obox (f_net f') = obox (f_net f) ++ blocks bsz (x_offset (f_x f)) k (content (f_world f)).
Proof.
  pose proof rs_bsz as Hb. revert f; induction m as [|m IH]; intros f Hsend Hm k.
  { exists f. split; [done|]. split_and!; [done|done|lia|lia|done|].
    unfold blocks, k. cbn. by rewrite slice_0, app_nil_r. }
  destruct Hsend as (Hf & Hsf & Hx & Hinv & Hlen). pose proof Hx as (_ & Hoff & _ & Hbb & _).
  destruct (read_step_spec plugin_mem ctx a inv content Hplugin f Hinv Hf) as
    (f1 & Hst & Hf1 & Hinv1 & Hc1 & Hx1 & Hi1 & Ho1); [by rewrite Hlen..|done|].
  rewrite Z.min_r in Ho1 by lia.
  assert (x_bufblksz (f_x f) < x_blkremains (f_x f)) as Hmore by lia.
  destruct (IH f1) as (f2 & Hrun & Hs2 & Hc2 & Hoff2 & Hrem2 & Hi2 & Ho2).
  { split; [done|]. rewrite Hx1. split; [unfold advanced; cbn; by rewrite (proj2 (Z.leb_gt _ _))|].
    split; [by apply advanced_ok|]. split; [done|by rewrite Hc1]. }
  { rewrite Hx1. unfold advanced; cbn. rewrite Z.min_r by lia. lia. }
  exists f2. split.
  { cbn [turns]. unfold task_turn at 1. cbn [t_act t_ctx t_frame]. rewrite Hsf. cbn [Z.eqb MSG_MORE].
    rewrite Hst. mred. exact Hrun. }
  rewrite Hx1 in *. unfold advanced in *. cbn [x_offset x_blkremains x_bufblksz] in *.
  rewrite Z.min_r in * by lia. rewrite Hc1 in *.
  split; [done|]. split; [done|]. split; [lia|]. split; [lia|]. split; [by rewrite Hi2, Hi1|].
  rewrite Ho2, Ho1, <- app_assoc. f_equal. rewrite <- blocks_split by lia. f_equal. lia.
Qed.

(** The other runs, and the end of the client's stream. *)
Lemma reader_ends f :
  sending f -> (length (ibox (f_net f)) < sizeof_nbd_request)%nat ->
  exists n f', turns plugin_mem (S n) (mk_task ctx Sending f) = Ok (mk_task ctx (Over (-1)) f') /\
    content (f_world f') = content (f_world f) /\
    obox (f_net f') = obox (f_net f) ++
      blocks bsz (x_offset (f_x f)) (x_blkremains (f_x f)) (content (f_world f)).
Proof.
  intros (Hf & Hsf & Hx & Hinv & Hlen) Htail. pose proof Hx as (Hrem & _).
  destruct (read_loop_spec plugin_mem ctx a inv content Hplugin (S (Z.to_nat (x_blkremains (f_x f)))) f Hinv Hf)
    as (f1 & Hrun & Hf1 & Hinv1 & Hc1 & Hs1 & Hi1 & Ho1); [by rewrite Hlen..|done|lia|].
  apply read_loop_turns in Hrun as [n Hn].
  destruct (receive_eof ctx f1 Hf1) as (f2 & _ & Ho2 & Hrecv); [by rewrite Hi1|].
  exists n, (set_fworld (f_world f1) f2). split; [|by rewrite <- Ho1].
  replace (S n) with (n + 1)%nat by lia. rewrite turns_add, Hn. mred. cbn [turns].
  unfold task_turn. cbn [t_act t_ctx t_frame]. specialize (Hrecv (f_world f1)). rewrite set_fworld_id in Hrecv.
  rewrite Hrecv. by mred.
Qed.
End reader.

(** ** A reader and a writer *)

Section torn.
Context `{CFG : NbdConfig} {CFGok : NbdConfigOk}.
Context {W Cfg : Type} (plugin_mem : nat -> lwnbd_plugin_t W Cfg).
Context {N : Type} `{CB : Callbacks N}.
Context (inv : W -> Prop) (content : W -> list byte) (size : Z) (Hsize : size < 2 ^ 63).
Implicit Types (c : tenant plugin_mem inv content size).

(** Bytes of a run. *)
Definition run_bytes c : Z :=
  let bsz := n_minimum_block_size (tn_ctx _ _ _ _ c) in CONFIG_NBD_BUFFER_LEN / bsz * bsz.

Lemma run_bytes_nonneg c : 0 <= run_bytes c.
Proof.
  destruct c. destruct CFGok. unfold run_bytes. cbn. pose proof rs_bsz as Hb.
  apply Z.mul_nonneg_nonneg; [apply Z.div_pos|]; lia.
Qed.

Local Abbreviation tn_out := (tn_outbox plugin_mem inv content size).

(** The reader's thread is stopped after [m] runs; whatever the device is then, it
    goes on with that. *)
Lemma reader_torn c rq m w :
  tenant_ok _ _ _ _ c -> tn_cmds _ _ _ _ c = [mk_command rq []] -> rq_type rq = NBD_CMD_READ ->
  in_range (tn_ctx _ _ _ _ c) rq -> Z.of_nat m * run_bytes c < rq_count rq ->
  on_device inv content size w ->
  exists n t1,
    turns plugin_mem (S n) (start plugin_mem inv content size w c) = Ok t1 /\
    content (f_world (t_frame t1)) = content w /\ on_device inv content size (f_world (t_frame t1)) /\
    forall w', on_device inv content size w' -> exists n' t2,
      turns plugin_mem (S n') (at_world w' t1) = Ok t2 /\
      t_act t2 = Over (-1) /\ content (f_world (t_frame t2)) = content w' /\
      tn_out c (f_net (t_frame t2)) = tn_out c (tn_net _ _ _ _ c) ++ wire_reply NBD_SUCCESS (rq_handle rq) ++
        slice (Z.to_nat (rq_offset rq)) (Z.to_nat (Z.of_nat m * run_bytes c)) (content w) ++
        slice (Z.to_nat (rq_offset rq + Z.of_nat m * run_bytes c))
          (Z.to_nat (rq_count rq - Z.of_nat m * run_bytes c)) (content w').
Proof.
  destruct c as [ctx a lo hi cmds tail net req bf T Ha RS WS FS Hblk Hsz].
  unfold tenant_ok, tn_outbox, tn_inbox, start, run_bytes. cbn.
  intros (_ & _ & Hst & Hcs & Htail & Hin) -> Hty Hr Hm [Hinv Hl].
  cbn in Hin. rewrite !app_nil_r in Hin. apply Forall_cons_1 in Hcs as [[Hconf _] _]. cbn in Hconf.
  destruct Hconf as (Hok & Hmagic & _ & _ & _ & Hrd & _). destruct (Hrd Hty) as [Hal1 Hal2].
  apply (div_exact_mul plugin_mem ctx a inv content) in Hal1, Hal2. cbn in Hal1, Hal2.
  pose proof rs_bsz as Hb. set (bsz := n_minimum_block_size ctx) in *.
  destruct (reader_asks plugin_mem ctx a inv content Hblk ltac:(by rewrite Hsz)
    (mk_frame initial_xfer req bf net w) rq tail) as
    (f1 & Hrun1 & Hs1 & Hw1 & Hbb & Hoff1 & Hrem1 & Hi1 & Ho1); [exact Hst|done..|by rewrite <- Hsz in Hl|].
  cbn in Hw1, Ho1. unfold run_blocks in Hbb. fold bsz in Hbb, Hoff1, Hrem1.
  destruct (reader_runs plugin_mem ctx a inv content Ha ltac:(by rewrite Hsz) m f1 Hs1) as
    (f2 & Hrun2 & Hs2 & Hc2 & Hoff2 & Hrem2 & Hi2 & Ho2);
    [rewrite Hbb, Hrem1; apply (Z.mul_lt_mono_pos_r bsz); lia|].
  pose proof Hs2 as (Hf2 & Hsf2 & Hx2 & Hd2 & Hl2).
  exists m, (mk_task ctx Sending f2). cbn in *.
  split; [by rewrite Hrun1|]. split; [by rewrite Hc2, Hw1|].
  split; [split; [done|by rewrite <- Hsz]|]. intros w' [Hinv' Hl'].
  destruct (reader_ends plugin_mem ctx a inv content Ha ltac:(by rewrite Hsz) (set_fworld w' f2)) as
    (n & f3 & Hrun3 & Hc3 & Ho3).
  { split; [done|]. split; [done|]. split; [done|]. by split; rewrite ?Hsz. }
  { cbn. by rewrite Hi2, Hi1. }
  exists n, (mk_task ctx (Over (-1)) f3). split; [exact Hrun3|]. split; [done|]. split; [done|].
  cbn in *. rewrite Ho3, Ho2, Ho1, <- !app_assoc. do 2 f_equal. rewrite Hoff2, Hrem2, Hoff1, Hrem1, Hbb, Hw1.
  unfold blocks. fold bsz. f_equal; f_equal; f_equal; lia.
Qed.

End torn.
