(* ===== verification/SerialRequests.v ===== *)
(** * Requests of one run are atomic

    A READ or a WRITE that fits the server's buffer is one call of the plugin,
    made at one turn of its thread.  Whatever the clients use of the device and
    however the turns of their threads interleave, the device and the replies
    are then those of some serial execution of the commands, each client's in
    its order ([small_requests_serialise]); [TornReads] shows what happens to
    longer requests.  The proof is a simulation: a turn of a thread either does
    nothing a client or the device could notice, or is its next command. *)

From S2P Require Export TornReads.

(** ** One thread *)

Section client.
Context `{CFG : NbdConfig} {CFGok : NbdConfigOk}.
Context {W Cfg : Type} (plugin_mem : nat -> lwnbd_plugin_t W Cfg).
Context {N : Type} `{CB : Callbacks N}.
Context (ctx : lwnbd_context_nbd_t) (a : nat) (inv : W -> Prop) (content : W -> list byte).
Context {T : Transport N (n_sock ctx)}.
Context (Hplugin : c_p (n_base ctx) = Some a).
Context {RS : ReadStore (plugin_mem a) (c_handle (n_base ctx)) (n_minimum_block_size ctx) inv content}.
Context (WS : ~ read_only ctx ->
  WriteStore (plugin_mem a) (c_handle (n_base ctx)) (n_minimum_block_size ctx) inv content).
Context (FS : flushable ctx -> FlushStore (plugin_mem a) (c_handle (n_base ctx)) inv content).
Context (Hblock : n_minimum_block_size ctx <= CONFIG_NBD_BUFFER_LEN).
Context (Hsize : c_exportsize (n_base ctx) < 2 ^ 63).
(** What the client sends after its last command. *)
Context (tail : list byte) (Htail : (length tail < sizeof_nbd_request)%nat).

Local Abbreviation bsz := (n_minimum_block_size ctx).
Local Abbreviation size := (c_exportsize (n_base ctx)).
Local Abbreviation ibox := (inbox (n_sock ctx)).
Local Abbreviation obox := (outbox (n_sock ctx)).
Local Abbreviation device := (device ctx inv content).
Implicit Types (f : frame N W) (t : task N W) (x : xfer) (c : command) (cs : list command) (out : list byte).

(** A command that fits the buffer. *)
Definition small_command c : Prop :=
  conforming ctx c /\ rq_count (cmd_rq c) <= run_blocks ctx * bsz.

(** The transfer of a request that takes one run. *)
Definition one_run rq x : Prop :=
  x_sendflag x = MSG_MORE /\ xfer_ok ctx x size /\ x_blkremains x <= x_bufblksz x /\
  x_offset x * bsz = rq_offset rq /\ x_blkremains x * bsz = rq_count rq.

Definition input cs : list byte := concat (client_bytes <$> cs) ++ tail.

(** Where a thread is that has the commands [cs] still to carry out and whose
    client has, or is about to have, the replies [out]. *)
Definition stage cs out t : Prop :=
  t_ctx t = ctx /\ frame_ok (t_frame t) /\
  let x := f_x (t_frame t) in
  let net := f_net (t_frame t) in
  match t_act t with
  | Waiting => x_sendflag x = 0 /\ ibox net = input cs /\ obox net = out
  | Sending =>
      (x_sendflag x = 0 /\ ibox net = input cs /\ obox net = out) \/
      exists c cs', cs = c :: cs' /\ rq_type (cmd_rq c) = NBD_CMD_READ /\ in_range ctx (cmd_rq c) /\
        one_run (cmd_rq c) x /\ ibox net = input cs' /\
        obox net = out ++ wire_reply NBD_SUCCESS (rq_handle (cmd_rq c))
  | Receiving h e =>
      (x_sendflag x = 0 /\ e = NBD_SUCCESS /\ ibox net = input cs /\ obox net ++ wire_reply NBD_SUCCESS h = out) \/
      exists c cs', cs = c :: cs' /\ rq_type (cmd_rq c) = NBD_CMD_WRITE /\
        h = rq_handle (cmd_rq c) /\ e = NBD_SUCCESS /\ one_run (cmd_rq c) x /\ 0 < x_blkremains x /\
        ~ read_only ctx /\ ibox net = cmd_data c ++ input cs' /\ obox net = out
  | Over r => r = -1 /\ cs = [] /\ obox net = out
  end.

(** A turn goes on with the same commands to do, or does the next one. *)
Definition simulates cs out t t' : Prop :=
  device (f_world (t_frame t')) /\
  let l := content (f_world (t_frame t)) in
  let l' := content (f_world (t_frame t')) in
  (l' = l /\ stage cs out t') \/
  exists c cs', cs = c :: cs' /\ stage cs' (out ++ (command_spec c l).1) t' /\ l' = (command_spec c l).2.

Lemma one_run_blocks rq x l :
  one_run rq x -> blocks bsz (x_offset x) (Z.min (x_blkremains x) (x_bufblksz x)) l
    = slice (Z.to_nat (rq_offset rq)) (Z.to_nat (rq_count rq)) l.
Proof. intros (_ & _ & Hle & Ho & Hr). unfold blocks. rewrite Z.min_l by done. by rewrite Ho, Hr. Qed.

Lemma one_run_over rq x : one_run rq x -> x_sendflag (advanced ctx x) = 0.
Proof. intros (_ & _ & Hle & _). unfold advanced. cbn. by rewrite (proj2 (Z.leb_le _ _)). Qed.

Lemma start_one_run rq x x' :
  request_ok rq -> in_range ctx rq -> rq_offset rq mod bsz = 0 -> rq_count rq mod bsz = 0 ->
  rq_count rq <= run_blocks ctx * bsz -> start_transfer bsz rq x = Ok x' -> one_run rq x'.
Proof.
  intros Hok Hr Ho Hc Hs Hst. pose proof rs_bsz as Hb.
  destruct (start_transfer_spec plugin_mem ctx a inv content Hblock rq x size Hok Hr)
    as (x1 & Hst1 & Hx & Hsf & Hrem & Hoff). assert (x1 = x') as -> by congruence.
  pose proof (start_transfer_run plugin_mem ctx a inv content _ _ _ Hst) as Hbb.
  split; [done|]. split; [done|]. split; [|split].
  - rewrite Hrem, Hbb. apply Z.div_le_upper_bound; lia.
  - by rewrite Hoff, (div_exact_mul plugin_mem ctx a inv content _ Ho).
  - by rewrite Hrem, (div_exact_mul plugin_mem ctx a inv content _ Hc).
Qed.

(** The turn of a thread that waits is its next request. *)
Lemma waiting_turn f rq rest :
  frame_ok f -> request_ok rq -> rq_magic rq = NBD_REQUEST_MAGIC -> ibox (f_net f) = wire_request rq ++ rest ->
  exists f1, frame_ok f1 /\ f_x f1 = f_x f /\ f_world f1 = f_world f /\ ibox (f_net f1) = rest /\
    obox (f_net f1) = obox (f_net f) /\
    task_turn plugin_mem (mk_task ctx Waiting f) = begin_request plugin_mem ctx rq f1.
Proof.
  intros Hf Hok Hmagic Hin.
  destruct (receive_command ctx f rq rest Hf Hok Hmagic Hin) as (f1 & Hf1 & Hx1 & Hi1 & Ho1 & Hrun).
  specialize (Hrun (f_world f)). rewrite set_fworld_id in Hrun.
  exists (set_fworld (f_world f) f1). do 5 (split; [done|]). unfold task_turn. cbn [t_act t_ctx t_frame].
  rewrite Hrun. by mred.
Qed.

Lemma input_cons c cs : input (c :: cs) = wire_request (cmd_rq c) ++ cmd_data c ++ input cs.
Proof. unfold input. rewrite fmap_cons. cbn [concat]. unfold client_bytes at 1. by rewrite <- !app_assoc. Qed.

(** A reply that ends the command in the turn that took it. *)
Lemma stage_replied f cs out error handle act net :
  act = Waiting \/ act = Sending -> frame_ok f -> x_sendflag (f_x f) = 0 -> ibox (f_net f) = input cs ->
  obox (f_net f) = out -> ibox net = ibox (f_net f) -> obox net = obox (f_net f) ++ wire_reply error handle ->
  stage cs (out ++ wire_reply error handle) (mk_task ctx act (set_net net f)).
Proof.
  intros Ha Hf Hsf Hi Ho Hi' Ho'. split; [done|]. split; [done|]. cbn.
  destruct Ha as [-> | ->]; [|left]; (split; [done|]; split; congruence).
Qed.

Lemma read_begins f c cs out :
  frame_ok f -> x_sendflag (f_x f) = 0 -> device (f_world f) -> small_command c ->
  rq_type (cmd_rq c) = NBD_CMD_READ -> ibox (f_net f) = cmd_data c ++ input cs -> obox (f_net f) = out ->
  exists t', begin_request plugin_mem ctx (cmd_rq c) f = Ok t' /\ simulates (c :: cs) out (mk_task ctx Waiting f) t'.
Proof.
  intros Hf Hsf Hd [Hconf Hsmall] Hty Hi Ho.
  destruct Hconf as (Hok & _ & Hov & _ & _ & Hrd & _ & _ & Hlen). destruct (Hrd Hty) as [Ha1 Ha2].
  rewrite Hty in Hlen. cbn in Hlen. assert (cmd_data c = []) as Hdata by (apply nil_length_inv; lia).
  rewrite Hdata in Hi. cbn [app] in Hi. unfold begin_request. rewrite Hty.
  cbn [nbd_commands_to_string NBD_CMD_READ Z.eqb]. mred. unfold read_start. unfold request_ok in Hok.
  assert (in_range ctx (cmd_rq c) \/ ~ in_range ctx (cmd_rq c)) as [Hr|Hr] by (unfold in_range; lia).
  - destruct (start_transfer_spec plugin_mem ctx a inv content Hblock (cmd_rq c) (f_x f) size Hok Hr)
      as (x & Hst & _ & Hxs & _).
    pose proof (start_one_run _ _ _ Hok Hr Ha1 Ha2 Hsmall Hst) as Hone.
    destruct (send_reply_spec ctx (rq_handle (cmd_rq c)) NBD_SUCCESS (x_sendflag x) (set_x x f))
      as (net & Hs & Hi' & Ho'); [by right|].
    exists (mk_task ctx Sending (set_net net (set_x x f))). split.
    { rewrite out_of_range_false by (done || lia). rewrite Hst. mred. rewrite Hs. by mred. }
    split; [done|]. left. split; [done|]. split; [done|]. split; [done|]. right. exists c, cs. cbn.
    do 4 (split; [done|]). split; [by etrans|]. etrans; [exact Ho'|]. cbn. by rewrite Ho.
  - destruct (send_reply_spec ctx (rq_handle (cmd_rq c)) NBD_EIO (x_sendflag (f_x f)) (set_x (f_x f) f))
      as (net & Hs & Hi' & Ho'); [by left|].
    exists (mk_task ctx Sending (set_net net (set_x (f_x f) f))). split.
    { destruct Hd as [_ Hl]. rewrite out_of_range_true by (done || lia). mred. rewrite Hs. by mred. }
    split; [done|]. right. exists c, cs. split; [done|]. unfold command_spec. rewrite Hty. cbn [Z.eqb NBD_CMD_READ].
    destruct Hd as [_ Hl]. cbn [t_frame set_net f_world] in *. rewrite decide_False by (unfold in_range in Hr; cbn; lia).
    split; [|done]. apply stage_replied; auto.
Qed.

Lemma write_begins f c cs out :
  frame_ok f -> x_sendflag (f_x f) = 0 -> device (f_world f) -> small_command c ->
  rq_type (cmd_rq c) = NBD_CMD_WRITE -> ibox (f_net f) = cmd_data c ++ input cs -> obox (f_net f) = out ->
  exists t', begin_request plugin_mem ctx (cmd_rq c) f = Ok t' /\ simulates (c :: cs) out (mk_task ctx Waiting f) t'.
Proof.
  intros Hf Hsf Hd [Hconf Hsmall] Hty Hi Ho.
  destruct Hconf as (Hok & _ & Hov & _ & _ & _ & Hwr & _ & Hlen).
  destruct (Hwr Hty) as (Hro & Hr & Ha1 & Ha2 & Hpos). unfold begin_request. rewrite Hty.
  cbn [nbd_commands_to_string NBD_CMD_READ NBD_CMD_WRITE Z.eqb Pos.eqb]. mred. unfold write_start.
  rewrite not_read_only by done. unfold request_ok in Hok. pose proof rs_bsz as Hb.
  destruct (start_transfer_spec plugin_mem ctx a inv content Hblock (cmd_rq c) (f_x f) size Hok Hr)
    as (x & Hst & _).
  pose proof (start_one_run _ _ _ Hok Hr Ha1 Ha2 Hsmall Hst) as Hone. pose proof Hone as (_ & _ & _ & _ & Hcount).
  exists (mk_task ctx (Receiving (rq_handle (cmd_rq c)) NBD_SUCCESS) (set_x x f)). split.
  { rewrite out_of_range_false by (done || lia). rewrite Hst. by mred. }
  split; [done|]. left. split; [done|]. split; [done|]. split; [done|]. right. exists c, cs. cbn.
  do 5 (split; [done|]). split; [nia|]. by split_and!.
Qed.

Lemma other_begins f c cs out :
  frame_ok f -> x_sendflag (f_x f) = 0 -> device (f_world f) -> small_command c ->
  rq_type (cmd_rq c) <> NBD_CMD_READ -> rq_type (cmd_rq c) <> NBD_CMD_WRITE ->
  ibox (f_net f) = cmd_data c ++ input cs -> obox (f_net f) = out ->
  exists t', begin_request plugin_mem ctx (cmd_rq c) f = Ok t' /\ simulates (c :: cs) out (mk_task ctx Waiting f) t'.
Proof.
  intros Hf Hsf Hd [Hconf _] Hnr Hnw Hi Ho.
  destruct Hconf as (Hok & _ & _ & H8 & Hnd & _ & _ & Hfl & Hlen).
  assert (cmd_data c = []) as Hdata.
  { rewrite (proj2 (Z.eqb_neq _ _) Hnw) in Hlen. apply nil_length_inv. lia. }
  rewrite Hdata in Hi. cbn [app] in Hi.
  assert (forall l, command_spec c l
    = (wire_reply (if rq_type (cmd_rq c) =? NBD_CMD_FLUSH then NBD_SUCCESS else NBD_EINVAL) (rq_handle (cmd_rq c)), l))
    as Hspec.
  { intros l. unfold command_spec. rewrite (proj2 (Z.eqb_neq _ _) Hnr), (proj2 (Z.eqb_neq _ _) Hnw).
    by destruct (rq_type (cmd_rq c) =? NBD_CMD_FLUSH). }
  unfold begin_request, dispatch. unfold request_ok in Hok. destruct (nbd_commands_known (rq_type (cmd_rq c)) ltac:(lia)) as [nm ->]. mred.
  rewrite (proj2 (Z.eqb_neq _ _) Hnr), (proj2 (Z.eqb_neq _ _) Hnw), (proj2 (Z.eqb_neq _ _) Hnd).
  revert Hspec. case (Z.eqb_spec (rq_type (cmd_rq c)) NBD_CMD_FLUSH) as [Hfs|Hfs]; intros Hspec.
  - pose proof (FS (Hfl Hfs)) as HFS. destruct Hd as [Hinv Hl].
    destruct (lwnbd_flush_spec plugin_mem (n_base ctx) a inv content Hplugin (f_world f) Hinv)
      as (w' & Hrun & Hinv' & Hc). unfold cmd_flush. rewrite Hrun. mred. cbn [Z.eqb].
    destruct (send_reply_spec ctx (rq_handle (cmd_rq c)) NBD_SUCCESS 0 (set_fworld w' f)) as (net & Hs & Hi' & Ho');
      [by left|]. rewrite Hs. mred. eexists. split; [done|]. split; [split; [done|by rewrite <- Hc in Hl]|].
    right. exists c, cs. rewrite Hspec. split; [done|]. split; [|exact Hc].
    by apply (stage_replied (set_fworld w' f)); auto.
  - destruct (send_reply_spec ctx (rq_handle (cmd_rq c)) NBD_EINVAL 0 f) as (net & Hs & Hi' & Ho'); [by left|].
    rewrite Hs. mred. eexists. split; [done|]. split; [done|]. right. exists c, cs. rewrite Hspec.
    split; [done|]. split; [|done]. by apply stage_replied; auto.
Qed.

Lemma waiting_simulates cs out f :
  stage cs out (mk_task ctx Waiting f) -> Forall small_command cs -> device (f_world f) ->
  exists t', task_turn plugin_mem (mk_task ctx Waiting f) = Ok t' /\ simulates cs out (mk_task ctx Waiting f) t'.
Proof.
  intros (_ & Hf & Hsf & Hi & Ho) Hcs Hd. cbn in Hf, Hsf, Hi, Ho. destruct Hcs as [|c cs Hc Hcs].
  - unfold input in Hi. cbn in Hi. destruct (receive_eof ctx f Hf) as (f' & Hf' & Ho' & Hrun); [by rewrite Hi|].
    specialize (Hrun (f_world f)). rewrite set_fworld_id in Hrun.
    exists (mk_task ctx (Over (-1)) (set_fworld (f_world f) f')). split.
    { unfold task_turn. cbn [t_act t_ctx t_frame]. rewrite Hrun. by mred. }
    split; [done|]. left. split; [done|]. split; [done|]. split; [done|]. cbn. by rewrite Ho', Ho.
  - rewrite input_cons in Hi. pose proof Hc as [(Hok & Hmagic & _) _].
    destruct (waiting_turn f (cmd_rq c) _ Hf Hok Hmagic Hi) as (f1 & Hf1 & Hx1 & Hw1 & Hi1 & Ho1 & ->).
    rewrite <- Hx1 in Hsf. rewrite <- Hw1 in Hd. rewrite Ho in Ho1.
    assert (forall t', simulates (c :: cs) out (mk_task ctx Waiting f1) t' ->
      simulates (c :: cs) out (mk_task ctx Waiting f) t') as Hsame by (unfold simulates; cbn; by rewrite Hw1).
    destruct (Z.eq_dec (rq_type (cmd_rq c)) NBD_CMD_READ) as [Er|Er];
      [|destruct (Z.eq_dec (rq_type (cmd_rq c)) NBD_CMD_WRITE) as [Ew|Ew]].
    + destruct (read_begins f1 c cs out) as (t' & Hrun & Ht'); [done..|]. eauto.
    + destruct (write_begins f1 c cs out) as (t' & Hrun & Ht'); [done..|]. eauto.
    + destruct (other_begins f1 c cs out) as (t' & Hrun & Ht'); [done..|]. eauto.
Qed.

Lemma sending_simulates cs out f :
  stage cs out (mk_task ctx Sending f) -> device (f_world f) ->
  exists t', task_turn plugin_mem (mk_task ctx Sending f) = Ok t' /\ simulates cs out (mk_task ctx Sending f) t'.
Proof.
  intros (_ & Hf & Hst) Hd. cbn in Hf, Hst. unfold task_turn. cbn [t_act t_ctx t_frame].
  destruct Hst as [(Hsf & Hi & Ho)|(c & cs' & -> & Hty & Hr & Hone & Hi & Ho)].
  { exists (mk_task ctx Waiting f). rewrite Hsf. split; [done|]. split; [done|]. by left. }
  pose proof Hone as (Hsf & Hx & _). destruct Hd as [Hinv Hl].
  destruct (read_step_spec plugin_mem ctx a inv content Hplugin f Hinv Hf) as
    (f1 & Hrun & Hf1 & Hinv1 & Hc1 & Hx1 & Hi1 & Ho1); [by rewrite Hl..|done|].
  exists (mk_task ctx Sending f1). rewrite Hsf. cbn [Z.eqb MSG_MORE]. rewrite Hrun. split; [done|].
  split; [split; [done|by rewrite <- Hc1 in Hl]|]. right. exists c, cs'. split; [done|].
  unfold command_spec. rewrite Hty. cbn [Z.eqb NBD_CMD_READ t_frame].
  rewrite decide_True by (rewrite Hl; exact Hr). split; [|exact Hc1].
  split; [done|]. split; [done|]. left. cbn. split; [rewrite Hx1; by eapply one_run_over|].
  split; [congruence|]. rewrite Ho1, Ho, <- app_assoc. do 2 f_equal. by apply one_run_blocks.
Qed.

Lemma receiving_simulates cs out f h e :
  stage cs out (mk_task ctx (Receiving h e) f) -> Forall small_command cs -> device (f_world f) ->
  exists t', task_turn plugin_mem (mk_task ctx (Receiving h e) f) = Ok t' /\
    simulates cs out (mk_task ctx (Receiving h e) f) t'.
Proof.
  intros (_ & Hf & Hst) Hcs Hd. cbn in Hf, Hst. unfold task_turn. cbn [t_act t_ctx t_frame].
  destruct Hst as [(Hsf & -> & Hi & Ho)|(c & cs' & -> & Hty & -> & -> & Hone & Hpos & Hro & Hi & Ho)].
  { destruct (send_reply_spec ctx h NBD_SUCCESS 0 f) as (net & Hs & Hi' & Ho'); [by left|].
    exists (mk_task ctx Waiting (set_net net f)). rewrite Hsf. cbn [Z.eqb]. rewrite Hs. split; [done|]. split; [done|].
    left. split; [done|]. split; [done|]. split; [done|]. cbn. split; [done|]. split; congruence. }
  pose proof (WS Hro) as HWS. pose proof Hone as (Hsf & Hx & Hle & Hoff & Hcount). destruct Hd as [Hinv Hl].
  pose proof rs_bsz as Hb. apply Forall_cons_1 in Hcs as [[Hconf _] _].
  destruct Hconf as (_ & _ & _ & _ & _ & _ & _ & _ & Hlen). rewrite Hty in Hlen. cbn [Z.eqb Pos.eqb NBD_CMD_WRITE] in Hlen.
  destruct (write_step_spec plugin_mem ctx a inv content Hplugin NBD_SUCCESS f (cmd_data c) (input cs')) as
    (f1 & Hrun & Hf1 & Hinv1 & Hc1 & Hx1 & Hi1 & Ho1); [done|done|done|by rewrite Hl|by rewrite Hl|done|done| |].
  { rewrite Z.min_l, Hcount by done. lia. }
  exists (mk_task ctx (Receiving (rq_handle (cmd_rq c)) NBD_SUCCESS) f1). rewrite Hsf. cbn [Z.eqb MSG_MORE].
  rewrite Hrun. split; [done|]. unfold write_blocks in Hc1. rewrite Hoff in Hc1. split.
  { split; [done|]. cbn [t_frame]. rewrite Hc1, length_splice; [done|]. unfold xfer_ok in Hx. nia. }
  right. exists c, cs'. split; [done|]. unfold command_spec. rewrite Hty.
  cbn [Z.eqb Pos.eqb NBD_CMD_READ NBD_CMD_WRITE t_frame fst snd]. split; [|exact Hc1].
  split; [done|]. split; [done|]. left. cbn. split; [rewrite Hx1; by eapply one_run_over|].
  split; [done|]. split; [done|]. by rewrite Ho1, Ho.
Qed.

(** Every turn. *)
Lemma turn_simulates cs out t :
  stage cs out t -> Forall small_command cs -> device (f_world (t_frame t)) ->
  exists t', task_turn plugin_mem t = Ok t' /\ simulates cs out t t'.
Proof.
  destruct t as [c act f]. intros Hst Hcs Hd. pose proof Hst as (Hc & _ & Hover). cbn in Hc. subst c.
  destruct act as [| |h e|r].
  - by apply waiting_simulates.
  - by apply sending_simulates.
  - by apply receiving_simulates.
  - exists (mk_task ctx (Over r) f). split; [done|]. split; [done|]. by left.
Qed.
End client.

(** ** Histories

    A history says which thread carried out which command, in the order of the
    device. *)

Definition history : Type := list (nat * command).

Definition commands_of (i : nat) (h : history) : list command :=
  omap (fun p => if decide (i = p.1) then Some p.2 else None) h.

Definition device_after (h : history) (l : list byte) : list byte := (session_spec h.*2 l).2.

(** The replies the client of thread [i] gets in a serial execution. *)
Fixpoint replies_of (i : nat) (h : history) (l : list byte) : list byte :=
  match h with
  | [] => []
  | (j, c) :: h =>
      let '(r, l) := command_spec c l in (if decide (i = j) then r else []) ++ replies_of i h l
  end.

Lemma commands_of_snoc i h j c :
  commands_of i (h ++ [(j, c)]) = commands_of i h ++ (if decide (i = j) then [c] else []).
Proof.
  unfold commands_of. rewrite omap_app. cbn. by destruct (decide (i = j)).
Qed.

Lemma device_after_snoc h j c l : device_after (h ++ [(j, c)]) l = (command_spec c (device_after h l)).2.
Proof.
  unfold device_after. rewrite fmap_app, session_spec_app. cbn. by destruct (command_spec c _).
Qed.

Lemma replies_of_snoc i h j c l :
  replies_of i (h ++ [(j, c)]) l
  = replies_of i h l ++ (if decide (i = j) then (command_spec c (device_after h l)).1 else []).
Proof.
  revert l; induction h as [|[k d] h IH]; intros l; cbn [app replies_of].
  - unfold device_after. cbn. destruct (command_spec c l). by rewrite app_nil_r.
  - unfold device_after. rewrite fmap_cons. cbn [snd session_spec].
    destruct (command_spec d l) as [r l1]. rewrite IH, app_assoc. unfold device_after.
    by destruct (session_spec h.*2 l1).
Qed.

(** ** All threads *)

Section serial.
Context `{CFG : NbdConfig} {CFGok : NbdConfigOk}.
Context {W Cfg : Type} (plugin_mem : nat -> lwnbd_plugin_t W Cfg).
Context {N : Type} `{CB : Callbacks N}.
Context (inv : W -> Prop) (content : W -> list byte) (size : Z) (Hsize : size < 2 ^ 63).
Implicit Types (c : tenant plugin_mem inv content size) (s : @threads W N).

Local Abbreviation cmds := (tn_cmds plugin_mem inv content size).
Local Abbreviation tn_out := (tn_outbox plugin_mem inv content size).
Local Abbreviation on_device := (on_device inv content size).
Local Abbreviation start := (start plugin_mem inv content size).

Definition small_tenant c : Prop := Forall (fun d => rq_count (cmd_rq d) <= run_bytes plugin_mem inv content size c) (cmds c).

Definition tn_stage c (ds : list command) (out : list byte) (t : task N W) : Prop :=
  stage (T := tn_transport _ _ _ _ c) (tn_ctx _ _ _ _ c) (tn_tail _ _ _ _ c) ds out t.

Context (cs : list (tenant plugin_mem inv content size)) (w0 : W) (Hw0 : on_device w0).
Context (Hcs : Forall (tenant_ok plugin_mem inv content size) cs) (Hsmall : Forall small_tenant cs).

(** The threads and the device are where the history leaves them. *)
Definition serial (h : history) s : Prop :=
  (forall p, p ∈ h -> is_Some (cs !! p.1)) /\ on_device (th_world s) /\
  content (th_world s) = device_after h (content w0) /\ length (th_tasks s) = length cs /\
  forall i c, cs !! i = Some c -> exists t ds, th_tasks s !! i = Some t /\ cmds c = commands_of i h ++ ds /\
    tn_stage c ds (tn_out c (tn_net _ _ _ _ c) ++ replies_of i h (content w0)) t.

Lemma tenant_simulates c (ds : list command) (out : list byte) (t : task N W) (w : W) :
  tenant_ok _ _ _ _ c -> small_tenant c -> ds `suffix_of` cmds c -> tn_stage c ds out t -> on_device w ->
  exists t' w', task_turn plugin_mem (at_world w t) = Ok t' /\ w' = f_world (t_frame t') /\ on_device w' /\
    ((content w' = content w /\ tn_stage c ds out t') \/
     exists d ds', ds = d :: ds' /\ tn_stage c ds' (out ++ (command_spec d (content w)).1) t' /\
       content w' = (command_spec d (content w)).2).
Proof.
  destruct c as [ctx a lo hi cmds tail net req bf T Ha RS WS FS Hblk Hsz].
  unfold tenant_ok, small_tenant, tn_stage, run_bytes. cbn.
  intros (_ & _ & _ & Hloc & Htail & _) Hsm [pre ->] Hst [Hinv Hl].
  apply Forall_app in Hloc as [_ Hloc], Hsm as [_ Hsm].
  destruct (turn_simulates plugin_mem ctx a inv content Ha WS FS Hblk ltac:(by rewrite Hsz) tail Htail ds out
    (at_world w t)) as (t' & Hrun & [Hinv' Hl'] & Hsim).
  - destruct t. exact Hst.
  - apply Forall_forall. intros d Hd. split; [|by eapply Forall_forall in Hsm].
    eapply Forall_forall in Hloc as [H _]; [exact H|done].
  - by rewrite <- Hsz in Hl.
  - exists t', (f_world (t_frame t')). rewrite Hsz in Hl'. by split_and!.
Qed.

Lemma tn_stage_at c ds out (t : task N W) w : tn_stage c ds out t -> tn_stage c ds out (at_world w t).
Proof. by destruct t. Qed.

(** A thread that does nothing, and one that carries out its next command. *)
Lemma serial_step h s j :
  serial h s -> exists s' h', thread_turn plugin_mem j s = Ok s' /\ serial h' s'.
Proof.
  intros (Hh & Hd & Hc & Hlen & Hall). unfold thread_turn. destruct (th_tasks s !! j) as [t|] eqn:Ht.
  2: { exists s, h. by split_and!. }
  assert (exists c, cs !! j = Some c) as [c Hcj]
    by (apply lookup_lt_is_Some; rewrite <- Hlen; by eapply lookup_lt_Some).
  destruct (Hall j c Hcj) as (t1 & ds & Ht1 & Hds & Hst). assert (t1 = t) as -> by congruence.
  destruct (tenant_simulates c ds (tn_out c (tn_net _ _ _ _ c) ++ replies_of j h (content w0)) t (th_world s) (Forall_lookup_1 _ _ _ _ Hcs Hcj)
    (Forall_lookup_1 _ _ _ _ Hsmall Hcj)) as (t' & w' & Hrun & -> & Hd' & Hsim); [by exists (commands_of j h)|done..|].
  rewrite Hrun. mred. eexists _.
  assert (forall h', (forall p, p ∈ h' -> is_Some (cs !! p.1)) -> content (f_world (t_frame t')) = device_after h' (content w0) ->
    (exists ds', cmds c = commands_of j h' ++ ds' /\
      tn_stage c ds' (tn_out c (tn_net _ _ _ _ c) ++ replies_of j h' (content w0)) t') ->
    (forall i, i <> j -> commands_of i h' = commands_of i h /\ replies_of i h' (content w0) = replies_of i h (content w0)) ->
    serial h' (mk_threads (<[j := t']> (th_tasks s)) (f_world (t_frame t')))) as Hserial.
  { intros h' H1 H2 (ds' & H3 & H4) H5. do 3 (split; [done|]). cbn [th_tasks]. split; [by rewrite length_insert|].
    intros i c' Hi. destruct (decide (i = j)) as [->|Hij].
    - assert (c' = c) as -> by congruence. exists t', ds'. rewrite list_lookup_insert_eq by by eapply lookup_lt_Some. done.
    - destruct (H5 i Hij) as [-> ->]. rewrite list_lookup_insert_ne by done. by apply Hall. }
  destruct Hsim as [[Hc' Hst']|(d & ds' & -> & Hst' & Hc')].
  - exists h. split; [done|]. apply Hserial; [done|congruence|by exists ds|done].
  - exists (h ++ [(j, d)]). split; [done|]. rewrite Hc in Hc', Hst'. apply Hserial.
    + intros p [Hp| ->%list_elem_of_singleton]%elem_of_app; [by apply Hh|by exists c].
    + by rewrite device_after_snoc.
    + exists ds'. rewrite commands_of_snoc, replies_of_snoc, !decide_True by done.
      rewrite app_assoc. split; [by rewrite <- app_assoc|done].
    + intros i Hij. rewrite commands_of_snoc, replies_of_snoc, !decide_False by done. by rewrite !app_nil_r.
Qed.

Lemma serial_run sched :
  exists s h, run_threads plugin_mem sched (mk_threads (start w0 <$> cs) w0) = Ok s /\ serial h s.
Proof.
  induction sched as [|j sched (s & h & Hrun & Hok)] using rev_ind.
  - eexists _, []. split; [done|].
    split; [by intros p ?%not_elem_of_nil|]. do 2 (split; [done|]). cbn [th_tasks]. split; [by rewrite length_fmap|].
    intros i c Hi. exists (start w0 c), (cmds c). rewrite list_lookup_fmap, Hi.
    split; [done|]. split; [done|]. cbn [replies_of]. rewrite app_nil_r.
    pose proof (Forall_lookup_1 _ _ _ _ Hcs Hi) as (_ & _ & [Hrq Hbf] & _ & _ & Hin).
    split; [done|]. split; [by split|]. done.
  - destruct (serial_step h s j Hok) as (s' & h' & Hs & Hok'). exists s', h'. split; [|done].
    rewrite run_threads_app, Hrun. mred. cbn [run_threads]. rewrite Hs. by mred.
Qed.

Lemma serial_over h s i c t :
  serial h s -> cs !! i = Some c -> th_tasks s !! i = Some t -> t_act t = Over (-1) ->
  commands_of i h = cmds c /\
  tn_out c (f_net (t_frame t)) = tn_out c (tn_net _ _ _ _ c) ++ replies_of i h (content w0).
Proof.
  intros (_ & _ & _ & _ & Hall) Hi Ht Hover. destruct (Hall i c Hi) as (t1 & ds & Ht1 & Hds & Hst).
  assert (t1 = t) as -> by congruence. destruct Hst as (_ & _ & Hst). cbv zeta in Hst. rewrite Hover in Hst.
  destruct Hst as (_ & -> & Ho). rewrite app_nil_r in Hds. by split.
Qed.

(** C4: connections served at the same time whose requests fit the server's buffer,
    whatever parts of the export they use: every interleaving of the turns of
    their threads is a serial execution of their commands, each client's in its
    order.  The device holds what the serial execution leaves; and a thread
    that has had its turns has returned, all the commands of its client are
    part of the execution, and the client has the replies the execution gives
    them. *)
Theorem small_requests_serialise sched :
  exists s h, run_threads plugin_mem sched (mk_threads (start w0 <$> cs) w0) = Ok s /\
    (forall p, p ∈ h -> is_Some (cs !! p.1)) /\
    content (th_world s) = (session_spec h.*2 (content w0)).2 /\
    forall i c, cs !! i = Some c -> exists t, th_tasks s !! i = Some t /\
      commands_of i h `prefix_of` cmds c /\
      ((tn_turns _ _ _ _ c <= turns_of i sched)%nat ->
       t_act t = Over (-1) /\ commands_of i h = cmds c /\
       tn_out c (f_net (t_frame t)) = tn_out c (tn_net _ _ _ _ c) ++ replies_of i h (content w0)).
Proof.
  destruct (serial_run sched) as (s & h & Hrun & Hser). exists s, h. split; [done|].
  destruct (threads_run plugin_mem inv content size Hsize cs w0 Hw0 Hcs sched) as (s1 & Hrun1 & _ & _ & _ & Hend).
  assert (s1 = s) as -> by congruence. pose proof Hser as (Hh & _ & Hc & _ & Hall). split; [done|]. split; [done|].
  intros i c Hi. destruct (Hall i c Hi) as (t & ds & Ht & Hds & _). exists t. split; [done|].
  split; [by exists ds|]. intros Hle. destruct (Hend i c Hi) as (t1 & Ht1 & Hok). assert (t1 = t) as -> by congruence.
  rewrite (proj2 (Nat.sub_0_le _ _) Hle) in Hok. apply task_ok_0 in Hok. split; [done|]. by eapply serial_over.
Qed.
End serial.
