(* ===== verification/TransmissionErrors.v ===== *)
(** * Refusals, failures and limits of the transmission phase

    The branches of [servers/nbd/protocol.c] a conforming client on a healthy
    device does not reach: bounds of the loops for any plugin and any network,
    refused requests, failing devices, and the inputs the code mishandles. *)

From S2P Require Export TransmissionSpec.

(** ** Termination of the transfer loops, whatever the callbacks do *)

Section termination.
Context `{CFG : NbdConfig} {CFGok : NbdConfigOk}.
Context {W Cfg : Type} (plugin_mem : nat -> lwnbd_plugin_t W Cfg).
Context {N : Type} `{CB : Callbacks N}.
Context (ctx : lwnbd_context_nbd_t).
Local Abbreviation bsz := (n_minimum_block_size ctx).
Implicit Types (f : frame N W) (x : xfer).

(** The callbacks return (possibly with an error or a fault of their own). *)
Context (Hrecv : forall s m len n, sync_recv_cb (N := N) s m len n <> Fault OutOfFuel).
Context (Hsend : forall s d fl n, sync_send_cb (N := N) s d fl n <> Fault OutOfFuel).
Context (Hpread : forall c o fl w, lwnbd_pread plugin_mem (n_base ctx) c o fl w <> Fault OutOfFuel).
Context (Hpwrite : forall b c o fl w, lwnbd_pwrite plugin_mem (n_base ctx) b c o fl w <> Fault OutOfFuel).

(** Runs are not empty unless nothing is left. *)
Definition progressing x : Prop :=
  0 <= x_blkremains x < 2 ^ 32 /\ 0 <= x_bufblksz x /\
  (0 < x_bufblksz x \/ x_blkremains x = 0) /\
  0 <= x_retry x <= CONFIG_MAX_RETRIES.

Definition variant x : nat :=
  Z.to_nat (x_blkremains x * (CONFIG_MAX_RETRIES + 1) + x_retry x).

Lemma clip_fields x :
  x_retry (clip bsz x) = x_retry x /\ x_blkremains (clip bsz x) = x_blkremains x /\
  x_bufblksz (clip bsz x) = Z.min (x_blkremains x) (x_bufblksz x) /\
  x_sendflag (clip bsz x) = (if x_blkremains x <=? x_bufblksz x then 0 else x_sendflag x).
Proof.
  unfold clip. destruct x as [rt sf rem br bb off]. cbn.
  case (Z.ltb_spec rem bb) as [H|H]; cbn.
  - rewrite Z.leb_refl, (proj2 (Z.leb_le _ _)), Z.min_l by lia. done.
  - rewrite Z.min_r by lia. case (Z.leb_spec rem bb) as [H'|H']; done.
Qed.

(** After a turn that goes on, the loop is over or the variant is smaller. *)
Definition smaller x x' : Prop :=
  x_sendflag x' = 0 \/ (progressing x' /\ (variant x' < variant x)%nat).

Lemma advance_smaller x :
  progressing x -> x_sendflag (clip bsz x) <> 0 -> smaller x (advance (clip bsz x)).
Proof.
  destruct (clip_fields x) as (Hrt & Hrem & Hbb & Hsf).
  unfold progressing, smaller, variant, advance. cbn. rewrite Hrem, Hbb.
  intros (H1 & H2 & H3 & H4) Hs. rewrite Hsf in Hs.
  destruct CFGok as [_ _ Hmr].
  destruct (Z.leb_spec (x_blkremains x) (x_bufblksz x)) as [Hle|Hgt]; [done|].
  right. rewrite Z.min_r, wrap_small by lia. split; [unfold progressing; cbn; lia|].
  assert (0 < x_bufblksz x) by lia. apply Z2Nat.inj_lt; nia.
Qed.

Lemma read_step_variant f f' :
  progressing (f_x f) -> read_step plugin_mem ctx bsz f = Ok (Next f') ->
  smaller (f_x f) (f_x f').
Proof.
  intros Hp Hrun. destruct (clip_fields (f_x f)) as (Hrt & Hrem & Hbb & Hsf).
  unfold read_step in Hrun. run.
  destruct (_ =? 0) in Hrun.
  - run. destruct (negb _) in Hrun; run.
    destruct (decide (x_sendflag (clip bsz (f_x f)) = 0)); [by left|by apply advance_smaller].
  - destruct (negb _) eqn:E in Hrun; run. right.
    rewrite Hrt in E. apply negb_true_iff, Z.eqb_neq in E.
    unfold progressing, variant in *. cbn. rewrite Hrt, Hrem, Hbb.
    assert (0 <= x_blkremains (f_x f) * (CONFIG_MAX_RETRIES + 1)) by nia. split; lia.
Qed.

Lemma bind_fuel {A B} (m : outcome A) (k : A -> outcome B) :
  m <> Fault OutOfFuel -> (forall a, m = Ok a -> k a <> Fault OutOfFuel) ->
  m ≫= k <> Fault OutOfFuel.
Proof. destruct m; mred; [auto|congruence]. Qed.

Lemma read_step_fuel f : read_step plugin_mem ctx bsz f <> Fault OutOfFuel.
Proof.
  unfold read_step. apply bind_fuel; [apply Hpread|]. intros [[r d] w] _.
  apply bind_fuel; [unfold store_at; by case_decide|]. intros buf _.
  destruct (r =? 0); [|by destruct (negb _)].
  apply bind_fuel; [unfold load_at; by case_decide|]. intros data _.
  apply bind_fuel; [apply Hsend|]. intros [r' net] _. by destruct (negb _).
Qed.

Lemma read_loop_fuel fuel f :
  (x_sendflag (f_x f) <> 0 -> progressing (f_x f) /\ (variant (f_x f) < fuel)%nat) ->
  read_loop plugin_mem fuel ctx bsz f <> Fault OutOfFuel.
Proof.
  revert f; induction fuel as [|fuel IH]; intros f Hf; cbn [read_loop];
    (case (Z.eqb_spec (x_sendflag (f_x f)) 0) as [|Hs]; [done|]).
  - destruct (Hf Hs); lia.
  - destruct (Hf Hs) as [Hp Hv]. apply bind_fuel; [apply read_step_fuel|].
    intros [f'|f'|r f'] Hst; [|done..]. apply IH. intros Hs'.
    destruct (read_step_variant _ _ Hp Hst) as [?|[Hp' Hlt]]; [done|]. split; [done|lia].
Qed.

Lemma write_step_variant error f error' f' :
  progressing (f_x f) -> write_step plugin_mem ctx bsz error f = Ok (error', f') ->
  smaller (f_x f) (f_x f').
Proof.
  intros Hp Hrun. unfold write_step in Hrun. run. destruct (_ =? _) in Hrun; run; [|by left].
  destruct (negb _) in Hrun; run; [by left|].
  destruct (decide (x_sendflag (clip bsz (f_x f)) = 0)); [by left|by apply advance_smaller].
Qed.

Lemma write_step_fuel error f : write_step plugin_mem ctx bsz error f <> Fault OutOfFuel.
Proof.
  unfold write_step. apply bind_fuel; [apply Hrecv|]. intros [[r buf] net] _.
  destruct (_ =? _); [|done]. apply bind_fuel; [apply Hpwrite|]. intros [r' w] _.
  by destruct (negb _).
Qed.

Lemma write_loop_fuel fuel error f :
  (x_sendflag (f_x f) <> 0 -> progressing (f_x f) /\ (variant (f_x f) < fuel)%nat) ->
  write_loop plugin_mem fuel ctx bsz error f <> Fault OutOfFuel.
Proof.
  revert error f; induction fuel as [|fuel IH]; intros error f Hf; cbn [write_loop];
    (case (Z.eqb_spec (x_sendflag (f_x f)) 0) as [|Hs]; [done|]).
  - destruct (Hf Hs); lia.
  - destruct (Hf Hs) as [Hp Hv]. apply bind_fuel; [apply write_step_fuel|].
    intros [error' f'] Hst. apply IH. intros Hs'.
    destruct (write_step_variant _ _ _ _ Hp Hst) as [?|[Hp' Hlt]]; [done|]. split; [done|lia].
Qed.

Context (Hpos : 0 < bsz) (Hblk : bsz <= CONFIG_NBD_BUFFER_LEN).

Lemma start_transfer_progressing rq x x' :
  request_ok rq -> 0 <= x_retry x <= CONFIG_MAX_RETRIES ->
  start_transfer bsz rq x = Ok x' ->
  progressing x' /\ (variant x' <= Z.to_nat (rq_count rq * (CONFIG_MAX_RETRIES + 1) + CONFIG_MAX_RETRIES))%nat.
Proof.
  unfold request_ok. intros Hrq Hrt Hst. unfold start_transfer in Hst. run.
  destruct CFGok as [Hc1 Hc2 Hc3].
  assert (0 < CONFIG_NBD_BUFFER_LEN / bsz) by (apply Z.div_str_pos; lia).
  assert (CONFIG_NBD_BUFFER_LEN / bsz <= CONFIG_NBD_BUFFER_LEN) by (apply div_le_self; lia).
  assert (rq_count rq / bsz <= rq_count rq) by (apply div_le_self; lia).
  assert (0 <= rq_count rq / bsz) by (apply Z.div_pos; lia).
  unfold progressing, variant. cbn. rewrite wrap_small by lia.
  split; [lia|]. generalize dependent (rq_count rq / bsz). intros q Hq Hq0.
  assert (q * (CONFIG_MAX_RETRIES + 1) <= rq_count rq * (CONFIG_MAX_RETRIES + 1))
    by (apply Z.mul_le_mono_nonneg_r; lia). lia.
Qed.

(** The number of turns a transfer of [count] bytes can take. *)
Definition transfer_fuel (rq : nbd_request) : nat :=
  S (Z.to_nat (rq_count rq * (CONFIG_MAX_RETRIES + 1) + CONFIG_MAX_RETRIES)).

(** C17: a READ or WRITE on a block size that fits the buffer always ends,
    within the retries allowed per run, whatever the plugin and the network
    answer. *)
Theorem transfers_terminate rq f fuel :
  request_ok rq -> x_sendflag (f_x f) = 0 ->
  0 <= x_retry (f_x f) <= CONFIG_MAX_RETRIES -> (transfer_fuel rq <= fuel)%nat ->
  cmd_read plugin_mem fuel ctx bsz rq f <> Fault OutOfFuel /\
  cmd_write plugin_mem fuel ctx bsz rq f <> Fault OutOfFuel.
Proof.
  unfold transfer_fuel. intros Hrq Hsf Hrt Hfuel.
  assert (forall h e fl (g : frame N W), send_reply ctx h e fl g <> Fault OutOfFuel) as Hsr.
  { intros. unfold send_reply. apply bind_fuel; [apply Hsend|]. by intros [? ?] _. }
  assert (start_transfer bsz rq (f_x f) <> Fault OutOfFuel) as Hst.
  { unfold start_transfer. apply bind_fuel; [|done]. unfold outcome_require. by case_decide. }
  split.
  - unfold cmd_read. apply bind_fuel.
    { destruct (out_of_range _ _); [done|]. by apply bind_fuel. }
    intros [error x] Hx. apply bind_fuel; [apply Hsr|]. intros [r f'] Hf'.
    unfold send_reply in Hf'. run. apply read_loop_fuel. cbn.
    destruct (out_of_range _ _) in Hx; run; [done|]. intros _.
    edestruct (start_transfer_progressing rq (f_x f)); [done|lia|eassumption|]. split; [done|lia].
  - unfold cmd_write. apply bind_fuel.
    { destruct (negb _); [done|]. destruct (out_of_range _ _); [done|]. by apply bind_fuel. }
    intros [error x] Hx. apply bind_fuel.
    + apply write_loop_fuel. cbn. destruct (negb _) in Hx; run; [done|].
      destruct (out_of_range _ _) in Hx; run; [done|]. intros _.
      edestruct (start_transfer_progressing rq (f_x f)); [done|lia|eassumption|]. split; [done|lia].
    + intros [error' f'] _. apply bind_fuel; [apply Hsr|]. by intros [? ?] _.
Qed.
End termination.

(** ** Refused requests *)

Section refused.
Context `{CFG : NbdConfig} {W Cfg : Type} (plugin_mem : nat -> lwnbd_plugin_t W Cfg).
Context {N : Type} `{CB : Callbacks N} (ctx : lwnbd_context_nbd_t) {T : Transport N (n_sock ctx)}.
Local Abbreviation bsz := (n_minimum_block_size ctx).
Local Abbreviation ibox := (inbox (n_sock ctx)).
Local Abbreviation obox := (outbox (n_sock ctx)).
Implicit Types (f : frame N W) (x : xfer).

(** The error a WRITE is refused with before any data is taken. *)
Definition write_refusal (rq : nbd_request) : option Z :=
  if decide (read_only ctx) then Some NBD_EPERM
  else if out_of_range ctx rq then Some NBD_ENOSPC else None.

Lemma read_only_test :
  negb (Z.land (n_eflags ctx) NBD_FLAG_READ_ONLY =? 0) = bool_decide (read_only ctx).
Proof.
  unfold read_only. destruct (Z.eqb_spec (Z.land (n_eflags ctx) NBD_FLAG_READ_ONLY) 0) as [->|];
    [by rewrite bool_decide_eq_false_2 by (intros []; done)|by rewrite bool_decide_eq_true_2].
Qed.

(** A refused WRITE is answered with its error and leaves the device alone,
    but its payload stays in the stream: the next request is read from the
    client's data. *)
Theorem write_refused fuel f rq data rest e :
  frame_ok f -> x_sendflag (f_x f) = 0 -> request_ok rq ->
  rq_magic rq = NBD_REQUEST_MAGIC -> rq_type rq = NBD_CMD_WRITE ->
  write_refusal rq = Some e -> ibox (f_net f) = wire_request rq ++ data ++ rest ->
  exists f', serve_request plugin_mem fuel ctx f = Ok (Next (ctx, f')) /\
    f_world f' = f_world f /\ ibox (f_net f') = data ++ rest /\
    obox (f_net f') = obox (f_net f) ++ wire_reply e (rq_handle rq).
Proof.
  intros Hf Hsf Hok Hmagic Hty He Hin.
  destruct (serve_request_dispatch plugin_mem ctx fuel f rq (data ++ rest) Hf Hok Hmagic Hin)
    as (net & Hi & Ho & ->).
  unfold dispatch. rewrite Hty. mred. cbn [nbd_commands_to_string NBD_CMD_WRITE NBD_CMD_READ Z.eqb Pos.eqb].
  unfold cmd_write. rewrite read_only_test.
  set (f1 := mk_frame _ _ _ _ _).
  assert ((if bool_decide (read_only ctx) then Ok (NBD_EPERM, f_x f1)
           else if out_of_range ctx rq then Ok (NBD_ENOSPC, f_x f1)
           else x ← start_transfer bsz rq (f_x f1); Ok (NBD_SUCCESS, x)) = Ok (e, f_x f1)) as ->.
  { unfold write_refusal in He. case_decide as Hro.
    - simplify_eq. by rewrite bool_decide_eq_true_2.
    - rewrite bool_decide_eq_false_2 by done. destruct (out_of_range ctx rq); by simplify_eq. }
  mred. rewrite write_loop_done by done. mred.
  destruct (send_reply_spec ctx (rq_handle rq) e 0 (set_x (f_x f1) f1)) as (net' & -> & Hi' & Ho');
    [by left|]. mred. eexists. split; [done|]. cbn. rewrite Hi', Ho'. cbn. by rewrite Ho.
Qed.

(** A request with another magic ends the phase with [-1], unanswered. *)
Theorem wrong_magic fuel f rq rest :
  frame_ok f -> request_ok rq -> rq_magic rq <> NBD_REQUEST_MAGIC ->
  ibox (f_net f) = wire_request rq ++ rest ->
  exists f', serve_request plugin_mem fuel ctx f = Ok (Return (-1) (ctx, f')) /\
    f_world f' = f_world f /\ obox (f_net f') = obox (f_net f).
Proof.
  intros [Hreq Hbuf] Hok Hmagic Hin. unfold serve_request.
  destruct (transport_recv (n_sock ctx) (f_net f) (f_request f) (Z.of_nat sizeof_nbd_request)
    (wire_request rq) rest) as (net & -> & Hi & Ho);
    [done|done|by rewrite Hreq, length_wire_request|done|]. mred.
  rewrite splice_whole by (by rewrite Hreq, length_wire_request).
  cbn [sizeof_nbd_request Z.of_nat]. rewrite decode_wire_request by done.
  rewrite (proj2 (Z.eqb_neq _ _) Hmagic). cbn. by eexists.
Qed.

(** A command type above the table of names is read outside the table
    before the [switch] can answer [NBD_EINVAL]. *)
Theorem unknown_command_out_of_bounds fuel f rq rest :
  frame_ok f -> request_ok rq -> rq_magic rq = NBD_REQUEST_MAGIC -> 8 <= rq_type rq ->
  ibox (f_net f) = wire_request rq ++ rest ->
  serve_request plugin_mem fuel ctx f = Fault OutOfBounds.
Proof.
  intros Hf Hok Hmagic Hty Hin.
  destruct (serve_request_dispatch plugin_mem ctx fuel f rq rest Hf Hok Hmagic Hin)
    as (net & Hi & Ho & ->).
  unfold dispatch, nbd_commands_to_string.
  by rewrite lookup_ge_None_2 by (cbn; lia).
Qed.

(** The range check adds two 64-bit values: an offset far beyond the export
    passes it when the sum wraps around. *)
Theorem range_check_wraps rq :
  request_ok rq -> 0 <= c_exportsize (n_base ctx) < 2 ^ 63 ->
  2 ^ 64 <= rq_offset rq + rq_count rq ->
  rq_offset rq + rq_count rq - 2 ^ 64 <= c_exportsize (n_base ctx) ->
  c_exportsize (n_base ctx) < rq_offset rq /\ out_of_range ctx rq = false.
Proof.
  unfold request_ok. intros Hok Hsz Hov Hle. split; [lia|].
  unfold out_of_range. rewrite (wrap_small 64 (c_exportsize _)) by lia. unfold wrap.
  replace ((rq_offset rq + rq_count rq) mod 2 ^ 64) with (rq_offset rq + rq_count rq - 2 ^ 64).
  - apply Z.ltb_ge. lia.
  - apply Zmod_unique with 1; lia.
Qed.

(** ** Failing devices *)

Context (a : nat) (Hplugin : c_p (n_base ctx) = Some a).

(** A device whose [pread] always fails; [calls] counts the attempts. *)
Definition always_fails (calls : W -> nat) : Prop :=
  exists pread, pl_pread (plugin_mem a) = Some pread /\
    forall h c o fl w, exists r w', pread h c o fl w = Ok (r, [], w') /\ r <> 0 /\
      calls w' = S (calls w).

Lemma read_loop_fails calls k fuel f :
  always_fails calls -> x_retry (f_x f) = Z.of_nat k -> x_sendflag (f_x f) <> 0 ->
  (k < fuel)%nat ->
  exists f', read_loop plugin_mem fuel ctx bsz f = Ok (Some (-1), f') /\
    calls (f_world f') = (calls (f_world f) + S k)%nat /\ f_net f' = f_net f.
Proof.
  intros (pread & Hp & Hfail). revert fuel f.
  induction k as [|k IH]; intros fuel f Hrt Hsf Hfuel; (destruct fuel as [|fuel]; [lia|]);
    cbn [read_loop]; rewrite (proj2 (Z.eqb_neq _ _) Hsf); unfold read_step, lwnbd_pread, method;
    rewrite Hplugin; mred; rewrite Hp; mred;
    (destruct (clip_fields ctx (f_x f)) as (Hcr & _)).
  - destruct (Hfail (c_handle (n_base ctx)) (x_bufblksz (clip bsz (f_x f)))
      (x_offset (clip bsz (f_x f))) 0 (f_world f)) as (r & w' & -> & Hr & Hc).
    mred. rewrite store_at_fits by (cbn; lia). mred.
    rewrite (proj2 (Z.eqb_neq _ _) Hr), Hcr, Hrt. cbn. eexists. split; [done|]. cbn. split; [lia|done].
  - destruct (Hfail (c_handle (n_base ctx)) (x_bufblksz (clip bsz (f_x f)))
      (x_offset (clip bsz (f_x f))) 0 (f_world f)) as (r & w' & -> & Hr & Hc).
    mred. rewrite store_at_fits by (cbn; lia). mred.
    rewrite (proj2 (Z.eqb_neq _ _) Hr), Hcr, Hrt. rewrite (proj2 (Z.eqb_neq _ _)) by lia. cbn [negb]. mred.
    edestruct (IH fuel) as (f' & -> & Hc' & Hn'); cycle 3.
    + exists f'. split; [done|]. cbn in Hc', Hn'. split; [lia|done].
    + cbn. lia.
    + done.
    + lia.
Qed.

(** On a device whose reads keep failing, an accepted READ sends its
    success header, tries [CONFIG_MAX_RETRIES + 1] times and drops the
    connection. *)
Theorem read_gives_up `{!NbdConfigOk} calls fuel f rq :
  always_fails calls -> bsz <> 0 -> x_retry (f_x f) = CONFIG_MAX_RETRIES ->
  out_of_range ctx rq = false -> (Z.to_nat CONFIG_MAX_RETRIES < fuel)%nat ->
  exists f', cmd_read plugin_mem fuel ctx bsz rq f = Ok (Some (-1), f') /\
    calls (f_world f') = (calls (f_world f) + S (Z.to_nat CONFIG_MAX_RETRIES))%nat /\
    obox (f_net f') = obox (f_net f) ++ wire_reply NBD_SUCCESS (rq_handle rq).
Proof.
  intros Hfail Hb Hrt Hr Hfuel. unfold cmd_read. rewrite Hr. unfold start_transfer.
  rewrite require_true by done. mred. pose proof cfg_retries.
  set (x := mk_xfer _ _ _ _ _ _).
  destruct (send_reply_spec ctx (rq_handle rq) NBD_SUCCESS (x_sendflag x) (set_x x f))
    as (net & -> & Hi & Ho); [by right|]. mred.
  destruct (read_loop_fails calls (Z.to_nat CONFIG_MAX_RETRIES) fuel (set_net net (set_x x f)))
    as (f' & -> & Hc & Hn); [done|cbn; lia|done|done|].
  exists f'. by rewrite Hn, Hc.
Qed.

(** A device whose [pread] answers success and stores nothing. *)
Definition silent (pread : handle_ptr -> Z -> Z -> Z -> W -> outcome (Z * list byte * W)) : Prop :=
  pl_pread (plugin_mem a) = Some pread /\
  forall h c o fl w, exists w', pread h c o fl w = Ok (0, [], w').

(** The only run of a small transfer. *)
Lemma clip_single k :
  0 < bsz -> 0 < k -> k * bsz <= CONFIG_NBD_BUFFER_LEN -> CONFIG_NBD_BUFFER_LEN < 2 ^ 16 ->
  forall rt off, let b := u32 (CONFIG_NBD_BUFFER_LEN / bsz) in
  clip bsz (mk_xfer rt MSG_MORE k (u32 (b * bsz)) b off) = mk_xfer rt 0 k (k * bsz) k off.
Proof.
  intros Hb Hk Hle Hlt rt off b. pose proof (div_mul_le CONFIG_NBD_BUFFER_LEN bsz Hb).
  assert (k <= CONFIG_NBD_BUFFER_LEN / bsz) by (apply Z.div_le_lower_bound; lia).
  assert (b = CONFIG_NBD_BUFFER_LEN / bsz) as Eb by (apply wrap_small; nia).
  unfold clip, set_sendflag. cbn. case (Z.ltb_spec k b) as [Hlt'|Hge]; cbn.
  - rewrite Z.leb_refl, wrap_small by nia. done.
  - assert (b = k) as -> by lia. by rewrite Z.leb_refl, wrap_small by nia.
Qed.

(** C40: reading an export whose plugin stores nothing into the buffer, as the
    write-only ones do, is answered with success and with what the connection's
    buffer held before: the payload of an earlier command, or the stack. *)
Theorem silent_read_sends_stale_buffer `{!NbdConfigOk} pread k fuel f rq :
  silent pread -> 0 < bsz -> 0 < k -> rq_count rq = k * bsz -> rq_count rq <= CONFIG_NBD_BUFFER_LEN ->
  Z.of_nat (length (f_buffer f)) = MAX_REQUEST_SIZE ->
  out_of_range ctx rq = false -> (0 < fuel)%nat ->
  exists f', cmd_read plugin_mem fuel ctx bsz rq f = Ok (None, f') /\
    f_buffer f' = f_buffer f /\
    obox (f_net f') = obox (f_net f) ++ wire_reply NBD_SUCCESS (rq_handle rq)
                        ++ take (Z.to_nat (rq_count rq)) (f_buffer f).
Proof.
  intros [Hp Hsil] Hb Hk Hcnt Hle Hbuf Hr Hfuel. pose proof cfg_buffer as [Hb0 Hb1]. pose proof cfg_request.
  unfold cmd_read. rewrite Hr. unfold start_transfer. rewrite require_true by lia. mred.
  assert (0 < k * bsz) by nia. rewrite Hcnt, Z.div_mul by lia. set (x := mk_xfer _ _ _ _ _ _).
  destruct (send_reply_spec ctx (rq_handle rq) NBD_SUCCESS (x_sendflag x) (set_x x f))
    as (net & -> & Hi & Ho); [by right|]. mred.
  destruct fuel as [|fuel]; [lia|]. cbn [read_loop]. change (x_sendflag _ =? 0) with false. cbn iota.
  unfold read_step. cbn [f_x set_net set_x]. unfold x. rewrite clip_single by lia.
  unfold lwnbd_pread, method. rewrite Hplugin. mred. rewrite Hp. mred. cbn [f_world f_buffer f_net set_net set_x].
  edestruct Hsil as [w' ->]. mred. rewrite store_at_fits by (cbn; lia). mred. rewrite splice_nil.
  cbn [Z.eqb x_byteread x_sendflag]. rewrite load_at_fits by lia. mred.
  destruct (tr_send net (slice 0 (Z.to_nat (k * bsz)) (f_buffer f)) 0) as (net' & -> & Hi' & Ho'); [by left|].
  mred. rewrite length_slice, wrap_small, Z2Nat.id, Z.eqb_refl by lia. cbn [negb]. mred.
  assert (forall g, x_sendflag (f_x g) = 0 -> read_loop plugin_mem fuel ctx bsz g = Ok (None, g)) as Hend.
  { intros g Hg. destruct fuel; cbn [read_loop]; by rewrite Hg. }
  rewrite Hend by done. eexists. split; [done|]. split; [done|].
  cbn [f_net]. rewrite Ho', Ho. cbn [f_net set_x]. by rewrite <- app_assoc.
Qed.

(** [send]'s urgent-data flag. *)
Definition MSG_OOB := 1.

(** After a failed read that is not the last run of its transfer, the block
    is sent again with the flags of [sendflag = 1]: as urgent data, not with
    [MSG_MORE]. *)
Theorem retry_sends_urgent f pread r w' :
  pl_pread (plugin_mem a) = Some pread ->
  x_bufblksz (f_x f) < x_blkremains (f_x f) -> x_retry (f_x f) <> 0 ->
  pread (c_handle (n_base ctx)) (x_bufblksz (f_x f)) (x_offset (f_x f)) 0 (f_world f)
    = Ok (r, [], w') -> r <> 0 ->
  exists f', read_step plugin_mem ctx bsz f = Ok (Next f') /\
    x_sendflag (clip bsz (f_x f')) = MSG_OOB /\
    x_offset (f_x f') = x_offset (f_x f) /\ x_blkremains (f_x f') = x_blkremains (f_x f).
Proof.
  intros Hp Hlt Hrt Hrd Hr. destruct f as [[rt sf rem br bb off] m b net w]. cbn in *.
  assert (clip bsz (mk_xfer rt sf rem br bb off) = mk_xfer rt sf rem br bb off) as Hclip.
  { unfold clip. cbn. rewrite (proj2 (Z.ltb_ge _ _)) by lia. cbn.
    by rewrite (proj2 (Z.leb_gt _ _)) by lia. }
  unfold read_step, lwnbd_pread, method. rewrite Hplugin. mred. rewrite Hp. mred.
  cbn [f_x f_world f_buffer]. rewrite Hclip. cbn. rewrite Hrd. mred.
  rewrite store_at_fits by (cbn; lia). mred.
  rewrite (proj2 (Z.eqb_neq _ _) Hr), (proj2 (Z.eqb_neq _ _) Hrt). cbn [negb].
  eexists. split; [done|]. cbn. unfold clip. cbn.
  rewrite (proj2 (Z.ltb_ge _ _)) by lia. cbn. by rewrite (proj2 (Z.leb_gt _ _)) by lia.
Qed.
End refused.

(** ** Blocks larger than the buffer *)

Section oversized.
Context `{CFG : NbdConfig} {CFGok : NbdConfigOk}.
Context {W Cfg : Type} (plugin_mem : nat -> lwnbd_plugin_t W Cfg).
Context {N : Type} `{CB : Callbacks N} (ctx : lwnbd_context_nbd_t) {T : Transport N (n_sock ctx)}.
Context (a : nat) (inv : W -> Prop) (content : W -> list byte).
Context (Hplugin : c_p (n_base ctx) = Some a).
Local Abbreviation bsz := (n_minimum_block_size ctx).
Context {RS : ReadStore (plugin_mem a) (c_handle (n_base ctx)) bsz inv content}.
Implicit Types (f : frame N W) (x : xfer).

(** An empty run with blocks left: nothing ever changes. *)
Definition stuck (size : Z) x : Prop :=
  x_sendflag x = MSG_MORE /\ x_bufblksz x = 0 /\ x_byteread x = 0 /\
  0 < x_blkremains x < 2 ^ 32 /\ 0 <= x_offset x < 2 ^ 64 /\ x_offset x * bsz <= size.

Lemma read_step_stuck f :
  inv (f_world f) -> stuck (Z.of_nat (length (content (f_world f)))) (f_x f) ->
  exists f', read_step plugin_mem ctx bsz f = Ok (Next f') /\ inv (f_world f') /\
    content (f_world f') = content (f_world f) /\
    stuck (Z.of_nat (length (content (f_world f')))) (f_x f').
Proof.
  destruct f as [[rt sf rem br bb off] m b net w]. unfold stuck. cbn.
  intros Hinv (-> & -> & -> & Hrem & Hoff & Hsz).
  assert (clip bsz (mk_xfer rt MSG_MORE rem 0 0 off) = mk_xfer rt MSG_MORE rem 0 0 off) as Hclip.
  { unfold clip. cbn. rewrite (proj2 (Z.ltb_ge _ _)) by lia. cbn.
    by rewrite (proj2 (Z.leb_gt _ _)) by lia. }
  unfold read_step. cbn [f_x f_world f_buffer f_net f_request]. rewrite Hclip.
  cbn [x_bufblksz x_offset x_byteread x_sendflag].
  destruct (lwnbd_pread_spec plugin_mem (n_base ctx) a bsz inv content Hplugin w 0 off)
    as (w' & -> & Hinv' & Hc); [done|lia|lia|by rewrite Z.add_0_r|]. mred.
  change (Z.to_nat (0 * bsz)) with O. rewrite slice_0. rewrite store_at_fits by (cbn; lia). mred.
  rewrite splice_nil. cbn [Z.eqb]. rewrite load_at_fits by (cbn; lia). mred.
  change (Z.to_nat 0) with O. rewrite slice_0.
  destruct (tr_send net [] MSG_MORE) as (net' & -> & Hi & Ho); [by right|]. mred.
  cbn [length Z.of_nat]. change (negb (u32 0 =? 0)) with false. cbn iota.
  eexists. split; [done|]. unfold advance. cbn. rewrite Hc, Z.sub_0_r, Z.add_0_r, !wrap_small by lia.
  split_and!; done || lia.
Qed.

(** With blocks larger than the transfer buffer, the READ loop sends
    nothing and never ends. *)
Theorem oversized_block_read_diverges fuel f rq :
  CONFIG_NBD_BUFFER_LEN < bsz < 2 ^ 32 -> inv (f_world f) ->
  Z.of_nat (length (content (f_world f))) = c_exportsize (n_base ctx) ->
  c_exportsize (n_base ctx) < 2 ^ 63 ->
  request_ok rq -> in_range ctx rq -> bsz <= rq_count rq ->
  cmd_read plugin_mem fuel ctx bsz rq f = Fault OutOfFuel.
Proof.
  unfold request_ok. intros Hbig Hinv Hsz H63 Hrq Hr Hcnt. pose proof cfg_buffer as [Hbuf _].
  unfold cmd_read. rewrite out_of_range_false by (done || lia). unfold start_transfer.
  rewrite require_true by lia. mred. rewrite (Z.div_small CONFIG_NBD_BUFFER_LEN) by lia.
  set (x := mk_xfer _ _ _ _ _ _).
  destruct (send_reply_spec ctx (rq_handle rq) NBD_SUCCESS (x_sendflag x) (set_x x f))
    as (net & -> & Hi & Ho); [by right|]. mred.
  assert (stuck (Z.of_nat (length (content (f_world f)))) x) as Hstuck.
  { unfold stuck, x. cbn. pose proof (div_mul_le (rq_offset rq) bsz ltac:(lia)).
    pose proof (div_le_self (rq_count rq) bsz ltac:(lia) ltac:(lia)).
    pose proof (div_le_self (rq_offset rq) bsz ltac:(lia) ltac:(lia)).
    assert (0 < rq_count rq / bsz) by (apply Z.div_str_pos; lia).
    assert (0 <= rq_offset rq / bsz) by (apply Z.div_pos; lia).
    unfold in_range in Hr. split_and!; try done; lia. }
  set (g := set_net net (set_x x f)).
  assert (stuck (Z.of_nat (length (content (f_world g)))) (f_x g)) as Hg by done.
  assert (inv (f_world g)) as Hginv by done. clearbody g. clear - Hg Hginv Hplugin T RS.
  revert g Hg Hginv. induction fuel as [|fuel IH]; intros g Hg Hginv; cbn [read_loop];
    (destruct Hg as [Hs Hg]; rewrite Hs; cbn [Z.eqb MSG_MORE]); [done|].
  destruct (read_step_stuck g Hginv (conj Hs Hg)) as (g' & -> & Hinv' & _ & Hst). mred.
  by apply IH.
Qed.
End oversized.
