(* ===== verification/TransmissionBlocks.v ===== *)
(** * Requests that are not made of whole blocks

    NBD counts in bytes, a plugin in blocks, and [servers/nbd/protocol.c] divides
    without looking at the remainder.  A request may begin inside a block or end
    inside one (the server announces no block size): what is served then are
    the whole blocks, from the block its offset lies in.  A READ sends less than
    it was asked for.  A WRITE leaves the end of its payload in the stream,
    where the next request is expected: data of the client become commands. *)

From S2P Require Export TransmissionErrors.

Section unaligned.
Context `{CFG : NbdConfig} {CFGok : NbdConfigOk}.
Context {W Cfg : Type} (plugin_mem : nat -> lwnbd_plugin_t W Cfg).
Context {N : Type} `{CB : Callbacks N}.
Context (ctx : lwnbd_context_nbd_t) (a : nat) (inv : W -> Prop) (content : W -> list byte).
Context {T : Transport N (n_sock ctx)}.
Context (Hplugin : c_p (n_base ctx) = Some a).

Local Abbreviation bsz := (n_minimum_block_size ctx).
Local Abbreviation ibox := (inbox (n_sock ctx)).
Local Abbreviation obox := (outbox (n_sock ctx)).
Implicit Types (f : frame N W).

(** ** Less than a block written

    Whatever the plugin. *)

(** The first and only run of a transfer without blocks. *)
Lemma clip_empty rt br bb off :
  0 <= bb -> clip bsz (mk_xfer rt MSG_MORE 0 br bb off) =
    mk_xfer rt 0 0 (if 0 <? bb then 0 else br) 0 off.
Proof.
  intros Hb. unfold clip, set_sendflag. cbn. case (Z.ltb_spec 0 bb) as [H|H]; cbn; [done|].
  assert (bb = 0) as -> by lia. done.
Qed.

(** The end of a WRITE: the loop has cleared [sendflag]. *)
Lemma write_finish lfuel e h f :
  x_sendflag (f_x f) = 0 -> frame_ok f ->
  exists f', ('(error, f) ← write_loop plugin_mem lfuel ctx bsz e f;
              '(_, f) ← send_reply ctx h error 0 f; Ok f) = Ok f' /\
    f_world f' = f_world f /\ frame_ok f' /\ x_sendflag (f_x f') = 0 /\
    ibox (f_net f') = ibox (f_net f) /\ obox (f_net f') = obox (f_net f) ++ wire_reply e h.
Proof.
  intros Hs Hf. rewrite write_loop_done by done. mred.
  destruct (send_reply_spec ctx h e 0 f) as (net & -> & Hi & Ho); [by left|]. mred. by eexists.
Qed.

Lemma below_block_size pwrite lfuel f rq data rest r w' :
  pl_pwrite (plugin_mem a) = Some pwrite -> 0 < bsz <= CONFIG_NBD_BUFFER_LEN ->
  frame_ok f -> request_ok rq -> rq_magic rq = NBD_REQUEST_MAGIC -> rq_type rq = NBD_CMD_WRITE ->
  write_refusal ctx rq = None -> rq_count rq < bsz -> (0 < lfuel)%nat ->
  ibox (f_net f) = wire_request rq ++ data ++ rest ->
  pwrite (c_handle (n_base ctx)) (f_buffer f) 0 (rq_offset rq / bsz) 0 (f_world f) = Ok (r, w') ->
  exists f', serve_request plugin_mem lfuel ctx f = Ok (Next (ctx, f')) /\
    f_world f' = w' /\ frame_ok f' /\ x_sendflag (f_x f') = 0 /\
    ibox (f_net f') = data ++ rest /\
    obox (f_net f') = obox (f_net f)
      ++ wire_reply (if r =? 0 then NBD_SUCCESS else NBD_EIO) (rq_handle rq).
Proof.
  intros Hpw [Hb Hle] Hf Hok Hmagic Hty Href Hcnt Hfuel Hin Hcall.
  destruct (serve_request_dispatch plugin_mem ctx lfuel f rq (data ++ rest) Hf Hok Hmagic Hin)
    as (net & Hi & Ho & ->).
  unfold dispatch. rewrite Hty. mred. cbn [nbd_commands_to_string NBD_CMD_WRITE NBD_CMD_READ Z.eqb Pos.eqb].
  set (f1 := mk_frame _ _ _ _ _). unfold request_ok in Hok.
  unfold write_refusal in Href. case_decide as Hro; [done|].
  unfold cmd_write. rewrite read_only_test, bool_decide_eq_false_2 by done.
  destruct (out_of_range ctx rq); [done|]. unfold start_transfer. rewrite require_true by lia. mred.
  assert (rq_count rq / bsz = 0) as -> by (apply Z.div_small; lia).
  assert (0 < CONFIG_NBD_BUFFER_LEN / bsz) as Hq by (apply Z.div_str_pos; lia).
  destruct CFGok as [[Hc1 Hc1'] Hc2 Hc3].
  assert (CONFIG_NBD_BUFFER_LEN / bsz <= CONFIG_NBD_BUFFER_LEN) as Hq' by (apply div_le_self; lia).
  rewrite (wrap_small 32 (CONFIG_NBD_BUFFER_LEN / bsz)) by lia.
  destruct lfuel as [|lfuel]; [lia|]. cbn [write_loop]. cbn [f_x set_x x_sendflag MSG_MORE Z.eqb].
  unfold write_step. cbn [f_x set_x]. rewrite clip_empty, (proj2 (Z.ltb_lt _ _)) by lia.
  cbn [x_byteread x_bufblksz x_offset f_net f_buffer f_world set_x f1].
  destruct (transport_recv (n_sock ctx) net (f_buffer f) 0 [] (data ++ rest)) as (net1 & -> & Hi1 & Ho1);
    [done|done|cbn; lia|done|]. mred. rewrite splice_nil.
  change (u32 0 =? 0) with true. cbn iota. cbn [f_request f_x set_x f1].
  unfold lwnbd_pwrite, method. rewrite Hplugin. mred. rewrite Hpw. mred. rewrite Hcall. mred.
  destruct Hf as [Hf1 Hf2].
  edestruct (write_finish lfuel (if r =? 0 then NBD_SUCCESS else NBD_EIO) (rq_handle rq)
    (mk_frame (advance (mk_xfer (x_retry (f_x f)) 0 0 0 0 (rq_offset rq / bsz))) (request_to_mem rq)
       (f_buffer f) net1 w')) as (f' & Hrun & Hw & Hf' & Hs & Hi' & Ho'); [done| |].
  { split; [apply length_request_to_mem|done]. }
  exists f'. split_and!; [|done..|by rewrite Hi'|by rewrite Ho'; cbn; rewrite Ho1, Ho].
  destruct (r =? 0); cbn [negb] in Hrun |- *; mred; unfold set_sendflag; cbn [x_retry x_sendflag
    x_blkremains x_byteread x_bufblksz x_offset];
    by rewrite Hrun.
Qed.

(** A WRITE of less than a block that is not refused calls the plugin to write
    no block, with whatever the connection's buffer holds, and reports its
    answer; the payload, to the last byte, is still in the stream. *)
Theorem write_below_block_size pwrite lfuel f rq data rest r w' :
  pl_pwrite (plugin_mem a) = Some pwrite -> 0 < bsz <= CONFIG_NBD_BUFFER_LEN ->
  frame_ok f -> request_ok rq -> rq_magic rq = NBD_REQUEST_MAGIC -> rq_type rq = NBD_CMD_WRITE ->
  write_refusal ctx rq = None -> rq_count rq < bsz -> (0 < lfuel)%nat ->
  ibox (f_net f) = wire_request rq ++ data ++ rest ->
  pwrite (c_handle (n_base ctx)) (f_buffer f) 0 (rq_offset rq / bsz) 0 (f_world f) = Ok (r, w') ->
  exists f', serve_request plugin_mem lfuel ctx f = Ok (Next (ctx, f')) /\
    f_world f' = w' /\ frame_ok f' /\ x_sendflag (f_x f') = 0 /\
    ibox (f_net f') = data ++ rest /\
    obox (f_net f') = obox (f_net f)
      ++ wire_reply (if r =? 0 then NBD_SUCCESS else NBD_EIO) (rq_handle rq).
Proof. apply below_block_size. Qed.

(** ** Blocks of a request *)

Context {RS : ReadStore (plugin_mem a) (c_handle (n_base ctx)) bsz inv content}.
Context (WS : ~ read_only ctx -> WriteStore (plugin_mem a) (c_handle (n_base ctx)) bsz inv content).
Context (FS : flushable ctx -> FlushStore (plugin_mem a) (c_handle (n_base ctx)) inv content).
Context (Hblock : bsz <= CONFIG_NBD_BUFFER_LEN).

(** The multiple of the block size at or below [z]. *)
Definition whole (z : Z) : Z := z - z mod bsz.

Lemma whole_div z : whole z = z / bsz * bsz.
Proof. unfold whole. pose proof rs_bsz. rewrite (Z.mul_comm _ bsz). pose proof (Z.div_mod z bsz). lia. Qed.

Lemma whole_range z : 0 <= z -> 0 <= whole z <= z.
Proof. intros Hz. unfold whole. pose proof rs_bsz. pose proof (Z.mod_pos_bound z bsz). pose proof (Z.mod_le z bsz). lia. Qed.

Lemma idle_received f rq (net : N) :
  idle ctx inv content f ->
  idle ctx inv content (mk_frame (f_x f) (request_to_mem rq) (f_buffer f) net (f_world f) : frame N W).
Proof. intros ([_ Hb] & Hsf & Hdev). split; [|done]. split; cbn; [apply length_request_to_mem|done]. Qed.

(** C34: a READ inside the export is answered with success and with the whole blocks
    of its range: the data begin at the block its offset lies in, and are
    shorter than what was asked for by the remainder of its length. *)
Theorem unaligned_read_sends_less lfuel f rq rest :
  idle ctx inv content f -> request_ok rq -> rq_magic rq = NBD_REQUEST_MAGIC ->
  rq_type rq = NBD_CMD_READ -> in_range ctx rq -> rq_count rq / bsz < Z.of_nat lfuel ->
  ibox (f_net f) = wire_request rq ++ rest ->
  exists f' data, serve_request plugin_mem lfuel ctx f = Ok (Next (ctx, f')) /\
    idle ctx inv content f' /\ content (f_world f') = content (f_world f) /\
    ibox (f_net f') = rest /\
    obox (f_net f') = obox (f_net f) ++ wire_reply NBD_SUCCESS (rq_handle rq) ++ data /\
    data = slice (Z.to_nat (whole (rq_offset rq))) (Z.to_nat (whole (rq_count rq))) (content (f_world f)) /\
    Z.of_nat (length data) = rq_count rq - rq_count rq mod bsz.
Proof.
  intros Hid Hok Hmagic Hty Hr Hfuel Hin.
  destruct (serve_request_dispatch plugin_mem ctx lfuel f rq rest (proj1 Hid) Hok Hmagic Hin)
    as (net & Hi & Ho & ->).
  unfold dispatch. rewrite Hty. mred. cbn [nbd_commands_to_string NBD_CMD_READ Z.eqb]. mred.
  pose proof (idle_received f rq net Hid) as Hid1. set (f1 := mk_frame _ _ _ _ _) in *.
  destruct (cmd_read_spec plugin_mem ctx a inv content Hplugin Hblock lfuel f1 rq Hid1 Hok Hr Hfuel)
    as (f' & -> & Hid' & Hc & Hi' & Ho'). mred.
  destruct Hid as (_ & _ & _ & Hsz & _). unfold request_ok in Hok. unfold in_range in Hr.
  pose proof (whole_range (rq_offset rq) ltac:(lia)). pose proof (whole_range (rq_count rq) ltac:(lia)).
  eexists f', _. split_and!; [done..|by rewrite Hi'|by rewrite Ho'; cbn; rewrite Ho| |].
  - unfold blocks. cbn. by rewrite !whole_div.
  - unfold blocks. cbn. rewrite <- !whole_div, length_slice by lia. unfold whole in *. lia.
Qed.

(** C33: a WRITE whose payload is the whole blocks it touches followed by the bytes
    of another command is one write to its client and two commands to the
    server: the blocks are stored from the block its offset lies in, the WRITE
    is answered with success, and the rest of the payload is carried out. *)
Theorem unaligned_write_smuggles lfuel f rq d c rest :
  ~ read_only ctx -> idle ctx inv content f -> request_ok rq ->
  rq_magic rq = NBD_REQUEST_MAGIC -> rq_type rq = NBD_CMD_WRITE -> in_range ctx rq ->
  bsz <= rq_count rq -> c_exportsize (n_base ctx) / bsz < Z.of_nat lfuel ->
  Z.of_nat (length d) = rq_count rq - rq_count rq mod bsz ->
  Z.of_nat (length (client_bytes c)) = rq_count rq mod bsz -> conforming ctx c ->
  ibox (f_net f) = wire_request rq ++ (d ++ client_bytes c) ++ rest ->
  let l := splice (Z.to_nat (whole (rq_offset rq))) d (content (f_world f)) in
  exists f1 f2,
    serve_request plugin_mem lfuel ctx f = Ok (Next (ctx, f1)) /\
    content (f_world f1) = l /\
    obox (f_net f1) = obox (f_net f) ++ wire_reply NBD_SUCCESS (rq_handle rq) /\
    serve_request plugin_mem lfuel ctx f1 = Ok (Next (ctx, f2)) /\
    idle ctx inv content f2 /\ ibox (f_net f2) = rest /\
    content (f_world f2) = (command_spec c l).2 /\
    obox (f_net f2) = obox (f_net f1) ++ (command_spec c l).1.
Proof.
  intros Hro Hid Hok Hmagic Hty Hr Hcnt Hfuel Hd Hcb Hconf Hin l. pose proof rs_bsz as Hb.
  rewrite <- app_assoc in Hin.
  destruct (serve_request_dispatch plugin_mem ctx lfuel f rq (d ++ client_bytes c ++ rest)
    (proj1 Hid) Hok Hmagic Hin) as (net & Hi & Ho & Hrun).
  pose proof (idle_received f rq net Hid) as Hid1. set (g := mk_frame _ _ _ _ _) in *.
  unfold request_ok in Hok. unfold in_range in Hr.
  destruct (cmd_write_spec plugin_mem ctx a inv content Hplugin WS Hblock lfuel g rq d (client_bytes c ++ rest)
    Hro Hid1 Hok Hr) as (f1 & Hw & Hidf1 & Hc1 & Hi1 & Ho1); [|done| |].
  { split; [apply Z.div_str_pos; lia|]. eapply Z.le_lt_trans; [|exact Hfuel]. apply Z.div_le_mono; lia. }
  { rewrite <- whole_div. unfold whole. lia. }
  pose proof (serve_command plugin_mem ctx a inv content Hplugin WS FS Hblock lfuel f1 c rest Hidf1 Hconf
    Hfuel Hi1) as Hstep.
  assert (content (f_world f1) = l) as Hl.
  { rewrite Hc1. unfold write_blocks, l. cbn. by rewrite <- whole_div. }
  rewrite Hl in Hstep. destruct (command_spec c l) as [reply l2].
  destruct Hstep as (f2 & Hrun2 & Hid2 & Hi2 & Ho2 & Hc2). exists f1, f2.
  split; [|split_and!; [done|by rewrite Ho1; cbn; rewrite Ho|done..]].
  rewrite Hrun. unfold dispatch. rewrite Hty. mred.
  cbn [nbd_commands_to_string NBD_CMD_READ NBD_CMD_WRITE Z.eqb Pos.eqb]. mred. by rewrite Hw.
Qed.
End unaligned.
