(* ===== verification/TransmissionSafety.v ===== *)
(** * The transmission phase against any client

    [TransmissionSpec] follows a client that keeps to the protocol; here the
    bytes that arrive are arbitrary, receives and sends may fail, and requests
    may be cut short.  With a plugin whose callbacks have no undefined behaviour
    inside the device, the only ways to undefined behaviour are the command
    types above the table of names and the ranges that wrap around.  The second
    part is a refusal that this carelessness about failed sends undoes. *)

From S2P Require Export TransmissionSpec.
From stdpp Require Import relations.
#[local] Open Scope Z_scope.

Section safety.
Context `{CFG : NbdConfig} {CFGok : NbdConfigOk}.
Context {W Cfg : Type} (plugin_mem : nat -> lwnbd_plugin_t W Cfg).
Context {N : Type} `{CB : Callbacks N}.
Context (ctx : lwnbd_context_nbd_t) (inv : W -> Prop).
Implicit Types (f : frame N W) (x : xfer).

Local Abbreviation bsz := (n_minimum_block_size ctx).
Local Abbreviation size := (c_exportsize (n_base ctx)).

Context (Hbsz : 0 < bsz <= CONFIG_NBD_BUFFER_LEN) (Hsize : 0 <= size < 2 ^ 63).

Context (Hnet : answers (n_sock ctx)).

(** The plugin: any answer inside the device, and no more data than asked. *)
Context (Hpread : forall cnt off w, inv w -> 0 <= cnt < 2 ^ 16 -> 0 <= off -> (off + cnt) * bsz <= size ->
  completes (fun '(_, d, w') => inv w' /\ Z.of_nat (length d) <= cnt * bsz)
    (lwnbd_pread plugin_mem (n_base ctx) cnt off 0 w)).
Context (Hpwrite : forall buf cnt off w, inv w -> 0 <= cnt < 2 ^ 16 -> 0 <= off ->
  (off + cnt) * bsz <= size -> cnt * bsz <= Z.of_nat (length buf) ->
  completes (fun '(_, w') => inv w') (lwnbd_pwrite plugin_mem (n_base ctx) buf cnt off 0 w)).
Context (Hflush : forall w, inv w ->
  completes (fun '(_, w') => inv w') (lwnbd_flush plugin_mem (n_base ctx) 0 w)).

(** A transfer inside the device whose runs fit the buffer. *)
Definition xfer_safe x : Prop :=
  0 <= x_blkremains x < 2 ^ 32 /\ 0 <= x_offset x /\ (x_offset x + x_blkremains x) * bsz <= size /\
  0 <= x_bufblksz x < 2 ^ 16 /\ x_byteread x = x_bufblksz x * bsz /\
  x_byteread x <= CONFIG_NBD_BUFFER_LEN.

(** Between and within requests: the locals either describe such a transfer or
    will not be used. *)
Definition safe f : Prop :=
  frame_ok f /\ inv (f_world f) /\ (x_sendflag (f_x f) = 0 \/ xfer_safe (f_x f)).

Lemma clip_safe x :
  xfer_safe x -> xfer_safe (clip bsz x) /\ x_bufblksz (clip bsz x) <= x_blkremains (clip bsz x).
Proof.
  destruct CFGok, x as [rt sf rem br bb off]. unfold xfer_safe, clip, set_sendflag. cbn.
  intros (Hrem & Hoff & Hsz & Hbb & Hbr & Hlen).
  case (Z.ltb_spec rem bb) as [H|H]; cbn; [|case (Z.leb_spec rem bb) as [H'|H']; cbn; lia].
  rewrite Z.leb_refl. cbn. rewrite wrap_small by nia. split; [|lia]. split_and!; nia.
Qed.

Lemma advance_safe x :
  xfer_safe x -> x_bufblksz x <= x_blkremains x -> xfer_safe (advance x).
Proof.
  destruct x as [rt sf rem br bb off]. unfold xfer_safe, advance. cbn.
  intros (Hrem & Hoff & Hsz & Hbb & Hbr & Hlen) Hle.
  assert (off + rem <= size) by nia. rewrite !wrap_small by lia. split_and!; lia.
Qed.

Lemma xfer_in_device x :
  xfer_safe x -> x_bufblksz x <= x_blkremains x -> (x_offset x + x_bufblksz x) * bsz <= size.
Proof. unfold xfer_safe. intros. nia. Qed.

(** What a piece of a loop body leaves, however it ends. *)
Definition safe_ctl (c : ctl (frame N W)) : Prop :=
  match c with Next f | Break f | Return _ f => safe f end.

Lemma read_step_safe f :
  safe f -> xfer_safe (f_x f) -> completes safe_ctl (read_step plugin_mem ctx bsz f).
Proof.
  intros ([Hreq Hbuf] & Hinv & _) Hx. destruct CFGok as [Hc1 Hc2 Hc3].
  destruct (clip_safe _ Hx) as [Hx' Hle]. pose proof (xfer_in_device _ Hx' Hle).
  unfold read_step. set (x := clip bsz (f_x f)) in *. clearbody x.
  pose proof (advance_safe _ Hx' Hle) as Hadv. pose proof Hx' as (Hrem & Hoff & Hsz & Hbb & Hbr & Hlen).
  eapply completes_bind; [by apply Hpread|]. intros [[r d] w] [Hw Hd]. cbn beta in *.
  rewrite store_at_fits by lia. mred. destruct (r =? 0).
  - rewrite load_at_fits by (rewrite length_splice; lia). mred.
    eapply completes_bind; [apply (an_send _ Hnet)|]. intros [r' net] _. destruct (negb _); cbn;
      (split; [|split; [done|by right]]); (split; [done|cbn; rewrite length_splice; lia]).
  - destruct (negb _); cbn; (split; [|split; [done|by right]]); (split; [done|cbn; rewrite length_splice; lia]).
Qed.

Lemma read_loop_safe fuel f :
  safe f -> completes (fun '(_, f') => safe f') (read_loop plugin_mem fuel ctx bsz f).
Proof.
  revert f; induction fuel as [|fuel IH]; intros f Hf; cbn [read_loop];
    (destruct (Z.eqb_spec (x_sendflag (f_x f)) 0); [done|]); [done|].
  eapply completes_bind; [apply read_step_safe; [done|by destruct Hf as (_ & _ & [?|?])]|].
  intros [f'|f'|r f'] Hf'; cbn in *; auto.
Qed.

Lemma write_step_safe error f :
  safe f -> xfer_safe (f_x f) ->
  completes (fun '(_, f') => safe f') (write_step plugin_mem ctx bsz error f).
Proof.
  intros ([Hreq Hbuf] & Hinv & _) Hx. destruct CFGok as [Hc1 Hc2 Hc3].
  destruct (clip_safe _ Hx) as [Hx' Hle]. pose proof (xfer_in_device _ Hx' Hle).
  unfold write_step. set (x := clip bsz (f_x f)) in *. clearbody x.
  pose proof (advance_safe _ Hx' Hle) as Hadv. pose proof Hx' as (Hrem & Hoff & Hsz & Hbb & Hbr & Hlen).
  eapply completes_bind; [apply (an_recv _ Hnet); [nia|lia]|]. intros [[r buf] net] Hl. cbn beta in *.
  destruct (u32 r =? x_byteread x).
  - eapply completes_bind; [apply Hpwrite; [done|lia|done|done|nia]|]. intros [r' w] Hw.
    destruct (negb _); cbn; (split; [split; cbn; [done|lia]|split; [done|]]); [by left|by right].
  - cbn. split; [split; cbn; [done|lia]|]. split; [done|by left].
Qed.

Lemma write_loop_safe fuel error f :
  safe f -> completes (fun '(_, f') => safe f') (write_loop plugin_mem fuel ctx bsz error f).
Proof.
  revert error f; induction fuel as [|fuel IH]; intros error f Hf; cbn [write_loop];
    (destruct (Z.eqb_spec (x_sendflag (f_x f)) 0); [done|]); [done|].
  eapply completes_bind; [apply write_step_safe; [done|by destruct Hf as (_ & _ & [?|?])]|].
  intros [error' f'] Hf'. auto.
Qed.

(** ** One request *)

(** Requests the code is not prepared for. *)
Definition hazard (rq : nbd_request) : Prop :=
  Z.of_nat (length nbd_commands) <= rq_type rq \/ 2 ^ 64 <= rq_offset rq + rq_count rq.

Definition fields_ok (rq : nbd_request) : Prop :=
  0 <= rq_type rq /\ 0 <= rq_offset rq /\ 0 <= rq_count rq < 2 ^ 32.

Lemma decode_fields m : fields_ok (decode_request m).
Proof.
  unfold fields_ok, decode_request. cbn.
  pose proof (bswap_range 2 (rq_type (request_of_mem m))).
  pose proof (bswap_range 8 (rq_offset (request_of_mem m))).
  pose proof (bswap_range 4 (rq_count (request_of_mem m))). cbn in *. lia.
Qed.

Lemma send_reply_safe handle error flags f :
  safe f -> completes (fun '(_, f') => safe f') (send_reply ctx handle error flags f).
Proof. intros Hf. unfold send_reply. eapply completes_bind; [apply (an_send _ Hnet)|]. by intros [r net] _. Qed.

Lemma set_x_safe x f : safe f -> x_sendflag x = 0 \/ xfer_safe x -> safe (set_x x f).
Proof. by intros (Hf & Hw & _) Hx. Qed.

(** A range the check lets through is inside the device. *)
Lemma start_transfer_safe rq x :
  fields_ok rq -> ~ hazard rq -> out_of_range ctx rq = false ->
  completes xfer_safe (start_transfer bsz rq x).
Proof.
  unfold fields_ok, hazard, out_of_range. intros (_ & Hoff & Hcnt) Hhz Hr.
  apply Z.ltb_ge in Hr. rewrite !wrap_small in Hr by lia. destruct CFGok as [Hc1 Hc2 Hc3].
  unfold start_transfer. rewrite require_true by lia. mred. unfold xfer_safe. cbn [completes x_blkremains x_offset x_bufblksz x_byteread].
  pose proof (div_mul_le CONFIG_NBD_BUFFER_LEN bsz) as Hd1.
  pose proof (div_mul_le (rq_count rq) bsz) as Hd2. pose proof (div_mul_le (rq_offset rq) bsz) as Hd3.
  pose proof (div_le_self CONFIG_NBD_BUFFER_LEN bsz). pose proof (div_le_self (rq_count rq) bsz).
  assert (0 <= CONFIG_NBD_BUFFER_LEN / bsz) by (apply Z.div_pos; lia).
  assert (0 <= rq_count rq / bsz) by (apply Z.div_pos; lia).
  assert (0 <= rq_offset rq / bsz) by (apply Z.div_pos; lia).
  rewrite (wrap_small 32 (CONFIG_NBD_BUFFER_LEN / bsz)) by lia. rewrite wrap_small by lia.
  split_and!; lia.
Qed.

Lemma cmd_read_safe lfuel rq f :
  safe f -> fields_ok rq -> ~ hazard rq ->
  completes (fun '(_, f') => safe f') (cmd_read plugin_mem lfuel ctx bsz rq f).
Proof.
  intros Hf Hrq Hhz. unfold cmd_read.
  apply (completes_bind (fun '(_, x) => x_sendflag x = 0 \/ xfer_safe x)).
  { destruct (out_of_range ctx rq) eqn:Er; [apply Hf|].
    eapply completes_bind; [by apply start_transfer_safe|]. by right. }
  intros [error x] Hx. eapply completes_bind; [by apply send_reply_safe, set_x_safe|].
  intros [r f'] Hf'. by apply read_loop_safe.
Qed.

Lemma cmd_write_safe lfuel rq f :
  safe f -> fields_ok rq -> ~ hazard rq -> completes safe (cmd_write plugin_mem lfuel ctx bsz rq f).
Proof.
  intros Hf Hrq Hhz. unfold cmd_write.
  apply (completes_bind (fun '(_, x) => x_sendflag x = 0 \/ xfer_safe x)).
  { destruct (negb _); [apply Hf|]. destruct (out_of_range ctx rq) eqn:Er; [apply Hf|].
    eapply completes_bind; [by apply start_transfer_safe|]. by right. }
  intros [error x] Hx. eapply completes_bind; [by apply write_loop_safe, set_x_safe|].
  intros [error' f'] Hf'. eapply completes_bind; [by apply send_reply_safe|]. by intros [r f2].
Qed.

Lemma cmd_flush_safe rq f : safe f -> completes safe (cmd_flush plugin_mem ctx rq f).
Proof.
  intros (Hf & Hw & Hx). unfold cmd_flush. eapply completes_bind; [by apply Hflush|]. intros [r w] Hw'.
  eapply completes_bind; [by apply send_reply_safe|]. by intros [r' f'].
Qed.

(** What a request leaves, however it ends. *)
Definition served (c : ctl (lwnbd_context_nbd_t * frame N W)) : Prop :=
  match c with
  | Next (ctx', f) => ctx' = ctx /\ safe f
  | Break _ => False
  | Return _ (_, f) => safe f
  end.

Lemma dispatch_safe lfuel rq f :
  safe f -> fields_ok rq -> ~ hazard rq -> completes served (dispatch plugin_mem lfuel ctx rq f).
Proof.
  intros Hf Hrq Hhz. unfold dispatch, nbd_commands_to_string.
  destruct (lookup_lt_is_Some_2 nbd_commands (Z.to_nat (rq_type rq))) as [c ->].
  { unfold hazard, fields_ok in *. lia. }
  mred. destruct (_ =? NBD_CMD_READ).
  { eapply completes_bind; [by apply cmd_read_safe|]. by intros [[r|] f'] Hf'. }
  destruct (_ =? NBD_CMD_WRITE).
  { eapply completes_bind; [by apply cmd_write_safe|]. by intros f' Hf'. }
  destruct (_ =? NBD_CMD_DISC); [done|].
  destruct (_ =? NBD_CMD_FLUSH).
  { eapply completes_bind; [by apply cmd_flush_safe|]. by intros f' Hf'. }
  eapply completes_bind; [by apply send_reply_safe|]. by intros [r f'] Hf'.
Qed.

(** The request the memory of the frame holds after the receive. *)
Definition received f : outcome nbd_request :=
  '(_, m, _) ← sync_recv_cb (n_sock ctx) (f_request f) (Z.of_nat sizeof_nbd_request) (f_net f);
  Ok (decode_request m).

Lemma serve_request_safe lfuel f :
  safe f -> (forall rq, received f = Ok rq -> ~ hazard rq) ->
  completes served (serve_request plugin_mem lfuel ctx f).
Proof.
  intros ([Hreq Hbuf] & Hw & Hx) Hhz. unfold serve_request, received in *.
  pose proof (an_recv _ Hnet (f_request f) (Z.of_nat sizeof_nbd_request) (f_net f)) as Hr.
  destruct (sync_recv_cb _ _ _ _) as [[[r m] net]|e]; cbn in Hr, Hhz |- *; [|by apply Hr; rewrite ?Hreq].
  assert (length m = sizeof_nbd_request) as Hm by (rewrite Hr; rewrite ?Hreq; done).
  destruct (_ <? _); [done|]. destruct (negb _); [done|].
  apply dispatch_safe; [|apply decode_fields|by apply Hhz].
  split; [split; cbn; [apply length_request_to_mem|done]|]. by split.
Qed.

(** ** The phase *)

(** Requests served without a hazard. *)
Definition turn (lfuel : nat) f f' : Prop :=
  (forall rq, received f = Ok rq -> ~ hazard rq) /\
  serve_request plugin_mem lfuel ctx f = Ok (Next (ctx, f')).

Definition meets_hazard (lfuel : nat) f : Prop :=
  exists f' rq, rtc (turn lfuel) f f' /\ received f' = Ok rq /\ hazard rq.

Definition hazard_dec rq : Decision (hazard rq).
Proof. unfold hazard. apply _. Defined.

Lemma transmission_loop_safe fuel lfuel f :
  safe f ->
  completes (fun '(_, (_, f')) => safe f') (transmission_loop plugin_mem fuel lfuel ctx f) \/
  meets_hazard lfuel f.
Proof.
  revert f; induction fuel as [|fuel IH]; intros f Hf; [by left|]. cbn [transmission_loop].
  assert ((forall rq, received f = Ok rq -> ~ hazard rq) \/ exists rq, received f = Ok rq /\ hazard rq)
    as [Hhz|(rq & Hrq & Hhz)].
  { destruct (received f) as [rq|e]; [|by left].
    destruct (hazard_dec rq); [right; by exists rq|left; congruence]. }
  - pose proof (serve_request_safe lfuel f Hf Hhz) as Hs. unfold turn in IH.
    destruct (serve_request plugin_mem lfuel ctx f) as [[[ctx' f']|c|r [ctx' f']]|e] eqn:E; cbn in Hs |- *;
      [|done|by left|by left].
    destruct Hs as [-> Hf']. destruct (IH f' Hf') as [Hl|(f2 & rq & Hst & Hrq)]; [by left|].
    right. exists f2, rq. split; [|done]. by eapply rtc_l.
  - right. exists f, rq. by split.
Qed.

End safety.

(** The interfaces of the servers are enough for the plugin; its invariant
    includes the size the server advertised.  Of writes of no block
    [WriteStore] says nothing. *)
Section promises.
Context {W Cfg : Type} (plugin_mem : nat -> lwnbd_plugin_t W Cfg) (ctx : lwnbd_context_nbd_t).
Context (a : nat) (inv : W -> Prop) (content : W -> list byte).
Context (Hplugin : c_p (n_base ctx) = Some a).
Local Abbreviation bsz := (n_minimum_block_size ctx).
Local Abbreviation size := (c_exportsize (n_base ctx)).
Local Abbreviation ok := (device_ok ctx inv content).

Lemma read_store_completes `{!ReadStore (plugin_mem a) (c_handle (n_base ctx)) bsz inv content} cnt off w :
  ok w -> 0 <= cnt < 2 ^ 16 -> 0 <= off -> (off + cnt) * bsz <= size ->
  completes (fun '(_, d, w') => ok w' /\ Z.of_nat (length d) <= cnt * bsz)
    (lwnbd_pread plugin_mem (n_base ctx) cnt off 0 w).
Proof.
  intros (Hinv & Hsz & H63) Hc Ho Hle. pose proof rs_bsz as Hb.
  destruct (lwnbd_pread_spec plugin_mem (n_base ctx) a bsz inv content Hplugin w cnt off)
    as (w' & -> & Hinv' & Hcon); [done..|lia|]. cbn. split; [split; [done|by rewrite Hcon]|].
  rewrite length_slice by nia. nia.
Qed.

Lemma write_store_completes `{!WriteStore (plugin_mem a) (c_handle (n_base ctx)) bsz inv content} :
  0 < bsz ->
  (forall buf off w, ok w -> 0 <= off -> off * bsz <= size ->
     completes (fun '(_, w') => ok w') (lwnbd_pwrite plugin_mem (n_base ctx) buf 0 off 0 w)) ->
  forall buf cnt off w, ok w -> 0 <= cnt < 2 ^ 16 -> 0 <= off -> (off + cnt) * bsz <= size ->
  cnt * bsz <= Z.of_nat (length buf) ->
  completes (fun '(_, w') => ok w') (lwnbd_pwrite plugin_mem (n_base ctx) buf cnt off 0 w).
Proof.
  intros Hb Hzero buf cnt off w Hok Hc Ho Hle Hbuf.
  destruct (decide (cnt = 0)) as [->|]; [apply Hzero; [done|done|lia]|].
  destruct Hok as (Hinv & Hsz & H63).
  destruct (lwnbd_pwrite_spec plugin_mem (n_base ctx) a bsz inv content Hplugin w buf cnt off)
    as (w' & -> & Hinv' & Hcon); [done|lia|done|done|lia|]. cbn.
  split; [done|]. split; [|done]. rewrite Hcon, length_splice; [done|]. rewrite length_take. nia.
Qed.

Lemma flush_store_completes `{!FlushStore (plugin_mem a) (c_handle (n_base ctx)) inv content} w :
  ok w -> completes (fun '(_, w') => ok w') (lwnbd_flush plugin_mem (n_base ctx) 0 w).
Proof.
  intros (Hinv & Hsz & H63).
  destruct (lwnbd_flush_spec plugin_mem (n_base ctx) a inv content Hplugin w Hinv) as (w' & -> & Hinv' & Hcon).
  split; [done|]. by rewrite Hcon.
Qed.
End promises.

(** ** A refusal undone

    The loops run while [sendflag] is set, and a send that stops short leaves
    it set ([break]).  A WRITE that is refused next, because its range ends
    beyond the export, sets [error] but enters the loop all the same, with the
    positions of the interrupted READ. *)

Section interrupted.
Context `{CFG : NbdConfig} {CFGok : NbdConfigOk}.
Context {W Cfg : Type} (plugin_mem : nat -> lwnbd_plugin_t W Cfg).
Context {N : Type} `{CB : Callbacks N}.
Context (ctx : lwnbd_context_nbd_t) (a : nat) (inv : W -> Prop) (content : W -> list byte).
Context {T : Transport N (n_sock ctx)} (Hplugin : c_p (n_base ctx) = Some a).
Implicit Types (f : frame N W) (x : xfer).

Local Abbreviation bsz := (n_minimum_block_size ctx).
Local Abbreviation ibox := (inbox (n_sock ctx)).
Local Abbreviation obox := (outbox (n_sock ctx)).

Context {RS : ReadStore (plugin_mem a) (c_handle (n_base ctx)) bsz inv content}.
Context {WS : WriteStore (plugin_mem a) (c_handle (n_base ctx)) bsz inv content}.
Context (Hblock : bsz <= CONFIG_NBD_BUFFER_LEN).

(** The blocks of one run. *)
Definition run_blocks : Z := CONFIG_NBD_BUFFER_LEN / bsz.

(** A frame with a transfer that was not finished. *)
Definition interrupted (offset remains : Z) f : Prop :=
  frame_ok f /\ xfer_ok ctx (f_x f) (c_exportsize (n_base ctx)) /\ x_sendflag (f_x f) = MSG_MORE /\
  x_offset (f_x f) = offset /\ x_blkremains (f_x f) = remains.

Lemma refused_write_resumes fuel f rq offset remains d rest :
  interrupted offset remains f -> device_ok ctx inv content (f_world f) -> ~ read_only ctx ->
  rq_offset rq + rq_count rq < 2 ^ 64 -> ~ in_range ctx rq -> request_ok rq -> rq_magic rq = NBD_REQUEST_MAGIC -> rq_type rq = NBD_CMD_WRITE ->
  ibox (f_net f) = wire_request rq ++ d ++ rest -> length d = Z.to_nat (remains * bsz) ->
  0 < remains < Z.of_nat fuel ->
  exists f', serve_request plugin_mem fuel ctx f = Ok (Next (ctx, f')) /\
    content (f_world f') = write_blocks bsz offset d (content (f_world f)) /\
    ibox (f_net f') = rest /\ obox (f_net f') = obox (f_net f) ++ wire_reply NBD_ENOSPC (rq_handle rq).
Proof.
  intros (Hf & Hx & Hsf & <- & <-) (Hinv & Hsz & H63) Hro Hov Hout Hrq Hmagic Hty Hin Hd Hfuel.
  pose proof (rs_bsz (ReadStore := RS)) as Hb.
  destruct (serve_request_dispatch plugin_mem ctx fuel f rq (d ++ rest) Hf Hrq Hmagic Hin) as (net & Hi & Ho & ->).
  unfold dispatch. rewrite Hty. change (nbd_commands_to_string NBD_CMD_WRITE) with (Ok (bs "NBD_CMD_WRITE")).
  mred. cbn [NBD_CMD_WRITE NBD_CMD_READ Z.eqb Pos.eqb].
  unfold cmd_write. unfold request_ok in Hrq. rewrite out_of_range_true by (done || lia).
  unfold read_only in Hro. case (Z.eqb_spec (Z.land (n_eflags ctx) NBD_FLAG_READ_ONLY) 0) as [_|]; [|done].
  cbn [negb]. mred. cbn [f_x].
  set (f1 := mk_frame _ _ _ _ _).
  destruct (write_loop_spec plugin_mem ctx a inv content Hplugin fuel NBD_ENOSPC (set_x (f_x f) f1) d rest)
    as (f2 & Hrun & Hf2 & Hinv2 & Hc2 & Hs2 & Hi2 & Ho2); cbn;
    [done|done|split; [apply length_request_to_mem|apply Hf]|by rewrite Hsz|by rewrite Hsz|done|done|done|done|].
  rewrite Hrun. mred.
  destruct (send_reply_spec ctx (rq_handle rq) NBD_ENOSPC 0 f2) as (net' & -> & Hi' & Ho'); [by left|].
  mred. eexists. split; [done|]. cbn in *. by rewrite Hc2, Hi', Hi2, Ho', Ho2, Ho.
Qed.

(** The network while the READ is answered. *)
Context (flaky : Callbacks N).
Local Abbreviation send_flaky := (sync_send_cb (Callbacks := flaky) (n_sock ctx)).

(** [u32 r <> length]: the send of the first run stopped short or failed. *)
Lemma short_send_interrupts fuel f rq r0 n1 r n2 :
  idle ctx inv content f -> request_ok rq -> in_range ctx rq -> run_blocks < rq_count rq / bsz ->
  send_flaky (wire_reply NBD_SUCCESS (rq_handle rq)) MSG_MORE (f_net f) = Ok (r0, n1) ->
  send_flaky (blocks bsz (rq_offset rq / bsz) run_blocks (content (f_world f))) MSG_MORE n1 = Ok (r, n2) ->
  u32 r <> run_blocks * bsz ->
  exists f1, cmd_read (CB := flaky) plugin_mem (1 + fuel) ctx bsz rq f = Ok (None, f1) /\
    interrupted (rq_offset rq / bsz) (rq_count rq / bsz) f1 /\ inv (f_world f1) /\
    content (f_world f1) = content (f_world f) /\ f_net f1 = n2.
Proof.
  intros (Hf & Hsf & Hinv & Hsz & H63) Hrq Hr Hruns Hs1 Hs2 Hshort.
  pose proof (rs_bsz (ReadStore := RS)) as Hb. destruct Hf as [Hreq Hbuf]. destruct CFGok as [Hc1 Hc2 Hc3].
  destruct (start_transfer_spec plugin_mem ctx a inv content Hblock rq (f_x f) _ Hrq Hr)
    as (x & Hst & Hx & Hxs & Hrem & Hoff).
  assert (x_bufblksz x = run_blocks) as Hbb.
  { unfold start_transfer in Hst. rewrite require_true in Hst by lia. injection Hst as <-. cbn.
    apply wrap_small. unfold run_blocks. pose proof (div_le_self CONFIG_NBD_BUFFER_LEN bsz).
    assert (0 <= CONFIG_NBD_BUFFER_LEN / bsz) by (apply Z.div_pos; lia). lia. }
  unfold request_ok in Hrq. unfold cmd_read. rewrite out_of_range_false by (done || lia). rewrite Hst. mred.
  unfold send_reply. rewrite reply_network, Hxs. cbn [f_net set_x]. rewrite Hs1. mred.
  cbn [Nat.add read_loop]. cbn [f_x set_net set_x]. rewrite Hxs. cbn [Z.eqb MSG_MORE].
  unfold read_step. cbn [f_x f_world f_buffer f_net f_request set_net set_x].
  rewrite (clip_ok ctx _ _ Hb Hx). unfold clipped.
  rewrite (proj2 (Z.leb_gt _ _)) by lia. rewrite Z.min_r by lia. cbn [x_bufblksz x_offset x_byteread x_sendflag].
  rewrite Hbb, Hoff. pose proof Hx as (Hx1 & Hx2 & Hx3 & Hx4 & Hx5 & Hx6). rewrite Hbb, ?Hoff in *.
  destruct (lwnbd_pread_spec plugin_mem (n_base ctx) a bsz inv content Hplugin (f_world f) run_blocks
    (rq_offset rq / bsz)) as (w' & Hrd & Hinv' & Hcon); [done|nia|lia| |].
  { transitivity ((rq_offset rq / bsz + rq_count rq / bsz) * bsz); [apply Z.mul_le_mono_nonneg_r; lia|lia]. }
  rewrite Hrd. mred. fold (blocks bsz (rq_offset rq / bsz) run_blocks (content (f_world f))).
  assert (length (blocks bsz (rq_offset rq / bsz) run_blocks (content (f_world f))) = Z.to_nat (run_blocks * bsz))
    as Hbl by (apply length_blocks; nia).
  set (d := blocks _ _ _ _) in *. rewrite store_at_fits by lia. mred. cbn [Z.eqb].
  rewrite load_at_fits by (rewrite length_splice; lia). mred.
  rewrite <- Hbl, slice_splice by lia. rewrite Hxs, Hs2. mred.
  rewrite (proj2 (Z.eqb_neq _ _)) by done. cbn [negb]. eexists. split; [done|]. cbn.
  split; [|done]. split; [split; [done|cbn; rewrite length_splice; lia]|].
  split; [|done]. unfold xfer_ok. cbn. split_and!; lia.
Qed.

End interrupted.
