(* ===== verification/Handshake.v ===== *)
(** * The handshake phase: [servers/nbd/protocol-handshake.c]

    The greeting, the client's flags and the option haggling of the fixed
    newstyle negotiation, up to the export name that opens an export. *)

From S2P Require Export ContextsUri NbdContext.

Section handshake.
Context `{CFG : NbdConfig} {W Cfg : Type} (plugin_mem : nat -> lwnbd_plugin_t W Cfg).
Context {N : Type} `{CB : Callbacks N}.
Implicit Types (ctx : lwnbd_context_nbd_t) (c : nbd_client) (s : lib W).

(** What the phase works on: the memory of [new_opt] and [nbd_buffer], the
    client record, the network and the library. *)
Record haggle := mk_haggle {
  hg_opt : list byte;
  hg_buffer : list byte;
  hg_client : nbd_client;
  hg_net : N;
  hg_lib : lib W
}.

Definition set_hg_net net (h : haggle) : haggle :=
  mk_haggle (hg_opt h) (hg_buffer h) (hg_client h) net (hg_lib h).

Definition set_cl_ctx (o : option nat) c : nbd_client := mk_client (cl_sock c) (cl_state c) o.

(** The table has ten entries; the fifth option has none of its own. *)
Definition nbd_options : list (option (list byte)) :=
  [None; Some (bs "NBD_OPT_EXPORT_NAME"); Some (bs "NBD_OPT_ABORT"); Some (bs "NBD_OPT_LIST");
   Some (bs "NBD_OPT_STARTTLS"); Some (bs "NBD_OPT_INFO"); Some (bs "NBD_OPT_GO");
   Some (bs "NBD_OPT_STRUCTURED_REPLY"); Some (bs "NBD_OPT_LIST_META_CONTEXT");
   Some (bs "NBD_OPT_SET_META_CONTEXT")].

Definition nbd_option_to_string (o : Z) : outcome (option (list byte)) :=
  of_option OutOfBounds (nbd_options !! Z.to_nat o).

(** [size = sync_send_cb(...); if (size < sizeof ...) return -1;], where the
    comparison is between unsigned values. *)
Definition send_checked (sock : Z) (d : list byte) (flags : Z) (net : N) : outcome (bool * N) :=
  '(size, net) ← sync_send_cb sock d flags net;
  Ok (negb (size_t (i32 size) <? Z.of_nat (length d)), net).

(** The entries of [NBD_OPT_LIST]. *)
Definition list_entry ctx (option : Z) (x : lwnbd_context_t) (net : N) : outcome (bool * N) :=
  name ← of_option Unterminated (c_str (c_name x));
  desc ← of_option Unterminated (c_str (c_description x));
  let name_len := Z.of_nat (length name) in
  let desc_len := Z.of_nat (length desc) in
  let len := htonl name_len in
  let r := mk_option_reply (htobe64 NBD_REP_MAGIC) (htonl option) (htonl NBD_REP_SERVER)
             (htonl (name_len + 4 + desc_len)) in
  '(ok, net) ← send_checked (n_sock ctx) (option_reply_to_mem r) MSG_MORE net;
  if negb ok then Ok (false, net)
  else
    '(ok, net) ← send_checked (n_sock ctx) (le_split 4 len) MSG_MORE net;
    if negb ok then Ok (false, net)
    else
      '(ok, net) ← send_checked (n_sock ctx) name MSG_MORE net;
      if negb ok then Ok (false, net)
      else send_checked (n_sock ctx) desc MSG_MORE net.

(** [for (size_t i = 0; i < lwnbd_contexts_count(); i++)], [n] turns left. *)
Fixpoint list_loop (n i : nat) ctx (option : Z) (pl : context_pool) (net : N) : outcome (bool * N) :=
  match n with
  | O => Ok (true, net)
  | S n =>
      x ← context_at pl (lwnbd_get_context_i i);
      '(ok, net) ← list_entry ctx option x net;
      if negb ok then Ok (false, net) else list_loop n (S i) ctx option pl net
  end.

(** An option reply without data. *)
Definition option_reply (option reply : Z) : nbd_fixed_new_option_reply :=
  mk_option_reply (htobe64 NBD_REP_MAGIC) (htonl option) (htonl reply) 0.

Definition opt_export_name ctx (cflags optlen : Z) (h : haggle)
  : outcome (ctl (lwnbd_context_nbd_t * haggle)) :=
  '(oc, buf, s) ← (if 0 <? optlen
                   then lwnbd_get_context plugin_mem 0 (hg_buffer h) (hg_lib h)
                   else Ok (cl_ctx (hg_client h), hg_buffer h, hg_lib h));
  let h := mk_haggle (hg_opt h) buf (set_cl_ctx oc (hg_client h)) (hg_net h) s in
  match oc with
  | None => Ok (Return (-1) (ctx, h))
  | Some _ =>
      let eflags := if negb (n_readonly ctx =? 0) then htons (Z.lor (n_eflags ctx) NBD_FLAG_READ_ONLY)
                    else htons (n_eflags ctx) in
      let e := mk_export_reply (htobe64 (c_exportsize (n_base ctx))) eflags (replicate 124 x00) in
      let n := if negb (Z.land cflags NBD_FLAG_NO_ZEROES =? 0) then offsetof_export_reply_zeroes
               else sizeof_export_reply in
      '(ok, net) ← send_checked (n_sock ctx) (take n (export_reply_to_mem e)) 0 (hg_net h);
      if negb ok then Ok (Return (-1) (ctx, set_hg_net net h))
      else Ok (Return 0 (set_n_state TRANSMISSION ctx, set_hg_net net h))
  end.

Definition opt_abort ctx (option : Z) (h : haggle) : outcome (ctl (lwnbd_context_nbd_t * haggle)) :=
  '(ok, net) ← send_checked (n_sock ctx) (option_reply_to_mem (option_reply option NBD_REP_ACK)) 0
                 (hg_net h);
  if negb ok then Ok (Return (-1) (ctx, set_hg_net net h))
  else Ok (Return 0 (set_n_state ABORT ctx, set_hg_net net h)).

Definition opt_list ctx (option : Z) (h : haggle) : outcome (ctl (lwnbd_context_nbd_t * haggle)) :=
  let pl := l_pool (hg_lib h) in
  '(ok, net) ← list_loop (lwnbd_contexts_count pl) 0 ctx option pl (hg_net h);
  if negb ok then Ok (Return (-1) (ctx, set_hg_net net h))
  else
    '(ok, net) ← send_checked (n_sock ctx) (option_reply_to_mem (option_reply option NBD_REP_ACK)) 0 net;
    if negb ok then Ok (Return (-1) (ctx, set_hg_net net h))
    else Ok (Next (ctx, set_hg_net net h)).

Definition opt_unsupported ctx (option : Z) (h : haggle)
  : outcome (ctl (lwnbd_context_nbd_t * haggle)) :=
  '(ok, net) ← send_checked (n_sock ctx) (option_reply_to_mem (option_reply option NBD_REP_ERR_UNSUP))
                 0 (hg_net h);
  if negb ok then Ok (Return (-1) (ctx, set_hg_net net h))
  else Ok (Next (ctx, set_hg_net net h)).

Definition handle_option ctx (cflags option optlen : Z) (h : haggle)
  : outcome (ctl (lwnbd_context_nbd_t * haggle)) :=
  if option =? NBD_OPT_EXPORT_NAME then opt_export_name ctx cflags optlen h
  else if option =? NBD_OPT_ABORT then opt_abort ctx option h
  else if option =? NBD_OPT_LIST then opt_list ctx option h
  else opt_unsupported ctx option h.

(** One turn of the option haggling.  The log lines are left out; at the debug
    level they print the name of the option with [%s], which for option 0 is
    [NULL]. *)
Definition haggle_step ctx (cflags : Z) (h : haggle)
  : outcome (ctl (lwnbd_context_nbd_t * haggle)) :=
  let sock := cl_sock (hg_client h) in
  '(size, m, net) ← sync_recv_cb sock (hg_opt h) (Z.of_nat sizeof_nbd_new_option) (hg_net h);
  let h := mk_haggle m (hg_buffer h) (hg_client h) net (hg_lib h) in
  if size_t (i32 size) <? Z.of_nat sizeof_nbd_new_option then Ok (Return (-1) (ctx, h))
  else
    let new_opt := new_option_of_mem m in
    let version := be64toh (op_version new_opt) in
    if negb (version =? NBD_NEW_VERSION) then
      Ok (Return (-1) (ctx, mk_haggle (new_option_to_mem (mk_new_option version (op_option new_opt)
            (op_optlen new_opt))) (hg_buffer h) (hg_client h) net (hg_lib h)))
    else
      let option := htonl (op_option new_opt) in
      _ ← nbd_option_to_string option;
      let optlen := htonl (op_optlen new_opt) in
      let h := mk_haggle (new_option_to_mem (mk_new_option version option optlen))
                 (hg_buffer h) (hg_client h) net (hg_lib h) in
      if MAX_REQUEST_SIZE <? optlen then Ok (Return (-1) (ctx, h))
      else if 0 <? optlen then
        '(size, buf, net) ← sync_recv_cb sock (hg_buffer h) optlen (hg_net h);
        let h := mk_haggle (hg_opt h) buf (hg_client h) net (hg_lib h) in
        if u32 (i32 size) <? optlen then Ok (Return (-1) (ctx, h))
        else
          buf ← store_at (Z.to_nat optlen) [x00] buf;
          handle_option ctx cflags option optlen
            (mk_haggle (hg_opt h) buf (hg_client h) net (hg_lib h))
      else handle_option ctx cflags option optlen h.

Fixpoint haggle_loop (fuel : nat) ctx (cflags : Z) (h : haggle)
  : outcome (Z * (lwnbd_context_nbd_t * haggle)) :=
  match fuel with
  | O => Fault OutOfFuel
  | S fuel =>
      r ← haggle_step ctx cflags h;
      match r with
      | Next (ctx, h) | Break (ctx, h) => haggle_loop fuel ctx cflags h
      | Return r x => Ok (r, x)
      end
  end.

(** [cflags] is the memory of the local of that name. *)
Definition protocol_handshake (fuel : nat) ctx (cflags : list byte) (h : haggle)
  : outcome (Z * (lwnbd_context_nbd_t * haggle)) :=
  let sock := cl_sock (hg_client h) in
  let new_hs := mk_new_handshake (htobe64 NBD_MAGIC) (htobe64 NBD_NEW_VERSION) (htons (n_gflags ctx)) in
  '(ok, net) ← send_checked sock (new_handshake_to_mem new_hs) 0 (hg_net h);
  let h := set_hg_net net h in
  if negb ok then Ok (-1, (ctx, h))
  else
    '(size, m, net) ← sync_recv_cb sock cflags 4 (hg_net h);
    let h := set_hg_net net h in
    if size_t (i32 size) <? 4 then Ok (-1, (ctx, h))
    else
      let cflags := htonl (le_combine m) in
      if negb (cflags =? n_gflags ctx) then Ok (-1, (ctx, h))
      else haggle_loop fuel ctx cflags h.

(** ** What the client reads *)

Definition wire_greeting (gflags : Z) : list byte :=
  be_split 8 NBD_MAGIC ++ be_split 8 NBD_NEW_VERSION ++ be_split 2 gflags.

Definition wire_list_entry (x : lwnbd_context_t) : list byte :=
  let name := default [] (c_str (c_name x)) in
  let desc := default [] (c_str (c_description x)) in
  wire_option_reply NBD_OPT_LIST NBD_REP_SERVER
    (Z.of_nat (length name) + 4 + Z.of_nat (length desc)) ++
  be_split 4 (Z.of_nat (length name)) ++ name ++ desc.

(** The whole answer to [NBD_OPT_LIST]. *)
Definition wire_list (pl : context_pool) : list byte :=
  concat (wire_list_entry <$> take (lwnbd_contexts_count pl) (contexts pl)) ++
  wire_option_reply NBD_OPT_LIST NBD_REP_ACK 0.

(** The answer that ends the haggling: the size and the transmission flags of
    the server's own handle ([ctx->exportsize], [ctx->eflags], not those of the
    export that was opened) and, unless the client renounced them, 124
    zeroes. *)
Definition wire_export ctx : list byte :=
  be_split 8 (c_exportsize (n_base ctx)) ++
  be_split 2 (if decide (n_readonly ctx = 0) then n_eflags ctx
              else Z.lor (n_eflags ctx) NBD_FLAG_READ_ONLY) ++
  (if decide (Z.land (n_gflags ctx) NBD_FLAG_NO_ZEROES = 0) then replicate 124 x00 else []).
End handshake.
Arguments haggle : clear implicits.
