(* ===== verification/HandshakeSpec.v ===== *)
(** * Correctness of the handshake

    What the negotiation sends, and to whom: the greeting to the socket of the
    client, one answer per option and the reply to the export name to the
    socket that the server's handle holds.  The two are different sockets unless
    somebody gives the handle the client's, which no code of the repository does
    (see [ClientSocket]); the lemmas are therefore about any two sockets, and
    those over a [Transport] at the end take the case where they are one.  Then
    the inputs that end or break the negotiation. *)

From S2P Require Export Handshake.

(** ** Two sockets, one observer *)

(** What of [d], sent to the socket [t], an observer of the socket [peer]
    notes. *)
Definition noted (peer t : Z) (d : list byte) : list byte := if decide (t = peer) then d else [].

Lemma noted_app peer t d e : noted peer t (d ++ e) = noted peer t d ++ noted peer t e.
Proof. unfold noted. by case_decide. Qed.

Lemma noted_nil peer t : noted peer t [] = [].
Proof. unfold noted. by case_decide. Qed.

Lemma noted_own t d : noted t t d = d.
Proof. unfold noted. by rewrite decide_True. Qed.

(** A receive on [sock] delivers what the client sent; a send to it or to the
    socket [answers_to] takes all its data or fails, and [obox] keeps what the
    sends to [peer] were given. *)
Record exchange {N : Type} `{CB : Callbacks N} (sock answers_to peer : Z) (ibox obox : N -> list byte) : Prop := {
  ex_recv n mem d rest :
    Z.of_nat (length d) < 2 ^ 31 -> (length d <= length mem)%nat -> ibox n = d ++ rest ->
    exists n', sync_recv_cb sock mem (Z.of_nat (length d)) n = Ok (Z.of_nat (length d), splice 0 d mem, n') /\
      ibox n' = rest /\ obox n' = obox n;
  ex_send t n d flags :
    t = sock \/ t = answers_to -> flags = 0 \/ flags = MSG_MORE ->
    exists r n', sync_send_cb t d flags n = Ok (r, n') /\ (r = Z.of_nat (length d) \/ r = -1) /\
      ibox n' = ibox n /\ obox n' = obox n ++ noted peer t d
}.

Lemma transport_exchange {N : Type} `{CB : Callbacks N} (sock : Z) {T : Transport N sock} :
  exchange sock sock sock (inbox sock) (outbox sock).
Proof.
  split.
  - intros n mem d rest Hd Hm Hi. by apply transport_recv.
  - intros t n d flags [->| ->] Hf; destruct (tr_send n d flags Hf) as (n' & Hs & Hi & Ho);
      eexists _, n'; rewrite noted_own; split_and!; eauto.
Qed.

Section exchange_spec.
Context `{CFG : NbdConfig} {CFGok : NbdConfigOk}.
Context {W Cfg : Type} (plugin_mem : nat -> lwnbd_plugin_t W Cfg).
Context {N : Type} `{CB : Callbacks N} (sock : Z).
Context (ctx : lwnbd_context_nbd_t) (peer : Z) (ibox obox : N -> list byte).
Context (HX : exchange sock (n_sock ctx) peer ibox obox).
Implicit Types (c : nbd_client) (s : lib W) (h : haggle W N).

Local Abbreviation answered := (noted peer (n_sock ctx)).
Local Abbreviation greeted := (noted peer sock).

(** The result of a failed [send], -1, passes the test of the code: it is
    compared as an unsigned number. *)
Lemma send_checked_noted t d flags net :
  t = sock \/ t = n_sock ctx -> flags = 0 \/ flags = MSG_MORE -> Z.of_nat (length d) < 2 ^ 31 ->
  exists net', send_checked t d flags net = Ok (true, net') /\
    ibox net' = ibox net /\ obox net' = obox net ++ noted peer t d.
Proof.
  intros Ht Hf Hd. unfold send_checked. destruct (ex_send _ _ _ _ _ HX t net d flags Ht Hf)
    as (r & net' & -> & Hr & Hi & Ho). mred. exists net'. split; [|done]. do 2 f_equal.
  destruct Hr as [->| ->].
  - rewrite swrap_small, wrap_small by lia. by rewrite Z.ltb_irrefl.
  - change (size_t (i32 (-1))) with (2 ^ 64 - 1). by rewrite (proj2 (Z.ltb_ge _ _)) by lia.
Qed.

Lemma answer_sent d flags net :
  flags = 0 \/ flags = MSG_MORE -> Z.of_nat (length d) < 2 ^ 31 ->
  exists net', send_checked (n_sock ctx) d flags net = Ok (true, net') /\
    ibox net' = ibox net /\ obox net' = obox net ++ answered d.
Proof. intros. apply send_checked_noted; [by right|done..]. Qed.

Lemma received net mem len d rest :
  len = Z.of_nat (length d) -> len < 2 ^ 31 -> (length d <= length mem)%nat -> ibox net = d ++ rest ->
  exists net', sync_recv_cb sock mem len net = Ok (len, splice 0 d mem, net') /\
    ibox net' = rest /\ obox net' = obox net.
Proof. intros ->. apply (ex_recv _ _ _ _ _ HX). Qed.

Lemma option_reply_wire option reply replylen :
  option_reply_to_mem (mk_option_reply (htobe64 NBD_REP_MAGIC) (htonl option) (htonl reply)
    (htonl replylen)) = wire_option_reply option reply replylen.
Proof. unfold option_reply_to_mem, wire_option_reply. cbn [or_magic or_option or_reply or_replylen].
  by rewrite !le_split_bswap. Qed.

Lemma option_reply_empty option reply :
  option_reply_to_mem (option_reply option reply) = wire_option_reply option reply 0.
Proof.
  rewrite <- option_reply_wire. unfold option_reply.
  replace (htonl 0) with 0 by (by vm_compute). done.
Qed.

Lemma length_wire_option_reply o r l : length (wire_option_reply o r l) = 20%nat.
Proof. unfold wire_option_reply. by rewrite !length_app, !length_be_split. Qed.

Lemma list_entry_spec x net :
  context_ok x ->
  exists net', list_entry ctx NBD_OPT_LIST x net = Ok (true, net') /\
    ibox net' = ibox net /\ obox net' = obox net ++ answered (wire_list_entry x).
Proof.
  intros (Hl1 & [name Hn] & Hl2 & [desc Hd]). unfold list_entry, wire_list_entry.
  pose proof (c_str_length _ _ Hn). pose proof (c_str_length _ _ Hd).
  rewrite Hn, Hd. mred. cbn [default]. rewrite option_reply_wire.
  edestruct (answer_sent (wire_option_reply NBD_OPT_LIST NBD_REP_SERVER
    (Z.of_nat (length name) + 4 + Z.of_nat (length desc))) MSG_MORE net)
    as (n1 & -> & Hi1 & Ho1); [by right|by rewrite length_wire_option_reply|]. mred. cbn [negb].
  rewrite le_split_bswap.
  edestruct (answer_sent (be_split 4 (Z.of_nat (length name))) MSG_MORE n1)
    as (n2 & -> & Hi2 & Ho2); [by right|by rewrite length_be_split|]. mred. cbn [negb].
  edestruct (answer_sent name MSG_MORE n2) as (n3 & -> & Hi3 & Ho3); [by right|lia|]. mred. cbn [negb].
  edestruct (answer_sent desc MSG_MORE n3) as (n4 & -> & Hi4 & Ho4); [by right|lia|].
  exists n4. split; [done|]. rewrite Hi4, Hi3, Hi2, Hi1. split; [done|].
  rewrite Ho4, Ho3, Ho2, Ho1, !noted_app. app_eq.
Qed.

Lemma list_loop_spec n i pl net :
  pool_ok pl -> (i + n <= MAX_CONTEXTS)%nat ->
  exists net', list_loop n i ctx NBD_OPT_LIST pl net = Ok (true, net') /\
    ibox net' = ibox net /\
    obox net' = obox net ++ answered (concat (wire_list_entry <$> slice i n (contexts pl))).
Proof.
  intros Hp. revert i net; induction n as [|n IH]; intros i net Hi; cbn [list_loop].
  - exists net. rewrite slice_0. cbn. by rewrite noted_nil, app_nil_r.
  - unfold context_at, lwnbd_get_context_i.
    destruct (context_at_ok pl i Hp) as (x & Hx & Hok); [lia|]. rewrite Hx. mred.
    destruct (list_entry_spec x net Hok) as (n1 & -> & Hi1 & Ho1). mred. cbn [negb].
    destruct (IH (S i) n1) as (n2 & -> & Hi2 & Ho2); [lia|].
    exists n2. split; [done|]. split; [congruence|]. rewrite Ho2, Ho1, <- app_assoc.
    f_equal. unfold slice. rewrite (drop_S _ _ _ Hx). cbn [take fmap list_fmap concat]. by rewrite noted_app.
Qed.

(** ** One option *)

(** The state of the haggling between two options. *)
Definition haggle_ok h : Prop :=
  length (hg_opt h) = sizeof_nbd_new_option /\
  Z.of_nat (length (hg_buffer h)) = MAX_REQUEST_SIZE /\
  cl_sock (hg_client h) = sock /\ pool_ok (l_pool (hg_lib h)).

Record option_cmd := mk_option_cmd { oc_option : Z; oc_data : list byte }.

Definition option_bytes (o : option_cmd) : list byte :=
  wire_option (oc_option o) (Z.of_nat (length (oc_data o))) ++ oc_data o.

(** Options the table of names knows, with data shorter than the buffer. *)
Definition option_fits (o : option_cmd) : Prop :=
  0 <= oc_option o < 10 /\ Z.of_nat (length (oc_data o)) < MAX_REQUEST_SIZE.

Lemma nbd_options_known o : 0 <= o < 10 -> exists r, nbd_option_to_string o = Ok r.
Proof.
  intros H. unfold nbd_option_to_string.
  destruct (lookup_lt_is_Some_2 nbd_options (Z.to_nat o)) as [r Hr]; [cbn; lia|].
  exists r. by rewrite Hr.
Qed.

(** The buffer the option handlers see: the data, a NUL, and the old bytes. *)
Lemma haggle_step_spec cflags h o rest :
  haggle_ok h -> option_fits o -> ibox (hg_net h) = option_bytes o ++ rest ->
  exists h', haggle_step plugin_mem ctx cflags h
      = handle_option plugin_mem ctx cflags (oc_option o) (Z.of_nat (length (oc_data o))) h' /\
    haggle_ok h' /\ hg_lib h' = hg_lib h /\ hg_client h' = hg_client h /\
    ibox (hg_net h') = rest /\ obox (hg_net h') = obox (hg_net h) /\
    (oc_data o <> [] -> exists R, hg_buffer h' = oc_data o ++ x00 :: R).
Proof.
  intros (Hm & Hb & Hcs & Hp) (Hopt & Hlen) Hin. pose proof cfg_request.
  unfold option_bytes in Hin. rewrite <- app_assoc in Hin. unfold haggle_step. rewrite Hcs.
  destruct (received (hg_net h) (hg_opt h) (Z.of_nat sizeof_nbd_new_option)
    (wire_option (oc_option o) (Z.of_nat (length (oc_data o)))) (oc_data o ++ rest))
    as (n1 & -> & Hi1 & Ho1); [done|done|by rewrite Hm, length_wire_option|done|]. mred.
  replace (splice 0 (wire_option (oc_option o) (Z.of_nat (length (oc_data o)))) (hg_opt h))
    with (wire_option (oc_option o) (Z.of_nat (length (oc_data o))))
    by (unfold splice; rewrite take_0, drop_ge, app_nil_r by (by rewrite length_wire_option, Hm); done).
  rewrite new_option_of_wire. cbn [op_version op_option op_optlen].
  rewrite !bswap_bswap. change (256 ^ Z.of_nat 4) with (2 ^ 32).
  rewrite (Z.mod_small NBD_NEW_VERSION) by done. rewrite !Z.mod_small by lia.
  change (size_t (i32 (Z.of_nat sizeof_nbd_new_option)) <? Z.of_nat sizeof_nbd_new_option) with false.
  cbn iota. change (NBD_NEW_VERSION =? NBD_NEW_VERSION) with true. cbn [negb].
  destruct (nbd_options_known (oc_option o) Hopt) as [r ->]. mred.
  rewrite (proj2 (Z.ltb_ge _ _)) by lia. cbn [hg_net hg_buffer hg_client hg_lib hg_opt].
  case (Z.ltb_spec 0 (Z.of_nat (length (oc_data o)))) as [Hpos|Hz].
  - destruct (received n1 (hg_buffer h) (Z.of_nat (length (oc_data o))) (oc_data o) rest)
      as (n2 & -> & Hi2 & Ho2); [done|lia|lia|done|]. mred.
    rewrite swrap_small, wrap_small, Z.ltb_irrefl by lia. rewrite Nat2Z.id.
    rewrite store_at_fits by (rewrite length_splice; simpl; lia). mred.
    eexists. split; [done|]. cbn. rewrite Ho2, Ho1. split_and!; try done.
    + split_and!; cbn; [apply length_new_option_to_mem| |done|done].
      rewrite length_splice; rewrite ?length_splice; simpl; lia.
    + intros _. unfold splice. rewrite take_0. cbn [app].
      rewrite (take_app_length (oc_data o)). eexists. done.
  - assert (oc_data o = []) as Hd by (apply nil_length_inv; lia). rewrite Hd in *.
    eexists. split; [done|]. cbn. rewrite Ho1. split_and!; done.
Qed.

(** Options that leave the haggling open: everything but the export name and
    the abort. *)
Definition keeps_haggling (o : option_cmd) : Prop :=
  option_fits o /\ oc_option o <> NBD_OPT_EXPORT_NAME /\ oc_option o <> NBD_OPT_ABORT.

Definition option_answer (pl : context_pool) (o : option_cmd) : list byte :=
  if oc_option o =? NBD_OPT_LIST then wire_list pl
  else wire_option_reply (oc_option o) NBD_REP_ERR_UNSUP 0.

Lemma haggle_step_open cflags h o rest :
  haggle_ok h -> keeps_haggling o -> ibox (hg_net h) = option_bytes o ++ rest ->
  exists h', haggle_step plugin_mem ctx cflags h = Ok (Next (ctx, h')) /\ haggle_ok h' /\
    hg_lib h' = hg_lib h /\ hg_client h' = hg_client h /\ ibox (hg_net h') = rest /\
    obox (hg_net h') = obox (hg_net h) ++ answered (option_answer (l_pool (hg_lib h)) o).
Proof.
  intros Hok (Hfit & Hn1 & Hn2) Hin.
  destruct (haggle_step_spec cflags h o rest Hok Hfit Hin) as (h1 & -> & Hok1 & Hl & Hc & Hi & Ho & _).
  unfold handle_option, option_answer. rewrite (proj2 (Z.eqb_neq _ _) Hn1), (proj2 (Z.eqb_neq _ _) Hn2).
  rewrite <- Hl, <- Ho, <- Hc. case (Z.eqb_spec (oc_option o) NBD_OPT_LIST) as [->|Hn3].
  - unfold opt_list. destruct Hok1 as (H1 & H2 & H3 & Hp).
    pose proof (contexts_count_le _ Hp).
    destruct (list_loop_spec (lwnbd_contexts_count (l_pool (hg_lib h1))) 0 (l_pool (hg_lib h1))
      (hg_net h1) Hp) as (n1 & -> & Hi1 & Ho1); [lia|]. mred. cbn [negb].
    rewrite option_reply_empty.
    destruct (answer_sent (wire_option_reply NBD_OPT_LIST NBD_REP_ACK 0) 0 n1)
      as (n2 & -> & Hi2 & Ho2); [by left|by rewrite length_wire_option_reply|]. mred. cbn [negb].
    eexists. split; [done|]. cbn. rewrite Hi2, Ho2, Hi1, Ho1. split_and!; try done.
    unfold wire_list, slice. rewrite drop_0, noted_app. app_eq.
  - unfold opt_unsupported. rewrite option_reply_empty.
    destruct (answer_sent (wire_option_reply (oc_option o) NBD_REP_ERR_UNSUP 0) 0 (hg_net h1))
      as (n2 & -> & Hi2 & Ho2); [by left|by rewrite length_wire_option_reply|]. mred. cbn [negb].
    eexists. split; [done|]. cbn. rewrite Hi2, Ho2. by split_and!.
Qed.

Lemma haggle_options cflags os h rest k :
  haggle_ok h -> Forall keeps_haggling os ->
  ibox (hg_net h) = concat (option_bytes <$> os) ++ rest ->
  exists h', haggle_loop plugin_mem (length os + k) ctx cflags h
      = haggle_loop plugin_mem k ctx cflags h' /\ haggle_ok h' /\
    hg_lib h' = hg_lib h /\ hg_client h' = hg_client h /\ ibox (hg_net h') = rest /\
    obox (hg_net h') = obox (hg_net h) ++ answered (concat (option_answer (l_pool (hg_lib h)) <$> os)).
Proof.
  intros Hok Hos. revert h Hok. induction Hos as [|o os Ho Hos IH]; intros h Hok Hin.
  - exists h. cbn. rewrite noted_nil, app_nil_r. by split_and!.
  - rewrite fmap_cons in Hin. cbn [concat] in Hin. rewrite <- app_assoc in Hin.
    destruct (haggle_step_open cflags h o _ Hok Ho Hin) as (h1 & Hrun & Hok1 & Hl1 & Hc1 & Hi1 & Ho1).
    destruct (IH h1 Hok1 Hi1) as (h2 & Hrun2 & Hok2 & Hl2 & Hc2 & Hi2 & Ho2).
    exists h2. cbn [length Nat.add haggle_loop]. rewrite Hrun. mred.
    rewrite Hrun2, Hl2, Hl1, Hc2, Hc1, Hi2, Ho2, Ho1, Hl1. rewrite fmap_cons. cbn [concat].
    rewrite noted_app, <- app_assoc. by split_and!.
Qed.

(** ** The whole negotiation *)

Lemma le_combine_be_split n z :
  0 <= z < 256 ^ Z.of_nat n -> bswap n (le_combine (be_split n z)) = z.
Proof.
  intros. rewrite bswap_le_combine by apply length_be_split.
  by rewrite be_combine_split, Z.mod_small.
Qed.

Lemma greeting_wire :
  new_handshake_to_mem (mk_new_handshake (htobe64 NBD_MAGIC) (htobe64 NBD_NEW_VERSION)
    (htons (n_gflags ctx))) = wire_greeting (n_gflags ctx).
Proof.
  unfold new_handshake_to_mem, wire_greeting. cbn [hs_nbdmagic hs_version hs_gflags].
  by rewrite !le_split_bswap.
Qed.

Lemma length_wire_greeting g : length (wire_greeting g) = 18%nat.
Proof. unfold wire_greeting. by rewrite !length_app, !length_be_split. Qed.

(** A client that accepts the server's flags and sends [os] first. *)
Lemma handshake_options fuel os h rest cflags k :
  length cflags = 4%nat -> haggle_ok h -> 0 <= n_gflags ctx < 2 ^ 32 ->
  Forall keeps_haggling os -> fuel = (length os + k)%nat ->
  ibox (hg_net h) = be_split 4 (n_gflags ctx) ++ concat (option_bytes <$> os) ++ rest ->
  exists h', protocol_handshake plugin_mem fuel ctx cflags h
      = haggle_loop plugin_mem k ctx (n_gflags ctx) h' /\ haggle_ok h' /\
    hg_lib h' = hg_lib h /\ hg_client h' = hg_client h /\ ibox (hg_net h') = rest /\
    obox (hg_net h') = obox (hg_net h) ++ greeted (wire_greeting (n_gflags ctx)) ++
      answered (concat (option_answer (l_pool (hg_lib h)) <$> os)).
Proof.
  intros Hcf (H1 & H2 & H3 & H4) Hg Hos -> Hin. unfold protocol_handshake.
  rewrite greeting_wire, H3.
  destruct (send_checked_noted sock (wire_greeting (n_gflags ctx)) 0 (hg_net h)) as (n1 & -> & Hi1 & Ho1);
    [by left|by left|by rewrite length_wire_greeting|]. mred. cbn [negb set_hg_net hg_net].
  destruct (received n1 cflags 4 (be_split 4 (n_gflags ctx))
    (concat (option_bytes <$> os) ++ rest)) as (n2 & -> & Hi2 & Ho2);
    [by rewrite length_be_split|done|by rewrite Hcf, length_be_split|by rewrite Hi1|]. mred.
  cbn [set_hg_net hg_net].
  change (size_t (i32 4) <? 4) with false. cbn iota.
  replace (splice 0 (be_split 4 (n_gflags ctx)) cflags) with (be_split 4 (n_gflags ctx))
    by (unfold splice; rewrite take_0, drop_ge, app_nil_r by (by rewrite length_be_split, Hcf); done).
  rewrite le_combine_be_split by done. rewrite Z.eqb_refl. cbn [negb].
  destruct (haggle_options (n_gflags ctx) os
    (set_hg_net n2 (set_hg_net n1 h)) rest k) as (h' & -> & Hok' & Hl & Hc & Hi & Ho);
    [by split_and!|done|done|].
  exists h'. cbn in Hl, Hc, Ho. rewrite Hl, Hc, Ho, Ho2, Ho1, <- app_assoc. by split_and!.
Qed.

Lemma export_reply_wire :
  take (if negb (Z.land (n_gflags ctx) NBD_FLAG_NO_ZEROES =? 0)
        then offsetof_export_reply_zeroes else sizeof_export_reply)
    (export_reply_to_mem (mk_export_reply (htobe64 (c_exportsize (n_base ctx)))
      (if negb (n_readonly ctx =? 0) then htons (Z.lor (n_eflags ctx) NBD_FLAG_READ_ONLY)
       else htons (n_eflags ctx)) (replicate 124 x00))) = wire_export ctx.
Proof.
  unfold export_reply_to_mem, wire_export. cbn [er_exportsize er_eflags er_zeroes].
  rewrite le_split_bswap.
  assert (le_split 2 (if negb (n_readonly ctx =? 0)
      then htons (Z.lor (n_eflags ctx) NBD_FLAG_READ_ONLY) else htons (n_eflags ctx))
    = be_split 2 (if decide (n_readonly ctx = 0) then n_eflags ctx
                  else Z.lor (n_eflags ctx) NBD_FLAG_READ_ONLY)) as ->.
  { case (Z.eqb_spec (n_readonly ctx) 0) as [->|Hr]; cbn [negb];
      [rewrite decide_True by done|rewrite decide_False by done]; apply le_split_bswap. }
  case (Z.eqb_spec (Z.land (n_gflags ctx) NBD_FLAG_NO_ZEROES) 0) as [He|He]; cbn [negb].
  - destruct (decide (Z.land (n_gflags ctx) NBD_FLAG_NO_ZEROES = 0)); [|done]. apply take_ge.
    by rewrite !length_app, !length_be_split, length_replicate.
  - destruct (decide (Z.land (n_gflags ctx) NBD_FLAG_NO_ZEROES = 0)); [done|]. rewrite app_nil_r, app_assoc.
    apply take_app_length'. by rewrite length_app, !length_be_split.
Qed.

Lemma length_wire_export : Z.of_nat (length (wire_export ctx)) < 2 ^ 31.
Proof. unfold wire_export. rewrite !length_app, !length_be_split. case_decide; cbn; lia. Qed.

(** A negotiation that ends with an export name, noted by [peer]. *)
Lemma dialogue_noted os uri h rest cflags r s' k :
  length cflags = 4%nat -> haggle_ok h -> 0 <= n_gflags ctx < 2 ^ 32 ->
  Forall keeps_haggling os ->
  no_nul uri -> uri <> [] -> Z.of_nat (length uri) < MAX_REQUEST_SIZE ->
  ibox (hg_net h) = be_split 4 (n_gflags ctx) ++ concat (option_bytes <$> os) ++
    option_bytes (mk_option_cmd NBD_OPT_EXPORT_NAME uri) ++ rest ->
  open_export plugin_mem uri (hg_lib h) = Ok (r, s') ->
  exists ctx' h', protocol_handshake plugin_mem (length os + S k) ctx cflags h
      = Ok (match r with Some _ => 0 | None => -1 end, (ctx', h')) /\
    ibox (hg_net h') = rest /\ hg_lib h' = s' /\ hg_client h' = set_cl_ctx r (hg_client h) /\
    ctx' = (match r with Some _ => set_n_state TRANSMISSION ctx | None => ctx end) /\
    obox (hg_net h') = obox (hg_net h) ++ greeted (wire_greeting (n_gflags ctx)) ++
      answered (concat (option_answer (l_pool (hg_lib h)) <$> os) ++
        match r with Some _ => wire_export ctx | None => [] end).
Proof.
  intros Hcf Hok Hg Hos Hnn Hne Hlen Hin Hopen.
  destruct (handshake_options _ os h _ cflags (S k) Hcf Hok Hg Hos eq_refl Hin)
    as (h1 & -> & Hok1 & Hl1 & Hc1 & Hi1 & Ho1).
  cbn [haggle_loop].
  destruct (haggle_step_spec (n_gflags ctx) h1 (mk_option_cmd NBD_OPT_EXPORT_NAME uri) rest Hok1)
    as (h2 & -> & Hok2 & Hl2 & Hc2 & Hi2 & Ho2 & Hb2); [by split|done|].
  unfold handle_option. cbn [oc_option oc_data] in *. rewrite Z.eqb_refl. unfold opt_export_name.
  rewrite (proj2 (Z.ltb_lt _ _)) by (destruct uri; simpl; [done|lia]).
  destruct (Hb2 Hne) as [R ->].
  destruct Hok2 as (H1 & H2 & H3 & Hp).
  destruct (get_context_spec plugin_mem uri R (hg_lib h2) Hp Hnn) as (buf' & _ & ->).
  rewrite Hl2, Hl1, Hopen. mred. destruct r as [i|]; mred.
  - rewrite export_reply_wire. cbn [hg_net].
    destruct (answer_sent (wire_export ctx) 0 (hg_net h2)) as (n3 & -> & Hi3 & Ho3);
      [by left|apply length_wire_export|].
    mred. cbn [negb set_hg_net hg_net]. eexists _, _. split; [done|]. cbn.
    rewrite Ho3, Ho2, Ho1, Hi3, Hc2, Hc1, noted_app. split_and!; try done. app_eq.
  - eexists _, _. split; [done|]. cbn. rewrite Ho2, Ho1, Hc2, Hc1, app_nil_r. by split_and!.
Qed.

Lemma mismatch_noted fuel flags h rest cflags :
  length cflags = 4%nat -> cl_sock (hg_client h) = sock ->
  0 <= flags < 2 ^ 32 -> flags <> n_gflags ctx ->
  ibox (hg_net h) = be_split 4 flags ++ rest ->
  exists h', protocol_handshake plugin_mem fuel ctx cflags h = Ok (-1, (ctx, h')) /\
    hg_lib h' = hg_lib h /\ hg_client h' = hg_client h /\
    obox (hg_net h') = obox (hg_net h) ++ greeted (wire_greeting (n_gflags ctx)).
Proof.
  intros Hcf H3 Hg Hne Hin. unfold protocol_handshake.
  rewrite greeting_wire, H3.
  destruct (send_checked_noted sock (wire_greeting (n_gflags ctx)) 0 (hg_net h)) as (n1 & -> & Hi1 & Ho1);
    [by left|by left|by rewrite length_wire_greeting|]. mred. cbn [negb set_hg_net hg_net].
  destruct (received n1 cflags 4 (be_split 4 flags) rest) as (n2 & -> & Hi2 & Ho2);
    [by rewrite length_be_split|done|by rewrite Hcf, length_be_split|by rewrite Hi1|]. mred.
  change (size_t (i32 4) <? 4) with false. cbn iota.
  replace (splice 0 (be_split 4 flags) cflags) with (be_split 4 flags)
    by (unfold splice; rewrite take_0, drop_ge, app_nil_r by (by rewrite length_be_split, Hcf); done).
  rewrite le_combine_be_split by done. rewrite (proj2 (Z.eqb_neq _ _) Hne). cbn [negb].
  eexists. split; [done|]. cbn. by rewrite Ho2, Ho1.
Qed.

End exchange_spec.

(** C8: a client that accepts the flags, asks any questions and then names an
    export: its socket is sent the greeting; the socket of the server's handle
    is sent one answer per option and, if the name opens an export, the size and
    the flags of the server's handle (not of that export, which only the client
    record is told of), and the handle moves to the transmission phase.  If the
    name opens nothing the session ends without that last answer. *)
Theorem handshake_negotiates `{CFG : NbdConfig} {CFGok : NbdConfigOk} {W Cfg : Type}
    (plugin_mem : nat -> lwnbd_plugin_t W Cfg) {N : Type} `{CB : Callbacks N}
    (sock : Z) (ctx : lwnbd_context_nbd_t) (ibox : N -> list byte) (said : Z -> N -> list byte)
    (os : list option_cmd) (uri : list byte) (h : haggle W N) (rest cflags : list byte) r s' :
  (forall peer, exchange sock (n_sock ctx) peer ibox (said peer)) ->
  length cflags = 4%nat -> haggle_ok sock h -> 0 <= n_gflags ctx < 2 ^ 32 ->
  Forall keeps_haggling os ->
  no_nul uri -> uri <> [] -> Z.of_nat (length uri) < MAX_REQUEST_SIZE ->
  ibox (hg_net h) = be_split 4 (n_gflags ctx) ++ concat (option_bytes <$> os) ++
    option_bytes (mk_option_cmd NBD_OPT_EXPORT_NAME uri) ++ rest ->
  open_export plugin_mem uri (hg_lib h) = Ok (r, s') ->
  exists ctx' h', protocol_handshake plugin_mem (length os + 1) ctx cflags h
      = Ok (match r with Some _ => 0 | None => -1 end, (ctx', h')) /\
    ibox (hg_net h') = rest /\ hg_lib h' = s' /\ cl_ctx (hg_client h') = r /\
    ctx' = (match r with Some _ => set_n_state TRANSMISSION ctx | None => ctx end) /\
    forall peer, said peer (hg_net h') = said peer (hg_net h) ++
      noted peer sock (wire_greeting (n_gflags ctx)) ++
      noted peer (n_sock ctx) (concat (option_answer (l_pool (hg_lib h)) <$> os) ++
        match r with Some _ => wire_export ctx | None => [] end).
Proof.
  intros HX Hcf Hok Hg Hos Hnn Hne Hlen Hin Hopen.
  pose proof (fun peer => dialogue_noted plugin_mem sock ctx peer ibox (said peer) (HX peer) os uri h rest
    cflags r s' 0 Hcf Hok Hg Hos Hnn Hne Hlen Hin Hopen) as H.
  destruct (H sock) as (ctx' & h' & Hrun & Hi & Hl & Hc & Hctx & _).
  exists ctx', h'. rewrite Hc. split_and!; [done..|]. intros peer.
  destruct (H peer) as (ctx2 & h2 & Hrun2 & _ & _ & _ & _ & Ho). rewrite Hrun in Hrun2.
  by injection Hrun2 as -> ->.
Qed.

(** ** A handle that holds the client's socket *)

Section handshake_spec.
Context `{CFG : NbdConfig} {CFGok : NbdConfigOk}.
Context {W Cfg : Type} (plugin_mem : nat -> lwnbd_plugin_t W Cfg).
Context {N : Type} `{CB : Callbacks N} (sock : Z) {T : Transport N sock}.
Context (ctx : lwnbd_context_nbd_t) (Hsock : n_sock ctx = sock).
Implicit Types (h : haggle W N).

Local Abbreviation ibox := (inbox sock).
Local Abbreviation obox := (outbox sock).

Lemma own_exchange : exchange sock (n_sock ctx) sock ibox obox.
Proof. rewrite Hsock. apply transport_exchange. Qed.

Lemma noted_answer d : noted sock (n_sock ctx) d = d.
Proof. rewrite Hsock. apply noted_own. Qed.

Lemma handshake_dialogue os uri h rest cflags r s' k :
  length cflags = 4%nat -> haggle_ok sock h -> 0 <= n_gflags ctx < 2 ^ 32 ->
  Forall keeps_haggling os ->
  no_nul uri -> uri <> [] -> Z.of_nat (length uri) < MAX_REQUEST_SIZE ->
  ibox (hg_net h) = be_split 4 (n_gflags ctx) ++ concat (option_bytes <$> os) ++
    option_bytes (mk_option_cmd NBD_OPT_EXPORT_NAME uri) ++ rest ->
  open_export plugin_mem uri (hg_lib h) = Ok (r, s') ->
  exists ctx' h', protocol_handshake plugin_mem (length os + S k) ctx cflags h
      = Ok (match r with Some _ => 0 | None => -1 end, (ctx', h')) /\
    ibox (hg_net h') = rest /\ hg_lib h' = s' /\ hg_client h' = set_cl_ctx r (hg_client h) /\
    ctx' = (match r with Some _ => set_n_state TRANSMISSION ctx | None => ctx end) /\
    obox (hg_net h') = obox (hg_net h) ++ (wire_greeting (n_gflags ctx) ++
      concat (option_answer (l_pool (hg_lib h)) <$> os)) ++
      (match r with Some _ => wire_export ctx | None => [] end).
Proof.
  intros Hcf Hok Hg Hos Hnn Hne Hlen Hin Hopen.
  destruct (dialogue_noted plugin_mem sock ctx sock ibox obox own_exchange os uri h rest cflags r s' k
    Hcf Hok Hg Hos Hnn Hne Hlen Hin Hopen) as (ctx' & h' & Hrun & Hi & Hl & Hc & Hctx & Ho).
  exists ctx', h'. rewrite Ho, noted_answer, noted_own. split_and!; [done..|]. app_eq.
Qed.

(** An abort is acknowledged and ends the negotiation with the state
    [ABORT]. *)
Theorem handshake_abort os data h rest cflags :
  length cflags = 4%nat -> haggle_ok sock h -> 0 <= n_gflags ctx < 2 ^ 32 ->
  Forall keeps_haggling os -> Z.of_nat (length data) < MAX_REQUEST_SIZE ->
  ibox (hg_net h) = be_split 4 (n_gflags ctx) ++ concat (option_bytes <$> os) ++
    option_bytes (mk_option_cmd NBD_OPT_ABORT data) ++ rest ->
  exists h', protocol_handshake plugin_mem (length os + 1) ctx cflags h
      = Ok (0, (set_n_state ABORT ctx, h')) /\
    hg_lib h' = hg_lib h /\
    obox (hg_net h') = obox (hg_net h) ++ wire_greeting (n_gflags ctx) ++
      concat (option_answer (l_pool (hg_lib h)) <$> os) ++
      wire_option_reply NBD_OPT_ABORT NBD_REP_ACK 0.
Proof.
  intros Hcf Hok Hg Hos Hlen Hin.
  destruct (handshake_options plugin_mem sock ctx sock ibox obox own_exchange _ os h _ cflags 1 Hcf Hok Hg Hos eq_refl Hin)
    as (h1 & -> & Hok1 & Hl1 & Hc1 & Hi1 & Ho1).
  cbn [haggle_loop].
  destruct (haggle_step_spec plugin_mem sock ctx sock ibox obox own_exchange (n_gflags ctx) h1 (mk_option_cmd NBD_OPT_ABORT data) rest Hok1)
    as (h2 & -> & Hok2 & Hl2 & Hc2 & Hi2 & Ho2 & _); [by split|done|].
  unfold handle_option. cbn [oc_option NBD_OPT_ABORT NBD_OPT_EXPORT_NAME Z.eqb Pos.eqb].
  unfold opt_abort. rewrite option_reply_empty.
  destruct (answer_sent sock ctx sock ibox obox own_exchange (wire_option_reply NBD_OPT_ABORT NBD_REP_ACK 0) 0 (hg_net h2))
    as (n3 & -> & Hi3 & Ho3); [by left|by rewrite length_wire_option_reply|].
  mred. cbn [negb]. eexists. split; [done|]. cbn.
  rewrite Ho3, Ho2, Ho1, Hl2, Hl1, !noted_answer, noted_own. split; [done|]. app_eq.
Qed.

Lemma greeting_mismatch fuel flags h rest cflags :
  length cflags = 4%nat -> cl_sock (hg_client h) = sock ->
  0 <= flags < 2 ^ 32 -> flags <> n_gflags ctx ->
  ibox (hg_net h) = be_split 4 flags ++ rest ->
  exists h', protocol_handshake plugin_mem fuel ctx cflags h = Ok (-1, (ctx, h')) /\
    hg_lib h' = hg_lib h /\ hg_client h' = hg_client h /\
    obox (hg_net h') = obox (hg_net h) ++ wire_greeting (n_gflags ctx).
Proof.
  intros Hcf H3 Hg Hne Hin.
  destruct (mismatch_noted plugin_mem sock ctx sock ibox obox own_exchange fuel flags h rest cflags Hcf H3 Hg
    Hne Hin) as (h' & ? & ? & ? & Ho).
  exists h'. by rewrite Ho, noted_own.
Qed.

(** A client whose flags are not exactly the server's is dropped after the
    greeting. *)
Theorem handshake_flags_mismatch fuel flags h rest cflags :
  length cflags = 4%nat -> haggle_ok sock h -> 0 <= flags < 2 ^ 32 -> flags <> n_gflags ctx ->
  ibox (hg_net h) = be_split 4 flags ++ rest ->
  exists h', protocol_handshake plugin_mem fuel ctx cflags h = Ok (-1, (ctx, h')) /\
    hg_lib h' = hg_lib h /\ obox (hg_net h') = obox (hg_net h) ++ wire_greeting (n_gflags ctx).
Proof.
  intros Hcf (H1 & H2 & H3 & H4) Hg Hne Hin.
  destruct (greeting_mismatch fuel flags h rest cflags Hcf H3 Hg Hne Hin) as (h' & ? & ? & _ & ?).
  by exists h'.
Qed.

(** ** Inputs the haggling mishandles *)

(** Receiving an option header, before its data. *)
Lemma haggle_step_header cflags h option optlen rest :
  haggle_ok sock h -> 0 <= option < 2 ^ 32 -> 0 <= optlen < 2 ^ 32 ->
  ibox (hg_net h) = wire_option option optlen ++ rest ->
  exists n1, ibox n1 = rest /\ obox n1 = obox (hg_net h) /\
    haggle_step plugin_mem ctx cflags h
    = (_ ← nbd_option_to_string option;
       let h := mk_haggle (new_option_to_mem (mk_new_option NBD_NEW_VERSION option optlen))
                  (hg_buffer h) (hg_client h) n1 (hg_lib h) in
       if MAX_REQUEST_SIZE <? optlen then Ok (Return (-1) (ctx, h))
       else if 0 <? optlen then
         '(size, buf, net) ← sync_recv_cb sock (hg_buffer h) optlen n1;
         let h := mk_haggle (hg_opt h) buf (hg_client h) net (hg_lib h) in
         if u32 (i32 size) <? optlen then Ok (Return (-1) (ctx, h))
         else
           buf ← store_at (Z.to_nat optlen) [x00] buf;
           handle_option plugin_mem ctx cflags option optlen
             (mk_haggle (hg_opt h) buf (hg_client h) net (hg_lib h))
       else handle_option plugin_mem ctx cflags option optlen h).
Proof.
  intros (Hm & Hb & Hcs & Hp) Hopt Hlen Hin. unfold haggle_step. rewrite Hcs.
  destruct (transport_recv sock (hg_net h) (hg_opt h) (Z.of_nat sizeof_nbd_new_option)
    (wire_option option optlen) rest)
    as (n1 & -> & Hi1 & Ho1); [done|done|by rewrite Hm, length_wire_option|done|]. mred.
  replace (splice 0 (wire_option option optlen) (hg_opt h)) with (wire_option option optlen)
    by (unfold splice; rewrite take_0, drop_ge, app_nil_r by (by rewrite length_wire_option, Hm); done).
  rewrite new_option_of_wire. cbn [op_version op_option op_optlen].
  rewrite !bswap_bswap. change (256 ^ Z.of_nat 4) with (2 ^ 32).
  rewrite (Z.mod_small NBD_NEW_VERSION) by done. rewrite !Z.mod_small by lia.
  exists n1. split_and!; [done..|].
  change (size_t (i32 (Z.of_nat sizeof_nbd_new_option)) <? Z.of_nat sizeof_nbd_new_option) with false.
  cbn iota. change (NBD_NEW_VERSION =? NBD_NEW_VERSION) with true. cbn [negb].
  destruct (nbd_option_to_string option); mred; done.
Qed.

(** C39: option data that fill the buffer exactly are accepted, and the NUL that
    terminates them is written one byte past its end. *)
Theorem full_option_overflows cflags h option data rest :
  haggle_ok sock h -> 0 <= option < 10 -> Z.of_nat (length data) = MAX_REQUEST_SIZE ->
  ibox (hg_net h) = wire_option option (Z.of_nat (length data)) ++ data ++ rest ->
  haggle_step plugin_mem ctx cflags h = Fault OutOfBounds.
Proof.
  intros Hok Hopt Hlen Hin. destruct CFGok as [Hc1 Hc2 Hc3].
  destruct (haggle_step_header cflags h option (Z.of_nat (length data)) (data ++ rest) Hok
    ltac:(lia) ltac:(lia) Hin)
    as (n1 & Hi1 & Ho1 & ->).
  destruct (nbd_options_known option Hopt) as [r ->]. mred. destruct Hok as (Hm & Hb & Hcs & Hp).
  rewrite (proj2 (Z.ltb_ge _ _)), (proj2 (Z.ltb_lt _ _)) by lia. cbn [hg_buffer].
  destruct (transport_recv sock n1 (hg_buffer h) (Z.of_nat (length data)) data rest)
    as (n2 & -> & Hi2 & Ho2); [done|lia|lia|done|]. mred.
  rewrite swrap_small, wrap_small, Z.ltb_irrefl by lia. rewrite Nat2Z.id.
  unfold store_at. rewrite decide_False; [done|]. rewrite length_splice by lia. cbn. lia.
Qed.

(** The last option of the protocol header, [NBD_OPT_SET_META_CONTEXT],
    is beyond the table of names. *)
Theorem set_meta_context_out_of_bounds cflags h optlen rest :
  haggle_ok sock h -> 0 <= optlen < 2 ^ 32 ->
  ibox (hg_net h) = wire_option NBD_OPT_SET_META_CONTEXT optlen ++ rest ->
  haggle_step plugin_mem ctx cflags h = Fault OutOfBounds.
Proof.
  intros Hok Hlen Hin.
  by destruct (haggle_step_header cflags h NBD_OPT_SET_META_CONTEXT _ _ Hok ltac:(done) Hlen Hin)
    as (n1 & Hi1 & Ho1 & ->).
Qed.
End handshake_spec.
