(* ===== verification/HandshakeSafety.v ===== *)
(** * The handshake against any client

    [HandshakeSpec] follows a client that keeps to the protocol; here the bytes
    that arrive are arbitrary and the network may fail, on the socket of the
    client and on the one of the server's handle.  The ways to undefined
    behaviour are the options above the table of names, the data that fill the
    buffer, and the names that select a context without a plugin: one that
    [lwnbd_new_context] has made and nobody filled, as the server itself makes
    one for every connection. *)

From S2P Require Export HandshakeSpec.
From stdpp Require Import relations.
#[local] Open Scope Z_scope.

Section safety.
Context `{CFG : NbdConfig} {CFGok : NbdConfigOk}.
Context {W Cfg : Type} (plugin_mem : nat -> lwnbd_plugin_t W Cfg).
Context {N : Type} `{CB : Callbacks N} (sock : Z).
Context (ctx : lwnbd_context_nbd_t) (Hnet : answers (N := N) sock).
Context (Hans : forall d flags (net : N), completes (fun _ => True) (sync_send_cb (n_sock ctx) d flags net)).
(** The states of the library, in which every name can be looked up that does
    not select a context without plugin. *)
Context (libs : lib W -> Prop) (Hlibs : forall s, libs s -> pool_ok (l_pool s)).

(** The name selects a context that has no plugin. *)
Definition unopenable (uri : list byte) (s : lib W) : bool :=
  match export_named (l_pool s) (uri_path uri) with
  | Some (_, c) => match c_p c with None => true | Some _ => false end
  | None => false
  end.

Context (Hopen : forall uri s, libs s -> no_nul uri -> unopenable uri s = false ->
  completes (fun '(_, s') => libs s') (open_export plugin_mem uri s)).
Implicit Types (h : haggle W N).

Definition haggle_safe h : Prop :=
  length (hg_opt h) = sizeof_nbd_new_option /\
  Z.of_nat (length (hg_buffer h)) = MAX_REQUEST_SIZE /\
  cl_sock (hg_client h) = sock /\ libs (hg_lib h).

(** What a step leaves, however it ends. *)
Definition haggled (c : ctl (lwnbd_context_nbd_t * haggle W N)) : Prop :=
  match c with
  | Next (ctx', h) => ctx' = ctx /\ haggle_safe h
  | Break _ => False
  | Return _ (_, h) => haggle_safe h
  end.

Lemma greeting_completes d flags (net : N) :
  completes (fun _ => True) (send_checked sock d flags net).
Proof. unfold send_checked. eapply completes_bind; [apply (an_send _ Hnet)|]. by intros [size net'] _. Qed.

Lemma send_checked_completes d flags (net : N) :
  completes (fun _ => True) (send_checked (n_sock ctx) d flags net).
Proof. unfold send_checked. eapply completes_bind; [apply Hans|]. by intros [size net'] _. Qed.

Lemma list_entry_completes option x (net : N) :
  context_ok x -> completes (fun _ => True) (list_entry ctx option x net).
Proof.
  intros (_ & [name Hn] & _ & [desc Hd]). unfold list_entry. rewrite Hn, Hd. mred.
  do 3 (eapply completes_bind; [apply send_checked_completes|]; intros [[|] ?] _; [cbn [negb]|done]).
  apply send_checked_completes.
Qed.

Lemma list_loop_completes n i option pl (net : N) :
  pool_ok pl -> (i + n <= MAX_CONTEXTS)%nat ->
  completes (fun _ => True) (list_loop n i ctx option pl net).
Proof.
  intros Hp. revert i net; induction n as [|n IH]; intros i net Hi; cbn [list_loop]; [done|].
  unfold context_at, lwnbd_get_context_i.
  destruct (context_at_ok pl i Hp) as (x & Hx & Hok); [lia|]. rewrite Hx. mred.
  eapply completes_bind; [by apply list_entry_completes|]. intros [[|] net'] _; [|done]. cbn [negb].
  apply IH. lia.
Qed.

(** A NUL in the buffer makes it a string. *)
Lemma buffer_string (buf : list byte) off :
  (off < length buf)%nat -> exists uri R, splice off [x00] buf = uri ++ x00 :: R /\ no_nul uri.
Proof.
  intros Ho. destruct (list_elem_of_split_l (splice off [x00] buf) x00) as (uri & R & -> & Hn).
  - unfold splice. set_solver.
  - by exists uri, R.
Qed.

Lemma opt_export_name_safe cflags optlen h :
  haggle_safe h ->
  (0 < optlen -> exists uri R, hg_buffer h = uri ++ x00 :: R /\ no_nul uri /\
     unopenable uri (hg_lib h) = false) ->
  completes haggled (opt_export_name plugin_mem ctx cflags optlen h).
Proof.
  intros (Ho & Hb & Hs & Hl) Hstr. unfold opt_export_name.
  apply (completes_bind (fun '(_, buf, s) => Z.of_nat (length buf) = MAX_REQUEST_SIZE /\ libs s)).
  - destruct (Z.ltb_spec 0 optlen) as [Hpos|]; [|done].
    destruct (Hstr Hpos) as (uri & R & Hbuf & Hnn & Hun). rewrite Hbuf.
    destruct (get_context_spec plugin_mem uri R (hg_lib h) (Hlibs _ Hl) Hnn) as (buf' & Hlen & ->).
    eapply completes_bind; [by apply Hopen|]. intros [r s'] Hs'. cbn. split; [|done].
    by rewrite Hlen, <- Hbuf.
  - intros [[oc buf] s] [Hb' Hl']. destruct oc; [|done].
    eapply completes_bind; [apply send_checked_completes|]. by intros [[|] net] _.
Qed.

Lemma handle_option_safe cflags option optlen h :
  haggle_safe h ->
  (option = NBD_OPT_EXPORT_NAME -> 0 < optlen -> exists uri R, hg_buffer h = uri ++ x00 :: R /\ no_nul uri /\
     unopenable uri (hg_lib h) = false) ->
  completes haggled (handle_option plugin_mem ctx cflags option optlen h).
Proof.
  intros Hh Hstr. unfold handle_option. destruct (Z.eqb_spec option NBD_OPT_EXPORT_NAME); [apply opt_export_name_safe; auto|].
  destruct (_ =? NBD_OPT_ABORT).
  { unfold opt_abort. eapply completes_bind; [apply send_checked_completes|]. by intros [[|] net] _. }
  destruct (_ =? NBD_OPT_LIST).
  - unfold opt_list. destruct Hh as (Ho & Hb & Hs & Hl). pose proof (Hlibs _ Hl) as Hp.
    pose proof (contexts_count_le _ Hp). eapply completes_bind; [apply list_loop_completes; [done|lia]|].
    intros [[|] net] _; [|done]. cbn [negb].
    eapply completes_bind; [apply send_checked_completes|]. by intros [[|] net'] _.
  - unfold opt_unsupported. eapply completes_bind; [apply send_checked_completes|].
    by intros [[|] net] _.
Qed.

(** ** One option *)

(** The header the memory of [new_opt] holds after the receive. *)
Definition received_option h : outcome nbd_new_option :=
  '(_, m, _) ← sync_recv_cb sock (hg_opt h) (Z.of_nat sizeof_nbd_new_option) (hg_net h);
  Ok (new_option_of_mem m).

(** The name the server looks up, when the data of the option arrive in full:
    they are terminated at [optlen] and read up to the first NUL. *)
Definition received_name h : outcome (list byte) :=
  '(_, m, net) ← sync_recv_cb sock (hg_opt h) (Z.of_nat sizeof_nbd_new_option) (hg_net h);
  let optlen := htonl (op_optlen (new_option_of_mem m)) in
  '(size, buf, _) ← sync_recv_cb sock (hg_buffer h) optlen net;
  _ ← outcome_require (optlen <= u32 (i32 size)) OutOfBounds;
  buf ← store_at (Z.to_nat optlen) [x00] buf;
  of_option Unterminated (c_str buf).

(** An option the code is not prepared for. *)
Definition header_hazard (o : nbd_new_option) : Prop :=
  Z.of_nat (length nbd_options) <= htonl (op_option o) \/ htonl (op_optlen o) = MAX_REQUEST_SIZE.

Definition name_hazard h (o : nbd_new_option) : Prop :=
  htonl (op_option o) = NBD_OPT_EXPORT_NAME /\ 0 < htonl (op_optlen o) /\
  match received_name h with Ok uri => unopenable uri (hg_lib h) = true | Fault _ => False end.

Definition option_hazard h : Prop :=
  match received_option h with Ok o => header_hazard o \/ name_hazard h o | Fault _ => False end.

#[local] Instance option_hazard_dec h : Decision (option_hazard h).
Proof.
  unfold option_hazard, header_hazard, name_hazard.
  destruct (received_option h); [|apply _]. destruct (received_name h); apply _.
Defined.

Lemma haggle_step_safe cflags h :
  haggle_safe h -> ~ option_hazard h -> completes haggled (haggle_step plugin_mem ctx cflags h).
Proof.
  intros (Ho & Hb & Hs & Hl) Hhz. pose proof cfg_request.
  unfold haggle_step, option_hazard, header_hazard, name_hazard, received_option, received_name in *. rewrite Hs.
  pose proof (an_recv _ Hnet (hg_opt h) (Z.of_nat sizeof_nbd_new_option) (hg_net h)) as Hr.
  destruct (sync_recv_cb _ (hg_opt h) _ _) as [[[size m] net]|e]; [|by apply Hr; rewrite ?Ho].
  cbn [completes] in Hr. cbn [mbind outcome_bind] in Hhz. mred.
  assert (length m = sizeof_nbd_new_option) as Hm by (rewrite Hr; rewrite ?Ho; done).
  destruct (_ <? _); [done|].
  destruct (negb _); [by split; [apply length_new_option_to_mem|]|].
  unfold nbd_option_to_string.
  pose proof (bswap_range 4 (op_option (new_option_of_mem m))) as Hopt.
  pose proof (bswap_range 4 (op_optlen (new_option_of_mem m))) as Hlen.
  set (option := bswap 4 (op_option _)) in *. set (optlen := bswap 4 (op_optlen _)) in *.
  destruct (lookup_lt_is_Some_2 nbd_options (Z.to_nat option)) as [s ->]; [lia|]. mred.
  destruct (Z.ltb_spec MAX_REQUEST_SIZE optlen); [by split; [apply length_new_option_to_mem|]|].
  destruct (Z.ltb_spec 0 optlen) as [Hpos|].
  - cbn [hg_buffer hg_net hg_opt hg_client hg_lib].
    pose proof (an_recv _ Hnet (hg_buffer h) optlen net ltac:(lia) ltac:(lia)) as Hr2.
    destruct (sync_recv_cb _ (hg_buffer h) _ _) as [[[size' buf] net']|e]; [|done].
    cbn [completes] in Hr2. cbn [mbind outcome_bind] in Hhz. mred.
    destruct (Z.ltb_spec (u32 (i32 size')) optlen);
      [split_and!; cbn; [apply length_new_option_to_mem|by rewrite Hr2|done..]|].
    rewrite store_at_fits in * by (cbn; lia). mred.
    apply handle_option_safe.
    + split_and!; [apply length_new_option_to_mem| |done|done]. cbn. rewrite length_splice; cbn; lia.
    + intros Hname _. cbn [hg_buffer hg_lib].
      destruct (buffer_string buf (Z.to_nat optlen)) as (uri & R & Hbuf & Hnn); [lia|].
      exists uri, R. split; [done|]. split; [done|]. apply not_true_is_false. intros Hun. apply Hhz. right.
      split; [done|]. split; [done|]. rewrite require_true by done. cbn [mbind outcome_bind].
      rewrite Hbuf. by rewrite c_str_app.
  - apply handle_option_safe; [by split; [apply length_new_option_to_mem|]|]. lia.
Qed.

(** ** The phase *)

Definition haggle_turn (cflags : Z) h h' : Prop :=
  ~ option_hazard h /\ haggle_step plugin_mem ctx cflags h = Ok (Next (ctx, h')).

Definition meets_option_hazard (cflags : Z) h : Prop :=
  exists h', rtc (haggle_turn cflags) h h' /\ option_hazard h'.

Lemma haggle_loop_safe fuel cflags h :
  haggle_safe h ->
  completes (fun '(_, (_, h')) => haggle_safe h') (haggle_loop plugin_mem fuel ctx cflags h) \/
  meets_option_hazard cflags h.
Proof.
  revert h; induction fuel as [|fuel IH]; intros h Hh; [by left|]. cbn [haggle_loop].
  destruct (decide (option_hazard h)) as [Hhz|Hhz]; [right; by exists h|].
  pose proof (haggle_step_safe cflags h Hh Hhz) as Hs. unfold meets_option_hazard, haggle_turn in *.
  destruct (haggle_step plugin_mem ctx cflags h) as [[[ctx' h']|c|r [ctx' h']]|e] eqn:E; cbn in Hs |- *;
    [|done|by left|by left].
  destruct Hs as [-> Hh']. destruct (IH h' Hh') as [Hl|(h2 & Hst & Hrq)]; [by left|].
  right. exists h2. split; [|done]. by eapply rtc_l.
Qed.

(** The greeting and the client's flags went through, and the options that
    follow lead to a hazard. *)
Definition negotiation_hazard (cflags : list byte) h : Prop :=
  exists n1 n2 size m, send_checked sock (wire_greeting (n_gflags ctx)) 0 (hg_net h) = Ok (true, n1) /\
    sync_recv_cb sock cflags 4 n1 = Ok (size, m, n2) /\
    meets_option_hazard (n_gflags ctx) (set_hg_net n2 h).

Lemma protocol_handshake_safe fuel cflags h :
  length cflags = 4%nat -> haggle_safe h ->
  completes (fun '(_, (_, h')) => haggle_safe h') (protocol_handshake plugin_mem fuel ctx cflags h) \/
  negotiation_hazard cflags h.
Proof.
  intros Hc Hh. pose proof Hh as (Ho & Hb & Hs & Hl). unfold protocol_handshake.
  rewrite Hs, greeting_wire.
  pose proof (greeting_completes (wire_greeting (n_gflags ctx)) 0 (hg_net h)) as Hsend.
  destruct (send_checked sock _ _ _) as [[ok n1]|e] eqn:Es; [|by left]. mred.
  destruct ok; [|by left]. cbn [negb set_hg_net hg_net].
  pose proof (an_recv _ Hnet cflags 4 n1) as Hr.
  destruct (sync_recv_cb _ _ _ _) as [[[size m] n2]|e] eqn:E; [|left; apply Hr; rewrite ?Hc; done]. mred.
  destruct (_ <? _); [by left|]. destruct (Z.eqb_spec (htonl (le_combine m)) (n_gflags ctx)) as [->|]; [|by left].
  cbn [negb]. destruct (haggle_loop_safe fuel (n_gflags ctx) (set_hg_net n2 (set_hg_net n1 h)) Hh) as [?|?];
    [by left|right; by exists n1, n2, size, m].
Qed.
End safety.

(** Libraries in which a plugin can be asked for every export that has one: the
    callbacks for queries and for the size return, under an invariant of the
    plugins.  Contexts without plugin are allowed. *)
Section openable.
Context {W Cfg : Type} (plugin_mem : nat -> lwnbd_plugin_t W Cfg) (inv : W -> Prop).

Definition answers_queries (a : nat) (h : handle_ptr) : Prop :=
  (forall query params n w, pl_query (plugin_mem a) = Some query -> inv w ->
     completes (fun '(_, w') => inv w') (query h params n w)) /\
  exists get_size, pl_get_size (plugin_mem a) = Some get_size /\
    forall w, inv w -> completes (fun '(_, w') => inv w') (get_size h w).

Definition openable (s : lib W) : Prop :=
  pool_ok (l_pool s) /\ inv (l_world s) /\
  forall i c a, contexts (l_pool s) !! i = Some c -> c_p c = Some a -> answers_queries a (c_handle c).

Lemma openable_world w s : openable s -> inv w -> openable (set_world w s).
Proof. by intros (Hp & _ & Hc) Hw. Qed.

(** The context [lwnbd_new_context] hands out changes none of this. *)
Lemma openable_new_context s : openable s -> openable (set_pool (lwnbd_new_context (l_pool s)).2 s).
Proof.
  intros (Hp & Hw & Ha). pose proof (new_context_spec _ Hp) as H. cbn zeta in H. case_decide.
  - rewrite H. by split.
  - destruct H as (pl' & -> & Hp' & Hcs & _). split; [done|]. split; [done|].
    intros i c a. cbn. rewrite Hcs. apply Ha.
Qed.

Lemma openable_size i c sz s :
  openable s -> contexts (l_pool s) !! i = Some c ->
  openable (set_pool (update_context i (set_c_exportsize sz c) (l_pool s)) s).
Proof.
  intros (Hp & Hw & Ha) Hc. split; [|split; [done|]].
  - apply update_context_ok; [done|]. destruct Hp as (_ & Hall & _).
    exact (proj1 (Forall_lookup _ _) Hall i c Hc).
  - intros j c' a Hc' Hca. cbn in Hc'. apply list_lookup_insert_Some in Hc' as [(<- & <- & _)|[_ Hc']].
    + by apply (Ha i c a).
    + by apply (Ha j c' a).
Qed.

Lemma open_export_completes uri s :
  openable s -> unopenable uri s = false ->
  completes (fun '(_, s') => openable s') (open_export plugin_mem uri s).
Proof.
  intros Hs Hun. pose proof Hs as (Hp & Hw & Ha). unfold open_export, unopenable in *.
  destruct (export_named _ _) as [[i c]|] eqn:E; [|done]. apply export_named_Some in E as Hc.
  destruct (c_p c) as [a|] eqn:Hca; [|done]. mred.
  destruct (Ha i c a Hc Hca) as (Hq & get_size & Hsz & Hget).
  destruct (uri_params uri) as [params n].
  apply (completes_bind (fun '(_, w) => inv w)).
  { destruct (pl_query (plugin_mem a)) as [query|] eqn:Eq; [by apply (Hq query)|done]. }
  intros [ret w] Hw'. destruct (negb _); [by apply openable_world|].
  unfold lwnbd_update_size, method. rewrite Hca. mred. rewrite Hsz. mred.
  pose proof (Hget w Hw') as Hg. destruct (get_size (c_handle c) w) as [[sz w']|e]; [|done]. mred.
  apply (openable_size i c sz (set_world w' s)); [|done]. by apply openable_world.
Qed.
End openable.

