(* ===== verification/Nbd.v ===== *)
(** * The NBD server: [servers/nbd/nbd.c]

    The server's handle, its configuration, the transmission flags it derives
    from a plugin, and the loop that drives a connection through its phases. *)

From S2P Require Export TransmissionSpec HandshakeSpec Handles.

Definition NBD_SERVER_MAX_DEVICES : nat := 3.

Section nbd.
Context `{CFG : NbdConfig} {W Cfg : Type} (plugin_mem : nat -> lwnbd_plugin_t W Cfg).
Implicit Types (ctx : lwnbd_context_nbd_t).

(** ** Transmission flags *)

Definition eflags_of (p : lwnbd_plugin_t W Cfg) : Z :=
  let eflags := NBD_FLAG_HAS_FLAGS in
  let eflags := match pl_pwrite p with None => Z.lor eflags NBD_FLAG_READ_ONLY | Some _ => eflags end in
  match pl_flush p with Some _ => Z.lor eflags NBD_FLAG_SEND_FLUSH | None => eflags end.

Definition nbdify_context ctx (w : W) : outcome (lwnbd_context_nbd_t * W) :=
  a ← of_option NullDeref (c_p (n_base ctx));
  let p := plugin_mem a in
  '(minimum, preferred, maximum, w) ←
    (match pl_block_size p with
     | Some block_size => block_size (c_handle (n_base ctx)) w
     | None => Ok (512, 512, 512, w)
     end);
  Ok (mk_nbd_context (n_base ctx) (eflags_of p) minimum preferred maximum (n_gflags ctx)
        (n_readonly ctx) (n_preinit ctx) (n_sock ctx) (n_state ctx), w).

(** ** Handles and configuration *)

(** [&handles[i]] as an index: the address after the array when no handle is
    free. *)
Definition nbd_new (handle_in_use : list handle_state_t) : nat * list handle_state_t :=
  claim_handle handle_in_use.

Definition nbd_config (key value : list byte) ctx : Z * lwnbd_context_nbd_t :=
  if strcmp key (bs "readonly") =? 0 then
    (0, mk_nbd_context (n_base ctx) (n_eflags ctx) (n_minimum_block_size ctx)
          (n_preferred_block_size ctx) (n_maximum_block_size ctx) (n_gflags ctx) 1
          (n_preinit ctx) (n_sock ctx) (n_state ctx))
  else if strcmp key (bs "preinit") =? 0 then
    (0, mk_nbd_context (n_base ctx) (n_eflags ctx) (n_minimum_block_size ctx)
          (n_preferred_block_size ctx) (n_maximum_block_size ctx) (n_gflags ctx) (n_readonly ctx)
          1 (n_sock ctx) (n_state ctx))
  else (-1, ctx).

Definition nbd_ctor {A} (settings : A) ctx : Z * lwnbd_context_nbd_t := (0, ctx).

Definition nbd_server_set_preinit (preinit : Z) ctx : lwnbd_context_nbd_t :=
  mk_nbd_context (n_base ctx) (n_eflags ctx) (n_minimum_block_size ctx)
    (n_preferred_block_size ctx) (n_maximum_block_size ctx) (n_gflags ctx) (n_readonly ctx)
    preinit (n_sock ctx) (n_state ctx).
Definition nbd_server_get_preinit ctx : Z := n_preinit ctx.
Definition nbd_server_get_gflags ctx : Z := n_gflags ctx.

(** ** A connection *)

Context {N : Type} `{CB : Callbacks N}.

(** What the stack frames of the two phases happen to hold. *)
Record stack := mk_stack {
  sk_cflags : list byte; sk_opt : list byte; sk_buffer : list byte; sk_request : list byte }.

Record connection := mk_connection {
  cn_client : nbd_client; cn_net : N; cn_lib : lib W }.

Definition phase_result : Type := outcome (Z * (lwnbd_context_nbd_t * connection)).

(** The two phases as the loop calls them. *)
Definition handshake_call (fuel : nat) (sk : stack) ctx (cn : connection) : phase_result :=
  '(r, (ctx, h)) ← protocol_handshake plugin_mem fuel ctx (sk_cflags sk)
      (mk_haggle (sk_opt sk) (sk_buffer sk) (cn_client cn) (cn_net cn) (cn_lib cn));
  Ok (r, (ctx, mk_connection (hg_client h) (hg_net h) (hg_lib h))).

Definition transmission_call (fuel lfuel : nat) (sk : stack) ctx (cn : connection) : phase_result :=
  '(r, o) ← transmission_phase plugin_mem fuel lfuel (Some ctx) (sk_request sk) (sk_buffer sk)
      (cn_net cn) (l_world (cn_lib cn));
  '(ctx, f) ← of_option NullDeref o;
  Ok (r, (ctx, mk_connection (cn_client cn) (f_net f) (set_world (f_world f) (cn_lib cn)))).

(** [while (r == 0) switch (c->state)]; a phase is told which turn it is. *)
Fixpoint phases (handshake transmission : nat -> lwnbd_context_nbd_t -> connection -> phase_result)
    (fuel : nat) (r : Z) ctx (cn : connection) : phase_result :=
  if r =? 0 then
    match fuel with
    | O => Fault OutOfFuel
    | S fuel =>
        '(r, (ctx, cn)) ←
          (match cl_state (cn_client cn) with
           | HANDSHAKE => handshake fuel ctx cn
           | TRANSMISSION => transmission fuel ctx cn
           | ABORT => Ok (-1, (ctx, cn))
           end);
        phases handshake transmission fuel r ctx cn
    end
  else Ok (r, (ctx, cn)).

(** [lwnbd_get_defaultexport] has no definition in the repository. *)
Context (get_defaultexport : lib W -> option nat).

(** The handle and the accepted socket; [None] is a session that never
    started.  The frames of each turn hold what the stack held. *)
Definition nbd_synchronous_client_thread_cb (fuel hfuel lfuel : nat) (sk : nat -> stack) ctx
    (client : Z) (net : N) (s : lib W) : outcome (Z * option (lwnbd_context_nbd_t * connection) * lib W) :=
  let start c s :=
    '(r, (ctx, cn)) ← phases (fun t => handshake_call hfuel (sk t))
                        (fun t => transmission_call hfuel lfuel (sk t)) fuel 0 ctx
                        (mk_connection c net s);
    Ok (r, Some (ctx, cn), cn_lib cn) in
  if n_preinit ctx =? 0 then
    let '(oc, pl) := lwnbd_new_context (l_pool s) in
    let s := set_pool pl s in
    match oc with
    | None => Ok (-1, None, s)
    | Some i => start (mk_client client HANDSHAKE (Some i)) s
    end
  else
    match get_defaultexport s with
    | None => Ok (-1, None, s)
    | Some i => start (mk_client client TRANSMISSION (Some i)) s
    end.

(** ** Properties *)

Lemma eflags_read_only p : Z.land (eflags_of p) NBD_FLAG_READ_ONLY <> 0 <-> pl_pwrite p = None.
Proof. unfold eflags_of. destruct (pl_pwrite p), (pl_flush p);
  (split; [intros H; (done || (exfalso; by apply H))|by intros H]). Qed.

Lemma eflags_flush p : Z.land (eflags_of p) NBD_FLAG_SEND_FLUSH <> 0 <-> is_Some (pl_flush p).
Proof.
  unfold eflags_of. destruct (pl_pwrite p), (pl_flush p);
    (split; [intros H; (exfalso; by apply H) || (by eexists)|intros H; (done || by destruct H)]).
Qed.

(** The flags a client is told say exactly what the plugin can do: read-only
    when it cannot write, flush when it can; and without a block size of its
    own the device has blocks of 512 bytes. *)
Theorem nbdify_announces_capabilities ctx w ctx' w' a :
  c_p (n_base ctx) = Some a -> nbdify_context ctx w = Ok (ctx', w') ->
  (read_only ctx' <-> pl_pwrite (plugin_mem a) = None) /\
  (flushable ctx' <-> is_Some (pl_flush (plugin_mem a))) /\
  (pl_block_size (plugin_mem a) = None -> n_minimum_block_size ctx' = 512 /\ w' = w) /\
  n_base ctx' = n_base ctx.
Proof.
  intros Ha Hrun. unfold nbdify_context in Hrun. rewrite Ha in Hrun. cbn [of_option mbind outcome_bind] in Hrun.
  destruct (match pl_block_size (plugin_mem a) with Some _ => _ | None => _ end)
    as [[[[mn pr] mx] w1]|] eqn:E; [|done]. cbn in Hrun. simplify_eq. unfold read_only, flushable. cbn.
  split; [apply eflags_read_only|]. split; [apply eflags_flush|]. split; [|done].
  intros Hn. rewrite Hn in E. by simplify_eq.
Qed.

Lemma haggle_step_client ctx cflags (h : haggle W N) r :
  haggle_step plugin_mem ctx cflags h = Ok r ->
  match r with Next (_, h') | Break (_, h') | Return _ (_, h') =>
    cl_state (hg_client h') = cl_state (hg_client h) end.
Proof.
  assert (forall ctx cflags o l (h : haggle W N) r,
    handle_option plugin_mem ctx cflags o l h = Ok r ->
    match r with Next (_, h') | Break (_, h') | Return _ (_, h') =>
      cl_state (hg_client h') = cl_state (hg_client h) end) as Hopt.
  { clear. intros ctx cflags o l h r Hrun. unfold handle_option, opt_export_name, opt_abort,
      opt_list, opt_unsupported in Hrun.
    repeat (run_lightly; match goal with
      | H : (if ?b then _ else _) = Ok _ |- _ => destruct b
      | H : (match ?o with Some _ => _ | None => _ end) = Ok _ |- _ => destruct o
      end); run; done. }
  intros Hrun. unfold haggle_step in Hrun.
  repeat (run_lightly; match goal with
    | H : (if ?b then _ else _) = Ok _ |- _ => destruct b
    end); run; try done; by apply Hopt in Hrun.
Qed.

Lemma handshake_call_state fuel sk ctx cn r ctx' cn' :
  handshake_call fuel sk ctx cn = Ok (r, (ctx', cn')) ->
  cl_state (cn_client cn') = cl_state (cn_client cn).
Proof.
  assert (forall fuel ctx cflags (h : haggle W N) r ctx' h',
    haggle_loop plugin_mem fuel ctx cflags h = Ok (r, (ctx', h')) ->
    cl_state (hg_client h') = cl_state (hg_client h)) as Hloop.
  { clear. intros fuel. induction fuel as [|fuel IH]; intros ctx cflags h r ctx' h' Hrun; [done|].
    cbn [haggle_loop] in Hrun. apply bind_Ok in Hrun as (x & Hx & Hrun).
    apply haggle_step_client in Hx. destruct x as [[ctx1 h1]|[ctx1 h1]|r1 [ctx1 h1]].
    - rewrite <- Hx. by eapply IH.
    - rewrite <- Hx. by eapply IH.
    - by simplify_eq. }
  intros Hrun. unfold handshake_call in Hrun. run. unfold protocol_handshake in Hr.
  repeat (run_lightly; match goal with
    | H : (if ?b then _ else _) = Ok _ |- _ => destruct b
    end); run; try done; by apply Hloop in Hr.
Qed.

(** The handshake records its result in the server's context while the loop
    looks at the client's: a connection that starts with the handshake never
    reaches the transmission phase, whatever that phase is. *)
Theorem handshake_never_followed_by_transmission hfuel sk fuel r ctx cn tr tr' :
  cl_state (cn_client cn) = HANDSHAKE ->
  phases (fun t => handshake_call hfuel (sk t)) tr fuel r ctx cn
  = phases (fun t => handshake_call hfuel (sk t)) tr' fuel r ctx cn.
Proof.
  revert r ctx cn; induction fuel as [|fuel IH]; intros r ctx cn Hs; cbn [phases]; [done|].
  destruct (r =? 0); [|done]. rewrite Hs.
  destruct (handshake_call hfuel (sk fuel) ctx cn) as [[r1 [ctx1 cn1]]|] eqn:E; [|done]. mred.
  apply IH. apply handshake_call_state in E. congruence.
Qed.

(** Every connection that negotiates takes a context of the pool for good;
    once they are gone, connections are refused. *)
Theorem connections_exhaust_contexts fuel hfuel lfuel sk ctx client net s :
  lib_ok s -> n_preinit ctx = 0 -> lwnbd_contexts_count (l_pool s) = MAX_CONTEXTS ->
  nbd_synchronous_client_thread_cb fuel hfuel lfuel sk ctx client net s = Ok (-1, None, s).
Proof.
  intros Hok Hp Hfull. unfold nbd_synchronous_client_thread_cb. rewrite Hp. cbn [Z.eqb].
  rewrite new_context_full by done. by destruct s.
Qed.

(** The context of a handshake is visible to clients: its name is empty, and
    asking for the empty name follows its [NULL] plugin pointer. *)
Theorem empty_name_crashes uri R s i c :
  pool_ok (l_pool s) -> no_nul uri -> uri_path uri = [] ->
  export_named (l_pool s) [] = Some (i, c) -> c_p c = None ->
  lwnbd_get_context plugin_mem 0 (uri ++ x00 :: R) s = Fault NullDeref.
Proof.
  intros Hp Hn Hpath Hexp Hc. destruct (get_context_spec plugin_mem uri R s Hp Hn) as (b & _ & ->).
  unfold open_export. by rewrite Hpath, Hexp, Hc.
Qed.

(** Configuration accepts exactly the keys [readonly] and [preinit], and
    each sets its own field only. *)
Theorem nbd_config_keys key value ctx :
  no_nul key ->
  let '(r, ctx') := nbd_config key value ctx in
  (r = 0 <-> key = bs "readonly" \/ key = bs "preinit") /\
  (key = bs "readonly" -> n_readonly ctx' = 1 /\ n_preinit ctx' = n_preinit ctx) /\
  (key = bs "preinit" -> n_preinit ctx' = 1 /\ n_readonly ctx' = n_readonly ctx) /\
  (r <> 0 -> r = -1 /\ ctx' = ctx).
Proof.
  intros Hk. unfold nbd_config.
  assert (no_nul (bs "readonly")) as Hr by by_decide.
  assert (no_nul (bs "preinit")) as Hp by by_decide.
  pose proof (strcmp_eq key _ Hk Hr) as H1. pose proof (strcmp_eq key _ Hk Hp) as H2.
  case (Z.eqb_spec (strcmp key (bs "readonly")) 0) as [E1|E1].
  - apply H1 in E1. subst key. cbn. split_and!; try done. by split; [left|].
  - case (Z.eqb_spec (strcmp key (bs "preinit")) 0) as [E2|E2].
    + apply H2 in E2. subst key. cbn. split_and!; try done. by split; [right|].
    + split_and!; [split; [done|]|..]; try done; [|intros ->; by rewrite strcmp_refl in E1|
        intros ->; by rewrite strcmp_refl in E2].
      intros [->| ->]; by rewrite strcmp_refl in *.
Qed.
End nbd.
