(* ===== verification/MemoryPlugin.v ===== *)
(** * The memory plugin: [plugins/memory/memory.c]

    Exports a range of the process's memory.  The world is that memory, an
    array of bytes addressed from zero, and the static tables of the plugin. *)

From S2P Require Export PluginApi Handles.

Definition MEM_DRIVER_MAX_DEVICES : nat := 10.

(** [struct memory_config]; the strings are the arrays [name[32]] and
    [desc[64]]. *)
Record memory_config := mk_memory_config {
  mc_base : Z; mc_size : Z; mc_name : list byte; mc_desc : list byte }.

Record memory_world := mk_memory {
  mw_ram : list byte;
  mw_handles : list memory_config;
  mw_in_use : list handle_state_t }.

Definition set_ram (ram : list byte) (w : memory_world) : memory_world :=
  mk_memory ram (mw_handles w) (mw_in_use w).

(** Dereferencing the opaque handle. *)
Definition memory_handle (handle : handle_ptr) (w : memory_world) : outcome memory_config :=
  h ← of_option NullDeref handle; of_option OutOfBounds (mw_handles w !! h).

(** [memcpy] from and to an address. *)
Definition ram_load (addr count : Z) (w : memory_world) : outcome (list byte) :=
  _ ← outcome_require (0 <= addr) OutOfBounds;
  load_at (Z.to_nat addr) (Z.to_nat count) (mw_ram w).

Definition ram_store (addr : Z) (d : list byte) (w : memory_world) : outcome memory_world :=
  _ ← outcome_require (0 <= addr) OutOfBounds;
  ram ← store_at (Z.to_nat addr) d (mw_ram w);
  Ok (set_ram ram w).

Definition memory_pread (handle : handle_ptr) (count offset flags : Z) (w : memory_world)
  : outcome (Z * list byte * memory_world) :=
  h ← memory_handle handle w;
  let addr := i64 (mc_base h + offset) in
  d ← ram_load addr count w;
  Ok (0, d, w).

(** The destination of the copy is the eight-byte local [addr] itself. *)
Definition memory_pwrite (handle : handle_ptr) (buf : list byte) (count offset flags : Z)
    (w : memory_world) : outcome (Z * memory_world) :=
  h ← memory_handle handle w;
  let addr := i64 (mc_base h + offset) in
  d ← load_at 0 (Z.to_nat count) buf;
  _ ← store_at 0 d (le_split 8 addr);
  Ok (0, w).

Definition memory_ctor (pconfig : memory_config) (oc : option lwnbd_context_t) (w : memory_world)
  : outcome (Z * option lwnbd_context_t * memory_world) :=
  let '(i, in_use) := claim_handle (mw_in_use w) in
  _ ← of_option OutOfBounds (mw_handles w !! i);
  let w := mk_memory (mw_ram w) (<[i := pconfig]> (mw_handles w)) in_use in
  c ← of_option NullDeref oc;
  let c := set_c_handle (Some i) c in
  name ← of_option Unterminated (c_str (mc_name pconfig));
  n ← strcpy (c_name c) name;
  desc ← of_option Unterminated (c_str (mc_desc pconfig));
  d ← strcpy (c_description c) desc;
  Ok (0, Some (set_c_description d (set_c_name n c)), w).

Definition memory_get_size (handle : handle_ptr) (w : memory_world) : outcome (Z * memory_world) :=
  h ← memory_handle handle w; Ok (mc_size h, w).

(** [memset(h->base, b, h->size)] *)
Definition ram_fill (b : byte) (h : memory_config) (w : memory_world) : outcome memory_world :=
  ram_store (mc_base h) (replicate (Z.to_nat (mc_size h)) b) w.

(** One parameter, taken as a filter. *)
Definition memory_filter (h : memory_config) (q : query_t) (w : memory_world)
  : outcome memory_world :=
  if strcmp (q_key q) (bs "bzero") =? 0 then ram_fill x00 h w
  else if strcmp (q_key q) (bs "memset") =? 0 then
    match q_val q with Some v => ram_fill (default x00 (head v)) h w | None => Ok w end
  else if strcmp (q_key q) (bs "memcpy") =? 0 then
    match q_val q with
    | Some v => w ← ram_fill x00 h w; ram_store (mc_base h) v w
    | None => Ok w
    end
  else Ok w.

(** [while (nb_params-- > 0)]: from the last parameter to the first. *)
Fixpoint memory_query_loop (n : nat) (h : memory_config) (params : query_params)
    (w : memory_world) : outcome memory_world :=
  match n with
  | O => Ok w
  | S n =>
      q ← of_option OutOfBounds (params !! n);
      q ← of_option Uninitialised q;
      w ← memory_filter h q w;
      memory_query_loop n h params w
  end.

Definition memory_query (handle : handle_ptr) (params : query_params) (nb_params : Z)
    (w : memory_world) : outcome (Z * memory_world) :=
  h ← memory_handle handle w;
  w ← memory_query_loop (Z.to_nat nb_params) h params w;
  Ok (0, w).

Definition memory_plugin : lwnbd_plugin_t memory_world memory_config := {|
  pl_name := bs "memory";
  pl_longname := bs "lwnbd generic memory plugin";
  pl_load := None;
  pl_get_size := Some memory_get_size;
  pl_pread := Some memory_pread;
  pl_pwrite := Some memory_pwrite;
  pl_flush := Some func_no_error;
  pl_trim := None;
  pl_zero := None;
  pl_block_size := Some char_block_size;
  pl_config := None;
  pl_magic_config_key := None;
  pl_ctor := Some memory_ctor;
  pl_query := Some memory_query;
  pl_export_without_handle := 0
|}.

(** ** Properties *)

(** The range of a handle is inside the memory. *)
Definition memory_range_ok (h : memory_config) (w : memory_world) : Prop :=
  0 <= mc_base h /\ 0 <= mc_size h /\ mc_base h + mc_size h <= Z.of_nat (length (mw_ram w)) /\
  Z.of_nat (length (mw_ram w)) < 2 ^ 63.

Definition memory_inv (i : nat) (h : memory_config) (w : memory_world) : Prop :=
  mw_handles w !! i = Some h /\ memory_range_ok h w.

(** The exported bytes. *)
Definition memory_content (h : memory_config) (w : memory_world) : list byte :=
  slice (Z.to_nat (mc_base h)) (Z.to_nat (mc_size h)) (mw_ram w).

Lemma length_memory_content h w :
  memory_range_ok h w -> length (memory_content h w) = Z.to_nat (mc_size h).
Proof. intros (? & ? & ? & _). apply length_slice. lia. Qed.

#[refine] Instance memory_read_store (i : nat) (h : memory_config) :
  ReadStore memory_plugin (Some i) 1 (memory_inv i h) (memory_content h) :=
  {| rs_fun := memory_pread |}.
Proof.
  - done.
  - done.
  - intros w cnt off [Hh Hr] Hcnt Hoff Hle. rewrite Z.mul_1_r in Hle.
    rewrite length_memory_content in Hle by done.
    exists w. split; [|done]. destruct Hr as (Hb & Hs & Hbs & H63).
    unfold memory_pread, memory_handle. mred. rewrite Hh. mred.
    rewrite swrap_small by lia. unfold ram_load. rewrite require_true by lia. mred.
    rewrite load_at_fits by lia. mred. unfold memory_content.
    rewrite slice_slice by lia. by rewrite !Z.mul_1_r, Z2Nat.inj_add by lia.
Defined.

#[refine] Instance memory_flush_store (i : nat) (h : memory_config) :
  FlushStore memory_plugin (Some i) (memory_inv i h) (memory_content h) :=
  {| fs_fun := func_no_error |}.
Proof.
  - done.
  - intros w Hw. by exists w.
Defined.

(** A write to a memory export never reaches the memory: it copies onto a
    local variable, and past its end when it is longer than eight bytes. *)
Theorem memory_pwrite_loses_data i h buf count offset flags w :
  memory_inv i h w -> 0 <= count <= Z.of_nat (length buf) ->
  memory_pwrite (Some i) buf count offset flags w
  = if decide (count <= 8) then Ok (0, w) else Fault OutOfBounds.
Proof.
  intros [Hh Hr] Hc. unfold memory_pwrite, memory_handle. mred. rewrite Hh. mred.
  rewrite load_at_fits by lia. mred. unfold store_at.
  rewrite length_slice, length_le_split by lia. case_decide; case_decide; done || lia.
Qed.

Definition memory_config_ok (cfg : memory_config) (name desc : list byte) : Prop :=
  c_str (mc_name cfg) = Some name /\ length (mc_name cfg) = 32%nat /\
  c_str (mc_desc cfg) = Some desc /\ length (mc_desc cfg) = 64%nat.

Definition memory_tables_ok (n : nat) (w : memory_world) : Prop :=
  length (mw_handles w) = MEM_DRIVER_MAX_DEVICES /\
  mw_in_use w = handle_slots MEM_DRIVER_MAX_DEVICES n /\ (n <= MEM_DRIVER_MAX_DEVICES)%nat.

Lemma memory_ctor_run cfg name desc n c w :
  memory_config_ok cfg name desc -> memory_tables_ok n w -> context_ok c ->
  (n < MEM_DRIVER_MAX_DEVICES)%nat ->
  exists c', memory_ctor cfg (Some c) w
      = Ok (0, Some c', mk_memory (mw_ram w) (<[n := cfg]> (mw_handles w))
                          (handle_slots MEM_DRIVER_MAX_DEVICES (S n))) /\
    context_ok c' /\ c_handle c' = Some n /\ c_str (c_name c') = Some name /\
    c_str (c_description c') = Some desc.
Proof.
  intros (Hn & Hn32 & Hd & Hd64) (Hh & Hu & Hle) (Hc1 & _ & Hc2 & _) Hlt.
  unfold memory_ctor. rewrite Hu, claim_handle_slots by lia.
  destruct (lookup_lt_is_Some_2 (mw_handles w) n) as [old ->]; [lia|]. mred.
  rewrite Hn. mred. pose proof (c_str_length _ _ Hn). pose proof (c_str_length _ _ Hd).
  destruct (strcpy_context_ok (c_name c) name) as (nm & Hnm & Hl1 & Hs1);
    [by apply c_str_inv in Hn as []|lia|].
  destruct (strcpy_context_ok (c_description c) desc) as (ds & Hds & Hl2 & Hs2);
    [by apply c_str_inv in Hd as []|lia|].
  cbn [c_name set_c_handle c_description]. rewrite Hnm. mred. rewrite Hd. mred. rewrite Hds. mred.
  eexists. split; [done|]. cbn. split; [split_and!; cbn; eauto; lia|]. by split_and!.
Qed.

Lemma memory_tables_claim n cfg w :
  memory_tables_ok n w -> (n < MEM_DRIVER_MAX_DEVICES)%nat ->
  memory_tables_ok (S n) (mk_memory (mw_ram w) (<[n := cfg]> (mw_handles w))
                            (handle_slots MEM_DRIVER_MAX_DEVICES (S n))).
Proof. intros (H1 & _ & _) Hlt. split_and!; cbn; [by rewrite length_insert|done|lia]. Qed.

(** The constructor takes the next handle, stores the configuration in it and
    names the context after it; with no handle left it writes outside the
    table. *)
Theorem memory_ctor_correct cfg name desc n c w :
  memory_config_ok cfg name desc -> memory_tables_ok n w -> context_ok c ->
  if decide (n = MEM_DRIVER_MAX_DEVICES)
  then memory_ctor cfg (Some c) w = Fault OutOfBounds
  else exists c' w', memory_ctor cfg (Some c) w = Ok (0, Some c', w') /\ context_ok c' /\
    c_handle c' = Some n /\ c_str (c_name c') = Some name /\
    c_str (c_description c') = Some desc /\
    mw_handles w' !! n = Some cfg /\ mw_ram w' = mw_ram w /\ memory_tables_ok (S n) w'.
Proof.
  intros Hcfg Hw Hc. case_decide as Hfull.
  - destruct Hw as (Hh & Hu & Hle). unfold memory_ctor. rewrite Hu. subst n.
    rewrite claim_handle_full. by rewrite lookup_ge_None_2 by lia.
  - assert (n < MEM_DRIVER_MAX_DEVICES)%nat as Hlt by (destruct Hw as (_ & _ & ?); lia).
    destruct (memory_ctor_run cfg name desc n c w Hcfg Hw Hc Hlt) as (c' & -> & Hok & Hh & Hnm & Hds).
    eexists c', _. split; [done|]. split_and!; [done..| |done|by apply memory_tables_claim].
    apply list_lookup_insert_eq. destruct Hw as (? & _). lia.
Qed.

(** *** Queries as filters *)

Definition filter_content (q : query_t) (l : list byte) : list byte :=
  if decide (q_key q = bs "bzero") then replicate (length l) x00
  else if decide (q_key q = bs "memset") then
    match q_val q with Some v => replicate (length l) (default x00 (head v)) | None => l end
  else if decide (q_key q = bs "memcpy") then
    match q_val q with Some v => splice 0 v (replicate (length l) x00) | None => l end
  else l.

Definition query_fits (size : Z) (q : query_t) : Prop :=
  no_nul (q_key q) /\ match q_val q with Some v => Z.of_nat (length v) <= size | None => True end.

Lemma ram_store_range h d w :
  memory_range_ok h w -> Z.of_nat (length d) <= mc_size h ->
  exists w', ram_store (mc_base h) d w = Ok w' /\ memory_range_ok h w' /\
    mw_handles w' = mw_handles w /\
    memory_content h w' = splice 0 d (memory_content h w).
Proof.
  intros (Hb & Hs & Hbs & H63) Hd. unfold ram_store. rewrite require_true by lia. mred.
  rewrite store_at_fits by lia. mred. eexists. split; [done|]. cbn.
  split; [split_and!; cbn; rewrite ?length_splice; lia|]. split; [done|].
  apply slice_splice_inner; lia.
Qed.

Lemma ram_fill_range b h w :
  memory_range_ok h w ->
  exists w', ram_fill b h w = Ok w' /\ memory_range_ok h w' /\ mw_handles w' = mw_handles w /\
    memory_content h w' = replicate (length (memory_content h w)) b.
Proof.
  intros Hr. unfold ram_fill. destruct Hr as (Hb & Hs & Hbs & H63) eqn:E. clear E.
  destruct (ram_store_range h (replicate (Z.to_nat (mc_size h)) b) w Hr) as (w' & -> & H1 & H2 & H3).
  { rewrite length_replicate. lia. }
  exists w'. split_and!; [done..|]. rewrite H3, length_memory_content by done.
  apply splice_all. by rewrite length_replicate, length_memory_content.
Qed.

Lemma memory_filter_spec h q w :
  memory_range_ok h w -> query_fits (mc_size h) q ->
  exists w', memory_filter h q w = Ok w' /\ memory_range_ok h w' /\ mw_handles w' = mw_handles w /\
    memory_content h w' = filter_content q (memory_content h w).
Proof.
  intros Hr [Hk Hv]. unfold memory_filter, filter_content.
  assert (forall t, no_nul t -> (strcmp (q_key q) t =? 0) = bool_decide (q_key q = t)) as Hcmp.
  { intros t Ht. pose proof (strcmp_eq (q_key q) t Hk Ht).
    destruct (Z.eqb_spec (strcmp (q_key q) t) 0);
      [rewrite bool_decide_eq_true_2 by tauto|rewrite bool_decide_eq_false_2 by tauto]; done. }
  rewrite !Hcmp by by_decide. case_decide; [rewrite bool_decide_eq_true_2 by done; by apply ram_fill_range|].
  rewrite bool_decide_eq_false_2 by done. case_decide.
  { rewrite bool_decide_eq_true_2 by done. destruct (q_val q); [by apply ram_fill_range|by exists w]. }
  rewrite bool_decide_eq_false_2 by done. case_decide.
  { rewrite bool_decide_eq_true_2 by done. destruct (q_val q) as [v|]; [|by exists w].
    destruct (ram_fill_range x00 h w Hr) as (w1 & -> & Hr1 & Hh1 & Hc1). mred.
    destruct (ram_store_range h v w1 Hr1 Hv) as (w2 & -> & Hr2 & Hh2 & Hc2).
    exists w2. rewrite Hc2, Hc1. split_and!; [done|done|congruence|done]. }
  rewrite bool_decide_eq_false_2 by done. by exists w.
Qed.

Lemma memory_query_loop_spec h qs rest w :
  memory_range_ok h w -> Forall (query_fits (mc_size h)) qs ->
  exists w', memory_query_loop (length qs) h ((Some <$> qs) ++ rest) w = Ok w' /\
    memory_range_ok h w' /\ mw_handles w' = mw_handles w /\
    memory_content h w' = foldr filter_content (memory_content h w) qs.
Proof.
  intros Hr Hqs. revert rest w Hr. induction qs as [|q qs IH] using rev_ind; intros rest w Hr.
  - by exists w.
  - apply Forall_app in Hqs as [Hqs Hq]. inversion_clear Hq as [|? ? Hq' _].
    rewrite length_app, Nat.add_comm. cbn [length Nat.add memory_query_loop].
    rewrite fmap_app, list_fmap_singleton, <- app_assoc. cbn [app].
    rewrite list_lookup_middle by (by rewrite length_fmap). mred.
    destruct (memory_filter_spec h q w Hr Hq') as (w1 & -> & Hr1 & Hh1 & Hc1). mred.
    destruct (IH Hqs (Some q :: rest) w1 Hr1) as (w2 & Hrun & Hr2 & Hh2 & Hc2).
    exists w2. cbn [app]. rewrite Hrun. split_and!; [done|done|congruence|].
    rewrite Hc2, Hc1, foldr_app. done.
Qed.

(** A query applies its parameters as filters, the last one first, to the
    exported bytes and to nothing else the plugin keeps. *)
Theorem memory_query_filters i h qs rest w :
  memory_inv i h w -> Forall (query_fits (mc_size h)) qs ->
  exists w', memory_query (Some i) ((Some <$> qs) ++ rest) (Z.of_nat (length qs)) w = Ok (0, w') /\
    memory_inv i h w' /\
    memory_content h w' = foldr filter_content (memory_content h w) qs.
Proof.
  intros [Hh Hr] Hqs. unfold memory_query, memory_handle. mred. rewrite Hh. mred. rewrite Nat2Z.id.
  destruct (memory_query_loop_spec h qs rest w Hr Hqs) as (w' & -> & Hr' & Hh' & Hc'). mred.
  exists w'. split_and!; [done| |done]. split; [by rewrite Hh'|done].
Qed.
