(* ===== verification/AtadPlugin.v ===== *)
(** * The ATA disk plugin: [plugins/atad/atad_d.c]

    Exports the PlayStation 2 disks.  The ATA driver is not part of the
    repository: its three entry points are arguments, and its contract on one
    device is the record [ata_disk]. *)

From S2P Require Export Plugins.

Definition ATAD_MAX_DEVICES : nat := 2.
Definition ATA_DIR_READ := 0.
Definition ATA_DIR_WRITE := 1.

(** [struct handle] *)
Record atad_handle := mk_atad_handle { ah_device : Z; ah_size : Z }.

(** The fields of [ata_devinfo_t] the plugin reads. *)
Record ata_devinfo_t := mk_devinfo { ad_exists : Z; ad_total_sectors : Z }.

Record atad_world (D : Type) := mk_atad { aw_handles : list atad_handle; aw_disk : D }.
Arguments mk_atad {D} _ _.
Arguments aw_handles {D} _.
Arguments aw_disk {D} _.

Section atad.
Context {D : Type}.
(** [ata_device_sector_io] reads into or writes from the buffer; the list it
    returns is the data read. *)
Context (ata_device_sector_io : Z -> list byte -> Z -> Z -> Z -> D -> Z * list byte * D).
Context (ata_device_flush_cache : Z -> D -> Z * D).
Context (ata_get_devinfo : Z -> D -> option ata_devinfo_t).

Definition atad_handle_of (handle : handle_ptr) (w : atad_world D) : outcome atad_handle :=
  h ← of_option NullDeref handle; of_option OutOfBounds (aw_handles w !! h).

Definition atad_pread (handle : handle_ptr) (count offset flags : Z) (w : atad_world D)
  : outcome (Z * list byte * atad_world D) :=
  h ← atad_handle_of handle w;
  let '(r, d, disk) := ata_device_sector_io (ah_device h) [] (u32 offset) count ATA_DIR_READ
                         (aw_disk w) in
  Ok (r, d, mk_atad (aw_handles w) disk).

Definition atad_pwrite (handle : handle_ptr) (buf : list byte) (count offset flags : Z)
    (w : atad_world D) : outcome (Z * atad_world D) :=
  h ← atad_handle_of handle w;
  let '(r, _, disk) := ata_device_sector_io (ah_device h) buf (u32 offset) count ATA_DIR_WRITE
                         (aw_disk w) in
  Ok (r, mk_atad (aw_handles w) disk).

Definition atad_flush (handle : handle_ptr) (flags : Z) (w : atad_world D)
  : outcome (Z * atad_world D) :=
  h ← atad_handle_of handle w;
  let '(r, disk) := ata_device_flush_cache (ah_device h) (aw_disk w) in
  Ok (r, mk_atad (aw_handles w) disk).

(** [sprintf(c->name, "hdd%d", device)] for the one-digit devices the handle
    array has room for. *)
Definition hdd_name (device : Z) : list byte := bs "hdd" ++ [byte_of_Z (48 + device)].

Definition atad_ctor (pconfig : Z) (oc : option lwnbd_context_t) (w : atad_world D)
  : outcome (Z * option lwnbd_context_t * atad_world D) :=
  match ata_get_devinfo pconfig (aw_disk w) with
  | Some info =>
      if negb (ad_exists info =? 0) then
        _ ← outcome_require (0 <= pconfig < Z.of_nat ATAD_MAX_DEVICES) OutOfBounds;
        let i := Z.to_nat pconfig in
        let h := mk_atad_handle pconfig (i64 (ad_total_sectors info * 512)) in
        let w := mk_atad (<[i := h]> (aw_handles w)) (aw_disk w) in
        c ← of_option NullDeref oc;
        n ← strcpy (c_name c) (hdd_name pconfig);
        Ok (0, Some (set_c_handle (Some i) (set_c_name n c)), w)
      else Ok (1, oc, w)
  | None => Ok (1, oc, w)
  end.

Definition atad_get_size (handle : handle_ptr) (w : atad_world D) : outcome (Z * atad_world D) :=
  h ← atad_handle_of handle w; Ok (ah_size h, w).

Definition atad_block_size (handle : handle_ptr) (w : atad_world D)
  : outcome (Z * Z * Z * atad_world D) := Ok (512, 4096, 4096, w).

Definition atad_plugin : lwnbd_plugin_t (atad_world D) Z := {|
  pl_name := bs "atad";
  pl_longname := bs "PlayStation 2 HDD via ATAD";
  pl_load := None;
  pl_get_size := Some atad_get_size;
  pl_pread := Some atad_pread;
  pl_pwrite := Some atad_pwrite;
  pl_flush := Some atad_flush;
  pl_trim := None;
  pl_zero := None;
  pl_block_size := Some atad_block_size;
  pl_config := None;
  pl_magic_config_key := None;
  pl_ctor := Some atad_ctor;
  pl_query := None;
  pl_export_without_handle := 0
|}.

(** ** The constructor *)

(** The constructor on a device that exists. *)
Lemma atad_ctor_run dev c w info :
  context_ok c -> length (aw_handles w) = ATAD_MAX_DEVICES -> 0 <= dev < 2 ->
  ata_get_devinfo dev (aw_disk w) = Some info -> ad_exists info <> 0 ->
  let w' := mk_atad (<[Z.to_nat dev := mk_atad_handle dev (i64 (ad_total_sectors info * 512))]>
                       (aw_handles w)) (aw_disk w) in
  exists c', atad_ctor dev (Some c) w = Ok (0, Some c', w') /\ context_ok c' /\
    c_str (c_name c') = Some (hdd_name dev) /\ c_handle c' = Some (Z.to_nat dev) /\
    c_description c' = c_description c.
Proof.
  intros (Hn & _ & Hd & Hds) Hh Hdev Hi He. unfold atad_ctor. rewrite Hi.
  rewrite (proj2 (Z.eqb_neq _ _) He). cbn [negb].
  rewrite require_true by (unfold ATAD_MAX_DEVICES; lia). mred.
  assert (no_nul (hdd_name dev)) as Hnn.
  { assert (dev = 0 \/ dev = 1) as [->| ->] by lia; by_decide. }
  rewrite strcpy_fits by (rewrite Hn; cbn; lia). mred.
  eexists. split; [done|]. cbn [c_name set_c_handle set_c_name c_handle c_description].
  rewrite c_str_app by done. split; [|done].
  split_and!; cbn [c_name c_description set_c_handle set_c_name];
    [|rewrite c_str_app by done; by eexists|done|done].
  rewrite !length_app. cbn. rewrite length_drop. lia.
Qed.

(** What the plugin registry relies on. *)
Lemma atad_ctor_fills dev w info :
  length (aw_handles w) = ATAD_MAX_DEVICES -> 0 <= dev < 2 ->
  ata_get_devinfo dev (aw_disk w) = Some info -> ad_exists info <> 0 ->
  ctor_fills atad_plugin dev w (Some (Z.to_nat dev)) (hdd_name dev) []
    (mk_atad (<[Z.to_nat dev := mk_atad_handle dev (i64 (ad_total_sectors info * 512))]>
       (aw_handles w)) (aw_disk w)).
Proof.
  intros. exists atad_ctor. split; [done|]. intros c Hc Hz.
  destruct (atad_ctor_run dev c w info) as (c' & -> & Hok & Hn & Hh & Hd); [done..|].
  exists c'. by rewrite Hd.
Qed.

(** The constructor exports exactly the devices that exist, names them
    [hdd0] and [hdd1] and records their size in bytes. *)
Theorem atad_ctor_correct dev c w info :
  context_ok c -> length (aw_handles w) = ATAD_MAX_DEVICES -> 0 <= dev < 2 ->
  ata_get_devinfo dev (aw_disk w) = Some info -> 0 <= ad_total_sectors info < 2 ^ 48 ->
  if decide (ad_exists info = 0) then atad_ctor dev (Some c) w = Ok (1, Some c, w)
  else exists c' w', atad_ctor dev (Some c) w = Ok (0, Some c', w') /\ context_ok c' /\
    c_str (c_name c') = Some (hdd_name dev) /\ c_handle c' = Some (Z.to_nat dev) /\
    atad_get_size (c_handle c') w' = Ok (ad_total_sectors info * 512, w') /\
    aw_disk w' = aw_disk w.
Proof.
  intros Hc Hh Hdev Hi Hts. case_decide as He; [unfold atad_ctor; by rewrite Hi, He|].
  destruct (atad_ctor_run dev c w info) as (c' & -> & Hok & Hn & Hhd & _); [done..|].
  exists c'. eexists. split_and!; [done..| |done]. rewrite Hhd.
  unfold atad_get_size, atad_handle_of. mred. cbn [aw_handles].
  rewrite list_lookup_insert_eq by (rewrite Hh; unfold ATAD_MAX_DEVICES; lia). mred. cbn [ah_size].
  rewrite swrap_small by lia. done.
Qed.

(** ** The driver's contract

    Device [dev] holds the sectors [sectors d] (512 bytes each). *)
Record ata_disk (dev : Z) (sectors : D -> list byte) : Prop := {
  ata_read d lba n :
    0 <= lba < 2 ^ 32 -> 0 <= n -> (lba + n) * 512 <= Z.of_nat (length (sectors d)) ->
    exists d', ata_device_sector_io dev [] lba n ATA_DIR_READ d
      = (0, slice (Z.to_nat (lba * 512)) (Z.to_nat (n * 512)) (sectors d), d') /\
      sectors d' = sectors d;
  ata_write d buf lba n :
    0 <= lba < 2 ^ 32 -> 0 < n -> n * 512 <= Z.of_nat (length buf) ->
    (lba + n) * 512 <= Z.of_nat (length (sectors d)) ->
    exists x d', ata_device_sector_io dev buf lba n ATA_DIR_WRITE d = (0, x, d') /\
      sectors d' = splice (Z.to_nat (lba * 512)) (take (Z.to_nat (n * 512)) buf) (sectors d);
  ata_flush d :
    exists d', ata_device_flush_cache dev d = (0, d') /\ sectors d' = sectors d
}.

Context (dev : Z) (sectors : D -> list byte) (Hdisk : ata_disk dev sectors).

(** A handle on the device, whose sectors are numbered with 32 bits. *)
Definition atad_inv (i : nat) (w : atad_world D) : Prop :=
  (exists h, aw_handles w !! i = Some h /\ ah_device h = dev) /\
  Z.of_nat (length (sectors (aw_disk w))) <= 2 ^ 32 * 512.

Definition atad_content (w : atad_world D) : list byte := sectors (aw_disk w).

#[local, refine] Instance atad_read_store (i : nat) :
  ReadStore atad_plugin (Some i) 512 (atad_inv i) atad_content := {| rs_fun := atad_pread |}.
Proof.
  - done.
  - done.
  - intros w cnt off [(h & Hh & Hd) Hsz] Hcnt Hoff Hle. unfold atad_content in *.
    unfold atad_pread, atad_handle_of. mred. rewrite Hh. mred. rewrite Hd.
    destruct (decide (off < 2 ^ 32)) as [Hlt|Hge].
    + rewrite wrap_small by lia.
      destruct (ata_read _ _ Hdisk (aw_disk w) off cnt) as (d' & -> & Hs); [lia..|].
      eexists. split; [done|]. cbn. rewrite Hs. split; [|done]. split; [by exists h|]. cbn. by rewrite Hs.
    + assert (cnt = 0) as -> by lia.
      assert (u32 off = 0) as ->.
      { assert (off = 2 ^ 32) as -> by lia. done. }
      destruct (ata_read _ _ Hdisk (aw_disk w) 0 0) as (d' & -> & Hs); [lia..|].
      eexists. split; [done|]. cbn. rewrite Hs. split; [|done]. split; [by exists h|]. cbn. by rewrite Hs.
Defined.

#[local, refine] Instance atad_write_store (i : nat) :
  WriteStore atad_plugin (Some i) 512 (atad_inv i) atad_content := {| ws_fun := atad_pwrite |}.
Proof.
  - done.
  - intros w buf cnt off [(h & Hh & Hd) Hsz] Hcnt Hoff Hb Hle. unfold atad_content in *.
    unfold atad_pwrite, atad_handle_of. mred. rewrite Hh. mred. rewrite Hd.
    rewrite wrap_small by lia.
    destruct (ata_write _ _ Hdisk (aw_disk w) buf off cnt) as (x & d' & -> & Hs); [lia..|].
    eexists. split; [done|]. cbn. rewrite Hs. split; [|done]. split; [by exists h|]. cbn.
    rewrite Hs, length_splice; [done|]. rewrite length_take. lia.
Defined.

#[local, refine] Instance atad_flush_store (i : nat) :
  FlushStore atad_plugin (Some i) (atad_inv i) atad_content := {| fs_fun := atad_flush |}.
Proof.
  - done.
  - intros w [(h & Hh & Hd) Hsz]. unfold atad_content in *.
    unfold atad_flush, atad_handle_of. mred. rewrite Hh. mred. rewrite Hd.
    destruct (ata_flush _ _ Hdisk (aw_disk w)) as (d' & -> & Hs).
    eexists. split; [done|]. cbn. rewrite Hs. split; [|done]. split; [by exists h|]. cbn. by rewrite Hs.
Defined.

(** A sector number above 32 bits is cut down before it reaches the driver:
    the block served is another one. *)
Theorem atad_offset_truncated i h count offset w :
  aw_handles w !! i = Some h -> ah_device h = dev ->
  0 <= count -> (u32 offset + count) * 512 <= Z.of_nat (length (atad_content w)) ->
  exists w', atad_pread (Some i) count offset 0 w
    = Ok (0, slice (Z.to_nat (u32 offset * 512)) (Z.to_nat (count * 512)) (atad_content w), w').
Proof.
  intros Hh Hd Hc Hle. unfold atad_content in *. unfold atad_pread, atad_handle_of. mred. rewrite Hh. mred. rewrite Hd.
  pose proof (wrap_range 32 offset ltac:(lia)).
  destruct (ata_read _ _ Hdisk (aw_disk w) (u32 offset) count) as (d' & -> & Hs); [lia..|].
  by eexists.
Qed.
End atad.

(** ** A disk to run the examples on *)

(** One device, held as its bytes. *)
Definition image_sector_io (device : Z) (buf : list byte) (lba n dir : Z) (d : list byte)
  : Z * list byte * list byte :=
  let off := Z.to_nat (lba * 512) in
  let len := Z.to_nat (n * 512) in
  if (off + len <=? length d)%nat then
    if dir =? ATA_DIR_READ then (0, slice off len d, d) else (0, [], splice off (take len buf) d)
  else (-1, [], d).

Definition image_flush_cache (device : Z) (d : list byte) : Z * list byte := (0, d).

Definition image_devinfo (device : Z) (d : list byte) : option ata_devinfo_t :=
  if device =? 0 then Some (mk_devinfo 1 (Z.of_nat (length d) / 512)) else None.

Lemma image_disk dev : ata_disk image_sector_io image_flush_cache dev (fun d => d).
Proof.
  split.
  - intros d lba n Hl Hn Hle. unfold image_sector_io.
    rewrite (proj2 (Nat.leb_le _ _)) by lia. by exists d.
  - intros d buf lba n Hl Hn Hb Hle. unfold image_sector_io.
    rewrite (proj2 (Nat.leb_le _ _)) by lia. by eexists _, _.
  - intros d. by exists d.
Qed.

(** ** Control commands: [plugins/atad/atad_query.c]

    A draft that no other file includes: it would let a path of the export
    choose a command of the drive. *)

Section atad_query.
Context {D : Type}.
(** The driver's [ata_device_sce_identify_drive(device, buffer)]. *)
Context (ata_device_sce_identify_drive : Z -> D -> Z * list byte * D).

(** What the draft stores in [cmd]: [None] leaves it as it was. *)
Record ata_command := mk_ata_command {
  ac_cmd : Z -> D -> Z * list byte * D; ac_argc : Z; ac_size : Z }.

Definition identify (argc : Z) (d : D) : Z * list byte * D := ata_device_sce_identify_drive argc d.

Definition atad_ctrl (handle : handle_ptr) (path : list byte) (w : atad_world D)
  : outcome (Z * option ata_command) :=
  if negb (strcmp (bs "identify") path =? 0) then
    h ← atad_handle_of handle w;
    Ok (0, Some (mk_ata_command identify (ah_device h) 256))
  else Ok (-1, None).

(** The comparison is the wrong way round: every path but [identify] gives the
    identification of the drive, and [identify] is refused. *)
Theorem atad_ctrl_inverted handle path w h :
  no_nul path -> atad_handle_of handle w = Ok h ->
  atad_ctrl handle path w
  = if decide (path = bs "identify") then Ok (-1, None)
    else Ok (0, Some (mk_ata_command identify (ah_device h) 256)).
Proof.
  intros Hn Hh. unfold atad_ctrl. assert (no_nul (bs "identify")) as Hi by by_decide.
  pose proof (strcmp_eq (bs "identify") path Hi Hn) as He. case_decide as Hd.
  - by rewrite (proj2 He) by done.
  - rewrite Hh. destruct (Z.eqb_spec (strcmp (bs "identify") path) 0) as [E|E]; [|done].
    destruct Hd. symmetry. by apply He.
Qed.
End atad_query.
