(* ===== verification/FilePlugin.v ===== *)
(** * The file plugin: [plugins/file/file.c]

    Exports a file.  The operating system's calls are arguments; [posix_file]
    is what POSIX says of them on one open descriptor: a transfer may stop
    short, and the plugin's loops finish it. *)

From S2P Require Export PluginApi Handles.

Definition FILE_DRIVER_MAX_DEVICES : nat := 10.
Definition O_RDONLY_CLOEXEC := 0x80000.
Definition O_RDWR_CLOEXEC := 0x80002.

(** [struct handle]; [filename] is [NULL] before the constructor. *)
Record file_handle := mk_file_handle {
  fh_fd : Z; fh_flags : Z; fh_filename : option (list byte) }.

Record file_world (F : Type) := mk_file {
  fw_handles : list file_handle;
  fw_in_use : list handle_state_t;
  fw_fs : F }.
Arguments mk_file {F} _ _ _.
Arguments fw_handles {F} _.
Arguments fw_in_use {F} _.
Arguments fw_fs {F} _.

(** POSIX [basename]: the component after the last slash that is not a
    trailing one. *)
Fixpoint strip_slashes (s : list byte) : list byte :=
  match s with
  | b :: s => if decide (b = x2f) then strip_slashes s else b :: s
  | [] => []
  end.

Fixpoint take_component (s : list byte) : list byte :=
  match s with
  | b :: s => if decide (b = x2f) then [] else b :: take_component s
  | [] => []
  end.

Definition basename (path : list byte) : list byte :=
  match path with
  | [] => bs "."
  | _ =>
      match strip_slashes (rev path) with
      | [] => bs "/"
      | s => rev (take_component s)
      end
  end.

Section file.
Context {F : Type}.
Context (pread : Z -> Z -> Z -> F -> Z * list byte * F).
Context (pwrite : Z -> list byte -> Z -> Z -> F -> Z * F).
Context (fdatasync : Z -> F -> Z * F).
Context (open : list byte -> Z -> F -> Z * F).
Context (close : Z -> F -> F).
(** [fstat]: [st_size], or nothing on error. *)
Context (fstat : Z -> F -> option Z).
Implicit Types (w : file_world F) (fs : F).

Definition set_fs fs w : file_world F := mk_file (fw_handles w) (fw_in_use w) fs.

Definition file_handle_of (handle : handle_ptr) w : outcome (nat * file_handle) :=
  i ← of_option NullDeref handle;
  h ← of_option OutOfBounds (fw_handles w !! i);
  Ok (i, h).

(** [while (count > 0)]; [acc] is what lies before [buf]. *)
Fixpoint file_pread_loop (fuel : nat) (fd count offset : Z) (acc : list byte) fs
  : outcome (Z * list byte * F) :=
  if 0 <? count then
    match fuel with
    | O => Fault OutOfFuel
    | S fuel =>
        let '(r, d, fs) := pread fd count offset fs in
        if r =? -1 then Ok (-1, acc ++ d, fs)
        else if r =? 0 then Ok (-1, acc ++ d, fs)
        else file_pread_loop fuel fd (u32 (count - r)) (u64 (offset + r)) (acc ++ d) fs
    end
  else Ok (0, acc, fs).

Definition file_pread (handle : handle_ptr) (count offset flags : Z) w
  : outcome (Z * list byte * file_world F) :=
  '(_, h) ← file_handle_of handle w;
  '(r, d, fs) ← file_pread_loop (Z.to_nat count) (fh_fd h) count offset [] (fw_fs w);
  Ok (r, d, set_fs fs w).

Fixpoint file_pwrite_loop (fuel : nat) (fd : Z) (buf : list byte) (count offset : Z) fs
  : outcome (Z * F) :=
  if 0 <? count then
    match fuel with
    | O => Fault OutOfFuel
    | S fuel =>
        let '(r, fs) := pwrite fd buf count offset fs in
        if r =? -1 then Ok (-1, fs)
        else file_pwrite_loop fuel fd (drop (Z.to_nat r) buf) (u32 (count - r)) (u64 (offset + r)) fs
    end
  else Ok (0, fs).

Definition file_pwrite (handle : handle_ptr) (buf : list byte) (count offset flags : Z) w
  : outcome (Z * file_world F) :=
  '(_, h) ← file_handle_of handle w;
  '(r, fs) ← file_pwrite_loop (Z.to_nat count) (fh_fd h) buf count offset (fw_fs w);
  Ok (r, set_fs fs w).

Definition file_flush (handle : handle_ptr) (flags : Z) w : outcome (Z * file_world F) :=
  '(_, h) ← file_handle_of handle w;
  let '(r, fs) := fdatasync (fh_fd h) (fw_fs w) in
  if r =? -1 then Ok (-1, set_fs fs w) else Ok (0, set_fs fs w).

Definition file_open (handle : handle_ptr) (readonly : Z) w : outcome (file_world F) :=
  '(i, h) ← file_handle_of handle w;
  let flags := if negb (readonly =? 0) then O_RDONLY_CLOEXEC else O_RDWR_CLOEXEC in
  name ← of_option NullDeref (fh_filename h);
  let '(fd, fs) := open name flags (fw_fs w) in
  Ok (mk_file (<[i := mk_file_handle fd flags (fh_filename h)]> (fw_handles w)) (fw_in_use w) fs).

Definition file_ctor (pconfig : list byte) (oc : option lwnbd_context_t) w
  : outcome (Z * option lwnbd_context_t * file_world F) :=
  let '(i, in_use) := claim_handle (fw_in_use w) in
  h ← of_option OutOfBounds (fw_handles w !! i);
  let name := basename pconfig in
  let w := mk_file (<[i := mk_file_handle (fh_fd h) (fh_flags h) (Some name)]> (fw_handles w))
             in_use (fw_fs w) in
  c ← of_option NullDeref oc;
  let c := set_c_handle (Some i) c in
  n ← strcpy (c_name c) name;
  Ok (0, Some (set_c_name n c), w).

Definition file_close (handle : handle_ptr) w : outcome (file_world F) :=
  '(_, h) ← file_handle_of handle w;
  Ok (set_fs (close (fh_fd h) (fw_fs w)) w).

Definition file_get_size (handle : handle_ptr) w : outcome (Z * file_world F) :=
  w ← file_open handle 0 w;
  '(_, h) ← file_handle_of handle w;
  match fstat (fh_fd h) (fw_fs w) with
  | None => Ok (-1, w)
  | Some st_size => Ok (st_size, w)
  end.

Definition file_block_size (handle : handle_ptr) w : outcome (Z * Z * Z * file_world F) :=
  Ok (1, 1, 1, w).

Definition file_plugin : lwnbd_plugin_t (file_world F) (list byte) := {|
  pl_name := bs "file";
  pl_longname := bs "lwnbd file plugin";
  pl_load := None;
  pl_get_size := Some file_get_size;
  pl_pread := Some file_pread;
  pl_pwrite := Some file_pwrite;
  pl_flush := Some file_flush;
  pl_trim := None;
  pl_zero := None;
  pl_block_size := Some file_block_size;
  pl_config := None;
  pl_magic_config_key := None;
  pl_ctor := Some file_ctor;
  pl_query := None;
  pl_export_without_handle := 0
|}.

(** ** An open descriptor *)

Record posix_file (fd : Z) (bytes : F -> list byte) : Prop := {
  pf_read fs count off :
    0 < count -> 0 <= off < Z.of_nat (length (bytes fs)) ->
    exists k fs', (0 < k)%nat /\ Z.of_nat k <= count /\ off + Z.of_nat k <= Z.of_nat (length (bytes fs)) /\
      pread fd count off fs = (Z.of_nat k, slice (Z.to_nat off) k (bytes fs), fs') /\
      bytes fs' = bytes fs;
  pf_write fs buf count off :
    0 < count <= Z.of_nat (length buf) -> 0 <= off ->
    off + count <= Z.of_nat (length (bytes fs)) ->
    exists k fs', (0 < k)%nat /\ Z.of_nat k <= count /\
      pwrite fd buf count off fs = (Z.of_nat k, fs') /\
      bytes fs' = splice (Z.to_nat off) (take k buf) (bytes fs);
  pf_eof fs count off :
    0 < count -> Z.of_nat (length (bytes fs)) <= off ->
    exists fs', pread fd count off fs = (0, [], fs') /\ bytes fs' = bytes fs;
  pf_sync fs : exists fs', fdatasync fd fs = (0, fs') /\ bytes fs' = bytes fs
}.

Context (fd : Z) (bytes : F -> list byte) (Hfd : posix_file fd bytes).

Lemma file_pread_loop_spec fuel count off acc fs :
  (Z.to_nat count <= fuel)%nat -> 0 <= count < 2 ^ 32 -> 0 <= off ->
  off + count <= Z.of_nat (length (bytes fs)) < 2 ^ 63 ->
  exists fs', file_pread_loop fuel fd count off acc fs
    = Ok (0, acc ++ slice (Z.to_nat off) (Z.to_nat count) (bytes fs), fs') /\ bytes fs' = bytes fs.
Proof.
  revert count off acc fs; induction fuel as [|fuel IH]; intros count off acc fs Hf Hc Ho Hle;
    cbn [file_pread_loop]; (case (Z.ltb_spec 0 count) as [Hpos|Hz]; [|
      exists fs; assert (count = 0) as -> by lia; by rewrite slice_0, app_nil_r]); [lia|].
  destruct (pf_read _ _ Hfd fs count off) as (k & fs1 & Hk & Hkc & Hkl & -> & Hb1); [lia..|].
  rewrite (proj2 (Z.eqb_neq _ _)), (proj2 (Z.eqb_neq (Z.of_nat k) _)) by lia.
  rewrite !wrap_small by lia.
  destruct (IH (count - Z.of_nat k) (off + Z.of_nat k) (acc ++ slice (Z.to_nat off) k (bytes fs)) fs1)
    as (fs2 & -> & Hb2); [lia..|by rewrite Hb1; lia|].
  exists fs2. rewrite Hb2, Hb1. split; [|done]. rewrite <- app_assoc. do 3 f_equal.
  replace (Z.to_nat count) with (k + Z.to_nat (count - Z.of_nat k))%nat by lia.
  rewrite slice_app. do 2 f_equal. f_equal. lia.
Qed.

Lemma file_pwrite_loop_spec fuel buf count off fs :
  (Z.to_nat count <= fuel)%nat -> 0 <= count < 2 ^ 32 -> 0 <= off ->
  count <= Z.of_nat (length buf) -> off + count <= Z.of_nat (length (bytes fs)) < 2 ^ 63 ->
  exists fs', file_pwrite_loop fuel fd buf count off fs = Ok (0, fs') /\
    bytes fs' = splice (Z.to_nat off) (take (Z.to_nat count) buf) (bytes fs).
Proof.
  revert buf count off fs; induction fuel as [|fuel IH]; intros buf count off fs Hf Hc Ho Hb Hle;
    cbn [file_pwrite_loop]; (case (Z.ltb_spec 0 count) as [Hpos|Hz]; [|
      exists fs; assert (count = 0) as -> by lia; by rewrite take_0, splice_nil]); [lia|].
  destruct (pf_write _ _ Hfd fs buf count off) as (k & fs1 & Hk & Hkc & -> & Hb1); [lia..|].
  assert (length (take k buf) = k) as Hlk by (rewrite length_take; lia).
  rewrite (proj2 (Z.eqb_neq _ _)) by lia. rewrite !wrap_small, Nat2Z.id by lia.
  destruct (IH (drop k buf) (count - Z.of_nat k) (off + Z.of_nat k) fs1) as (fs2 & -> & Hb2);
    [lia..|rewrite length_drop; lia|rewrite Hb1, length_splice; lia|].
  exists fs2. split; [done|]. rewrite Hb2, Hb1.
  replace (Z.to_nat (off + Z.of_nat k)) with (Z.to_nat off + length (take k buf))%nat by lia.
  rewrite <- splice_app.
  - f_equal. rewrite take_take_drop. f_equal. lia.
  - rewrite Hlk, length_take, length_drop. lia.
Qed.

Definition file_inv (i : nat) w : Prop :=
  (exists h, fw_handles w !! i = Some h /\ fh_fd h = fd) /\
  Z.of_nat (length (bytes (fw_fs w))) < 2 ^ 63.

Definition file_content w : list byte := bytes (fw_fs w).

#[local, refine] Instance file_read_store (i : nat) :
  ReadStore file_plugin (Some i) 1 (file_inv i) file_content := {| rs_fun := file_pread |}.
Proof.
  - done.
  - done.
  - intros w cnt off [(h & Hh & Hd) Hsz] Hcnt Hoff Hle. unfold file_content in *.
    unfold file_pread, file_handle_of. mred. rewrite Hh. mred. rewrite Hd.
    destruct (file_pread_loop_spec (Z.to_nat cnt) cnt off [] (fw_fs w)) as (fs' & -> & Hb);
      [lia..|]. mred. eexists. split; [by rewrite !Z.mul_1_r|]. split; [|done].
    split; [by exists h|]. cbn. by rewrite Hb.
Defined.

#[local, refine] Instance file_write_store (i : nat) :
  WriteStore file_plugin (Some i) 1 (file_inv i) file_content := {| ws_fun := file_pwrite |}.
Proof.
  - done.
  - intros w buf cnt off [(h & Hh & Hd) Hsz] Hcnt Hoff Hb Hle. unfold file_content in *.
    unfold file_pwrite, file_handle_of. mred. rewrite Hh. mred. rewrite Hd.
    destruct (file_pwrite_loop_spec (Z.to_nat cnt) buf cnt off (fw_fs w)) as (fs' & -> & Hb');
      [lia..|]. mred. eexists. split; [done|]. cbn. rewrite !Z.mul_1_r. split; [|done].
    split; [by exists h|]. cbn. rewrite Hb', length_splice; [done|]. rewrite length_take. lia.
Defined.

#[local, refine] Instance file_flush_store (i : nat) :
  FlushStore file_plugin (Some i) (file_inv i) file_content := {| fs_fun := file_flush |}.
Proof.
  - done.
  - intros w [(h & Hh & Hd) Hsz]. unfold file_content in *.
    unfold file_flush, file_handle_of. mred. rewrite Hh. mred. rewrite Hd.
    destruct (pf_sync _ _ Hfd (fw_fs w)) as (fs' & -> & Hb). cbn [Z.eqb].
    eexists. split; [done|]. cbn. rewrite Hb. split; [|done]. split; [by exists h|]. cbn. by rewrite Hb.
Defined.

(** A read at the end of the file fails and stores nothing. *)
Lemma file_pread_eof i w off :
  file_inv i w -> Z.of_nat (length (file_content w)) <= off ->
  exists w', file_pread (Some i) 1 off 0 w = Ok (-1, [], w') /\ file_content w' = file_content w /\
    file_inv i w'.
Proof.
  intros [(h & Hh & Hd) Hsz] Hoff. unfold file_content in *.
  unfold file_pread, file_handle_of. mred. rewrite Hh. mred. rewrite Hd.
  change (Z.to_nat 1) with 1%nat. cbn [file_pread_loop Z.ltb Z.compare].
  destruct (pf_eof _ _ Hfd (fw_fs w) 1 off) as (fs' & -> & Hb); [lia|done|]. cbn. eexists. split; [done|]. split; [done|].
  split; [by exists h|]. cbn. by rewrite Hb.
Qed.

(** C22: over POSIX transfers of any size, the loops of the plugin read and write
    exactly the range they are asked for. *)
Theorem file_transfers_whole_range i w count off buf :
  file_inv i w -> 0 <= count < 2 ^ 32 -> 0 <= off -> count <= Z.of_nat (length buf) ->
  off + count <= Z.of_nat (length (file_content w)) ->
  (exists w', file_pread (Some i) count off 0 w
     = Ok (0, slice (Z.to_nat off) (Z.to_nat count) (file_content w), w') /\
     file_content w' = file_content w) /\
  (exists w', file_pwrite (Some i) buf count off 0 w = Ok (0, w') /\
     file_content w' = splice (Z.to_nat off) (take (Z.to_nat count) buf) (file_content w)).
Proof.
  intros [(h & Hh & Hd) Hsz] Hc Ho Hb Hle. unfold file_content in *.
  unfold file_pread, file_pwrite, file_handle_of. mred. rewrite Hh. mred. rewrite Hd. split.
  - destruct (file_pread_loop_spec (Z.to_nat count) count off [] (fw_fs w)) as (fs' & -> & Hb');
      [lia..|]. by eexists.
  - destruct (file_pwrite_loop_spec (Z.to_nat count) buf count off (fw_fs w)) as (fs' & -> & Hb');
      [lia..|]. by eexists.
Qed.

Definition file_tables_ok (n : nat) w : Prop :=
  length (fw_handles w) = FILE_DRIVER_MAX_DEVICES /\
  fw_in_use w = handle_slots FILE_DRIVER_MAX_DEVICES n /\ (n <= FILE_DRIVER_MAX_DEVICES)%nat.

(** A configured file is exported under its base name, and that base name,
    not the path, is what a size query opens. *)
Theorem file_ctor_opens_basename path n c w :
  file_tables_ok n w -> (n < FILE_DRIVER_MAX_DEVICES)%nat -> context_ok c ->
  no_nul (basename path) -> (length (basename path) < 32)%nat ->
  exists c' w', file_ctor path (Some c) w = Ok (0, Some c', w') /\ context_ok c' /\
    file_tables_ok (S n) w' /\ fw_fs w' = fw_fs w /\
    c_handle c' = Some n /\ c_str (c_name c') = Some (basename path) /\
    (forall fd' fs', open (basename path) O_RDWR_CLOEXEC (fw_fs w) = (fd', fs') ->
      exists w'', file_get_size (c_handle c') w'
        = Ok (match fstat fd' fs' with Some z => z | None => -1 end, w'') /\ fw_fs w'' = fs').
Proof.
  intros (Hh & Hu & Hle) Hn (Hc1 & Hc2 & Hc3 & Hc4) Hnn Hlen. unfold file_ctor.
  rewrite Hu, claim_handle_slots by done.
  destruct (lookup_lt_is_Some_2 (fw_handles w) n) as [h ->]; [lia|]. mred.
  cbn [c_name set_c_handle]. rewrite strcpy_fits by lia. mred.
  eexists _, _. split; [done|]. cbn [c_handle c_name set_c_name set_c_handle fw_fs].
  rewrite c_str_app by done. split_and!; try done.
  - split_and!; cbn; [|rewrite c_str_app by done; by eexists|done|done].
    rewrite length_app. cbn. rewrite length_drop. lia.
  - split_and!; cbn; [by rewrite length_insert|done|lia].
  - intros fd' fs' Hopen. unfold file_get_size, file_open, file_handle_of. mred. cbn [fw_handles].
    rewrite list_lookup_insert_eq by lia. mred. cbn [Z.eqb negb fh_filename fw_fs]. mred.
    rewrite Hopen. mred. cbn [fw_handles]. rewrite list_lookup_insert_eq by (rewrite length_insert; lia).
    mred. cbn [fh_fd fw_fs]. destruct (fstat fd' fs'); by eexists.
Qed.

(** A base name that does not fit the context's [name[32]] is copied past
    its end. *)
Theorem file_ctor_long_name_overflows path n c w :
  file_tables_ok n w -> (n < FILE_DRIVER_MAX_DEVICES)%nat -> context_ok c ->
  (32 <= length (basename path))%nat ->
  file_ctor path (Some c) w = Fault OutOfBounds.
Proof.
  intros (Hh & Hu & Hle) Hn (Hc1 & _) Hlen. unfold file_ctor.
  rewrite Hu, claim_handle_slots by done.
  destruct (lookup_lt_is_Some_2 (fw_handles w) n) as [h ->]; [lia|]. mred.
  cbn [c_name set_c_handle]. unfold strcpy, store_at.
  rewrite decide_False; [done|]. rewrite length_app. cbn. lia.
Qed.
End file.

(** ** A file to run the examples on

    A file held as its bytes, whose calls transfer at most three bytes at a
    time. *)

Definition slow_pread (fd count off : Z) (f : list byte) : Z * list byte * list byte :=
  let k := Nat.min (Nat.min (Z.to_nat count) 3) (length f - Z.to_nat off) in
  (Z.of_nat k, slice (Z.to_nat off) k f, f).

Definition slow_pwrite (fd : Z) (buf : list byte) (count off : Z) (f : list byte) : Z * list byte :=
  let k := Nat.min (Z.to_nat count) 3 in
  (Z.of_nat k, splice (Z.to_nat off) (take k buf) f).

Definition slow_fdatasync (fd : Z) (f : list byte) : Z * list byte := (0, f).

Lemma slow_posix_file fd : posix_file slow_pread slow_pwrite slow_fdatasync fd (fun f => f).
Proof.
  split.
  - intros f count off Hc Ho. eexists _, f. split; [|split; [|split; [|by split]]]; lia.
  - intros f buf count off Hc Ho Hle. eexists _, _. split; [|split; [|by split]]; lia.
  - intros f count off Hc Ho. exists f. split; [|done]. unfold slow_pread.
    by replace (Nat.min _ _) with 0%nat by lia.
  - intros f. by exists f.
Qed.
