(* ===== verification/McmanPlugin.v ===== *)
(** * The memory card plugin: [plugins/mcman/mcman_d.c]

    Exports PlayStation 2 memory cards page by page.  The cards are NAND flash:
    a page is programmed only after its whole block is erased, so a write reads
    the block, injects the new pages and writes the block back.  The card
    driver is an argument; [mc_card] is its contract, which promises nothing
    for a page that is not erased or whose checksum is wrong. *)

From S2P Require Export PluginApi.

Definition MCMAN_MAX_DEVICES : nat := 2.
Definition sceMcResSucceed := 0.

(** [struct handle] *)
Record mcman_handle := mk_mcman_handle {
  mh_device : Z; mh_size : Z; mh_blocksize : Z }.

(** The statics of the file: handles, [bbuffer], [pagesPerBlock]; then the card. *)
Record mcman_world (C : Type) := mk_mcman {
  mm_handles : list mcman_handle;
  mm_bbuffer : option (list byte);
  mm_pagesPerBlock : Z;
  mm_card : C }.
Arguments mk_mcman {C} _ _ _ _.
Arguments mm_handles {C} _.
Arguments mm_bbuffer {C} _.
Arguments mm_pagesPerBlock {C} _.
Arguments mm_card {C} _.

Section mcman.
Context {C : Type}.
Context (McEraseBlock2 : Z -> Z -> Z -> C -> Z * C).
Context (McReadPage : Z -> Z -> Z -> C -> Z * list byte * C).
Context (McWritePage : Z -> Z -> Z -> list byte -> list byte -> C -> Z * C).
(** The three bytes of checksum of a 128-byte chunk. *)
Context (McDataChecksum : list byte -> list byte).
Context (McDetectCard2 : Z -> Z -> C -> C).
(** result, page length, pages per block, card size in pages *)
Context (McGetCardSpec : Z -> Z -> C -> Z * (Z * Z * Z) * C).
Context (AllocSysMemory : Z -> option (list byte)).

(** The [ecc] array of a page. *)
Definition page_ecc (buffer : list byte) (pos : nat) : outcome (list byte) :=
  c0 ← load_at pos 128 buffer;
  ecc ← store_at 0 (McDataChecksum c0) (replicate 16 x00);
  c1 ← load_at (pos + 128) 128 buffer;
  ecc ← store_at 3 (McDataChecksum c1) ecc;
  c2 ← load_at (pos + 256) 128 buffer;
  ecc ← store_at 6 (McDataChecksum c2) ecc;
  c3 ← load_at (pos + 384) 128 buffer;
  store_at 9 (McDataChecksum c3) ecc.

(** The loop of [writeBlock], [n] pages left. *)
Fixpoint writeBlock_loop (n j : nat) (port block : Z) (buffer : list byte) (pageSize ppb : Z)
    (result : Z) (c : C) : outcome (Z * C) :=
  match n with
  | O => Ok (result, c)
  | S n =>
      let pos := (j * Z.to_nat pageSize)%nat in
      ecc ← page_ecc buffer pos;
      page ← load_at pos (Z.to_nat pageSize) buffer;
      let '(result, c) := McWritePage port 0 (i32 (block * ppb + Z.of_nat j)) page ecc c in
      if negb (result =? sceMcResSucceed) then Ok (result, c)
      else writeBlock_loop n (S j) port block buffer pageSize ppb result c
  end.

Definition writeBlock (port block : Z) (buffer : list byte) (pageSize ppb : Z) (c : C)
  : outcome (Z * C) :=
  let '(result, c) := McEraseBlock2 port 0 block c in
  if negb (result =? sceMcResSucceed) then Ok (result, c)
  else writeBlock_loop (Z.to_nat ppb) 0 port block buffer pageSize ppb result c.

Fixpoint readBlock_loop (n j : nat) (port block : Z) (buffer : list byte) (pageSize ppb : Z)
    (result : option Z) (c : C) : outcome (Z * list byte * C) :=
  match n with
  | O => r ← of_option Uninitialised result; Ok (r, buffer, c)
  | S n =>
      let '(result, d, c) := McReadPage port 0 (i32 (block * ppb + Z.of_nat j)) c in
      buffer ← store_at (j * Z.to_nat pageSize) d buffer;
      if negb (result =? sceMcResSucceed) then Ok (result, buffer, c)
      else readBlock_loop n (S j) port block buffer pageSize ppb (Some result) c
  end.

Definition readBlock (port block : Z) (buffer : list byte) (pageSize ppb : Z) (c : C)
  : outcome (Z * list byte * C) :=
  readBlock_loop (Z.to_nat ppb) 0 port block buffer pageSize ppb None c.

(** [buffer] is the caller's data from the current position on. *)
Definition injectPages (port block pageSize offset nPages ppb : Z) (buffer : list byte)
    (bbuffer : option (list byte)) (c : C) : outcome (Z * option (list byte) * C) :=
  bb ← of_option NullDeref bbuffer;
  '(result, bb, c) ← (if negb (offset =? 0) || negb (nPages =? ppb)
                      then readBlock port block bb pageSize ppb c
                      else Ok (sceMcResSucceed, bb, c));
  if negb (result =? sceMcResSucceed) then Ok (result, Some bb, c)
  else
    d ← load_at 0 (Z.to_nat (nPages * pageSize)) buffer;
    bb ← store_at (Z.to_nat (offset * pageSize)) d bb;
    '(result, c) ← writeBlock port block bb pageSize ppb c;
    Ok (result, Some bb, c).

Definition mcman_handle_of (handle : handle_ptr) (w : mcman_world C) : outcome mcman_handle :=
  h ← of_option NullDeref handle; of_option OutOfBounds (mm_handles w !! h).

(** [n] pages left; [acc] are the pages already in the buffer. *)
Fixpoint mcman_pread_loop (n : nat) (i : Z) (port offset : Z) (acc : list byte) (result : Z) (c : C)
  : Z * list byte * C :=
  match n with
  | O => (result, acc, c)
  | S n =>
      let '(result, d, c) := McReadPage port 0 (i32 (offset + i)) c in
      if negb (result =? sceMcResSucceed) then (result, acc ++ d, c)
      else mcman_pread_loop n (i + 1) port offset (acc ++ d) result c
  end.

Definition mcman_pread (handle : handle_ptr) (count offset flags : Z) (w : mcman_world C)
  : outcome (Z * list byte * mcman_world C) :=
  h ← mcman_handle_of handle w;
  let '(r, d, c) := mcman_pread_loop (Z.to_nat count) 0 (mh_device h) offset [] sceMcResSucceed
                      (mm_card w) in
  Ok (r, d, mk_mcman (mm_handles w) (mm_bbuffer w) (mm_pagesPerBlock w) c).

(** [for (i = startBlock; i <= endBlock; i++)] *)
Fixpoint mcman_pwrite_loop (fuel : nat) (i endBlock port blocksize blockOffset remainingPages
    writtenPages ppb result : Z) (buf : list byte) (bb : option (list byte)) (c : C)
  : outcome (Z * option (list byte) * C) :=
  if u32 i <=? endBlock then
    match fuel with
    | O => Fault OutOfFuel
    | S fuel =>
        let nPages := if remainingPages >=? ppb - blockOffset then ppb - blockOffset
                      else remainingPages in
        '(result, bb, c) ← injectPages port i blocksize blockOffset nPages ppb
                             (drop (Z.to_nat (writtenPages * blocksize)) buf) bb c;
        if negb (result =? sceMcResSucceed) then Ok (result, bb, c)
        else mcman_pwrite_loop fuel (i32 (i + 1)) endBlock port blocksize 0 (remainingPages - nPages)
               (writtenPages + nPages) ppb result buf bb c
    end
  else Ok (result, bb, c).

Definition mcman_pwrite (handle : handle_ptr) (buf : list byte) (count offset flags : Z)
    (w : mcman_world C) : outcome (Z * mcman_world C) :=
  h ← mcman_handle_of handle w;
  let ppb := mm_pagesPerBlock w in
  _ ← outcome_require (ppb <> 0) DivByZero;
  let startBlock := u32 (offset / ppb) in
  let endBlock := u32 (u64 (offset + count - 1) / ppb) in
  let blockOffset := i32 (Z.land offset (ppb - 1)) in
  '(result, bb, c) ← mcman_pwrite_loop (S (Z.to_nat (endBlock - startBlock))) (i32 startBlock) endBlock
     (mh_device h) (mh_blocksize h) blockOffset (i32 count) 0 ppb 0 buf (mm_bbuffer w) (mm_card w);
  Ok (result, mk_mcman (mm_handles w) bb ppb c).

Definition mcman_flush (handle : handle_ptr) (flags : Z) (w : mcman_world C)
  : outcome (Z * mcman_world C) := Ok (0, w).

(** [sprintf(c->name, "mc%d", device)] for the devices of the handle array. *)
Definition mc_name (device : Z) : list byte := bs "mc" ++ [byte_of_Z (48 + device)].

Definition mcman_ctor (pconfig : Z) (oc : option lwnbd_context_t) (w : mcman_world C)
  : outcome (Z * option lwnbd_context_t * mcman_world C) :=
  let device := u8 pconfig in
  let c := McDetectCard2 device 0 (mm_card w) in
  let '(result, (pageLen, ppb, cardSize), c) := McGetCardSpec device 0 c in
  if result =? sceMcResSucceed then
    _ ← outcome_require (device < Z.of_nat MCMAN_MAX_DEVICES) OutOfBounds;
    let i := Z.to_nat device in
    let h := mk_mcman_handle device (i64 (cardSize * pageLen)) (u16 pageLen) in
    x ← of_option NullDeref oc;
    n ← strcpy (c_name x) (mc_name device);
    Ok (0, Some (set_c_handle (Some i) (set_c_name n x)),
        mk_mcman (<[i := h]> (mm_handles w)) (AllocSysMemory (pageLen * ppb)) ppb c)
  else Ok (1, oc, mk_mcman (mm_handles w) (mm_bbuffer w) ppb c).

Definition mcman_get_size (handle : handle_ptr) (w : mcman_world C) : outcome (Z * mcman_world C) :=
  h ← mcman_handle_of handle w; Ok (mh_size h, w).

Definition mcman_block_size (handle : handle_ptr) (w : mcman_world C)
  : outcome (Z * Z * Z * mcman_world C) := Ok (512, 512, 512, w).

Definition mcman_plugin : lwnbd_plugin_t (mcman_world C) Z := {|
  pl_name := bs "mcman";
  pl_longname := bs "PlayStation 2 MemoryCard via MCMAN";
  pl_load := None;
  pl_get_size := Some mcman_get_size;
  pl_pread := Some mcman_pread;
  pl_pwrite := Some mcman_pwrite;
  pl_flush := Some mcman_flush;
  pl_trim := None;
  pl_zero := None;
  pl_block_size := Some mcman_block_size;
  pl_config := None;
  pl_magic_config_key := None;
  pl_ctor := Some mcman_ctor;
  pl_query := None;
  pl_export_without_handle := 0
|}.

(** ** The card's contract *)

(** The checksums a page of 512 bytes is stored with. *)
Definition ecc_of (page : list byte) : list byte :=
  McDataChecksum (slice 0 128 page) ++ McDataChecksum (slice 128 128 page) ++
  McDataChecksum (slice 256 128 page) ++ McDataChecksum (slice 384 128 page) ++ replicate 4 x00.

(** A card on [port] with blocks of [ppb] pages of 512 bytes; [erased c p]:
    page [p] can be programmed. *)
Record mc_card (port : Z) (ppb : nat) (bytes : C -> list byte) (erased : C -> nat -> Prop) : Prop := {
  mcc_checksum l : length (McDataChecksum l) = 3%nat;
  mcc_read c p :
    ((p + 1) * 512 <= length (bytes c))%nat ->
    exists c', McReadPage port 0 (Z.of_nat p) c = (0, slice (p * 512) 512 (bytes c), c') /\
      bytes c' = bytes c;
  mcc_erase c b :
    ((b + 1) * ppb * 512 <= length (bytes c))%nat ->
    exists c', McEraseBlock2 port 0 (Z.of_nat b) c = (0, c') /\
      length (bytes c') = length (bytes c) /\
      take (b * ppb * 512) (bytes c') = take (b * ppb * 512) (bytes c) /\
      drop ((b + 1) * ppb * 512) (bytes c') = drop ((b + 1) * ppb * 512) (bytes c) /\
      forall p, (b * ppb <= p < (b + 1) * ppb)%nat -> erased c' p;
  mcc_write c p d :
    length d = 512%nat -> erased c p -> ((p + 1) * 512 <= length (bytes c))%nat ->
    exists c', McWritePage port 0 (Z.of_nat p) d (ecc_of d) c = (0, c') /\
      bytes c' = splice (p * 512) d (bytes c) /\
      forall q, q <> p -> erased c q -> erased c' q
}.

Context (port : Z) (ppb : nat) (bytes : C -> list byte) (erased : C -> nat -> Prop).
Context (Hcard : mc_card port ppb bytes erased).
Context (Hppb : (0 < ppb)%nat).

Lemma page_ecc_spec buffer pos :
  (pos + 512 <= length buffer)%nat -> page_ecc buffer pos = Ok (ecc_of (slice pos 512 buffer)).
Proof.
  intros H. unfold page_ecc, ecc_of. rewrite !slice_slice by lia. rewrite Nat.add_0_r.
  pose proof (mcc_checksum _ _ _ _ Hcard (slice pos 128 buffer)) as L0.
  pose proof (mcc_checksum _ _ _ _ Hcard (slice (pos + 128) 128 buffer)) as L1.
  pose proof (mcc_checksum _ _ _ _ Hcard (slice (pos + 256) 128 buffer)) as L2.
  pose proof (mcc_checksum _ _ _ _ Hcard (slice (pos + 384) 128 buffer)) as L3.
  rewrite !load_at_fits by lia. mred.
  destruct (McDataChecksum (slice pos 128 buffer)) as [|? [|? [|? [|? ?]]]]; try done.
  rewrite store_at_fits by (unfold splice; cbn; lia). mred.
  destruct (McDataChecksum (slice (pos + 128) 128 buffer)) as [|? [|? [|? [|? ?]]]]; try done.
  rewrite store_at_fits by (unfold splice; cbn; lia). mred.
  destruct (McDataChecksum (slice (pos + 256) 128 buffer)) as [|? [|? [|? [|? ?]]]]; try done.
  rewrite store_at_fits by (unfold splice; cbn; lia). mred.
  destruct (McDataChecksum (slice (pos + 384) 128 buffer)) as [|? [|? [|? [|? ?]]]]; try done.
Qed.

Lemma writeBlock_loop_spec n j b buffer c :
  (j + n)%nat = ppb -> length buffer = (ppb * 512)%nat ->
  ((b + 1) * ppb * 512 <= length (bytes c))%nat -> Z.of_nat ((b + 1) * ppb) < 2 ^ 31 ->
  (forall p, (b * ppb + j <= p < (b + 1) * ppb)%nat -> erased c p) ->
  exists c', writeBlock_loop n j port (Z.of_nat b) buffer 512 (Z.of_nat ppb) 0 c = Ok (0, c') /\
    bytes c' = splice ((b * ppb + j) * 512) (slice (j * 512) (n * 512) buffer) (bytes c).
Proof.
  revert j c; induction n as [|n IH]; intros j c Hj Hb Hlen H31 Her; cbn [writeBlock_loop].
  - exists c. by rewrite slice_0, splice_nil.
  - change (Z.to_nat 512) with 512%nat.
    rewrite page_ecc_spec by lia. mred. rewrite load_at_fits by lia. mred.
    replace (i32 (Z.of_nat b * Z.of_nat ppb + Z.of_nat j)) with (Z.of_nat (b * ppb + j))
      by (rewrite swrap_small; lia).
    assert (length (slice (j * 512) 512 buffer) = 512%nat) as Hl by (apply length_slice; lia).
    destruct (mcc_write _ _ _ _ Hcard c (b * ppb + j) (slice (j * 512) 512 buffer)) as (c1 & -> & Hc1 & He1);
      [done|apply Her; lia|lia|]. cbn [sceMcResSucceed Z.eqb negb].
    destruct (IH (S j) c1) as (c2 & -> & Hc2); [lia|done| |done| |].
    + rewrite Hc1, length_splice; lia.
    + intros p Hp. apply He1; [lia|]. apply Her. lia.
    + exists c2. split; [done|]. rewrite Hc2, Hc1.
      replace (S n * 512)%nat with (512 + n * 512)%nat by lia. rewrite slice_app, splice_app.
      * rewrite Hl. f_equal; [lia|]. f_equal. lia.
      * rewrite Hl, length_slice by lia. lia.
Qed.

Lemma readBlock_loop_spec n j b buffer r c :
  (j + n)%nat = ppb -> (n = O -> r = Some 0) -> length buffer = (ppb * 512)%nat ->
  ((b + 1) * ppb * 512 <= length (bytes c))%nat -> Z.of_nat ((b + 1) * ppb) < 2 ^ 31 ->
  exists c', readBlock_loop n j port (Z.of_nat b) buffer 512 (Z.of_nat ppb) r c
      = Ok (0, splice (j * 512) (slice ((b * ppb + j) * 512) (n * 512) (bytes c)) buffer, c') /\
    bytes c' = bytes c.
Proof.
  revert j r c buffer; induction n as [|n IH]; intros j r c buffer Hj Hr Hb Hlen H31; cbn [readBlock_loop].
  - exists c. rewrite slice_0, splice_nil, Hr by done. done.
  - change (Z.to_nat 512) with 512%nat.
    replace (i32 (Z.of_nat b * Z.of_nat ppb + Z.of_nat j)) with (Z.of_nat (b * ppb + j))
      by (rewrite swrap_small; lia).
    destruct (mcc_read _ _ _ _ Hcard c (b * ppb + j)) as (c1 & -> & Hc1); [lia|].
    assert (length (slice ((b * ppb + j) * 512) 512 (bytes c)) = 512%nat) as Hl by (apply length_slice; lia).
    rewrite store_at_fits by lia. mred. cbn [sceMcResSucceed Z.eqb negb].
    destruct (IH (S j) (Some 0) c1 (splice (j * 512) (slice ((b * ppb + j) * 512) 512 (bytes c)) buffer))
      as (c2 & -> & Hc2); [lia|done|rewrite length_splice; lia|by rewrite Hc1|done|].
    exists c2. rewrite Hc2, Hc1. split; [|done]. do 3 f_equal.
    replace (S n * 512)%nat with (512 + n * 512)%nat by lia. rewrite slice_app, splice_app.
    + rewrite Hl. f_equal; [lia|]. f_equal. lia.
    + rewrite Hl, length_slice by lia. lia.
Qed.

(** Injecting [n] pages at page [o] of block [b]: a read-modify-write of the
    block changes those pages only. *)
Lemma injectPages_spec b o n d rest bb c :
  (o + n <= ppb)%nat -> length d = (n * 512)%nat -> length bb = (ppb * 512)%nat ->
  ((b + 1) * ppb * 512 <= length (bytes c))%nat -> Z.of_nat ((b + 1) * ppb) < 2 ^ 31 ->
  exists bb' c', injectPages port (Z.of_nat b) 512
      (Z.of_nat o) (Z.of_nat n) (Z.of_nat ppb) (d ++ rest) (Some bb) c = Ok (0, Some bb', c') /\
    length bb' = (ppb * 512)%nat /\
    bytes c' = splice ((b * ppb + o) * 512) d (bytes c).
Proof.
  intros Ho Hd Hbb Hlen H31. unfold injectPages. mred.
  assert (exists bb1 c1, (if negb (Z.of_nat o =? 0) || negb (Z.of_nat n =? Z.of_nat ppb)
      then readBlock port (Z.of_nat b) bb 512 (Z.of_nat ppb) c
      else Ok (sceMcResSucceed, bb, c)) = Ok (0, bb1, c1) /\ bytes c1 = bytes c /\
      length bb1 = (ppb * 512)%nat /\
      splice (o * 512) d bb1 = splice (o * 512) d (slice (b * ppb * 512) (ppb * 512) (bytes c)))
    as (bb1 & c1 & -> & Hc1 & Hl1 & Hs1).
  { assert (length (slice (b * ppb * 512) (ppb * 512) (bytes c)) = (ppb * 512)%nat) as Hsl
      by (apply length_slice; lia).
    destruct (negb (Z.of_nat o =? 0) || negb (Z.of_nat n =? Z.of_nat ppb)) eqn:E.
    - unfold readBlock. rewrite Nat2Z.id.
      destruct (readBlock_loop_spec ppb 0 b bb None c) as (c1 & -> & Hc1); [lia|lia|done|done|done|].
      eexists _, _. split; [done|]. rewrite Nat.add_0_r, splice_all by lia. done.
    - apply orb_false_iff in E as [E1 E2]. apply negb_false_iff, Z.eqb_eq in E1, E2.
      eexists _, _. split; [done|]. split_and!; [done..|].
      assert (o = 0 /\ n = ppb)%nat as [-> ->] by lia. rewrite !splice_all by lia. done. }
  mred. cbn [sceMcResSucceed Z.eqb negb].
  replace (Z.to_nat (Z.of_nat n * 512)) with (n * 512)%nat by lia.
  replace (Z.to_nat (Z.of_nat o * 512)) with (o * 512)%nat by lia.
  rewrite load_at_fits by (rewrite length_app; lia). mred.
  assert (slice 0 (n * 512) (d ++ rest) = d) as ->
    by (unfold slice; rewrite drop_0; by apply take_app_length').
  rewrite store_at_fits by lia. mred. unfold writeBlock.
  destruct (mcc_erase _ _ _ _ Hcard c1 b) as (c2 & -> & Hl2 & Ht2 & Hd2 & He2); [by rewrite Hc1|].
  cbn [sceMcResSucceed Z.eqb negb]. rewrite Nat2Z.id.
  assert (length (splice (o * 512) d bb1) = (ppb * 512)%nat) as Hls by (rewrite length_splice; lia).
  destruct (writeBlock_loop_spec ppb 0 b (splice (o * 512) d bb1) c2) as (c3 & -> & Hc3);
    [lia|done|by rewrite Hl2, Hc1|done|intros p Hp; apply He2; lia|]. mred.
  eexists _, _. split; [done|]. split; [done|]. rewrite Hc3, Nat.add_0_r.
  rewrite <- Hls, slice_all.
  rewrite (splice_agree _ _ (bytes c2) (bytes c)); [|by rewrite Ht2, Hc1|].
  - rewrite Hs1, splice_splice_slice by lia. f_equal. lia.
  - rewrite Hls. replace (b * ppb * 512 + ppb * 512)%nat with ((b + 1) * ppb * 512)%nat by lia.
    by rewrite Hd2, Hc1.
Qed.

Lemma mcman_pread_loop_spec n i off acc r c :
  (n = O -> r = 0) -> ((off + i + n) * 512 <= length (bytes c))%nat -> Z.of_nat (off + i + n) < 2 ^ 31 ->
  exists c', mcman_pread_loop n (Z.of_nat i) port (Z.of_nat off) acc r c
      = (0, acc ++ slice ((off + i) * 512) (n * 512) (bytes c), c') /\ bytes c' = bytes c.
Proof.
  revert i acc r c; induction n as [|n IH]; intros i acc r c Hr Hlen H31; cbn [mcman_pread_loop].
  - exists c. by rewrite slice_0, app_nil_r, Hr.
  - replace (i32 (Z.of_nat off + Z.of_nat i)) with (Z.of_nat (off + i)) by (rewrite swrap_small; lia).
    destruct (mcc_read _ _ _ _ Hcard c (off + i)) as (c1 & -> & Hc1); [lia|].
    cbn [sceMcResSucceed Z.eqb negb]. replace (Z.of_nat i + 1) with (Z.of_nat (S i)) by lia.
    destruct (IH (S i) (acc ++ slice ((off + i) * 512) 512 (bytes c)) 0 c1) as (c2 & -> & Hc2);
      [done|rewrite Hc1; lia|lia|].
    exists c2. rewrite Hc2, Hc1, <- app_assoc. split; [|done].
    replace (S n * 512)%nat with (512 + n * 512)%nat by lia. rewrite slice_app.
    do 5 f_equal. lia.
Qed.

(** The blocks from [b] on, [rem] pages starting at page [o] of block [b]. *)
Lemma mcman_pwrite_loop_spec fuel b o rem wr nb last buf bb c :
  (0 < rem)%nat -> (o < ppb)%nat -> last = ((b * ppb + o + rem - 1) / ppb)%nat ->
  (last - b < fuel)%nat -> (b * ppb + o + rem <= nb * ppb)%nat ->
  length (bytes c) = (nb * ppb * 512)%nat -> Z.of_nat (nb * ppb) < 2 ^ 31 ->
  length bb = (ppb * 512)%nat -> ((wr + rem) * 512 <= length buf)%nat ->
  exists bb' c', mcman_pwrite_loop fuel (Z.of_nat b) (Z.of_nat last) port 512 (Z.of_nat o)
      (Z.of_nat rem) (Z.of_nat wr) (Z.of_nat ppb) 0 buf (Some bb) c = Ok (0, Some bb', c') /\
    length bb' = (ppb * 512)%nat /\
    bytes c' = splice ((b * ppb + o) * 512) (slice (wr * 512) (rem * 512) buf) (bytes c).
Proof.
  revert b o rem wr bb c; induction fuel as [|fuel IH];
    intros b o rem wr bb c Hrem Ho Hlast Hf Hnb Hlen H31 Hbb Hbuf; [lia|].
  assert (b < nb)%nat as Hbnb by nia.
  assert ((b + 1) * ppb <= nb * ppb)%nat as Hblk by (apply Nat.mul_le_mono_r; lia).
  assert (b <= last)%nat as Hbl.
  { rewrite Hlast. apply Nat.div_le_lower_bound; [lia|]. rewrite Nat.mul_comm. lia. }
  assert (last < nb)%nat as Hlnb.
  { rewrite Hlast. apply Nat.Div0.div_lt_upper_bound. rewrite Nat.mul_comm. lia. }
  assert (Z.of_nat nb < 2 ^ 31) as Hnb31 by nia.
  cbn [mcman_pwrite_loop]. rewrite wrap_small by lia. rewrite (proj2 (Z.leb_le _ _)) by lia.
  set (n := Nat.min rem (ppb - o)).
  replace (if Z.of_nat rem >=? Z.of_nat ppb - Z.of_nat o then Z.of_nat ppb - Z.of_nat o else Z.of_nat rem)
    with (Z.of_nat n) by (unfold n; destruct (Z.of_nat rem >=? _) eqn:E; lia).
  replace (Z.to_nat (Z.of_nat wr * 512)) with (wr * 512)%nat by lia.
  assert (drop (wr * 512) buf = slice (wr * 512) (n * 512) buf ++ drop ((wr + n) * 512) buf) as ->.
  { unfold slice. replace ((wr + n) * 512)%nat with (wr * 512 + n * 512)%nat by lia.
    by rewrite <- drop_drop, take_drop. }
  assert (length (slice (wr * 512) (n * 512) buf) = (n * 512)%nat) as Hsl by (apply length_slice; lia).
  destruct (injectPages_spec b o n (slice (wr * 512) (n * 512) buf) (drop ((wr + n) * 512) buf) bb c)
    as (bb1 & c1 & -> & Hbb1 & Hc1); [lia|done|done|lia|lia|]. mred. cbn [sceMcResSucceed Z.eqb negb].
  replace (i32 (Z.of_nat b + 1)) with (Z.of_nat (S b)) by (rewrite swrap_small; lia).
  replace (Z.of_nat rem - Z.of_nat n) with (Z.of_nat (rem - n)) by lia.
  replace (Z.of_nat wr + Z.of_nat n) with (Z.of_nat (wr + n)) by lia.
  destruct (decide (rem <= ppb - o)%nat) as [Hle|Hgt].
  - assert (n = rem) as -> by lia. assert (last = b) as ->.
    { rewrite Hlast. symmetry. apply (Nat.div_unique _ _ _ (o + rem - 1)); lia. }
    exists bb1, c1. destruct fuel; cbn [mcman_pwrite_loop]; rewrite wrap_small by lia;
      rewrite (proj2 (Z.leb_gt _ _)) by lia; done.
  - assert (n = ppb - o)%nat as Hn by lia.
    assert (S b <= last)%nat as Hlast'.
    { rewrite Hlast. apply Nat.div_le_lower_bound; [lia|]. rewrite Nat.mul_comm. lia. }
    destruct (IH (S b) 0%nat (rem - n)%nat (wr + n)%nat bb1 c1) as (bb2 & c2 & Hrun & Hbb2 & Hc2);
      [lia|lia|rewrite Hlast; f_equal; lia|lia|lia|rewrite Hc1, length_splice; lia|done|done|lia|].
    change (Z.of_nat 0) with 0 in Hrun. rewrite Hrun.
    exists bb2, c2. split_and!; [done..|]. rewrite Hc2, Hc1.
    replace ((S b * ppb + 0) * 512)%nat
      with ((b * ppb + o) * 512 + length (slice (wr * 512) (n * 512) buf))%nat by lia.
    rewrite <- splice_app.
    + f_equal. replace (rem * 512)%nat with (n * 512 + (rem - n) * 512)%nat by lia.
      rewrite slice_app. f_equal. f_equal. lia.
    + rewrite Hsl, length_slice by lia. lia.
Qed.

(** ** The card as a block device *)

(** A handle on the card; the card is made of whole blocks. *)
Definition mcman_inv (i nb : nat) (w : mcman_world C) : Prop :=
  (exists h, mm_handles w !! i = Some h /\ mh_device h = port /\ mh_blocksize h = 512) /\
  mm_pagesPerBlock w = Z.of_nat ppb /\
  (exists bb, mm_bbuffer w = Some bb /\ length bb = (ppb * 512)%nat) /\
  length (bytes (mm_card w)) = (nb * ppb * 512)%nat.

Definition mcman_content (w : mcman_world C) : list byte := bytes (mm_card w).

Context (nb k : nat) (Hsize : Z.of_nat (nb * ppb) < 2 ^ 31) (Hpow : ppb = (2 ^ k)%nat).

Lemma block_offset off : 0 <= off -> Z.land off (Z.of_nat ppb - 1) = off mod Z.of_nat ppb.
Proof.
  intros. rewrite Hpow, Nat2Z.inj_pow. change (Z.of_nat 2) with 2.
  rewrite <- Z.land_ones by lia. f_equal. rewrite Z.ones_equiv. lia.
Qed.

Lemma mcman_pread_spec i w cnt off :
  mcman_inv i nb w -> 0 <= cnt < 2 ^ 31 -> 0 <= off ->
  (off + cnt) * 512 <= Z.of_nat (length (mcman_content w)) ->
  exists w', mcman_pread (Some i) cnt off 0 w
    = Ok (0, slice (Z.to_nat (off * 512)) (Z.to_nat (cnt * 512)) (mcman_content w), w') /\
    mcman_inv i nb w' /\ mcman_content w' = mcman_content w.
Proof.
  intros ((h & Hh & Hd & Hbs) & Hp & Hb & Hl) Hcnt Hoff Hle. unfold mcman_content in *.
  unfold mcman_pread, mcman_handle_of. mred. rewrite Hh. mred. rewrite Hd.
  destruct (mcman_pread_loop_spec (Z.to_nat cnt) 0 (Z.to_nat off) [] sceMcResSucceed (mm_card w))
    as (c' & Hrun & Hc'); [done|lia|lia|]. change (Z.of_nat 0) with 0 in Hrun.
  rewrite Z2Nat.id in Hrun by lia. rewrite Hrun.
  eexists. split; [do 3 f_equal; cbn [app]; f_equal; lia|].
  split; [|done]. split_and!; cbn; eauto. by rewrite Hc'.
Qed.

Lemma mcman_pwrite_spec i w buf cnt off :
  mcman_inv i nb w -> 0 < cnt < 2 ^ 31 -> 0 <= off -> cnt * 512 <= Z.of_nat (length buf) ->
  (off + cnt) * 512 <= Z.of_nat (length (mcman_content w)) ->
  exists w', mcman_pwrite (Some i) buf cnt off 0 w = Ok (0, w') /\ mcman_inv i nb w' /\
    mcman_content w' = splice (Z.to_nat (off * 512)) (take (Z.to_nat (cnt * 512)) buf) (mcman_content w).
Proof.
  intros ((h & Hh & Hd & Hbs) & Hp & (bb & Hb & Hbl) & Hl) Hcnt Hoff Hbuf Hle. unfold mcman_content in *.
  unfold mcman_pwrite, mcman_handle_of. mred. rewrite Hh. mred. rewrite Hd, Hbs, Hp, Hb.
  rewrite require_true by lia. mred. rewrite block_offset by done.
  pose proof (Z.mod_pos_bound off (Z.of_nat ppb) ltac:(lia)) as Hmod.
  pose proof (Z.div_mod off (Z.of_nat ppb) ltac:(lia)) as Hdm.
  assert (0 <= off / Z.of_nat ppb) by (apply Z.div_pos; lia).
  assert (0 < nb)%nat as Hnb0 by (destruct nb; [cbn in Hl; lia|lia]).
  assert (ppb <= nb * ppb)%nat as Hpn by (destruct nb; cbn; lia).
  assert (off + cnt <= Z.of_nat (nb * ppb)) as Hoc by lia.
  rewrite (swrap_small 32 (off mod _)), (swrap_small 32 cnt) by lia.
  rewrite (wrap_small 64) by lia.
  pose proof (Z.div_le_mono off (off + cnt - 1) (Z.of_nat ppb) ltac:(lia) ltac:(lia)) as Hse.
  assert ((off + cnt - 1) / Z.of_nat ppb <= off + cnt - 1) as Hel
    by (apply Z.div_le_upper_bound; [lia|nia]).
  rewrite !wrap_small by lia. rewrite swrap_small by lia.
  set (b := Z.to_nat (off / Z.of_nat ppb)). set (o := Z.to_nat (off mod Z.of_nat ppb)).
  set (last := Z.to_nat ((off + cnt - 1) / Z.of_nat ppb)).
  assert (b * ppb + o = Z.to_nat off)%nat as Hbo.
  { apply Nat2Z.inj. rewrite Nat2Z.inj_add, Nat2Z.inj_mul. unfold b, o. rewrite !Z2Nat.id by lia. lia. }
  replace (off / Z.of_nat ppb) with (Z.of_nat b) by lia.
  replace ((off + cnt - 1) / Z.of_nat ppb) with (Z.of_nat last) by lia.
  replace (off mod Z.of_nat ppb) with (Z.of_nat o) by lia.
  edestruct (mcman_pwrite_loop_spec (S (Z.to_nat (Z.of_nat last - Z.of_nat b))) b o (Z.to_nat cnt) 0 nb last
    buf bb (mm_card w)) as (bb' & c' & Hrun & Hbb' & Hc'); [lia|lia| |lia|rewrite Hbo; lia|done|done|done|lia|].
  { unfold last. rewrite Hbo.
    replace (Z.to_nat off + Z.to_nat cnt - 1)%nat with (Z.to_nat (off + cnt - 1)) by lia.
    rewrite Z2Nat.inj_div by lia. by rewrite Nat2Z.id. }
  change (Z.of_nat 0) with 0 in Hrun. rewrite (Z2Nat.id cnt) in Hrun by lia. rewrite Hrun.
  mred. eexists. split; [done|]. cbn [mm_card].
  assert (length (bytes c') = length (bytes (mm_card w))) as Hlc.
  { rewrite Hc', length_splice; [done|]. rewrite Hbo, length_slice by lia. lia. }
  split.
  - split_and!; cbn; [by exists h|done|by exists bb'|by rewrite Hlc].
  - rewrite Hc', Hbo. unfold slice. rewrite drop_0. f_equal; [lia|]. f_equal. lia.
Qed.

#[local, refine] Instance mcman_read_store (i : nat) :
  ReadStore mcman_plugin (Some i) 512 (mcman_inv i nb) mcman_content := {| rs_fun := mcman_pread |}.
Proof.
  - done.
  - done.
  - intros w cnt off Hinv Hcnt Hoff Hle. apply mcman_pread_spec; [done|lia|done|done].
Defined.

#[local, refine] Instance mcman_write_store (i : nat) :
  WriteStore mcman_plugin (Some i) 512 (mcman_inv i nb) mcman_content := {| ws_fun := mcman_pwrite |}.
Proof.
  - done.
  - intros w buf cnt off Hinv Hcnt Hoff Hb Hle. apply mcman_pwrite_spec; [done|lia|done..].
Defined.

(** C18: on NAND flash that can only be programmed after a block erase, a write
    of any run of pages, across blocks and not aligned to them, changes those
    pages and preserves every other byte of the card. *)
Theorem mcman_pwrite_preserves_card i w buf cnt off :
  mcman_inv i nb w -> 0 < cnt < 2 ^ 31 -> 0 <= off -> cnt * 512 <= Z.of_nat (length buf) ->
  (off + cnt) * 512 <= Z.of_nat (length (mcman_content w)) ->
  exists w', mcman_pwrite (Some i) buf cnt off 0 w = Ok (0, w') /\ mcman_inv i nb w' /\
    mcman_content w' = splice (Z.to_nat (off * 512)) (take (Z.to_nat (cnt * 512)) buf) (mcman_content w).
Proof. apply mcman_pwrite_spec. Qed.
End mcman.

(** ** A card to run the examples on

    Blocks of two pages.  Erasing fills with ones; programming needs an erased
    page and the right checksums. *)

Definition sim_checksum (l : list byte) : list byte :=
  let b := default x00 (head l) in [b; b; x00].

(** [sim_erased] lists the pages that can be programmed. *)
Record sim_card := mk_sim { sim_bytes : list byte; sim_erased : list nat }.

Definition sim_erase (port slot block : Z) (c : sim_card) : Z * sim_card :=
  let b := Z.to_nat block in
  if ((b + 1) * 2 * 512 <=? length (sim_bytes c))%nat
  then (0, mk_sim (splice (b * 2 * 512) (replicate 1024 xff) (sim_bytes c))
             ((b * 2)%nat :: (b * 2 + 1)%nat :: sim_erased c))
  else (-1, c).

Definition sim_read (port slot page : Z) (c : sim_card) : Z * list byte * sim_card :=
  let p := Z.to_nat page in
  if ((p + 1) * 512 <=? length (sim_bytes c))%nat
  then (0, slice (p * 512) 512 (sim_bytes c), c) else (-1, [], c).

Definition sim_write (port slot page : Z) (d ecc : list byte) (c : sim_card) : Z * sim_card :=
  let p := Z.to_nat page in
  if decide (p ∈ sim_erased c /\ ecc = ecc_of sim_checksum d) then
    (0, mk_sim (splice (p * 512) d (sim_bytes c)) (filter (fun q => q <> p) (sim_erased c)))
  else (-1, c).

Definition sim_page_erased (c : sim_card) (p : nat) : Prop := p ∈ sim_erased c.

Definition sim_detect (port slot : Z) (c : sim_card) : sim_card := c.
Definition sim_spec (port slot : Z) (c : sim_card) : Z * (Z * Z * Z) * sim_card :=
  (0, (512, 2, Z.of_nat (length (sim_bytes c)) / 512), c).
Definition sim_alloc (size : Z) : option (list byte) := Some (replicate (Z.to_nat size) x00).

Lemma sim_mc_card port :
  mc_card sim_erase sim_read sim_write sim_checksum port 2 sim_bytes sim_page_erased.
Proof.
  split.
  - done.
  - intros c p Hp. unfold sim_read. rewrite Nat2Z.id, (proj2 (Nat.leb_le _ _)) by lia. by exists c.
  - intros c b Hb. unfold sim_erase. rewrite Nat2Z.id, (proj2 (Nat.leb_le _ _)) by lia.
    eexists. split; [done|]. cbn [sim_bytes].
    assert (length (replicate 1024 xff) = 1024%nat) as Hr by apply length_replicate.
    set (r := replicate 1024 xff) in *. clearbody r. split_and!.
    + apply length_splice. lia.
    + unfold splice. rewrite take_app_le by (rewrite length_take; lia).
      by rewrite firstn_firstn, Nat.min_id.
    + unfold splice. rewrite app_assoc, drop_app_ge by (rewrite length_app, length_take; lia).
      rewrite length_app, length_take, Hr, drop_drop. f_equal. lia.
    + intros p Hp. unfold sim_page_erased. cbn. rewrite !elem_of_cons.
      assert (p = b * 2 \/ p = b * 2 + 1)%nat as [-> | ->] by lia; auto.
  - intros c p d Hd He Hp. unfold sim_write. rewrite Nat2Z.id, decide_True by done.
    eexists. split; [done|]. split; [done|]. intros q Hq Heq. unfold sim_page_erased in *. cbn.
    by apply list_elem_of_filter.
Qed.
