(* ===== verification/McmanWear.v ===== *)
(** * Empty writes and the wear of a card: [plugins/mcman/mcman_d.c]

    [mcman_pwrite] computes the last block of a write as
    [(offset + count - 1) / pagesPerBlock].  A write of no page at page 0, which
    the NBD server passes on, wraps around: the last block is the greatest
    32-bit number, and block after block is read, erased and programmed with
    what it held.  The contents survive; the flash wears.  What the driver
    answers for the first block past the card's end is not assumed: the
    theorems follow the call up to there. *)

From S2P Require Export McmanPlugin TransmissionBlocks.

(** What happens to the flash. *)
Inductive flash_op := Erased (block : Z) | Programmed (page : Z).

Section wear.
Context {C : Type}.
Context (McEraseBlock2 : Z -> Z -> Z -> C -> Z * C).
Context (McReadPage : Z -> Z -> Z -> C -> Z * list byte * C).
Context (McWritePage : Z -> Z -> Z -> list byte -> list byte -> C -> Z * C).
Context (McDataChecksum : list byte -> list byte).
Context (port : Z) (ppb : nat) (bytes : C -> list byte) (erased : C -> nat -> Prop).
Context (Hcard : mc_card McEraseBlock2 McReadPage McWritePage McDataChecksum port ppb bytes erased).
Context (Hppb : (0 < ppb)%nat).

(** The erasures and programmings of a card that succeeded, in order. *)
Record flash_log (log : C -> list flash_op) : Prop := {
  fl_erase b c c' : McEraseBlock2 port 0 b c = (0, c') -> log c' = log c ++ [Erased b];
  fl_read p c r d c' : McReadPage port 0 p c = (r, d, c') -> log c' = log c;
  fl_write p d ecc c c' : McWritePage port 0 p d ecc c = (0, c') -> log c' = log c ++ [Programmed p]
}.

Context (log : C -> list flash_op) (Hlog : flash_log log).

Local Abbreviation write_block_loop := (writeBlock_loop McWritePage McDataChecksum).
Local Abbreviation inject_pages := (injectPages McEraseBlock2 McReadPage McWritePage McDataChecksum).
Local Abbreviation pwrite_loop := (mcman_pwrite_loop McEraseBlock2 McReadPage McWritePage McDataChecksum).
Local Abbreviation pwrite := (mcman_pwrite McEraseBlock2 McReadPage McWritePage McDataChecksum).

(** One block erased and all its pages programmed. *)
Definition rewrite_block (b : nat) : list flash_op :=
  Erased (Z.of_nat b) :: ((fun p => Programmed (Z.of_nat p)) <$> seq (b * ppb) ppb).

Lemma writeBlock_loop_log n j b buffer r c c' :
  Z.of_nat (b * ppb + (j + n)) < 2 ^ 31 ->
  write_block_loop n j port (Z.of_nat b) buffer 512 (Z.of_nat ppb) r c = Ok (0, c') ->
  log c' = log c ++ ((fun p => Programmed (Z.of_nat p)) <$> seq (b * ppb + j) n).
Proof.
  revert j r c; induction n as [|n IH]; intros j r c Hb; cbn [writeBlock_loop].
  { intros [= _ <-]. cbn. by rewrite app_nil_r. }
  intros H. apply bind_Ok in H as (ecc & _ & H). apply bind_Ok in H as (page & _ & H).
  destruct (McWritePage _ _ _ _ _ _) as [r1 c1] eqn:E.
  destruct (Z.eqb_spec r1 sceMcResSucceed) as [->|Hr1]; cbn [negb] in H; [|simplify_eq; done].
  apply (fl_write _ Hlog) in E. apply IH in H; [|lia]. rewrite H, E, <- app_assoc.
  f_equal. cbn [seq fmap list_fmap app].
  replace (Z.of_nat b * Z.of_nat ppb + Z.of_nat j) with (Z.of_nat (b * ppb + j)) by lia.
  rewrite swrap_small by lia. by replace (b * ppb + S j)%nat with (S (b * ppb + j)) by lia.
Qed.

Lemma readBlock_loop_log n j b buffer ps pb r c r' d c' :
  readBlock_loop McReadPage n j port b buffer ps pb r c = Ok (r', d, c') -> log c' = log c.
Proof.
  revert j r buffer c; induction n as [|n IH]; intros j r buffer c; cbn [readBlock_loop].
  { intros H. apply bind_Ok in H as (? & _ & [= _ _ <-]). done. }
  destruct (McReadPage _ _ _ _) as [[r1 d1] c1] eqn:E. apply (fl_read _ Hlog) in E.
  intros H. apply bind_Ok in H as (b1 & _ & H).
  destruct (negb _); [simplify_eq; done|]. apply IH in H. congruence.
Qed.

(** An injection that succeeds has erased its block once and then programmed
    every page of it. *)
Lemma injectPages_log b o n buffer bb c bb' c' :
  Z.of_nat ((b + 1) * ppb) < 2 ^ 31 ->
  inject_pages port (Z.of_nat b) 512 o n (Z.of_nat ppb) buffer bb c = Ok (0, bb', c') ->
  log c' = log c ++ rewrite_block b.
Proof.
  intros Hb. unfold injectPages. intros H. apply bind_Ok in H as (bb0 & _ & H).
  apply bind_Ok in H as ([[r1 bb1] c1] & Hr & H).
  assert (log c1 = log c) as <-.
  { destruct (negb (o =? 0) || negb (n =? Z.of_nat ppb)); [by eapply readBlock_loop_log|by simplify_eq]. }
  destruct (r1 =? sceMcResSucceed) eqn:E1; cbn [negb] in H; [|simplify_eq; done].
  apply bind_Ok in H as (d & _ & H). apply bind_Ok in H as (bb2 & _ & H).
  apply bind_Ok in H as ([r2 c2] & Hw & H). simplify_eq. unfold writeBlock in Hw.
  destruct (McEraseBlock2 _ _ _ _) as [r3 c3] eqn:E3.
  destruct (Z.eqb_spec r3 sceMcResSucceed) as [->|Hr3]; cbn [negb] in Hw; [|simplify_eq; done].
  apply (fl_erase _ Hlog) in E3. rewrite Nat2Z.id in Hw. apply writeBlock_loop_log in Hw; [|lia].
  rewrite Hw, E3, <- app_assoc. unfold rewrite_block. by rewrite Nat.add_0_r.
Qed.

(** The first [n] blocks from [b] on, with nothing to write and no end before
    the card's. *)
Lemma empty_write_loop n last fuel b buf bb c :
  Z.of_nat (b + n) <= last + 1 -> last < 2 ^ 32 -> Z.of_nat ((b + n) * ppb) < 2 ^ 31 ->
  ((b + n) * ppb * 512 <= length (bytes c))%nat -> length bb = (ppb * 512)%nat ->
  exists bb' c', pwrite_loop (n + fuel) (Z.of_nat b) last port 512 0 0 0 (Z.of_nat ppb) 0 buf (Some bb) c
      = pwrite_loop fuel (Z.of_nat (b + n)) last port 512 0 0 0 (Z.of_nat ppb) 0 buf (Some bb') c' /\
    length bb' = length bb /\ bytes c' = bytes c /\ log c' = log c ++ concat (rewrite_block <$> seq b n).
Proof.
  revert b bb c; induction n as [|n IH]; intros b bb c Hlast H32 H31 Hl Hbb.
  { exists bb, c. cbn [Nat.add seq fmap list_fmap concat]. rewrite Nat.add_0_r, app_nil_r. by split_and!. }
  assert (Z.of_nat (b + S n) <= Z.of_nat ((b + S n) * ppb)) as Hle by nia.
  cbn [Nat.add mcman_pwrite_loop]. rewrite wrap_small by lia. rewrite (proj2 (Z.leb_le _ _)) by lia.
  replace (if 0 >=? Z.of_nat ppb - 0 then Z.of_nat ppb - 0 else 0) with 0
    by (destruct (0 >=? Z.of_nat ppb - 0) eqn:E; lia).
  change (Z.to_nat (0 * 512)) with 0%nat. rewrite drop_0.
  assert ((b + 1) * ppb <= (b + S n) * ppb)%nat as Hle2 by (apply Nat.mul_le_mono_r; lia).
  destruct (injectPages_spec McEraseBlock2 McReadPage McWritePage McDataChecksum port ppb bytes erased
    Hcard Hppb b 0 0 [] buf bb c) as (bb1 & c1 & Hrun & Hbb1 & Hc1); [lia|done|done|lia|lia|].
  change (Z.of_nat 0) with 0 in Hrun. cbn [app] in Hrun. rewrite Hrun.
  apply injectPages_log in Hrun; [|lia]. rewrite splice_nil in Hc1.
  mred. cbn [sceMcResSucceed Z.eqb negb]. change (0 - 0) with 0. change (0 + 0) with 0.
  replace (i32 (Z.of_nat b + 1)) with (Z.of_nat (S b)) by (rewrite swrap_small; lia).
  replace (b + S n)%nat with (S b + n)%nat in * by lia.
  destruct (IH (S b) bb1 c1) as (bb' & c' & -> & Hbb' & Hc & Hw);
    [lia|lia|done|by rewrite Hc1|done|].
  exists bb', c'. split_and!; [done|congruence|congruence|].
  rewrite Hw, Hrun, <- app_assoc. done.
Qed.

Context (nb k : nat) (Hsize : Z.of_nat (nb * ppb) < 2 ^ 31) (Hpow : ppb = (2 ^ k)%nat).

(** The last block of nothing. *)
Lemma empty_write_end : (0 < nb)%nat -> u32 (u64 (0 + 0 - 1) / Z.of_nat ppb) = 2 ^ 32 - 1.
Proof.
  intros Hnb. assert (Z.of_nat ppb = 2 ^ Z.of_nat k) as Hp by (rewrite Hpow, Nat2Z.inj_pow; done).
  assert (Z.of_nat ppb < 2 ^ 31) as Hp31 by nia. rewrite Hp in *.
  assert (Z.of_nat k < 31) as Hk by (apply (Z.pow_lt_mono_r_iff 2) in Hp31; lia).
  change (u64 (0 + 0 - 1)) with (Z.ones 64). unfold wrap.
  rewrite Z.ones_div_pow2 by lia. rewrite Z.ones_mod_pow2 by lia. done.
Qed.

(** The rest of the call: the loop from the first block past the card's end
    to block [2 ^ 32 - 1], and the return. *)
Definition past_the_end (buf : list byte) (bb : list byte) (c : C) (w : mcman_world C)
  : outcome (Z * mcman_world C) :=
  '(result, bb, c) ← pwrite_loop (Z.to_nat (2 ^ 32 - Z.of_nat nb)) (Z.of_nat nb) (2 ^ 32 - 1) port 512 0 0 0
                       (Z.of_nat ppb) 0 buf (Some bb) c;
  Ok (result, mk_mcman (mm_handles w) bb (mm_pagesPerBlock w) c).

Lemma empty_write i w buf :
  (0 < nb)%nat -> mcman_inv port ppb bytes i nb w ->
  exists bb c, pwrite (Some i) buf 0 0 0 w = past_the_end buf bb c w /\
    length bb = (ppb * 512)%nat /\ bytes c = mcman_content bytes w /\
    log c = log (mm_card w) ++ concat (rewrite_block <$> seq 0 nb).
Proof.
  intros Hnb ((h & Hh & Hd & Hbs) & Hp & (bb & Hb & Hbl) & Hl).
  unfold mcman_pwrite, mcman_handle_of, past_the_end. mred. rewrite Hh. mred. rewrite Hd, Hbs, Hp, Hb.
  rewrite require_true by lia. mred. rewrite empty_write_end by done.
  rewrite Z.div_0_l by lia. change (i32 (u32 0)) with (Z.of_nat 0). rewrite Z.land_0_l.
  change (u32 0) with 0. change (i32 0) with 0.
  assert (Z.of_nat nb < 2 ^ 31) as Hnb31 by nia.
  destruct (empty_write_loop nb (2 ^ 32 - 1) (Z.to_nat (2 ^ 32 - Z.of_nat nb)) 0 buf bb (mm_card w))
    as (bb' & c' & Hrun & Hbb' & Hc & Hw); [lia|lia|done| |done|].
  { unfold mcman_content in *. cbn [Nat.add]. lia. }
  exists bb', c'. split; [|split_and!; [lia|done|done]]. cbn [Nat.add] in Hrun. rewrite <- Hrun.
  replace (S (Z.to_nat (2 ^ 32 - 1 - 0))) with (nb + Z.to_nat (2 ^ 32 - Z.of_nat nb))%nat; [done|].
  apply Nat2Z.inj. rewrite Nat2Z.inj_succ, Nat2Z.inj_add, !Z2Nat.id by lia. lia.
Qed.

(** ** Over the network *)

Context (McDetectCard2 : Z -> Z -> C -> C).
Context (McGetCardSpec : Z -> Z -> C -> Z * (Z * Z * Z) * C).
Context (AllocSysMemory : Z -> option (list byte)).
Context `{CFG : NbdConfig} {CFGok : NbdConfigOk} (plugin_mem : nat -> lwnbd_plugin_t (mcman_world C) Z).
Context {N : Type} `{CB : Callbacks N} (ctx : lwnbd_context_nbd_t) {T : Transport N (n_sock ctx)}.

(** C36: a client that writes less than a page, or nothing, to the beginning of an
    exported card: for every block of the card in turn the driver is made to
    erase it and to program each of its pages, with what they held, before the
    call goes on to the first block that is not on the card.  If the call then
    returns, its result decides the reply, and the payload of the client is
    read as the next request. *)
Theorem short_write_wears_card a i lfuel (f : frame N (mcman_world C)) rq data rest :
  c_p (n_base ctx) = Some a -> c_handle (n_base ctx) = Some i ->
  plugin_mem a = mcman_plugin McEraseBlock2 McReadPage McWritePage McDataChecksum McDetectCard2
    McGetCardSpec AllocSysMemory ->
  n_minimum_block_size ctx = 512 -> 512 <= CONFIG_NBD_BUFFER_LEN -> (0 < nb)%nat -> (0 < lfuel)%nat ->
  mcman_inv port ppb bytes i nb (f_world f) ->
  frame_ok f -> request_ok rq -> rq_magic rq = NBD_REQUEST_MAGIC -> rq_type rq = NBD_CMD_WRITE ->
  write_refusal ctx rq = None -> rq_count rq < 512 -> rq_offset rq < 512 ->
  inbox (n_sock ctx) (f_net f) = wire_request rq ++ data ++ rest ->
  exists bb c, pwrite (Some i) (f_buffer f) 0 0 0 (f_world f) = past_the_end (f_buffer f) bb c (f_world f) /\
    bytes c = mcman_content bytes (f_world f) /\
    log c = log (mm_card (f_world f)) ++ concat (rewrite_block <$> seq 0 nb) /\
    forall r w', past_the_end (f_buffer f) bb c (f_world f) = Ok (r, w') ->
    exists f', serve_request plugin_mem lfuel ctx f = Ok (Next (ctx, f')) /\ f_world f' = w' /\
      inbox (n_sock ctx) (f_net f') = data ++ rest /\
      outbox (n_sock ctx) (f_net f') = outbox (n_sock ctx) (f_net f)
        ++ wire_reply (if r =? 0 then NBD_SUCCESS else NBD_EIO) (rq_handle rq).
Proof.
  intros Hp Hh Hpl Hbsz Hbuf Hnb Hfuel Hinv Hf Hok Hmagic Hty Href Hcnt Hoff Hin.
  destruct (empty_write i (f_world f) (f_buffer f) Hnb Hinv) as (bb & c & Hcall & _ & Hc & Hw).
  exists bb, c. split; [done|]. split; [done|]. split; [done|]. intros r w' Hr. rewrite <- Hcall in Hr.
  destruct (below_block_size plugin_mem ctx a Hp pwrite lfuel f rq data rest r w')
    as (f' & Hrun & Hfw & _ & _ & Hi & Ho); try done.
  - by rewrite Hpl.
  - by rewrite Hbsz.
  - by rewrite Hbsz.
  - rewrite Hh, Hbsz, Z.div_small; [done|]. unfold request_ok in Hok. lia.
  - by exists f'.
Qed.
End wear.

(** ** A card that keeps its log *)

Section logged.
Context {C : Type}.
Context (McEraseBlock2 : Z -> Z -> Z -> C -> Z * C).
Context (McReadPage : Z -> Z -> Z -> C -> Z * list byte * C).
Context (McWritePage : Z -> Z -> Z -> list byte -> list byte -> C -> Z * C).
Context (McDataChecksum : list byte -> list byte).

Definition logged_erase (port slot b : Z) (c : C * list flash_op) : Z * (C * list flash_op) :=
  let '(r, c') := McEraseBlock2 port slot b c.1 in (r, (c', if r =? 0 then c.2 ++ [Erased b] else c.2)).
Definition logged_read (port slot p : Z) (c : C * list flash_op) : Z * list byte * (C * list flash_op) :=
  let '(r, d, c') := McReadPage port slot p c.1 in (r, d, (c', c.2)).
Definition logged_write (port slot p : Z) (d ecc : list byte) (c : C * list flash_op) : Z * (C * list flash_op) :=
  let '(r, c') := McWritePage port slot p d ecc c.1 in
  (r, (c', if r =? 0 then c.2 ++ [Programmed p] else c.2)).

Context (port : Z) (ppb : nat) (bytes : C -> list byte) (erased : C -> nat -> Prop).

Lemma logged_card :
  mc_card McEraseBlock2 McReadPage McWritePage McDataChecksum port ppb bytes erased ->
  mc_card logged_erase logged_read logged_write McDataChecksum port ppb
    (fun c => bytes c.1) (fun c => erased c.1).
Proof.
  intros [Hk Hr He Hw]. split; [done| | |]; unfold logged_read, logged_erase, logged_write.
  - intros [c n] p Hp. destruct (Hr c p Hp) as (c' & E & Hc). cbn [fst snd]. rewrite E. by eexists.
  - intros [c n] b Hb. destruct (He c b Hb) as (c' & E & Hc). cbn [fst snd]. rewrite E. by eexists.
  - intros [c n] p d Hd Hpe Hp. destruct (Hw c p d Hd Hpe Hp) as (c' & E & Hc). cbn [fst snd].
    rewrite E. by eexists.
Qed.

Lemma logged_flash : flash_log logged_erase logged_read logged_write port snd.
Proof.
  split; unfold logged_read, logged_erase, logged_write.
  - intros b c c'. destruct (McEraseBlock2 _ _ _ _). by intros [= -> <-].
  - intros p c r d c'. destruct (McReadPage _ _ _ _) as [[? ?] ?]. by intros [= _ _ <-].
  - intros p d ecc c c'. destruct (McWritePage _ _ _ _ _ _). by intros [= -> <-].
Qed.
End logged.
