(* ===== verification/McmanQuery.v ===== *)
(** * The query callback of the memory card plugin: [plugins/mcman/mcman_q.c]

    A draft that [plugins/mcman/mcman_d.c] includes in a comment: the commands
    of a URI query, [info] and [kelfbind].  The dispatch is complete and is
    translated here; [kelfbind] itself uses names that are declared nowhere, so
    it is an argument, with a result and an effect on the card. *)

From S2P Require Export McmanPlugin CString.

Section query.
Context {C : Type} (kelfbind : Z -> list byte -> C -> Z * C).
Implicit Types (w : mcman_world C) (q : query_t).

Definition mcinfo_cmd (handle : handle_ptr) w : Z * mcman_world C := (0, w).

(** One turn of the loop: [h->device] is read only for a [kelfbind] with a
    value, and the results of the commands are dropped. *)
Definition mcman_command (handle : handle_ptr) q w : outcome (mcman_world C) :=
  if strcmp (q_key q) (bs "info") =? 0 then let '(_, w) := mcinfo_cmd handle w in Ok w
  else if strcmp (q_key q) (bs "kelfbind") =? 0 then
    match q_val q with
    | Some val =>
        h ← mcman_handle_of handle w;
        let '(_, c) := kelfbind (mh_device h) val (mm_card w) in
        Ok (mk_mcman (mm_handles w) (mm_bbuffer w) (mm_pagesPerBlock w) c)
    | None => Ok w
    end
  else Ok w.

(** [while (nb_params-- > 0)]: from the last parameter to the first. *)
Fixpoint mcman_query_loop (n : nat) (handle : handle_ptr) (params : query_params) w
  : outcome (mcman_world C) :=
  match n with
  | O => Ok w
  | S n =>
      q ← of_option OutOfBounds (params !! n);
      q ← of_option Uninitialised q;
      w ← mcman_command handle q w;
      mcman_query_loop n handle params w
  end.

Definition mcman_query (handle : handle_ptr) (params : query_params) (nb_params : Z) w
  : outcome (Z * mcman_world C) :=
  w ← mcman_query_loop (Z.to_nat nb_params) handle params w;
  Ok (0, w).

(** ** Properties *)

(** What a query asks to be bound, the last parameter first. *)
Definition bind_path q : option (list byte) :=
  if decide (q_key q = bs "kelfbind") then q_val q else None.

Definition bind_card (device : Z) (path : list byte) (c : C) : C := (kelfbind device path c).2.

Lemma mcman_command_spec i h q w :
  mm_handles w !! i = Some h -> no_nul (q_key q) ->
  mcman_command (Some i) q w
  = Ok (mk_mcman (mm_handles w) (mm_bbuffer w) (mm_pagesPerBlock w)
          (from_option (fun path => bind_card (mh_device h) path (mm_card w)) (mm_card w) (bind_path q))).
Proof.
  intros Hi Hk. unfold mcman_command, bind_path, bind_card.
  assert (no_nul (bs "info")) as Hn1 by by_decide. assert (no_nul (bs "kelfbind")) as Hn2 by by_decide.
  pose proof (strcmp_eq _ _ Hk Hn1) as H1. pose proof (strcmp_eq _ _ Hk Hn2) as H2.
  case (Z.eqb_spec (strcmp (q_key q) (bs "info")) 0) as [E1|E1].
  { apply H1 in E1. rewrite E1. case_decide as D; [by vm_compute in D|]. by destruct w. }
  case (Z.eqb_spec (strcmp (q_key q) (bs "kelfbind")) 0) as [E2|E2].
  - apply H2 in E2. rewrite decide_True by done. destruct (q_val q) as [v|]; [|by destruct w].
    unfold mcman_handle_of. mred. rewrite Hi. mred. cbn [from_option]. by destruct (kelfbind _ _ _).
  - rewrite decide_False by (intros E; by apply E2, H2). by destruct w.
Qed.

Lemma mcman_query_loop_spec i h qs rest w :
  mm_handles w !! i = Some h -> Forall (fun q => no_nul (q_key q)) qs ->
  mcman_query_loop (length qs) (Some i) ((Some <$> qs) ++ rest) w
  = Ok (mk_mcman (mm_handles w) (mm_bbuffer w) (mm_pagesPerBlock w)
          (foldr (bind_card (mh_device h)) (mm_card w) (omap bind_path qs))).
Proof.
  intros Hi Hqs. revert rest w Hi. induction qs as [|q qs IH] using rev_ind; intros rest w Hi.
  { by destruct w. }
  apply Forall_app in Hqs as [Hqs Hq]. inversion_clear Hq as [|? ? Hq' _].
  rewrite length_app, Nat.add_comm. cbn [length Nat.add mcman_query_loop].
  rewrite fmap_app, list_fmap_singleton, <- app_assoc. cbn [app].
  rewrite list_lookup_middle by (by rewrite length_fmap). mred.
  rewrite (mcman_command_spec i h q w Hi Hq'). mred. rewrite (IH Hqs (Some q :: rest)) by done.
  cbn [mm_handles mm_bbuffer mm_pagesPerBlock mm_card]. rewrite omap_app, foldr_app.
  cbn [omap list_omap]. by destruct (bind_path q).
Qed.

(** A query binds the paths of its [kelfbind] parameters on the card of the
    handle, the last one first, and ignores the others; it answers [0] whatever
    the commands answer, so a lookup by URI succeeds although its binding
    failed.  Without a query ([-1] parameters) nothing is done. *)
Theorem mcman_query_correct i h qs rest n w :
  mm_handles w !! i = Some h -> Forall (fun q => no_nul (q_key q)) qs ->
  n = Z.of_nat (length qs) \/ n <= 0 /\ qs = [] ->
  mcman_query (Some i) ((Some <$> qs) ++ rest) n w
  = Ok (0, mk_mcman (mm_handles w) (mm_bbuffer w) (mm_pagesPerBlock w)
             (foldr (bind_card (mh_device h)) (mm_card w) (omap bind_path qs))).
Proof.
  intros Hi Hqs Hn. unfold mcman_query.
  replace (Z.to_nat n) with (length qs) by (destruct Hn as [->|[Hn ->]]; cbn; lia).
  by rewrite (mcman_query_loop_spec i h).
Qed.
End query.
