(* ===== verification/CommandPlugin.v ===== *)
(** * The command plugin: [plugins/command/command.c] and [builtin.c]

    One export, [api], whose query names a command to run; the bytes of the
    export are the command's result.  Commands are function pointers: they get
    the query as [argv], the result buffer and its size, the table of commands
    (which [builtin.c] reads) and the rest of the program as [E]. *)

From S2P Require Export PluginApi.

Definition CMD_DRIVER_MAX : nat := 100.
Definition CMD_BUFFER_SZ : nat := 4096.

Inductive method_type := METHOD_GET | METHOD_POST.

(** Name and description of each registered command. *)
Abbreviation command_table := (list (list byte * list byte)).

(** [cmd(argc, argv, result, size)]: value returned, result buffer,
    size, and the rest of the program. *)
Definition command_fun (E : Type) : Type :=
  Z -> query_params -> list byte -> Z -> command_table -> E -> outcome (Z * list byte * Z * E).

Record lwnbd_command (E : Type) := mk_command_entry {
  cm_name : list byte; cm_desc : list byte; cm_type : method_type; cm_cmd : command_fun E }.
Arguments mk_command_entry {E} _ _ _ _.
Arguments cm_name {E} _.
Arguments cm_desc {E} _.
Arguments cm_type {E} _.
Arguments cm_cmd {E} _.

(** The statics: the table up to [commands_cnt], [result], [exportsize], and
    the pending POST, [pp]: command and parameter count. *)
Record command_world (E : Type) := mk_cmd_world {
  cw_commands : list (lwnbd_command E);
  cw_result : list byte;
  cw_exportsize : Z;
  cw_pp : option (nat * Z);
  cw_env : E }.
Arguments mk_cmd_world {E} _ _ _ _ _.
Arguments cw_commands {E} _.
Arguments cw_result {E} _.
Arguments cw_exportsize {E} _.
Arguments cw_pp {E} _.
Arguments cw_env {E} _.

Section command.
Context {E : Type}.
Implicit Types (w : command_world E).

Definition table w : command_table := (fun c => (cm_name c, cm_desc c)) <$> cw_commands w.

(** The offset is not used. *)
Definition command_pread (handle : handle_ptr) (count offset flags : Z) w
  : outcome (Z * list byte * command_world E) :=
  d ← load_at 0 (Z.to_nat count) (cw_result w); Ok (0, d, w).

(** [pp.params] points into a stack frame that is gone: nothing can be read
    there any more. *)
Definition dangling_params : query_params := replicate 3 None.

Definition command_pwrite (handle : handle_ptr) (buf : list byte) (count offset flags : Z) w
  : outcome (Z * command_world E) :=
  '(i, nb_params) ← of_option NullDeref (cw_pp w);
  c ← of_option OutOfBounds (cw_commands w !! i);
  '(r, _, _, env) ← cm_cmd c (nb_params + 1) dangling_params buf count (table w) (cw_env w);
  Ok (r, mk_cmd_world (cw_commands w) (cw_result w) (cw_exportsize w) (cw_pp w) env).

Definition command_block_size (handle : handle_ptr) w : outcome (Z * Z * Z * command_world E) :=
  Ok (1, 1, 1, w).

Definition command_query_get (i : nat) (params : query_params) (nb_params : Z) w
  : outcome (Z * command_world E) :=
  c ← of_option OutOfBounds (cw_commands w !! i);
  '(r, result, exportsize, env) ←
    cm_cmd c nb_params params (replicate CMD_BUFFER_SZ x00) 1 (table w) (cw_env w);
  Ok (r, mk_cmd_world (cw_commands w) result exportsize (cw_pp w) env).

Definition command_query_post (i : nat) (params : query_params) (nb_params : Z) w
  : outcome (Z * command_world E) :=
  Ok (0, mk_cmd_world (cw_commands w) (cw_result w) (Z.of_nat CMD_BUFFER_SZ)
           (Some (i, nb_params)) (cw_env w)).

(** [while (cnt < commands_cnt)]: the parameter is read only if there is a
    command to compare it with. *)
Fixpoint command_search (l : list (lwnbd_command E)) (params : query_params) (cnt : nat)
  : outcome (option nat) :=
  match l with
  | [] => Ok None
  | c :: l =>
      q ← of_option OutOfBounds (params !! O);
      q ← of_option Uninitialised q;
      if strcmp (q_key q) (cm_name c) =? 0 then Ok (Some cnt)
      else command_search l params (S cnt)
  end.

Definition command_query (handle : handle_ptr) (params : query_params) (nb_params : Z) w
  : outcome (Z * command_world E) :=
  if nb_params =? 0 then Ok (-1, w)
  else
    o ← command_search (cw_commands w) params 0;
    match o with
    | None => Ok (-1, w)
    | Some i =>
        c ← of_option OutOfBounds (cw_commands w !! i);
        q ← of_option OutOfBounds (params !! O);
        q ← of_option Uninitialised q;
        let nb_params := match q_val q with None => 1 | Some _ => 2 end in
        match cm_type c with
        | METHOD_GET => command_query_get i params nb_params w
        | METHOD_POST => command_query_post i params nb_params w
        end
    end.

Definition command_get_size (handle : handle_ptr) w : outcome (Z * command_world E) :=
  Ok (cw_exportsize w, w).

Definition command_add_command (h : lwnbd_command E) w : Z * command_world E :=
  if decide (length (cw_commands w) = CMD_DRIVER_MAX) then (-1, w)
  else (0, mk_cmd_world (cw_commands w ++ [h]) (cw_result w) (cw_exportsize w) (cw_pp w) (cw_env w)).

Definition command_ctor (pconfig : lwnbd_command E) (oc : option lwnbd_context_t) w
  : outcome (Z * option lwnbd_context_t * command_world E) :=
  let '(r, w) := command_add_command pconfig w in Ok (r, oc, w).

(** ** [builtin.c] *)

(** [strtok(s, "\n")]: how many newlines it skips, or [NULL]. *)
Fixpoint strtok_skip (s : list byte) (k : nat) : option nat :=
  match s with
  | [] => None
  | b :: s => if decide (b = x0a) then strtok_skip s (S k) else Some k
  end.

(** The branch of a variable reference.  [temp] is the text up to the [$],
    [pargs] what follows it.  The name is copied with a length of
    [temp - pargs - 1], one less than the newlines skipped; [req] is left
    without terminator. *)
Definition echo_variable (before pargs result : list byte) (size : Z)
  : outcome (Z * list byte * Z * E) :=
  let cnt := Z.of_nat (length before) - 1 in
  _ ← outcome_require (0 <= cnt) OutOfBounds;
  result ← store_at 0 (take (Z.to_nat cnt) before) result;
  k ← of_option NullDeref (strtok_skip pargs 0);
  let cnt := Z.of_nat k - 1 in
  _ ← outcome_require (0 <= cnt <= 30) OutOfBounds;
  Fault Uninitialised.

Fixpoint split_dollar (s : list byte) : list byte * option (list byte) :=
  match s with
  | [] => ([], None)
  | b :: s => if decide (b = x24) then ([], Some s)
              else let '(a, r) := split_dollar s in (b :: a, r)
  end.

Definition echo : command_fun E := fun argc argv result size tbl env =>
  if argc =? 1 then Ok (0, result, size, env)
  else
    q ← of_option OutOfBounds (argv !! O);
    q ← of_option Uninitialised q;
    temp ← of_option NullDeref (q_val q);
    match split_dollar temp with
    | (before, Some pargs) => echo_variable before pargs result 0
    | (_, None) =>
        result ← store_at 0 temp result;
        Ok (0, result, Z.of_nat (length temp), env)
    end.

(** [dump] is [lwnbd_dump_contexts] on the program's context pool. *)
Definition export (dump : E -> outcome (list byte * Z)) : command_fun E :=
  fun argc argv result size tbl env =>
  if argc =? 1 then
    '(out, n) ← dump env;
    result ← store_at 0 (out ++ [x00]) result;
    Ok (0, result, n, env)
  else Ok (0, result, size, env).

(** The loop of [list_command]: each [sprintf] also writes its NUL. *)
Fixpoint list_command_loop (tbl : command_table) (result : list byte) (size : Z)
  : outcome (list byte * Z) :=
  match tbl with
  | [] => Ok (result, size)
  | (name, desc) :: tbl =>
      let s := sprintf_entry name desc in
      result ← store_at (Z.to_nat size) (s ++ [x00]) result;
      list_command_loop tbl result (size + Z.of_nat (length s))
  end.

Definition list_command : command_fun E := fun argc argv result size tbl env =>
  '(result, size) ← list_command_loop tbl result 0;
  Ok (0, result, size, env).

Definition builtin (dump : E -> outcome (list byte * Z)) : list (lwnbd_command E) :=
  [mk_command_entry (bs "echo") (bs "Print on the standard output.") METHOD_GET echo;
   mk_command_entry (bs "export") (bs "Set export attribute for shell variables.") METHOD_GET
     (export dump);
   mk_command_entry (bs "lc") (bs "List shell commands.") METHOD_GET list_command].

Fixpoint add_all (l : list (lwnbd_command E)) w : command_world E :=
  match l with
  | [] => w
  | c :: l => let '(_, w) := command_add_command c w in add_all l w
  end.

Definition command_load (dump : E -> outcome (list byte * Z)) w : outcome (command_world E) :=
  Ok (add_all (builtin dump) w).

Definition command_plugin (dump : E -> outcome (list byte * Z))
  : lwnbd_plugin_t (command_world E) (lwnbd_command E) := {|
  pl_name := bs "api";
  pl_longname := bs "lwnbd generic command plugin";
  pl_load := Some (command_load dump);
  pl_get_size := Some command_get_size;
  pl_pread := Some command_pread;
  pl_pwrite := Some command_pwrite;
  pl_flush := None;
  pl_trim := None;
  pl_zero := None;
  pl_block_size := Some command_block_size;
  pl_config := None;
  pl_magic_config_key := None;
  pl_ctor := Some command_ctor;
  pl_query := Some command_query;
  pl_export_without_handle := 1
|}.

(** ** Properties *)

Definition first_command (name : list byte) w : option (nat * lwnbd_command E) :=
  list_find (fun c => cm_name c = name) (cw_commands w).

Lemma command_search_spec q rest (l : list (lwnbd_command E)) k :
  no_nul (q_key q) -> Forall (fun c => no_nul (cm_name c)) l ->
  command_search l (Some q :: rest) k
  = Ok ((fun x => (k + x.1)%nat) <$> list_find (fun c => cm_name c = q_key q) l).
Proof.
  intros Hq Hl. revert k; induction Hl as [|c l Hc Hl IH]; intros k; cbn [command_search]; [done|].
  mred. cbn [lookup list_lookup]. mred. cbn [list_find].
  pose proof (strcmp_eq (q_key q) (cm_name c) Hq Hc) as Hcmp.
  case (Z.eqb_spec (strcmp (q_key q) (cm_name c)) 0) as [H|H].
  - apply Hcmp in H. rewrite decide_True by done. cbn. by rewrite Nat.add_0_r.
  - rewrite decide_False by (intros ?; apply H; by apply Hcmp). rewrite IH.
    destruct (list_find _ l) as [[x y]|]; cbn; [|done]. do 2 f_equal. lia.
Qed.

Lemma command_query_runs_get h q rest n w i c :
  no_nul (q_key q) -> Forall (fun c => no_nul (cm_name c)) (cw_commands w) -> n <> 0 ->
  first_command (q_key q) w = Some (i, c) -> cm_type c = METHOD_GET ->
  command_query h (Some q :: rest) n w
  = ('(r, result, size, env) ← cm_cmd c (match q_val q with None => 1 | Some _ => 2 end)
       (Some q :: rest) (replicate CMD_BUFFER_SZ x00) 1 (table w) (cw_env w);
     Ok (r, mk_cmd_world (cw_commands w) result size (cw_pp w) env)).
Proof.
  intros Hq Hl Hn Hf Ht. unfold command_query. rewrite (proj2 (Z.eqb_neq _ _) Hn).
  rewrite command_search_spec by done. unfold first_command in Hf. rewrite Hf. cbn [fmap option_fmap option_map fst Nat.add].
  mred. apply list_find_Some in Hf as (Hi & _). rewrite Hi. mred. cbn [lookup list_lookup]. mred.
  rewrite Ht. unfold command_query_get. rewrite Hi. mred. done.
Qed.

(** C30: a query is the first command of its name: a GET runs it on a zeroed
    buffer, with [argc] 1 or 2 as the parameter has a value or not, and its
    result and size become the export's; a POST is remembered for the writes
    that follow and makes the export the size of the buffer; an unknown name
    fails and changes nothing. *)
Theorem command_query_correct h q rest n w :
  no_nul (q_key q) -> Forall (fun c => no_nul (cm_name c)) (cw_commands w) -> n <> 0 ->
  let argc := match q_val q with None => 1 | Some _ => 2 end in
  command_query h (Some q :: rest) n w
  = match first_command (q_key q) w with
    | None => Ok (-1, w)
    | Some (i, c) =>
        match cm_type c with
        | METHOD_GET =>
            '(r, result, size, env) ← cm_cmd c argc (Some q :: rest)
               (replicate CMD_BUFFER_SZ x00) 1 (table w) (cw_env w);
            Ok (r, mk_cmd_world (cw_commands w) result size (cw_pp w) env)
        | METHOD_POST =>
            Ok (0, mk_cmd_world (cw_commands w) (cw_result w) 4096 (Some (i, argc)) (cw_env w))
        end
    end.
Proof.
  intros Hq Hl Hn argc. destruct (first_command (q_key q) w) as [[i c]|] eqn:Hf.
  - destruct (cm_type c) eqn:Ht; [by eapply command_query_runs_get|].
    unfold command_query. rewrite (proj2 (Z.eqb_neq _ _) Hn).
    rewrite command_search_spec by done. unfold first_command in Hf. rewrite Hf.
    cbn [fmap option_fmap option_map fst Nat.add]. mred.
    apply list_find_Some in Hf as (Hi & _). rewrite Hi. mred. cbn [lookup list_lookup]. mred.
    rewrite Ht. unfold command_query_post. reflexivity.
  - unfold command_query. rewrite (proj2 (Z.eqb_neq _ _) Hn).
    rewrite command_search_spec by done. unfold first_command in Hf. by rewrite Hf.
Qed.

(** Opening the export without a query compares the name of the first
    command with a parameter nobody wrote. *)
Theorem command_without_query_uninitialised h w c l :
  cw_commands w = c :: l -> command_query h (replicate 3 None) (-1) w = Fault Uninitialised.
Proof. intros Hc. unfold command_query. by rewrite Hc. Qed.

(** Every read of the export returns the beginning of the result, whatever
    the offset, and reads beyond the buffer are not refused. *)
Theorem command_pread_ignores_offset h count offset flags w :
  0 <= count -> length (cw_result w) = CMD_BUFFER_SZ ->
  command_pread h count offset flags w
  = if decide (count <= 4096) then Ok (0, slice 0 (Z.to_nat count) (cw_result w), w)
    else Fault OutOfBounds.
Proof.
  intros Hc Hl. unfold command_pread. unfold CMD_BUFFER_SZ in Hl. case_decide.
  - by rewrite load_at_fits by lia.
  - unfold load_at. by rewrite decide_False by lia.
Qed.

Definition lc_output (tbl : command_table) : list byte :=
  concat ((fun x => sprintf_entry x.1 x.2) <$> tbl).

Lemma list_command_loop_spec tbl result pos out rest :
  (length (lc_output tbl) < length rest)%nat -> result = out ++ rest -> pos = Z.of_nat (length out) ->
  exists rest', list_command_loop tbl result pos
    = Ok (out ++ lc_output tbl ++ rest', pos + Z.of_nat (length (lc_output tbl))) /\
    length (lc_output tbl ++ rest') = length rest.
Proof.
  revert result pos out rest; induction tbl as [|[n d] tbl IH]; intros result pos out rest Hl -> ->;
    cbn [list_command_loop].
  - exists rest. cbn. by rewrite Z.add_0_r.
  - unfold lc_output in *. rewrite fmap_cons in *. cbn [concat fst snd] in *.
    set (s := sprintf_entry n d) in *. rewrite length_app in Hl.
    rewrite Nat2Z.id, store_at_fits by (rewrite !length_app; simpl; lia). mred.
    assert (splice (length out) (s ++ [x00]) (out ++ rest)
      = (out ++ s) ++ x00 :: drop (S (length s)) rest) as ->.
    { unfold splice. rewrite take_app_length, drop_app_ge by lia. rewrite !length_app.
      replace (length out + (length s + length [x00]) - length out)%nat with (S (length s)) by (simpl; lia).
      app_eq. }
    destruct (IH ((out ++ s) ++ x00 :: drop (S (length s)) rest)
      (Z.of_nat (length out) + Z.of_nat (length s)) (out ++ s) (x00 :: drop (S (length s)) rest))
      as (rest' & -> & Hl'); [simpl; rewrite length_drop; lia|done|rewrite length_app; lia|].
    exists rest'. split; [f_equal; f_equal; [app_eq|rewrite length_app; lia]|].
    rewrite <- app_assoc, length_app, Hl'. simpl. rewrite length_drop. lia.
Qed.

(** [lc] lists every registered command, one line each, and reports the
    length of the text, as long as it fits the buffer with its NUL. *)
Theorem list_command_correct argc argv size tbl env :
  (length (lc_output tbl) < CMD_BUFFER_SZ)%nat ->
  exists rest, list_command argc argv (replicate CMD_BUFFER_SZ x00) size tbl env
    = Ok (0, lc_output tbl ++ rest, Z.of_nat (length (lc_output tbl)), env) /\
    length (lc_output tbl ++ rest) = CMD_BUFFER_SZ.
Proof.
  intros Hl. unfold list_command. set (R := replicate CMD_BUFFER_SZ x00).
  assert (length R = CMD_BUFFER_SZ) as HR by apply length_replicate. clearbody R.
  destruct (list_command_loop_spec tbl R 0 [] R) as (rest & -> & Hr); [by rewrite HR|done|done|].
  mred. exists rest. by rewrite Hr.
Qed.

(** An [echo] of any text with a [$] in it has undefined behaviour. *)
Theorem echo_variable_faults result size tbl env key s t rest :
  exists e, echo 2 (Some (mk_query key (Some (s ++ x24 :: t))) :: rest) result size tbl env = Fault e.
Proof.
  unfold echo. cbn [Z.eqb Pos.eqb lookup list_lookup]. mred. cbn [q_val]. mred.
  assert (exists b p, split_dollar (s ++ x24 :: t) = (b, Some p)) as (b & p & ->).
  { induction s as [|x s (b & p & IH)]; cbn; [by eexists _, _|].
    case_decide; [by eexists _, _|]. rewrite IH. by eexists _, _. }
  unfold echo_variable. destruct (outcome_require (0 <= _) _); mred; [|by eexists].
  destruct (store_at _ _ _); mred; [|by eexists]. destruct (strtok_skip _ _); mred; [|by eexists].
  destruct (outcome_require _ _); by eexists.
Qed.

(** The table takes a hundred commands and then refuses; what it holds is
    kept in the order of registration. *)
Theorem command_table_bounded c w :
  (length (cw_commands w) <= CMD_DRIVER_MAX)%nat ->
  let '(r, w') := command_add_command c w in
  (length (cw_commands w') <= CMD_DRIVER_MAX)%nat /\
  ((r = 0 /\ cw_commands w' = cw_commands w ++ [c] /\ (length (cw_commands w) < CMD_DRIVER_MAX)%nat) \/
   (r = -1 /\ w' = w /\ length (cw_commands w) = CMD_DRIVER_MAX)).
Proof.
  intros Hl. unfold command_add_command. case_decide as Hd; [by auto|].
  cbn. rewrite length_app. cbn. split; [lia|]. left. split_and!; [done|done|lia].
Qed.
End command.
