(* ===== verification/TtyPlugin.v ===== *)
(** * The tty plugin: [plugins/tty/tty.c]

    The console of the IOP as an export: [tty_write] is the producer of a ring
    buffer, [nbdtty_pread] its consumer.  The event flags of the RTOS only make
    one side wait; a reader that has to wait is a read that is not enabled. *)

From S2P Require Export PluginApi.

Definition TTY_SIZE : nat := 4096.

Record tty_world := mk_tty {
  ringbuffer : list byte;  (** [char[TTY_SIZE + 1]] *)
  rwhence : Z;             (** [int64_t], consumer *)
  wwhence : Z              (** producer *)
}.

Definition initial_tty : tty_world := mk_tty (replicate (S TTY_SIZE) x00) 0 0.

(** One call of the console's write, as one step: the event flags by which the
    writers and the reader of [tty.c] wait for each other are left out, and two
    tasks of the console inside [tty_write] at once are not modelled. *)
Definition tty_write (buf : list byte) (w : tty_world) : outcome (Z * tty_world) :=
  let pos := Z.to_nat (wwhence w mod Z.of_nat TTY_SIZE) in
  let size := length buf in
  ring ← (if (TTY_SIZE <? pos + size)%nat then
            let sz := (TTY_SIZE - pos)%nat in
            ring ← store_at pos (take sz buf) (ringbuffer w);
            store_at 0 (drop sz buf) ring
          else store_at pos buf (ringbuffer w));
  Ok (0, mk_tty ring (rwhence w) (i64 (wwhence w + Z.of_nat size))).

(** [rwhence + count > wwhence]: the reader waits. *)
Definition tty_blocks (count : Z) (w : tty_world) : bool := wwhence w <? rwhence w + count.

(** [None] is a reader that keeps waiting. *)
Definition nbdtty_read (count : Z) (w : tty_world) : outcome (option (Z * list byte * tty_world)) :=
  if tty_blocks count w then Ok None
  else
    let pos := Z.to_nat (rwhence w mod Z.of_nat TTY_SIZE) in
    let n := Z.to_nat count in
    d ← (if (TTY_SIZE <? pos + n)%nat then
           let sz := (TTY_SIZE - pos)%nat in
           a ← load_at pos sz (ringbuffer w);
           b ← load_at 0 (n - sz) (ringbuffer w);
           Ok (a ++ b)
         else load_at pos n (ringbuffer w));
    Ok (Some (0, d, mk_tty (ringbuffer w) (i64 (rwhence w + count)) (wwhence w))).

(** As a callback of the plugin interface, a reader that waits forever. *)
Definition nbdtty_pread (handle : handle_ptr) (count offset flags : Z) (w : tty_world)
  : outcome (Z * list byte * tty_world) :=
  r ← nbdtty_read count w;
  of_option OutOfFuel r.

Section tty_ctor.
(** [CreateEventFlag] and [AddDrv]. *)
Context (CreateEventFlag AddDrv : tty_world -> Z).

Definition nbdtty_ctor (pconfig : unit) (oc : option lwnbd_context_t) (w : tty_world)
  : outcome (Z * option lwnbd_context_t * tty_world) :=
  if CreateEventFlag w <? 0 then Ok (-1, oc, w)
  else if AddDrv w <? 0 then Ok (-1, oc, w)
  else
    c ← of_option NullDeref oc;
    n ← strcpy (c_name c) (bs "tty");
    Ok (0, Some (set_c_name n c), w).

Definition nbdtty_block_size (handle : handle_ptr) (w : tty_world)
  : outcome (Z * Z * Z * tty_world) := Ok (1, 1, 1, w).

Definition tty_plugin : lwnbd_plugin_t tty_world unit := {|
  pl_name := bs "tty";
  pl_longname := bs "lwnbd generic tty plugin";
  pl_load := None;
  pl_get_size := Some stream_get_size;
  pl_pread := Some nbdtty_pread;
  pl_pwrite := None;
  pl_flush := None;
  pl_trim := None;
  pl_zero := None;
  pl_block_size := Some nbdtty_block_size;
  pl_config := None;
  pl_magic_config_key := None;
  pl_ctor := Some nbdtty_ctor;
  pl_query := None;
  pl_export_without_handle := 0
|}.
End tty_ctor.

(** ** The ring as a queue *)

(** The byte of stream position [k] lives at [k mod TTY_SIZE]. *)
Definition ring_at (w : tty_world) (k : nat) : option byte := ringbuffer w !! (k mod TTY_SIZE)%nat.

(** [pending] are the bytes written and not read yet; they fit the ring. *)
Definition tty_holds (w : tty_world) (pending : list byte) : Prop :=
  length (ringbuffer w) = S TTY_SIZE /\ 0 <= rwhence w /\
  wwhence w = rwhence w + Z.of_nat (length pending) /\ wwhence w < 2 ^ 62 /\
  (length pending <= TTY_SIZE)%nat /\
  forall k b, pending !! k = Some b -> ring_at w (Z.to_nat (rwhence w) + k) = Some b.

(** The two sides as a step relation; a read happens only when it is enabled. *)
Inductive tty_event := TtyWrite (d : list byte) | TtyRead (d : list byte).

Inductive tty_step : tty_world -> tty_event -> tty_world -> Prop :=
  | step_write d w w' : tty_write d w = Ok (0, w') -> tty_step w (TtyWrite d) w'
  | step_read count d w w' : 0 <= count ->
      nbdtty_read count w = Ok (Some (0, d, w')) -> tty_step w (TtyRead d) w'.

Inductive tty_run : tty_world -> list tty_event -> tty_world -> Prop :=
  | run_nil w : tty_run w [] w
  | run_cons w e w1 es w2 : tty_step w e w1 -> tty_run w1 es w2 -> tty_run w (e :: es) w2.

Definition written (es : list tty_event) : list byte :=
  concat ((fun e => match e with TtyWrite d => d | TtyRead _ => [] end) <$> es).
Definition delivered (es : list tty_event) : list byte :=
  concat ((fun e => match e with TtyWrite _ => [] | TtyRead d => d end) <$> es).

(** Wrapping an index once. *)
Lemma mod_wrap M start j :
  (0 < M)%nat -> (j < M)%nat ->
  ((start + j) mod M)%nat
  = if decide (start mod M + j < M)%nat then (start mod M + j)%nat else (start mod M + j - M)%nat.
Proof.
  intros HM Hj. pose proof (Nat.mod_upper_bound start M ltac:(lia)).
  rewrite Nat.Div0.add_mod, (Nat.mod_small j) by lia. case_decide.
  - by apply Nat.mod_small.
  - symmetry. apply (Nat.mod_unique _ _ 1); lia.
Qed.

Lemma ring_store_lookup M (ring d : list byte) start :
  (0 < M < length ring)%nat -> (length d <= M)%nat ->
  let pos := (start mod M)%nat in
  exists ring',
    (if (M <? pos + length d)%nat then
       ring1 ← store_at pos (take (M - pos) d) ring; store_at 0 (drop (M - pos) d) ring1
     else store_at pos d ring) = Ok ring' /\
    length ring' = length ring /\
    forall j, (j < M)%nat ->
      ring' !! ((start + j) mod M)%nat
      = if decide (j < length d)%nat then d !! j else ring !! ((start + j) mod M)%nat.
Proof.
  intros HM Hd pos. pose proof (Nat.mod_upper_bound start M ltac:(lia)) as Hpos. fold pos in Hpos.
  case (Nat.ltb_spec M (pos + length d)) as [Hw|Hw].
  - assert (length (take (M - pos) d) = M - pos)%nat as H1 by (rewrite length_take; lia).
    assert (length (drop (M - pos) d) = length d - (M - pos))%nat as H2 by (rewrite length_drop; lia).
    rewrite store_at_fits by lia. mred.
    assert (length (splice pos (take (M - pos) d) ring) = length ring) as Hl by (apply length_splice; lia).
    rewrite store_at_fits by lia. eexists. split; [done|]. split; [rewrite length_splice; lia|].
    intros j Hj. rewrite mod_wrap by lia. fold pos.
    rewrite !lookup_splice by lia. rewrite H1, H2. repeat case_decide; try lia.
    + rewrite lookup_drop. f_equal. lia.
    + rewrite lookup_take_lt by lia. f_equal. lia.
    + done.
  - rewrite store_at_fits by lia. eexists. split; [done|]. split; [apply length_splice; lia|].
    intros j Hj. rewrite mod_wrap by lia. fold pos.
    rewrite !lookup_splice by lia. repeat case_decide; try lia; try done. f_equal. lia.
Qed.

Lemma ring_load_lookup M (ring : list byte) start n :
  (0 < M < length ring)%nat -> (n <= M)%nat ->
  let pos := (start mod M)%nat in
  exists d,
    (if (M <? pos + n)%nat then
       a ← load_at pos (M - pos) ring; b ← load_at 0 (n - (M - pos)) ring; Ok (a ++ b)
     else load_at pos n ring) = Ok d /\
    length d = n /\ forall j, (j < n)%nat -> d !! j = ring !! ((start + j) mod M)%nat.
Proof.
  intros HM Hn pos. pose proof (Nat.mod_upper_bound start M ltac:(lia)) as Hpos. fold pos in Hpos.
  case (Nat.ltb_spec M (pos + n)) as [Hw|Hw].
  - rewrite !load_at_fits by lia. mred.
    assert (length (slice pos (M - pos) ring) = M - pos)%nat as H1 by (apply length_slice; lia).
    eexists. split; [done|]. split; [rewrite length_app, H1, length_slice; lia|].
    intros j Hj. rewrite mod_wrap by lia. fold pos. case_decide.
    + rewrite lookup_app_l, lookup_slice by lia. by rewrite decide_True by lia.
    + rewrite lookup_app_r, lookup_slice by lia. rewrite decide_True by lia. f_equal. lia.
  - rewrite load_at_fits by lia. eexists. split; [done|]. split; [apply length_slice; lia|].
    intros j Hj. rewrite mod_wrap by lia. fold pos. rewrite lookup_slice, !decide_True by lia. done.
Qed.

Lemma whence_mod z : 0 <= z -> Z.to_nat (z mod Z.of_nat TTY_SIZE) = (Z.to_nat z mod TTY_SIZE)%nat.
Proof. intros. rewrite Z2Nat.inj_mod, Nat2Z.id; [done|lia|]. unfold TTY_SIZE. lia. Qed.

Lemma tty_write_holds d w p :
  tty_holds w p -> (length p + length d <= TTY_SIZE)%nat -> wwhence w + Z.of_nat (length d) < 2 ^ 62 ->
  exists w', tty_write d w = Ok (0, w') /\ tty_holds w' (p ++ d).
Proof.
  intros (Hl & Hr & Hw & Hb & Hp & Hat) Hd Hb'. unfold tty_write. rewrite whence_mod by lia.
  assert (0 < TTY_SIZE)%nat as HM by (unfold TTY_SIZE; lia).
  destruct (ring_store_lookup TTY_SIZE (ringbuffer w) d (Z.to_nat (wwhence w))) as (ring & Hst & Hl' & Hlk);
    [lia|lia|]. cbv zeta in Hst |- *. rewrite Hst. mred. eexists. split; [done|].
  rewrite swrap_small by lia. split_and!; cbn [ringbuffer rwhence wwhence];
    rewrite ?length_app; [by rewrite Hl', Hl|lia|lia|lia|lia|].
  intros k b Hk. unfold ring_at. cbn [ringbuffer].
  destruct (decide (k < length p)%nat) as [Hlt|Hge].
  - rewrite lookup_app_l in Hk by done. specialize (Hat k b Hk). unfold ring_at in Hat.
    (* position [k] of the queue is [TTY_SIZE - length p + k] places after the producer, modulo the ring *)
    destruct (decide (length p = TTY_SIZE)) as [He|Hne].
    + assert (d = []) as -> by (apply nil_length_inv; lia).
      specialize (Hlk k ltac:(lia)). cbn [length] in Hlk. rewrite decide_False in Hlk by lia.
      replace (Z.to_nat (rwhence w) + k)%nat with (Z.to_nat (rwhence w) + k)%nat in Hat by lia.
      assert ((Z.to_nat (wwhence w) + k) mod TTY_SIZE = (Z.to_nat (rwhence w) + k) mod TTY_SIZE)%nat as Hm.
      { replace (Z.to_nat (wwhence w) + k)%nat with (Z.to_nat (rwhence w) + k + 1 * TTY_SIZE)%nat by lia.
        apply Nat.Div0.mod_add. }
      rewrite Hm in Hlk. by rewrite Hlk.
    + specialize (Hlk (TTY_SIZE - length p + k)%nat ltac:(lia)).
      rewrite decide_False in Hlk by lia.
      assert ((Z.to_nat (wwhence w) + (TTY_SIZE - length p + k)) mod TTY_SIZE
        = (Z.to_nat (rwhence w) + k) mod TTY_SIZE)%nat as Hm.
      { replace (Z.to_nat (wwhence w) + (TTY_SIZE - length p + k))%nat
          with (Z.to_nat (rwhence w) + k + 1 * TTY_SIZE)%nat by lia. apply Nat.Div0.mod_add. }
      rewrite Hm in Hlk. by rewrite Hlk.
  - rewrite lookup_app_r in Hk by lia. pose proof (lookup_lt_Some _ _ _ Hk).
    specialize (Hlk (k - length p)%nat ltac:(lia)). rewrite decide_True in Hlk by lia.
    replace (Z.to_nat (wwhence w) + (k - length p))%nat with (Z.to_nat (rwhence w) + k)%nat in Hlk by lia.
    by rewrite Hlk.
Qed.

Lemma tty_read_holds count w p :
  tty_holds w p -> 0 <= count ->
  if decide (Z.of_nat (length p) < count) then nbdtty_read count w = Ok None
  else exists w', nbdtty_read count w = Ok (Some (0, take (Z.to_nat count) p, w')) /\
       tty_holds w' (drop (Z.to_nat count) p).
Proof.
  intros (Hl & Hr & Hw & Hb & Hp & Hat) Hc. unfold nbdtty_read, tty_blocks. case_decide as Hd.
  - by rewrite (proj2 (Z.ltb_lt _ _)) by lia.
  - rewrite (proj2 (Z.ltb_ge _ _)) by lia. rewrite whence_mod by lia.
    assert (0 < TTY_SIZE)%nat as HM by (unfold TTY_SIZE; lia).
    destruct (ring_load_lookup TTY_SIZE (ringbuffer w) (Z.to_nat (rwhence w)) (Z.to_nat count))
      as (d & Hld & Hl' & Hlk); [lia|lia|]. cbv zeta in Hld |- *. rewrite Hld. mred.
    assert (d = take (Z.to_nat count) p) as ->.
    { apply list_eq. intros j. destruct (decide (j < Z.to_nat count)%nat).
      - rewrite Hlk, lookup_take_lt by done.
        destruct (lookup_lt_is_Some_2 p j) as [b Hb']; [lia|]. rewrite Hb'. by apply Hat.
      - by rewrite lookup_take_ge, lookup_ge_None_2 by lia. }
    eexists. split; [done|]. rewrite swrap_small by lia.
    split_and!; cbn [ringbuffer rwhence wwhence]; rewrite ?length_drop; [done|lia|lia|lia|lia|].
    intros k b Hk. rewrite lookup_drop in Hk. apply Hat in Hk. unfold ring_at in *. cbn [ringbuffer].
    rewrite <- Hk. do 2 f_equal. lia.
Qed.

Lemma initial_tty_holds : tty_holds initial_tty [].
Proof.
  split_and!; cbn [initial_tty ringbuffer rwhence wwhence length]; [apply length_replicate|lia|lia|lia|lia|].
  intros k b Hk. done.
Qed.

Lemma written_cons e es : written (e :: es) = match e with TtyWrite d => d | TtyRead _ => [] end ++ written es.
Proof. done. Qed.
Lemma delivered_cons e es :
  delivered (e :: es) = match e with TtyWrite _ => [] | TtyRead d => d end ++ delivered es.
Proof. done. Qed.

Lemma tty_run_fifo w es w' p :
  tty_run w es w' -> tty_holds w p ->
  (forall es1 es2, es = es1 ++ es2 ->
    (length p + length (written es1) <= length (delivered es1) + TTY_SIZE)%nat) ->
  wwhence w + Z.of_nat (length (written es)) < 2 ^ 62 ->
  exists p', p ++ written es = delivered es ++ p' /\ tty_holds w' p'.
Proof.
  intros Hrun. revert p. induction Hrun as [w|w e w1 es w2 Hstep Hrun IH]; intros p Hp Hover Hb.
  - exists p. by rewrite app_nil_r.
  - rewrite written_cons, delivered_cons in *. destruct Hstep as [d w w1 Hw|count d w w1 Hc Hr].
    + pose proof (Hover [TtyWrite d] es eq_refl) as H1. cbn in H1. rewrite app_nil_r in H1.
      destruct (tty_write_holds d w p Hp) as (w3 & Hw3 & Hp3); [lia|rewrite length_app in Hb; lia|].
      assert (wwhence w3 = wwhence w + Z.of_nat (length d)) as Hww.
      { destruct Hp as (_ & _ & E1 & _), Hp3 as (_ & _ & E3 & _).
        assert (rwhence w3 = rwhence w) as Hrw.
        { unfold tty_write in Hw3. apply bind_Ok in Hw3 as (ring & _ & [= <-]). done. }
        rewrite length_app in E3. lia. }
      rewrite Hw in Hw3. simplify_eq.
      destruct (IH (p ++ d) Hp3) as (p' & He & Hp').
      * intros es1 es2 ->. specialize (Hover (TtyWrite d :: es1) es2 eq_refl).
        rewrite written_cons, delivered_cons in Hover. cbn [app] in Hover.
        rewrite !length_app in *. lia.
      * rewrite Hww. rewrite length_app in Hb. lia.
      * exists p'. split; [|done]. cbn [app]. by rewrite app_assoc.
    + pose proof (tty_read_holds count w p Hp Hc) as H1. rewrite Hr in H1. case_decide as Hd; [done|].
      destruct H1 as (w3 & Hw3 & Hp3). simplify_eq.
      destruct (IH _ Hp3) as (p' & He & Hp').
      * intros es1 es2 ->. specialize (Hover (TtyRead (take (Z.to_nat count) p) :: es1) es2 eq_refl).
        rewrite written_cons, delivered_cons in Hover. cbn [app] in Hover.
        rewrite length_app, length_take in Hover. rewrite length_drop. lia.
      * destruct Hp3 as (_ & _ & E3 & _), Hp as (_ & _ & E1 & _).
        assert (wwhence w3 = wwhence w) as ->; [|done].
        unfold nbdtty_read in Hr. destruct (tty_blocks _ _); [done|].
        apply bind_Ok in Hr as (x & _ & [= _ <-]). done.
      * exists p'. split; [|done]. cbn [app]. rewrite <- app_assoc, <- He, app_assoc.
        by rewrite take_drop.
Qed.

(** C19: whatever the interleaving of the console's writes and the client's reads,
      as long as the reader is never more than the ring's size behind, the
      client receives the console's bytes in order, without loss. *)
Theorem tty_fifo es w :
  tty_run initial_tty es w ->
  (forall es1 es2, es = es1 ++ es2 ->
    (length (written es1) <= length (delivered es1) + TTY_SIZE)%nat) ->
  Z.of_nat (length (written es)) < 2 ^ 62 ->
  exists pending, written es = delivered es ++ pending /\ tty_holds w pending.
Proof. intros Hrun Hover Hb. apply (tty_run_fifo _ _ _ [] Hrun initial_tty_holds); [done|]. cbn. lia. Qed.

(** ** The device the console writes to

    [nbdtty_ctor] installs the driver in place of the console's: the I/O manager
    calls the entries of [tty_ops] by position, all of them through the type of
    the first. *)

Definition EIO : Z := 5.

Definition tty_init : Z := 0.
Definition tty_deinit : Z := 0.
Definition tty_stdout_fd : Z := 1.
Definition tty_error : Z := - EIO.

Inductive tty_op := op_init | op_deinit | op_error | op_stdout_fd | op_write.

#[export] Instance tty_op_eq_dec : EqDecision tty_op.
Proof. solve_decision. Defined.

Definition tty_ops : list tty_op :=
  [op_init; op_deinit; op_error; op_stdout_fd; op_stdout_fd; op_error; op_write;
   op_error; op_error; op_error; op_error; op_error; op_error; op_error; op_error; op_error; op_error].

(** The I/O manager calls entry [i] with a buffer. *)
Definition tty_device_call (i : nat) (buf : list byte) (w : tty_world) : outcome (Z * tty_world) :=
  op ← of_option OutOfBounds (tty_ops !! i);
  match op with
  | op_init => Ok (tty_init, w)
  | op_deinit => Ok (tty_deinit, w)
  | op_error => Ok (tty_error, w)
  | op_stdout_fd => Ok (tty_stdout_fd, w)
  | op_write => tty_write buf w
  end.

(** What a program does to the console is, for the ring, the writes it made:
    the calls of the device other than its seventh leave the ring alone and
    answer a constant. *)
Fixpoint tty_device_run (calls : list (nat * list byte)) (w : tty_world) : outcome tty_world :=
  match calls with
  | [] => Ok w
  | (i, buf) :: calls => '(_, w) ← tty_device_call i buf w; tty_device_run calls w
  end.

Definition console_text (calls : list (nat * list byte)) : list byte :=
  concat (omap (fun '(i, buf) => if decide (i = 6%nat) then Some buf else None) calls).

Lemma tty_device_call_other i buf w r w' :
  i <> 6%nat -> tty_device_call i buf w = Ok (r, w') -> w' = w /\ r ∈ [0; 1; -5].
Proof.
  intros Hi Hrun. unfold tty_device_call in Hrun.
  do 17 (destruct i as [|i]; [first [by destruct Hi|cbn in Hrun; simplify_eq; split; [done|by_decide]]|]).
  done.
Qed.

Lemma tty_write_rwhence buf w r w' : tty_write buf w = Ok (r, w') -> rwhence w' = rwhence w.
Proof. unfold tty_write. intros H. apply bind_Ok in H as (ring & _ & [= _ <-]). done. Qed.

Lemma console_text_cons i buf calls :
  console_text ((i, buf) :: calls) = (if decide (i = 6%nat) then buf else []) ++ console_text calls.
Proof. unfold console_text. cbn. by case_decide. Qed.

Lemma tty_device_run_holds calls w p w' :
  tty_holds w p -> rwhence w + Z.of_nat TTY_SIZE < 2 ^ 62 ->
  (length p + length (console_text calls) <= TTY_SIZE)%nat ->
  tty_device_run calls w = Ok w' -> tty_holds w' (p ++ console_text calls).
Proof.
  revert w p; induction calls as [|[i buf] calls IH]; intros w p Hp Hb Hl Hrun; cbn [tty_device_run] in Hrun.
  { simplify_eq. cbn. by rewrite app_nil_r. }
  apply bind_Ok in Hrun as ([r w1] & Hc & Hrun). rewrite console_text_cons in *.
  destruct (decide (i = 6%nat)) as [->|Hi]; cbn [app] in *.
  - change (tty_device_call 6 buf w) with (tty_write buf w) in Hc. rewrite length_app in *.
    pose proof Hp as (_ & _ & Hw & _).
    destruct (tty_write_holds buf w p Hp) as (w2 & Hw2 & Hp2); [lia|lia|].
    assert (w1 = w2) as -> by congruence. apply tty_write_rwhence in Hc.
    rewrite app_assoc. apply (IH w2 (p ++ buf)); [done|by rewrite Hc|rewrite length_app; lia|done].
  - apply tty_device_call_other in Hc as [-> _]; [|done]. by apply (IH w p).
Qed.

(** From the console to the client: whatever calls the I/O manager makes of the
    device, a client that reads as many bytes as the console wrote, when the
    ring can hold them, gets the text of the writes and nothing of the other
    calls. *)
Theorem console_reaches_client calls w :
  tty_device_run calls initial_tty = Ok w -> (length (console_text calls) <= TTY_SIZE)%nat ->
  exists w', nbdtty_read (Z.of_nat (length (console_text calls))) w
    = Ok (Some (0, console_text calls, w')) /\ tty_holds w' [].
Proof.
  intros Hrun Hl. pose proof (tty_device_run_holds calls initial_tty [] w initial_tty_holds) as Hp.
  specialize (Hp ltac:(by_decide) Hl Hrun). cbn [app] in Hp.
  pose proof (tty_read_holds (Z.of_nat (length (console_text calls))) w _ Hp ltac:(lia)) as H.
  rewrite decide_False in H by lia. by rewrite Nat2Z.id, firstn_all, drop_all in H.
Qed.
