(* ===== verification/PcmPlugin.v ===== *)
(** * The sound plugin: [plugins/pcmstream/pcmstream.c]

    Exports the console's speakers as a stream: a write is played.  The world
    is the plugin's tables and the state [A] of the sound driver, whose calls
    ([audsrv]) are parameters. *)

From S2P Require Export PluginApi Handles.

Definition PCM_DRIVER_MAX_DEVICES : nat := 1.

(** [struct pcmstream_config]; the strings are [name[32]] and [desc[64]]. *)
Record pcmstream_config := mk_pcm_config {
  pc_name : list byte; pc_desc : list byte;
  pc_rate : Z; pc_bits : Z; pc_channels : Z; pc_volume : Z }.

Definition set_pc_volume (v : Z) (h : pcmstream_config) : pcmstream_config :=
  mk_pcm_config (pc_name h) (pc_desc h) (pc_rate h) (pc_bits h) (pc_channels h) v.

Record pcm_world (A : Type) := mk_pcm {
  pw_handles : list pcmstream_config;
  pw_in_use : list handle_state_t;
  pw_audio : A }.
Arguments mk_pcm {A} _ _ _.
Arguments pw_handles {A} _.
Arguments pw_in_use {A} _.
Arguments pw_audio {A} _.

Section pcm.
Context {A : Type}.
Context (audsrv_init : A -> Z * A).
Context (audsrv_set_format : Z -> Z -> Z -> A -> A).
Context (audsrv_set_volume audsrv_wait_audio : Z -> A -> A).
Context (audsrv_play_audio : list byte -> A -> A).
Context (audsrv_quit : A -> A).

Definition set_audio (x : A) (w : pcm_world A) : pcm_world A :=
  mk_pcm (pw_handles w) (pw_in_use w) x.

Definition pcmstream_set_volume (handle : handle_ptr) (volume : Z) (w : pcm_world A)
  : outcome (Z * pcm_world A) :=
  i ← of_option NullDeref handle;
  h ← of_option OutOfBounds (pw_handles w !! i);
  let h := set_pc_volume volume h in
  let w := mk_pcm (<[i := h]> (pw_handles w)) (pw_in_use w) (pw_audio w) in
  Ok (0, set_audio (audsrv_set_volume (pc_volume h) (pw_audio w)) w).

(** It reports success and stores nothing in the caller's buffer. *)
Definition pcmstream_pread (handle : handle_ptr) (count offset flags : Z) (w : pcm_world A)
  : outcome (Z * list byte * pcm_world A) := Ok (0, [], w).

Definition pcmstream_pwrite (handle : handle_ptr) (buf : list byte) (count offset flags : Z)
    (w : pcm_world A) : outcome (Z * pcm_world A) :=
  let x := audsrv_wait_audio count (pw_audio w) in
  d ← load_at 0 (Z.to_nat count) buf;
  Ok (0, set_audio (audsrv_play_audio d x) w).

Definition pcmstream_flush (handle : handle_ptr) (flags : Z) (w : pcm_world A)
  : outcome (Z * pcm_world A) := Ok (0, w).

(** The handle is claimed and the context filled before the driver is
    started. *)
Definition pcmstream_ctor (pconfig : pcmstream_config) (oc : option lwnbd_context_t)
    (w : pcm_world A) : outcome (Z * option lwnbd_context_t * pcm_world A) :=
  let '(i, in_use) := claim_handle (pw_in_use w) in
  _ ← of_option OutOfBounds (pw_handles w !! i);
  let h := pconfig in
  let w := mk_pcm (<[i := h]> (pw_handles w)) in_use (pw_audio w) in
  c ← of_option NullDeref oc;
  let c := set_c_handle (Some i) c in
  name ← of_option Unterminated (c_str (pc_name h));
  n ← strcpy (c_name c) name;
  desc ← of_option Unterminated (c_str (pc_desc h));
  d ← strcpy (c_description c) desc;
  let c := set_c_description d (set_c_name n c) in
  let '(r, x) := audsrv_init (pw_audio w) in
  if negb (r =? 0) then Ok (-1, Some c, set_audio x w)
  else
    let x := audsrv_set_format (pc_rate h) (pc_bits h) (pc_channels h) x in
    let x := audsrv_set_volume (pc_volume h) x in
    Ok (0, Some c, set_audio x w).

Definition pcmstream_block_size (handle : handle_ptr) (w : pcm_world A)
  : outcome (Z * Z * Z * pcm_world A) := Ok (1, 1, 1, w).

Definition pcmstream_close (handle : handle_ptr) (w : pcm_world A) : pcm_world A :=
  set_audio (audsrv_quit (pw_audio w)) w.

Definition pcmstream_plugin : lwnbd_plugin_t (pcm_world A) pcmstream_config := {|
  pl_name := bs "pcmstream";
  pl_longname := bs "lwnbd generic pcmstream plugin";
  pl_load := None;
  pl_get_size := Some stream_get_size;
  pl_pread := Some pcmstream_pread;
  pl_pwrite := Some pcmstream_pwrite;
  pl_flush := Some pcmstream_flush;
  pl_trim := None;
  pl_zero := None;
  pl_block_size := Some pcmstream_block_size;
  pl_config := None;
  pl_magic_config_key := None;
  pl_ctor := Some pcmstream_ctor;
  pl_query := None;
  pl_export_without_handle := 0
|}.

(** ** Properties *)

Definition pcm_config_ok (cfg : pcmstream_config) (name desc : list byte) : Prop :=
  c_str (pc_name cfg) = Some name /\ length (pc_name cfg) = 32%nat /\
  c_str (pc_desc cfg) = Some desc /\ length (pc_desc cfg) = 64%nat.

Definition pcm_tables_ok (n : nat) (w : pcm_world A) : Prop :=
  length (pw_handles w) = PCM_DRIVER_MAX_DEVICES /\
  pw_in_use w = handle_slots PCM_DRIVER_MAX_DEVICES n /\ (n <= PCM_DRIVER_MAX_DEVICES)%nat.

(** The driver set up with a configuration. *)
Definition audio_started (cfg : pcmstream_config) (x : A) : A :=
  audsrv_set_volume (pc_volume cfg)
    (audsrv_set_format (pc_rate cfg) (pc_bits cfg) (pc_channels cfg) x).

(** The one handle is taken and stays taken, even when the sound driver does
    not start; a second construction writes outside the table. *)
Theorem pcmstream_ctor_once cfg name desc c w :
  pcm_config_ok cfg name desc -> pcm_tables_ok 0 w -> context_ok c ->
  exists c' w', pcmstream_ctor cfg (Some c) w
      = Ok (if decide ((audsrv_init (pw_audio w)).1 = 0) then 0 else -1, Some c', w') /\
    context_ok c' /\ c_handle c' = Some 0%nat /\ c_str (c_name c') = Some name /\
    c_str (c_description c') = Some desc /\ pw_handles w' = [cfg] /\ pcm_tables_ok 1 w' /\
    pw_audio w' = (let '(r, x) := audsrv_init (pw_audio w) in
                   if decide (r = 0) then audio_started cfg x else x) /\
    forall cfg2 c2, pcmstream_ctor cfg2 (Some c2) w' = Fault OutOfBounds.
Proof.
  intros (Hn & Hn32 & Hd & Hd64) (Hh & Hu & _) (Hc1 & _ & Hc2 & _).
  unfold pcmstream_ctor at 1. rewrite Hu, claim_handle_slots by (unfold PCM_DRIVER_MAX_DEVICES; lia).
  destruct (pw_handles w) as [|old [|]]; try discriminate. cbn [lookup list_lookup]. mred.
  rewrite Hn. mred. pose proof (c_str_length _ _ Hn). pose proof (c_str_length _ _ Hd).
  destruct (strcpy_context_ok (c_name c) name) as (nm & Hnm & Hl1 & Hs1);
    [by apply c_str_inv in Hn as []|lia|].
  destruct (strcpy_context_ok (c_description c) desc) as (ds & Hds & Hl2 & Hs2);
    [by apply c_str_inv in Hd as []|lia|].
  cbn [c_name set_c_handle c_description]. rewrite Hnm. mred. rewrite Hd. mred. rewrite Hds. mred.
  cbn [pw_audio]. destruct (audsrv_init (pw_audio w)) as [r x]. cbn [fst].
  assert (context_ok (set_c_description ds (set_c_name nm (set_c_handle (Some 0%nat) c)))).
  { split_and!; cbn; eauto; lia. }
  destruct (Z.eqb_spec r 0) as [->|Hr]; cbn [negb];
    [rewrite !(decide_True (P := 0 = 0)) by done|rewrite !(decide_False (P := r = 0)) by done];
    eexists _, _; (split; [done|]); (split; [done|]); cbn; split_and!; done.
Qed.

(** *** Playing *)

(** [played]: the samples handed to the driver so far. *)
Record plays_in_order (played : A -> list byte) : Prop := {
  pl_init x : played (audsrv_init x).2 = played x;
  pl_wait n x : played (audsrv_wait_audio n x) = played x;
  pl_volume v x : played (audsrv_set_volume v x) = played x;
  pl_play d x : played (audsrv_play_audio d x) = played x ++ d
}.

(** The callbacks a client can cause on an export. *)
Inductive pcm_call :=
  | PcmWrite (buf : list byte) (count offset : Z)
  | PcmRead (count offset : Z)
  | PcmFlush
  | PcmVolume (v : Z).

Definition pcm_do (h : handle_ptr) (k : pcm_call) (w : pcm_world A) : outcome (pcm_world A) :=
  match k with
  | PcmWrite buf count offset => '(_, w) ← pcmstream_pwrite h buf count offset 0 w; Ok w
  | PcmRead count offset => '(_, _, w) ← pcmstream_pread h count offset 0 w; Ok w
  | PcmFlush => '(_, w) ← pcmstream_flush h 0 w; Ok w
  | PcmVolume v => '(_, w) ← pcmstream_set_volume h v w; Ok w
  end.

Fixpoint pcm_run (h : handle_ptr) (ks : list pcm_call) (w : pcm_world A) : outcome (pcm_world A) :=
  match ks with [] => Ok w | k :: ks => w ← pcm_do h k w; pcm_run h ks w end.

Definition samples (k : pcm_call) : list byte :=
  match k with PcmWrite buf count _ => take (Z.to_nat count) buf | _ => [] end.

Definition pcm_call_ok (k : pcm_call) : Prop :=
  match k with PcmWrite buf count _ => 0 <= count <= Z.of_nat (length buf) | _ => True end.

(** Whatever else happens on the export, the data of the writes is played
    whole, in the order written, wherever it was addressed. *)
Theorem pcmstream_plays_writes played i ks w :
  plays_in_order played -> is_Some (pw_handles w !! i) -> Forall pcm_call_ok ks ->
  exists w', pcm_run (Some i) ks w = Ok w' /\
    played (pw_audio w') = played (pw_audio w) ++ concat (samples <$> ks).
Proof.
  intros HA Hi Hks. revert w Hi. induction Hks as [|k ks Hk _ IH]; intros w Hi; cbn [pcm_run].
  - exists w. by rewrite app_nil_r.
  - assert (exists w1, pcm_do (Some i) k w = Ok w1 /\ is_Some (pw_handles w1 !! i) /\
      played (pw_audio w1) = played (pw_audio w) ++ samples k) as (w1 & Hd & Hi1 & Hp1).
    { destruct k as [buf count off| | |v]; cbn [pcm_do samples];
        try (exists w; by rewrite app_nil_r).
      - unfold pcmstream_pwrite. cbn in Hk. rewrite load_at_fits by lia. mred.
        eexists. split; [done|]. split; [done|]. cbn. by rewrite (pl_play _ HA), (pl_wait _ HA).
      - unfold pcmstream_set_volume. mred. destruct Hi as [h Hh]. rewrite Hh. mred.
        eexists. split; [done|]. cbn. rewrite (pl_volume _ HA), app_nil_r. split; [|done].
        rewrite list_lookup_insert_eq by (by eapply lookup_lt_Some). by eexists. }
    rewrite Hd. mred. destruct (IH w1 Hi1) as (w' & Hr & Hp). exists w'. split; [done|].
    rewrite Hp, Hp1, fmap_cons, <- app_assoc. done.
Qed.
End pcm.
