(* ===== verification/BdmPlugin.v ===== *)
(** * The block-device-manager plugin: [plugins/bdm/bdm.c]

    Exports the first device the console's block device manager knows.  The
    devices [D], their geometry and their [read] are the manager's. *)

From S2P Require Export Plugins.

Definition MAX_CONNECTIONS : nat := 20.

Record bdm_world (D W : Type) := mk_bdm {
  bd_handles : list (option D);   (** [struct block_device *device] of each handle *)
  bd_dev : W }.
Arguments mk_bdm {D W} _ _.
Arguments bd_handles {D W} _.
Arguments bd_dev {D W} _.

Section bdm.
Context {D W : Type}.
Context (sectorSize sectorCount : D -> Z) (dev_name : D -> list byte).
(** [bdm_get_bd(pbd, n)] stores at most [n] device pointers in the array. *)
Context (bdm_get_bd : list (option D) -> nat -> W -> list (option D)).
(** [device->read(device, sector, buf, count)] *)
Context (read : D -> Z -> Z -> W -> Z * list byte * W).

(** [h->device] *)
Definition bdm_device (handle : handle_ptr) (w : bdm_world D W) : outcome D :=
  i ← of_option NullDeref handle;
  h ← of_option OutOfBounds (bd_handles w !! i);
  of_option NullDeref h.

Definition bdm_pread (handle : handle_ptr) (count offset flags : Z) (w : bdm_world D W)
  : outcome (Z * list byte * bdm_world D W) :=
  device ← bdm_device handle w;
  let '(r, d, x) := read device (u32 offset) (u16 count) (bd_dev w) in
  Ok (r, d, mk_bdm (bd_handles w) x).

Definition bdm_pwrite (handle : handle_ptr) (buf : list byte) (count offset flags : Z)
    (w : bdm_world D W) : outcome (Z * bdm_world D W) := Ok (0, w).

Definition bdm_flush (handle : handle_ptr) (flags : Z) (w : bdm_world D W)
  : outcome (Z * bdm_world D W) := Ok (0, w).

(** [pbd] is never given a value: the manager is handed an indeterminate
    pointer, not an array to store the devices in. *)
Definition bdm_ctor (pconfig : unit) (oc : option lwnbd_context_t) (w : bdm_world D W)
  : outcome (Z * option lwnbd_context_t * bdm_world D W) :=
  let pbd : option (list (option D)) := None in
  pbd ← of_option Uninitialised pbd;
  let pbd := bdm_get_bd pbd 1 (bd_dev w) in
  device ← of_option OutOfBounds (pbd !! 0%nat);
  let w := mk_bdm (<[0%nat := device]> (bd_handles w)) (bd_dev w) in
  c ← of_option NullDeref oc;
  d ← of_option NullDeref device;
  n ← strcpy (c_name c) (dev_name d);
  Ok (0, Some (set_c_handle (Some 0%nat) (set_c_name n c)), w).

Definition bdm_block_size (handle : handle_ptr) (w : bdm_world D W)
  : outcome (Z * Z * Z * bdm_world D W) :=
  device ← bdm_device handle w;
  let s := u32 (sectorSize device) in Ok (s, s, s, w).

Definition bdm_get_size (handle : handle_ptr) (w : bdm_world D W) : outcome (Z * bdm_world D W) :=
  d ← bdm_device handle w;
  Ok (i64 (i64 (sectorSize d) * sectorCount d), w).

(** The write and flush callbacks exist and are not registered. *)
Definition bdm_plugin : lwnbd_plugin_t (bdm_world D W) unit := {|
  pl_name := bs "bdm";
  pl_longname := bs "PlayStation 2 BDM plugin";
  pl_load := None;
  pl_get_size := Some bdm_get_size;
  pl_pread := Some bdm_pread;
  pl_pwrite := None;
  pl_flush := None;
  pl_trim := None;
  pl_zero := None;
  pl_block_size := Some bdm_block_size;
  pl_config := None;
  pl_magic_config_key := None;
  pl_ctor := Some bdm_ctor;
  pl_query := None;
  pl_export_without_handle := 0
|}.

(** ** Properties *)

(** What a driver promises about a device of [content] bytes when the request
    fits its types. *)
Record bdm_driver (d : D) (inv : W -> Prop) (content : W -> list byte) : Prop := {
  bdr_size : 0 < sectorSize d < 2 ^ 31;
  bdr_read x sec cnt : inv x -> 0 <= sec -> 0 <= cnt ->
    (sec + cnt) * sectorSize d <= Z.of_nat (length (content x)) ->
    exists x', read d sec cnt x
      = (0, slice (Z.to_nat (sec * sectorSize d)) (Z.to_nat (cnt * sectorSize d)) (content x), x') /\
      inv x' /\ content x' = content x
}.

Definition bdm_inv (i : nat) (d : D) (inv : W -> Prop) (content : W -> list byte)
    (w : bdm_world D W) : Prop :=
  bd_handles w !! i = Some (Some d) /\ inv (bd_dev w) /\
  Z.of_nat (length (content (bd_dev w))) < 2 ^ 32.

(** With a device in its handle the export is a block device, as long as its
    sector numbers fit 32 bits. *)
#[refine] Instance bdm_read_store (i : nat) (d : D) inv content (H : bdm_driver d inv content) :
  ReadStore bdm_plugin (Some i) (sectorSize d) (bdm_inv i d inv content)
    (fun w => content (bd_dev w)) := {| rs_fun := bdm_pread |}.
Proof.
  - by destruct (bdr_size _ _ _ H).
  - done.
  - intros w cnt off (Hh & Hi & Hs) Hcnt Hoff Hle. pose proof (bdr_size _ _ _ H).
    unfold bdm_pread, bdm_device. mred. rewrite Hh. mred.
    rewrite !wrap_small by nia.
    destruct (bdr_read _ _ _ H (bd_dev w) off cnt) as (x & -> & Hx & Hc); [done|lia..|].
    eexists. split; [done|]. cbn. split; [|done]. split_and!; cbn; [done|done|by rewrite Hc].
Defined.

(** Two sectors [2^32] apart are the same to the driver. *)
Lemma bdm_offset_truncated h count offset k flags w :
  0 <= k -> bdm_pread h count (offset + k * 2 ^ 32) flags w = bdm_pread h count offset flags w.
Proof.
  intros. unfold bdm_pread, wrap. by rewrite Z_mod_plus_full.
Qed.

(** The export is never created: whatever the state of the library, adding a
    device of this plugin has undefined behaviour. *)
Theorem bdm_never_exported (plugin_mem : nat -> lwnbd_plugin_t (bdm_world D W) unit) s i a :
  lib_ok s -> l_plugins s !! i = Some (Some a) -> plugin_mem a = bdm_plugin ->
  lwnbd_plugin_new plugin_mem (Z.of_nat i) tt s
  = Fault (if decide (lwnbd_contexts_count (l_pool s) = MAX_CONTEXTS) then NullDeref else Uninitialised).
Proof.
  intros Hok Hi Ha. unfold lwnbd_plugin_new, plugin_lookup. rewrite Nat2Z.id, Hi. mred.
  rewrite Ha. cbn [bdm_plugin pl_ctor pl_export_without_handle Z.eqb]. case_decide as Hc.
  - by rewrite new_context_full.
  - destruct (new_context_slot s Hok Hc) as (pl & c & -> & Hpl & Hsame & Hcnt & Hci & Hcok).
    mred. unfold context_at. rewrite Hci. mred.
    by destruct (clear_description c Hcok) as (d0 & -> & _).
Qed.
End bdm.
