(* ===== verification/PluginTypes.v ===== *)
(** * The plugins keep the library's typing

    [Library] is stated for plugins whose constructor leaves a well-formed
    context; every plugin of the repository is shown to be one, alone and in a
    program that combines several. *)

From S2P Require Export Library Combine.
From S2P Require Import MemoryPlugin AtadPlugin FilePlugin McmanPlugin CommandPlugin TtyPlugin PcmPlugin BdmPlugin.

(** The name and the description are the only arrays a constructor writes. *)
Lemma set_name_ok c src n : context_ok c -> strcpy (c_name c) src = Ok n -> context_ok (set_c_name n c).
Proof. intros (H1 & H2 & H3 & H4) [Hl Hs]%strcpy_string. unfold context_ok; cbn. rewrite Hl. tauto. Qed.

Lemma set_description_ok c src d :
  context_ok c -> strcpy (c_description c) src = Ok d -> context_ok (set_c_description d c).
Proof. intros (H1 & H2 & H3 & H4) [Hl Hs]%strcpy_string. unfold context_ok; cbn. rewrite Hl. tauto. Qed.

(** A constructor: its branches, and in each the context it returns. *)
Ltac ctor_branches H :=
  run; repeat match type of H with
  | context [match ?x with _ => _ end] => destruct x; run
  | context [if ?b then _ else _] => destruct b; run
  end; simplify_eq.

Ltac typed_ctor :=
  constructor; intros f cfg c w r c' w' [= <-] Hc Hrun;
  cbv beta zeta delta [memory_ctor atad_ctor file_ctor mcman_ctor bdm_ctor nbdtty_ctor pcmstream_ctor command_ctor]
    in Hrun;
  ctor_branches Hrun; try done;
  (split; [|done]; (eapply set_name_ok; [exact Hc|eassumption]) ||
    (eapply set_description_ok; [eapply set_name_ok; [exact Hc|eassumption]|eassumption])).

#[export] Instance memory_typed : CtorTyped memory_plugin.
Proof. typed_ctor. Qed.

#[export] Instance atad_typed {D} io flush devinfo : CtorTyped (@atad_plugin D io flush devinfo).
Proof. typed_ctor. Qed.

#[export] Instance file_typed {F} pread pwrite sync open fstat :
  CtorTyped (@file_plugin F pread pwrite sync open fstat).
Proof. typed_ctor. Qed.

#[export] Instance mcman_typed {C} erase read write sum detect spec alloc :
  CtorTyped (@mcman_plugin C erase read write sum detect spec alloc).
Proof. typed_ctor. Qed.

#[export] Instance command_typed {E} dump : CtorTyped (@command_plugin E dump).
Proof. typed_ctor. Qed.

#[export] Instance tty_typed ev drv : CtorTyped (tty_plugin ev drv).
Proof. typed_ctor. Qed.

#[export] Instance pcmstream_typed {A} init fmt vol wait play :
  CtorTyped (@pcmstream_plugin A init fmt vol wait play).
Proof. typed_ctor. Qed.

#[export] Instance bdm_typed {D W} size count name get read :
  CtorTyped (@bdm_plugin D W size count name get read).
Proof. typed_ctor. Qed.

#[export] Instance lift_typed {W W1 Cfg Cfg1} (L : lens W W1) (cfg : Cfg -> option Cfg1) p :
  CtorTyped p -> CtorTyped (lift_plugin L cfg p).
Proof.
  intros Hp. constructor. intros f x c w r c' w' Hf Hc Hrun. cbn in Hf.
  destruct (pl_ctor p) as [g|] eqn:E; [|done]. cbn in Hf. simplify_eq. unfold lift2 in Hrun. run.
  by eapply (ctor_typed (CtorTyped := Hp)).
Qed.
