(* ===== verification/Log.v ===== *)
(** * Logging: [src/log.c]

    A message is formatted into a bounded buffer and handed to a callback when
    its level is not above the configured one.  What callbacks print is the
    state: the list of what was written, most recent last. *)

From S2P Require Export Prelude.

Definition LWNBD_BUFFER_LEN : nat := 2048.

Definition LWNBD_LOG_ERROR := 1.
Definition LWNBD_LOG_WARN := 2.
Definition LWNBD_LOG_INFO := 3.
Definition LWNBD_LOG_DEBUG := 4.

Section log.
Context {O : Type}.

(** [log_callback(file, tag, level, line, func, message)], as far as its
    arguments vary: level, line, function and message. *)
Definition log_callback : Type := Z -> Z -> list byte -> list byte -> O -> O.

(** The static structure [Global]. *)
Record log_state := mk_log { g_level : Z; g_callback : option log_callback }.

(** [formatted] is the text the format and its arguments denote. *)
Definition lwnbd_log (level line : Z) (func formatted : list byte) (g : log_state) (o : O) : Z * O :=
  match g_callback g with
  | None => (-1, o)
  | Some callback =>
      if g_level g <? level then (-1, o)
      else
        let message := take (LWNBD_BUFFER_LEN - 1) formatted in
        (0, callback level line func message o)
  end.

Definition lwnbd_set_log_callback (callback : option log_callback) (g : log_state) : log_state :=
  mk_log (g_level g) callback.

Definition lwnbd_set_log_level (level : Z) (g : log_state) : log_state :=
  mk_log level (g_callback g).
End log.
Arguments log_state : clear implicits.
Arguments log_callback : clear implicits.

(** [printf("[%-5s][%s] %s", level_name, tag, message)] *)
Definition level_name (level : Z) : list byte :=
  if level =? LWNBD_LOG_INFO then bs "INFO"
  else if level =? LWNBD_LOG_WARN then bs "WARN"
  else if level =? LWNBD_LOG_ERROR then bs "ERROR"
  else bs "DEBUG".

Definition pad5 (s : list byte) : list byte := s ++ replicate (5 - length s) x20.

Definition lwnbd_default_log_callback : log_callback (list byte) :=
  fun level line func message out =>
  out ++ bs "[" ++ pad5 (level_name level) ++ bs "][" ++ bs "LWNBD" ++ bs "] " ++ message.

(** A program's calls, in order. *)
Record log_call := mk_log_call { lc_level : Z; lc_line : Z; lc_func : list byte; lc_text : list byte }.

Fixpoint log_all {O} (cs : list log_call) (g : log_state O) (o : O) : O :=
  match cs with
  | [] => o
  | c :: cs =>
      let '(_, o) := lwnbd_log (lc_level c) (lc_line c) (lc_func c) (lc_text c) g o in
      log_all cs g o
  end.

(** The line the default callback prints for a message. *)
Definition log_line (c : log_call) : list byte :=
  bs "[" ++ pad5 (level_name (lc_level c)) ++ bs "][LWNBD] " ++ take 2047 (lc_text c).

(** With the default callback, what is printed is the messages at or below
      the level, in order, each cut to the buffer. *)
Theorem log_filters_by_level cs level out :
  log_all cs (mk_log level (Some lwnbd_default_log_callback)) out
  = out ++ concat (log_line <$> filter (fun c => lc_level c <= level) cs).
Proof.
  revert out; induction cs as [|c cs IH]; intros out; cbn [log_all].
  - cbn. by rewrite app_nil_r.
  - unfold lwnbd_log. cbn [g_callback g_level]. rewrite filter_cons.
    case (Z.ltb_spec level (lc_level c)) as [H|H].
    + rewrite decide_False by lia. apply IH.
    + rewrite decide_True by lia. rewrite IH, fmap_cons. cbn [concat].
      unfold lwnbd_default_log_callback, log_line, LWNBD_BUFFER_LEN. app_norm. done.
Qed.
