(* ===== verification/LocalApps.v ===== *)
(** * Programs that use the library locally

    [examples/local-reader.c] and [examples/local-command-wc.c]: no server, the
    exports are opened by URI and read or written directly. *)

From S2P Require Export Combine ContextsUri.
From S2P Require Import CommandPlugin MemoryPlugin FilePlugin.

(** What both file programs read: a plugin whose handle holds the bytes of
    [content], one at a time, and whose reads at the end fail. *)
Class ByteFile {W Cfg} (p : lwnbd_plugin_t W Cfg) (h : handle_ptr) (inv : W -> Prop)
    (content : W -> list byte) := {
  bf_store :: ReadStore p h 1 inv content;
  bf_eof w : inv w -> exists r w',
    rs_fun (ReadStore := bf_store) h 1 (Z.of_nat (length (content w))) 0 w = Ok (r, [], w') /\ r <> 0 /\ inv w'
}.

(** A file of the file plugin is one. *)
#[export, refine] Instance file_bytes {F} pread pwrite sync open fstat fd (bytes : F -> list byte)
    (Hfd : posix_file pread pwrite sync fd bytes) (i : nat) :
  ByteFile (file_plugin pread pwrite sync open fstat) (Some i) (file_inv fd bytes i) (file_content bytes) :=
  {| bf_store := file_read_store pread pwrite sync open fstat fd bytes Hfd i |}.
Proof.
  intros w Hw. destruct (file_pread_eof _ _ _ _ _ Hfd i w (Z.of_nat (length (file_content bytes w))) Hw)
    as (w' & Hrun & _ & Hi); [lia|]. by exists (-1), w'.
Defined.

Section locals.
Context {W Cfg : Type} (plugin_mem : nat -> lwnbd_plugin_t W Cfg).
Implicit Types (s : lib W).

(** The export a program opens: [argv] or another writable string is parsed in
    place.  [lwnbd_pread(ctx, ...)] on [NULL] reads [ctx->p]. *)
Definition open_uri (uri : list byte) s : outcome (lwnbd_context_t * lib W) :=
  '(oc, _, s) ← lwnbd_get_context plugin_mem 0 (uri ++ [x00]) s;
  i ← of_option NullDeref oc;
  c ← context_at (l_pool s) i;
  Ok (c, s).

(** ** [local-reader.c] *)

(** [while (r == 0)]: what is printed, one character a turn. *)
Fixpoint reader_loop (fuel : nat) (ctx : lwnbd_context_t) (r : Z) (buf : list byte) (offset : Z)
    (out : list byte) (w : W) : outcome (list byte * W) :=
  if r =? 0 then
    match fuel with
    | O => Fault OutOfFuel
    | S fuel =>
        '(r, d, w) ← lwnbd_pread plugin_mem ctx 1 offset 0 w;
        buf ← store_at 0 d buf;
        b ← of_option OutOfBounds (head buf);
        reader_loop fuel ctx r buf (u64 (offset + 1)) (out ++ [b]) w
    end
  else Ok (out, w).

(** [main], with [argv[1]] and what the array [buf[80]] happens to hold. *)
Definition local_reader (fuel : nat) (file_plugin_init : plugin_ptr) (config : list byte -> Cfg)
    (argv1 stack : list byte) s : outcome (list byte) :=
  '(fileplg, s) ← lwnbd_plugin_init plugin_mem file_plugin_init s;
  '(_, s) ← lwnbd_plugin_new plugin_mem fileplg (config argv1) s;
  '(ctx, s) ← open_uri argv1 s;
  '(out, _) ← reader_loop fuel ctx 0 stack 0 [] (l_world s);
  Ok out.

(** ** [local-command-wc.c] *)

(** The command: [count] is the program's static. *)
Definition byte_count : command_fun Z := fun argc argv data size tbl count =>
  Ok (0, data, size, i64 (count + 1)).

Definition wc_command : lwnbd_command Z :=
  mk_command_entry (bs "wc") (bs "byte count") METHOD_POST byte_count.

Fixpoint wc_loop (fuel : nat) (filectx wcctx : lwnbd_context_t) (r : Z) (buf : list byte)
    (offset : Z) (w : W) : outcome W :=
  if r =? 0 then
    match fuel with
    | O => Fault OutOfFuel
    | S fuel =>
        '(r, d, w) ← lwnbd_pread plugin_mem filectx 1 offset 0 w;
        buf ← store_at 0 d buf;
        if negb (r =? 0) then Ok w
        else
          '(r, w) ← lwnbd_pwrite plugin_mem wcctx buf 1 0 0 w;
          wc_loop fuel filectx wcctx r buf (u64 (offset + 1)) w
    end
  else Ok w.

(** [main]: the request's buffer, ["api?wc"] with its NUL, receives the
    bytes. *)
Definition local_command_wc (fuel : nat) (file_plugin_init command_plugin_init : plugin_ptr)
    (config : list byte -> Cfg) (wc : Cfg) (argv1 : list byte) s : outcome W :=
  '(fileplg, s) ← lwnbd_plugin_init plugin_mem file_plugin_init s;
  '(_, s) ← lwnbd_plugin_new plugin_mem fileplg (config argv1) s;
  '(filectx, s) ← open_uri argv1 s;
  '(cmdplg, s) ← lwnbd_plugin_init plugin_mem command_plugin_init s;
  '(_, s) ← lwnbd_plugin_new plugin_mem cmdplg wc s;
  '(oc, buf, s) ← lwnbd_get_context plugin_mem 0 (bs "api?wc" ++ [x00]) s;
  i ← of_option NullDeref oc;
  wcctx ← context_at (l_pool s) i;
  wc_loop fuel filectx wcctx 0 buf 0 (l_world s).

(** ** What they do *)

Section file_programs.
Context (ctx : lwnbd_context_t) (a : nat) (inv : W -> Prop) (content : W -> list byte).
Context (Hp : c_p ctx = Some a) {B : ByteFile (plugin_mem a) (c_handle ctx) inv content}.

Lemma pread_byte w k b :
  inv w -> content w !! k = Some b ->
  exists w', lwnbd_pread plugin_mem ctx 1 (Z.of_nat k) 0 w = Ok (0, [b], w') /\
    inv w' /\ content w' = content w.
Proof.
  intros Hi Hb. pose proof (lookup_lt_Some _ _ _ Hb).
  destruct (lwnbd_pread_spec plugin_mem ctx a 1 inv content Hp w 1 (Z.of_nat k)) as (w' & -> & Hw');
    [done|lia|lia|lia|].
  exists w'. split; [|done]. do 3 f_equal. unfold slice. rewrite !Z.mul_1_r, Nat2Z.id.
  change (Z.to_nat 1) with 1%nat. by rewrite (drop_S _ b) by done.
Qed.

Lemma pread_end w :
  inv w -> exists r w', lwnbd_pread plugin_mem ctx 1 (Z.of_nat (length (content w))) 0 w = Ok (r, [], w') /\
    r <> 0 /\ inv w'.
Proof.
  intros Hi. unfold lwnbd_pread, method. rewrite Hp. mred. rewrite rs_pread. mred. by apply bf_eof.
Qed.

Lemma reader_loop_spec k fuel buf out w :
  inv w -> Z.of_nat (length (content w)) < 2 ^ 63 -> (k <= length (content w))%nat ->
  (length (content w) - k < fuel)%nat -> (0 < length buf)%nat ->
  exists w', reader_loop fuel ctx 0 buf (Z.of_nat k) out w
    = Ok (out ++ drop k (content w) ++ [default (default x00 (head buf)) (list.last (drop k (content w)))], w').
Proof.
  intros Hi Hsz. remember (length (content w) - k)%nat as n eqn:Hn. revert k fuel buf out w Hi Hsz Hn.
  induction n as [|n IH]; intros k fuel buf out w Hi Hsz Hn Hk Hf Hb; (destruct fuel as [|fuel]; [lia|]);
    cbn [reader_loop Z.eqb].
  - assert (k = length (content w)) as -> by lia. destruct (pread_end w Hi) as (r & w' & -> & Hr & _). mred.
    rewrite store_at_fits by (cbn; lia). mred. rewrite splice_nil.
    destruct buf as [|b buf]; [cbn in Hb; lia|]. mred. cbn [head]. mred.
    rewrite drop_all. exists w'. destruct fuel; cbn [reader_loop]; by rewrite (proj2 (Z.eqb_neq _ _) Hr).
  - destruct (lookup_lt_is_Some_2 (content w) k) as [b Hbk]; [lia|].
    destruct (pread_byte w k b Hi Hbk) as (w1 & -> & Hi1 & Hc1). mred.
    rewrite store_at_fits by (cbn; lia). mred.
    change (splice 0 [b] buf) with (b :: drop 1 buf). cbn [head]. mred.
    rewrite wrap_small by lia. replace (Z.of_nat k + 1) with (Z.of_nat (S k)) by lia.
    destruct (IH (S k) fuel (b :: drop 1 buf) (out ++ [b]) w1 Hi1) as (w2 & Hrun);
      [by rewrite Hc1|rewrite Hc1; lia|rewrite Hc1; lia|lia|cbn; lia|].
    exists w2. rewrite Hrun, Hc1. rewrite (drop_S (content w) b k) by done.
    cbn [head]. rewrite last_cons. cbn [from_option id].
    destruct (list.last (drop (S k) (content w))); cbn [from_option id]; do 2 f_equal; app_eq.
Qed.

(** The reader prints the file and then its last byte again (whatever was on
    the stack when the file is empty): the turn that fails prints too. *)
Theorem local_reader_prints stack w :
  inv w -> Z.of_nat (length (content w)) < 2 ^ 63 -> (0 < length stack)%nat ->
  exists w', reader_loop (S (length (content w))) ctx 0 stack 0 [] w
    = Ok (content w ++ [default (default x00 (head stack)) (list.last (content w))], w').
Proof.
  intros Hi Hsz Hst. destruct (reader_loop_spec 0 (S (length (content w))) stack [] w) as (w' & Hrun);
    [done|done|lia|lia|done|]. exists w'. exact Hrun.
Qed.
End file_programs.
End locals.

(** ** Counting bytes through the command plugin *)

Section counting.
Context {Wf CfgF Cfg : Type} (p : lwnbd_plugin_t Wf CfgF).
Context (dump : Z -> outcome (list byte * Z)).
Context (cf : Cfg -> option CfgF) (cc : Cfg -> option (lwnbd_command Z)).
(** The program's world: the file plugin's and the command plugin's. *)
Local Abbreviation W := (Wf * command_world Z)%type.
Context (plugin_mem : nat -> lwnbd_plugin_t W Cfg) (af ac : nat).
Context (Hf : plugin_mem af = lift_plugin lens_fst cf p).
Context (Hc : plugin_mem ac = lift_plugin lens_snd cc (command_plugin dump)).
Context (filectx wcctx : lwnbd_context_t) (Hfp : c_p filectx = Some af) (Hcp : c_p wcctx = Some ac).
Context (inv : Wf -> Prop) (content : Wf -> list byte).
Context {B : ByteFile p (c_handle filectx) inv content}.

(** The command plugin after the request [api?wc]: the next writes go to
    [wc]. *)
Definition posting (w : command_world Z) : Prop :=
  exists i n, cw_pp w = Some (i, n) /\ cw_commands w !! i = Some wc_command.

Lemma post_counts buf w :
  posting w.2 -> exists w', lwnbd_pwrite plugin_mem wcctx buf 1 0 0 w = Ok (0, w') /\
    w'.1 = w.1 /\ posting w'.2 /\ cw_env w'.2 = i64 (cw_env w.2 + 1).
Proof.
  intros (i & n & Hpp & Hi). unfold lwnbd_pwrite, method. rewrite Hcp. mred. rewrite Hc. cbn.
  unfold lift2, command_pwrite. cbn. rewrite Hpp. mred. rewrite Hi. cbn.
  eexists. split; [done|]. cbn. split; [done|]. split; [|done]. by exists i, n.
Qed.

Lemma read_keeps_commands w k :
  inv w.1 -> (k <= length (content w.1))%nat ->
  exists r d w', lwnbd_pread plugin_mem filectx 1 (Z.of_nat k) 0 w = Ok (r, d, w') /\
    w'.2 = w.2 /\ inv w'.1 /\ (length d <= 1)%nat /\
    if decide (k < length (content w.1))%nat then r = 0 /\ content w'.1 = content w.1 else r <> 0.
Proof.
  intros Hi Hk. unfold lwnbd_pread, method. rewrite Hfp. mred. rewrite Hf. cbn.
  rewrite (rs_pread (ReadStore := bf_store)). cbn. unfold lift2. case_decide as Hlt.
  - destruct (rs_read (ReadStore := bf_store) w.1 1 (Z.of_nat k) Hi) as (x & -> & Hx & Hcx); [lia..|].
    mred. eexists 0, _, _. split; [done|]. cbn. split_and!; [done|done| |done|done].
    unfold slice. rewrite length_take. lia.
  - assert (k = length (content w.1)) as -> by lia.
    destruct (bf_eof w.1 Hi) as (r & x & -> & Hr & Hx). mred.
    eexists r, [], _. split; [done|]. cbn. split_and!; [done|done|lia|done].
Qed.

Lemma wc_loop_spec n k fuel buf w :
  inv w.1 -> posting w.2 -> (0 < length buf)%nat -> Z.of_nat (length (content w.1)) < 2 ^ 63 ->
  length (content w.1) = (k + n)%nat -> (n < fuel)%nat ->
  exists w', wc_loop plugin_mem fuel filectx wcctx 0 buf (Z.of_nat k) w = Ok w' /\
    cw_env w'.2 = Nat.iter n (fun c => i64 (c + 1)) (cw_env w.2).
Proof.
  revert k fuel buf w; induction n as [|n IH]; intros k fuel buf w Hi Hp Hb Hsz Hn Hfuel;
    (destruct fuel as [|fuel]; [lia|]); cbn [wc_loop Z.eqb];
    (destruct (read_keeps_commands w k Hi) as (r & d & w1 & -> & H2 & Hi1 & Hd & Hr); [lia|]); mred;
    rewrite store_at_fits by lia; mred.
  - rewrite decide_False in Hr by lia. rewrite (proj2 (Z.eqb_neq _ _) Hr). cbn [negb].
    exists w1. by rewrite H2.
  - rewrite decide_True in Hr by lia. destruct Hr as [-> Hc1]. cbn [Z.eqb negb].
    destruct (post_counts (splice 0 d buf) w1) as (w2 & -> & Hw2 & Hp2 & He2); [by rewrite H2|]. mred.
    rewrite wrap_small by lia. replace (Z.of_nat k + 1) with (Z.of_nat (S k)) by lia.
    destruct (IH (S k) fuel (splice 0 d buf) w2) as (w3 & Hrun & He3);
      [by rewrite Hw2|done|rewrite length_splice by lia; lia|by rewrite Hw2, Hc1|rewrite Hw2, Hc1; lia|lia|].
    exists w3. split; [done|]. rewrite He3, He2, H2. by rewrite Nat.iter_succ_r.
Qed.

Lemma iter_count n c : 0 <= c -> c + Z.of_nat n < 2 ^ 63 ->
  Nat.iter n (fun c => i64 (c + 1)) c = c + Z.of_nat n.
Proof.
  intros H0 Hlt. induction n as [|n IH]; cbn [Nat.iter nat_rect]; [lia|].
  change (nat_rect _ _ _ n) with (Nat.iter n (fun c => i64 (c + 1)) c). rewrite IH by lia.
  rewrite swrap_small; lia.
Qed.

(** The count at the end is the length of the file. *)
Theorem wc_counts_bytes buf w :
  inv w.1 -> posting w.2 -> (0 < length buf)%nat -> cw_env w.2 = 0 ->
  Z.of_nat (length (content w.1)) < 2 ^ 63 ->
  exists w', wc_loop plugin_mem (S (length (content w.1))) filectx wcctx 0 buf 0 w = Ok w' /\
    cw_env w'.2 = Z.of_nat (length (content w.1)).
Proof.
  intros Hi Hp Hb H0 Hsz.
  destruct (wc_loop_spec (length (content w.1)) 0 (S (length (content w.1))) buf w)
    as (w' & Hrun & He); [done..|lia|].
  exists w'. split; [exact Hrun|]. rewrite He, H0. by apply iter_count.
Qed.
End counting.
