(* ===== verification/LocalShell.v ===== *)
(** * The interactive shell: [examples/local-shell.c]

    Every word typed is a query on the current export, [api] to begin with;
    what the export holds after it is printed.  The program's globals are the
    environment of the command plugin, since the command [ce] changes
    them. *)

From S2P Require Export LocalApps.
From S2P Require Import CommandPlugin MemoryPlugin FilePlugin.
From stdpp Require Import sets.
#[local] Open Scope Z_scope.

(** [char *exportname, *prompt, *base;] *)
Record shell_env := mk_shell { sh_exportname : list byte; sh_prompt : list byte; sh_base : list byte }.

Section shell.
(** Whether [asprintf] and [realloc] find memory, and what fresh memory
    holds. *)
Context (memory : bool) (junk : byte).

Definition set_prompt (base endpoint : list byte) (env : shell_env) : Z * shell_env :=
  if memory
  then (0, mk_shell (sh_exportname env) (bs "[" ++ base ++ bs ":/" ++ endpoint ++ bs "]$ ") (sh_base env))
  else (-1, env).

(** The command [ce].  After a failed [asprintf] the pointer it would have set
    is indeterminate, and read. *)
Definition set_exportname : command_fun shell_env := fun argc argv result size tbl env =>
  if argc <=? 1 then Ok (-1, result, size, env)
  else
    q ← of_option OutOfBounds (argv !! O);
    q ← of_option Uninitialised q;
    v ← of_option NullDeref (q_val q);
    let exportname := if memory then Some v else None in
    exportname ← of_option Uninitialised exportname;
    let text := bs "export name to " ++ exportname ++ [x0a] in
    result ← store_at 0 (text ++ [x00]) result;
    let env := mk_shell exportname (sh_prompt env) (sh_base env) in
    let '(_, env) := set_prompt (sh_base env) exportname env in
    Ok (0, result, Z.of_nat (length text), env).

Definition ce_command : lwnbd_command shell_env :=
  mk_command_entry (bs "ce") (bs "Change exportname/endpoint") METHOD_GET set_exportname.

(** ** The program *)

Context {W Cfg : Type} (plugin_mem : nat -> lwnbd_plugin_t W Cfg).
Context (L : lens W (command_world shell_env)).
Implicit Types (s : lib W).

Definition env_of s : shell_env := cw_env (lget L (l_world s)).

Definition set_env (env : shell_env) s : lib W :=
  let w := lget L (l_world s) in
  set_world (lput L (mk_cmd_world (cw_commands w) (cw_result w) (cw_exportsize w) (cw_pp w) env) (l_world s)) s.

(** Up to the welcome message; [None] is [exit(EXIT_FAILURE)].  [memh] and
    [mycmd] are the structures given to the plugins. *)
Definition shell_setup (memory_plugin_init command_plugin_init : plugin_ptr) (memh mycmd : Cfg)
    (argv0 : list byte) s : outcome (option (lib W)) :=
  if negb memory then Ok None
  else
    let base := basename argv0 in
    let '(r, env) := set_prompt base (bs "api") (mk_shell (bs "api") [] base) in
    if r <? 0 then Ok None
    else
      let s := set_env env s in
      '(memplg, s) ← lwnbd_plugin_init plugin_mem memory_plugin_init s;
      '(_, s) ← lwnbd_plugin_new plugin_mem memplg memh s;
      '(_, _, s) ← lwnbd_get_context plugin_mem 0 (bs "test?memcpy=Example of shared memory." ++ [x00]) s;
      '(cmdplg, s) ← lwnbd_plugin_init plugin_mem command_plugin_init s;
      '(_, s) ← lwnbd_plugin_new plugin_mem cmdplg mycmd s;
      Ok (Some s).

(** What one word leads to: the answer printed with the export's size and the
    length of the string, an unknown export, or the end of the program. *)
Inductive shell_out := Response (exportsize r : Z) (text : list byte) | NoContext | Leave.

(** [realloc]: the old bytes, then fresh memory. *)
Definition realloc (buf : list byte) (n : nat) : list byte :=
  take n buf ++ replicate (n - length buf) junk.

Fixpoint strnlen (buf : list byte) (n : nat) : nat :=
  match n, buf with
  | S n, b :: buf => if decide (b = x00) then O else S (strnlen buf n)
  | _, _ => O
  end.

(** The part of the loop after [lwnbd_get_context]. *)
Definition shell_answer (ctx : lwnbd_context_t) (bufsize : Z) (buf : list byte) s
  : outcome (shell_out * lib W) :=
  let need := size_t (c_exportsize ctx + 1) in
  let grow := bufsize <? need in
  if grow && negb memory then Ok (Leave, s)
  else
    let buf := if grow then realloc buf (Z.to_nat need) else buf in
    '(r, d, w) ← lwnbd_pread plugin_mem ctx (u32 (c_exportsize ctx)) 0 0 (l_world s);
    buf ← store_at 0 d buf;
    let s := set_world w s in
    if negb (r =? 0) then Ok (Leave, s)
    else
      let r := strnlen buf (Z.to_nat (c_exportsize ctx)) in
      buf ← store_at r [x00] buf;
      text ← of_option Unterminated (c_str buf);
      Ok (Response (c_exportsize ctx) (Z.of_nat r) text, s).

(** One turn, for a word [scanf] has read. *)
Definition shell_turn (p : list byte) s : outcome (shell_out * lib W) :=
  if strcmp (bs "exit") p =? 0 then Ok (Leave, s)
  else
    let req := sh_exportname (env_of s) ++ bs "?" ++ p in
    let bufsize := Z.of_nat (length req) in
    '(oc, buf, s) ← lwnbd_get_context plugin_mem 0 (req ++ [x00]) s;
    match oc with
    | None => Ok (NoContext, s)
    | Some i => ctx ← context_at (l_pool s) i; shell_answer ctx bufsize buf s
    end.

(** The loop, to the end of the input. *)
Fixpoint shell_loop (words : list (list byte)) s : outcome (list shell_out * lib W) :=
  match words with
  | [] => Ok ([], s)
  | p :: words =>
      '(o, s) ← shell_turn p s;
      match o with
      | Leave => Ok ([], s)
      | _ => '(os, s) ← shell_loop words s; Ok (o :: os, s)
      end
  end.

(** ** What it answers *)

Context (HL : lens_ok L) (dump : shell_env -> outcome (list byte * Z)).
Context (cc : Cfg -> option (lwnbd_command shell_env)) (ac : nat).
Context (Hac : plugin_mem ac = lift_plugin L cc (command_plugin dump)).

Lemma cmd_buffer_size : Z.of_nat CMD_BUFFER_SZ = 4096.
Proof. reflexivity. Qed.

#[local] Opaque CMD_BUFFER_SZ.

(** The current export is the command plugin's, and its name is a plain
    word. *)
Record shell_ready s : Prop := {
  sr_pool : pool_ok (l_pool s);
  sr_export : exists i c, export_named (l_pool s) (sh_exportname (env_of s)) = Some (i, c) /\
    c_p c = Some ac;
  sr_name : Forall (fun b => b ∉ [x00; x23; x2f; x3f]) (sh_exportname (env_of s));
  sr_commands : Forall (fun c => no_nul (cm_name c)) (cw_commands (lget L (l_world s)))
}.

(** The characters that mean something in a query. *)
Definition plain (t : list byte) : Prop := Forall (fun b => b ∉ [x00; x23; x24; x26]) t.

Lemma Forall_absent (P : byte -> Prop) c l : Forall P l -> ~ P c -> c ∉ l.
Proof. intros H Hc [i Hi]%list_elem_of_lookup_1. by apply (Forall_lookup_1 _ _ _ _ H) in Hi. Qed.

(** The request of a word [key=value]: its path, its one parameter. *)
Lemma request_parts name key t :
  Forall (fun b => b ∉ [x00; x23; x2f; x3f]) name ->
  Forall (fun b => b ∉ [x00; x23; x26; x3d]) key -> key <> [] ->
  Forall (fun b => b ∉ [x00; x23; x26]) t ->
  let uri := name ++ bs "?" ++ key ++ bs "=" ++ t in
  no_nul uri /\ uri_path uri = name /\
  uri_params uri = ([Some (mk_query key (Some t)); None; None], 1).
Proof.
  intros Hn Hk Hne Ht uri.
  assert (forall c, c ∈ [x00; x23; x2f; x3f] -> c ∉ name) as Hnc
    by (intros c Hc; eapply Forall_absent; [exact Hn|tauto]).
  assert (forall c, c ∈ [x00; x23; x26; x3d] -> c ∉ key) as Hkc
    by (intros c Hc; eapply Forall_absent; [exact Hk|tauto]).
  assert (forall c, c ∈ [x00; x23; x26] -> c ∉ t) as Htc
    by (intros c Hc; eapply Forall_absent; [exact Ht|tauto]).
  assert (forall c, c ∈ [x00; x23] -> c ∉ uri) as Huri.
  { intros c Hc. unfold uri. change (bs "?") with [x3f]. change (bs "=") with [x3d].
    rewrite !elem_of_app, !list_elem_of_singleton.
    assert (c ∉ name) by (apply Hnc; set_solver). assert (c ∉ key) by (apply Hkc; set_solver).
    assert (c ∉ t) by (apply Htc; set_solver). set_unfold. destruct Hc; subst; naive_solver. }
  split; [apply Huri; set_solver|].
  unfold uri_path, uri_params, uri_query, uri_resource.
  rewrite (split_first_absent x23 uri) by (apply Huri; set_solver). cbn [fst].
  unfold uri. cbn [bs app String.list_byte_of_string].
  change (bs "?" ++ key ++ bs "=" ++ t) with (x3f :: key ++ x3d :: t).
  rewrite split_first_app by (apply Hnc; set_solver). cbn [fst snd].
  rewrite split_first_absent by (apply Hnc; set_solver). cbn [snd default].
  split; [done|]. destruct (key ++ x3d :: t) as [|b q] eqn:Eq.
  { by destruct key. }
  rewrite <- Eq. unfold MAX_QUERY. cbn [Nat.sub split_max].
  assert (x26 ∉ key ++ x3d :: t) as Hamp.
  { intros [H|[H|H]%elem_of_cons]%elem_of_app; [by apply (Hkc x26); [set_solver|]|done|].
    by apply (Htc x26); [set_solver|]. }
  rewrite split_first_absent by done. cbn [fmap list_fmap length Nat.sub replicate app]. unfold query_of.
  by rewrite split_first_app by (apply Hkc; set_solver).
Qed.

Lemma strnlen_text t l : no_nul t -> strnlen (t ++ l) (length t) = length t.
Proof.
  induction t as [|b t IH]; intros Ht; [by destruct l|]. cbn [app length strnlen].
  apply not_elem_of_cons in Ht as [Hb Ht]. rewrite decide_False by done. by rewrite IH.
Qed.

(** A GET through the library: the command's result becomes the export. *)
Lemma open_get s key t k cm res size env' :
  shell_ready s -> first_command key (lget L (l_world s)) = Some (k, cm) -> cm_type cm = METHOD_GET ->
  Forall (fun b => b ∉ [x00; x23; x26; x3d]) key -> key <> [] -> Forall (fun b => b ∉ [x00; x23; x26]) t ->
  cm_cmd cm 2 [Some (mk_query key (Some t)); None; None] (replicate CMD_BUFFER_SZ x00) 1
    (table (lget L (l_world s))) (env_of s) = Ok (0, res, size, env') ->
  exists i c s', open_export plugin_mem (sh_exportname (env_of s) ++ bs "?" ++ key ++ bs "=" ++ t) s
      = Ok (Some i, s') /\
    contexts (l_pool s') !! i = Some (set_c_exportsize size c) /\ c_p c = Some ac /\
    cw_result (lget L (l_world s')) = res /\ env_of s' = env'.
Proof.
  intros [Hpool (i & c & Hex & Hcp) Hn Hcmds] Hfirst Hget Hkey Hne Ht Hcmd.
  destruct (request_parts _ key t Hn Hkey Hne Ht) as (_ & Hpath & Hpar). cbv zeta in Hpath, Hpar.
  unfold open_export. rewrite Hpath, Hex, Hcp. mred. rewrite Hpar, Hac. cbn [lift_plugin pl_query command_plugin fmap option_fmap option_map].
  unfold lift2. rewrite (command_query_runs_get _ _ _ _ _ k cm); [|  |done|done|done|done].
  2: { cbn. eapply Forall_absent; [exact Hkey|set_solver]. }
  cbn [q_val]. fold (env_of s). rewrite Hcmd. mred. cbn [Z.eqb negb].
  unfold lwnbd_update_size, method. rewrite Hcp. mred. rewrite Hac. cbn [lift_plugin pl_get_size command_plugin fmap option_fmap option_map].
  unfold lift2, command_get_size. mred. rewrite HL. mred. cbn [cw_exportsize].
  eexists i, c, _. split; [done|]. split.
  - apply list_lookup_insert_eq. by eapply lookup_lt_Some, export_named_Some.
  - split; [exact Hcp|]. unfold env_of. cbn [l_world set_pool set_world].
    by rewrite (HL _ (lput L _ _)).
Qed.

Lemma answer_text c buf text rest s :
  c_p c = Some ac -> no_nul text -> cw_result (lget L (l_world s)) = text ++ rest -> memory = true ->
  Z.of_nat (length text) < 2 ^ 32 -> (0 < length buf)%nat ->
  exists s', shell_answer (set_c_exportsize (Z.of_nat (length text)) c) (Z.of_nat (length buf) - 1) buf s
      = Ok (Response (Z.of_nat (length text)) (Z.of_nat (length text)) text, s') /\
    env_of s' = env_of s.
Proof.
  intros Hcp Hnn Hres Hm Hlt Hb. unfold shell_answer. cbn [c_exportsize set_c_exportsize].
  rewrite !wrap_small by lia. rewrite Hm. cbn [negb]. rewrite andb_false_r.
  match goal with |- context [if ?b then realloc ?x ?n else buf] =>
    set (buf1 := if b then realloc x n else buf) end.
  assert (length text + 1 <= length buf1)%nat as Hb1.
  { unfold buf1, realloc. case (Z.ltb_spec (Z.of_nat (length buf) - 1) (Z.of_nat (length text) + 1)); [|lia].
    rewrite length_app, length_take, length_replicate. lia. }
  unfold lwnbd_pread, method. cbn [c_p c_handle set_c_exportsize]. rewrite Hcp. mred. rewrite Hac.
  cbn [lift_plugin pl_pread command_plugin fmap option_fmap option_map]. unfold lift2, command_pread.
  mred. rewrite Hres, Nat2Z.id, load_at_fits by (rewrite length_app; lia). mred.
  assert (slice 0 (length text) (text ++ rest) = text) as ->.
  { unfold slice. by rewrite drop_0, take_app_length. }
  rewrite store_at_fits by lia. mred. cbn [Z.eqb negb].
  assert (splice 0 text buf1 = text ++ drop (length text) buf1) as -> by done.
  rewrite strnlen_text by done.
  rewrite store_at_fits by (rewrite length_app, length_drop; cbn; lia). mred.
  unfold splice. rewrite take_app_length. cbn [app]. rewrite c_str_app by done. mred.
  eexists. split; [done|]. unfold env_of. cbn. by rewrite HL.
Qed.

(** Any GET whose result is text is printed. *)
Lemma shell_get s key t k cm text rest env' :
  shell_ready s -> memory = true ->
  first_command key (lget L (l_world s)) = Some (k, cm) -> cm_type cm = METHOD_GET ->
  Forall (fun b => b ∉ [x00; x23; x26; x3d]) key -> key <> [] -> Forall (fun b => b ∉ [x00; x23; x26]) t ->
  strcmp (bs "exit") (key ++ bs "=" ++ t) <> 0 ->
  no_nul text -> Z.of_nat (length text) < 2 ^ 32 ->
  cm_cmd cm 2 [Some (mk_query key (Some t)); None; None] (replicate CMD_BUFFER_SZ x00) 1
    (table (lget L (l_world s))) (env_of s) = Ok (0, text ++ rest, Z.of_nat (length text), env') ->
  exists s', shell_turn (key ++ bs "=" ++ t) s
      = Ok (Response (Z.of_nat (length text)) (Z.of_nat (length text)) text, s') /\ env_of s' = env'.
Proof.
  intros Hr Hm Hfirst Hget Hkey Hne Ht Hexit Hnn Hlt Hcmd. unfold shell_turn.
  rewrite (proj2 (Z.eqb_neq _ _) Hexit). set (req := sh_exportname (env_of s) ++ _).
  destruct (request_parts _ key t (sr_name _ Hr) Hkey Hne Ht) as (Huri & _).
  change (sh_exportname (env_of s) ++ bs "?" ++ key ++ bs "=" ++ t) with req in Huri.
  destruct (get_context_spec plugin_mem req [] s (sr_pool _ Hr) Huri) as (buf & Hlen & ->).
  destruct (open_get s key t k cm _ _ _ Hr Hfirst Hget Hkey Hne Ht Hcmd)
    as (i & c & s1 & Hopen & Hci & Hcp & Hres & Henv).
  change (sh_exportname (env_of s) ++ bs "?" ++ key ++ bs "=" ++ t) with req in Hopen.
  rewrite Hopen. mred. unfold context_at. rewrite Hci. mred.
  rewrite length_app in Hlen. cbn [length] in Hlen.
  replace (Z.of_nat (length req)) with (Z.of_nat (length buf) - 1) by lia.
  destruct (answer_text c buf text rest s1 Hcp Hnn Hres Hm Hlt) as (s2 & Hans & He2); [lia|].
  exists s2. split; [exact Hans|]. congruence.
Qed.

Lemma splice_text text n :
  (length text <= n)%nat -> splice 0 text (replicate n x00) = text ++ replicate (n - length text) x00.
Proof. intros. unfold splice. by rewrite take_0, drop_replicate. Qed.

(** Typing [echo=text] on the command export prints the text, as long as it
    fits the result buffer and none of its characters means something in a
    query. *)
Theorem shell_echo_prints s t k :
  shell_ready s -> memory = true ->
  first_command (bs "echo") (lget L (l_world s))
    = Some (k, mk_command_entry (bs "echo") (bs "Print on the standard output.") METHOD_GET echo) ->
  plain t -> (length t <= CMD_BUFFER_SZ)%nat ->
  exists s', shell_turn (bs "echo=" ++ t) s
      = Ok (Response (Z.of_nat (length t)) (Z.of_nat (length t)) t, s') /\ env_of s' = env_of s.
Proof.
  intros Hr Hm Hfirst Ht Hl. change (bs "echo=" ++ t) with (bs "echo" ++ bs "=" ++ t).
  assert (x24 ∉ t) as Hd by (eapply Forall_absent; [exact Ht|set_solver]).
  assert (x00 ∉ t) as Hz by (eapply Forall_absent; [exact Ht|set_solver]).
  eapply (shell_get s (bs "echo") t k _ t (replicate (CMD_BUFFER_SZ - length t) x00));
    [done|done|exact Hfirst|done|by_decide|done| |done|done|pose proof cmd_buffer_size; lia|].
  - eapply Forall_impl; [exact Ht|]. intros b Hb. cbn in *. set_solver.
  - cbn [cm_cmd]. unfold echo. cbn [Z.eqb Pos.eqb lookup list_lookup]. mred. cbn [q_val]. mred.
    assert (split_dollar t = (t, None)) as ->.
    { clear -Hd. induction t as [|b t IH]; [done|]. apply not_elem_of_cons in Hd as [Hb Hd].
      cbn. rewrite decide_False by done. by rewrite IH. }
    rewrite store_at_fits by (rewrite length_replicate; lia). mred. by rewrite splice_text.
Qed.

(** Typing [ce=name] answers with the new name and changes the export and the
    prompt. *)
Theorem shell_changes_export s t k :
  shell_ready s -> memory = true ->
  first_command (bs "ce") (lget L (l_world s)) = Some (k, ce_command) ->
  plain t -> (length t + 17 <= CMD_BUFFER_SZ)%nat ->
  exists s' text, shell_turn (bs "ce=" ++ t) s
      = Ok (Response (Z.of_nat (length text)) (Z.of_nat (length text)) text, s') /\
    text = bs "export name to " ++ t ++ [x0a] /\ sh_exportname (env_of s') = t /\
    sh_prompt (env_of s') = bs "[" ++ sh_base (env_of s) ++ bs ":/" ++ t ++ bs "]$ ".
Proof.
  intros Hr Hm Hfirst Ht Hl. change (bs "ce=" ++ t) with (bs "ce" ++ bs "=" ++ t).
  assert (x00 ∉ t) as Hz by (eapply Forall_absent; [exact Ht|set_solver]).
  set (text := bs "export name to " ++ t ++ [x0a]).
  assert (length text = 16 + length t)%nat as Hlt.
  { unfold text. rewrite !length_app. cbn. lia. }
  edestruct (shell_get s (bs "ce") t k ce_command text (replicate (CMD_BUFFER_SZ - length text) x00)
    (mk_shell t (bs "[" ++ sh_base (env_of s) ++ bs ":/" ++ t ++ bs "]$ ") (sh_base (env_of s))))
    as (s' & Hrun & Henv); [done|done|exact Hfirst|done|by_decide|done| |done| | |
    |exists s', text; split; [exact Hrun|split; [done|rewrite Henv; by split]]].
  - eapply Forall_impl; [exact Ht|]. intros b Hb. cbn in *. set_solver.
  - unfold no_nul, text. rewrite !not_elem_of_app. split_and!; [by_decide|done|by_decide].
  - pose proof cmd_buffer_size. lia.
  - cbn [cm_cmd ce_command]. unfold set_exportname. cbn [Z.leb Z.compare Pos.compare Pos.compare_cont lookup list_lookup].
    mred. cbn [q_val]. mred. rewrite Hm. mred. fold text.
    rewrite store_at_fits by (rewrite length_app, length_replicate; cbn [length]; lia). mred.
    unfold set_prompt. rewrite Hm. cbn [sh_base sh_exportname].
    assert (splice 0 (text ++ [x00]) (replicate CMD_BUFFER_SZ x00)
      = text ++ replicate (CMD_BUFFER_SZ - length text) x00) as ->; [|reflexivity].
    rewrite splice_text by (rewrite length_app; cbn [length]; lia). rewrite <- app_assoc. f_equal.
    rewrite length_app. cbn [length app]. rewrite Hlt.
    replace (CMD_BUFFER_SZ - (16 + length t))%nat with (S (CMD_BUFFER_SZ - (16 + length t + 1)))%nat
      by lia. done.
Qed.

(** The example in the program's own header, [echo=$test], and every other
    [echo] of a variable has undefined behaviour. *)
Theorem shell_echo_variable_faults s t1 t2 k :
  shell_ready s ->
  first_command (bs "echo") (lget L (l_world s))
    = Some (k, mk_command_entry (bs "echo") (bs "Print on the standard output.") METHOD_GET echo) ->
  Forall (fun b => b ∉ [x00; x23; x26]) (t1 ++ x24 :: t2) ->
  exists e, shell_turn (bs "echo=" ++ t1 ++ x24 :: t2) s = Fault e.
Proof.
  intros Hr Hfirst Ht. set (t := t1 ++ x24 :: t2) in *. unfold shell_turn.
  destruct (strcmp (bs "exit") (bs "echo=" ++ t) =? 0) eqn:E; [done|].
  pose proof Hr as [Hpool (i & c & Hex & Hcp) Hn Hcmds].
  destruct (request_parts _ (bs "echo") t Hn) as (Huri & Hpath & Hpar); [by_decide|done|done|].
  cbv zeta in Huri, Hpath, Hpar.
  change (bs "echo=" ++ t) with (bs "echo" ++ bs "=" ++ t).
  destruct (get_context_spec plugin_mem _ [] s Hpool Huri) as (buf & _ & ->).
  unfold open_export. rewrite Hpath, Hex, Hcp. mred. rewrite Hpar, Hac.
  cbn [lift_plugin pl_query command_plugin fmap option_fmap option_map].
  assert (no_nul (bs "echo")) as Hkey by by_decide. assert (1 <> 0) as H1 by lia.
  unfold lift2. rewrite (command_query_runs_get _ (mk_query (bs "echo") (Some t)) _ _ _ k _ Hkey Hcmds H1 Hfirst eq_refl).
  cbn [q_val cm_cmd].
  destruct (echo_variable_faults (replicate CMD_BUFFER_SZ x00) 1 (table (lget L (l_world s)))
    (cw_env (lget L (l_world s))) (bs "echo") t1 t2 [None; None]) as [e He].
  exists e. unfold t. by rewrite He.
Qed.
End shell.
