(* ===== verification/Servers.v ===== *)
(** * The server registry: [src/servers.c]

    Servers are registered in a static table by the application; a server slot
    goes from free to stopped when it is initialised and back when it is
    stopped.  A server is a structure of function pointers over the state [S]
    of its protocol and of the network. *)

From S2P Require Export CString.

Definition MAX_NUM_SERVERS : nat := 2.

Inductive server_state_t := SRV_FREE | SRV_STOPPED | SRV_STARTED.

#[export] Instance server_state_eq_dec : EqDecision server_state_t.
Proof. solve_decision. Defined.

Definition server_is_free (x : server_state_t) : bool :=
  match x with SRV_FREE => true | SRV_STOPPED | SRV_STARTED => false end.

Section servers.
Context {S Cfg : Type}.

(** The opaque handle of a server: an index of its own, or [NULL]. *)
Local Abbreviation handle := (option nat).

Record lwnbd_server := mk_server {
  sv_name : list byte;
  sv_new : option (S -> handle * S);
  sv_start : option (handle -> S -> outcome (Z * S));
  sv_stop : option (handle -> S -> outcome (Z * S));
  sv_config : option (handle -> list byte -> option (list byte) -> S -> outcome (Z * S));
  sv_ctor : option (handle -> Cfg -> S -> outcome (Z * S));
  (** the client is a pointer to a socket, or [NULL] *)
  sv_run : option (handle -> option Z -> S -> outcome (Z * S))
}.

(** [struct server_instance] *)
Record server_instance := mk_instance { si_handle : handle; si_s : option nat }.

(** The statics; [r_bis] is [servers_bis] up to [server_count]. *)
Record registry := mk_registry {
  r_servers : list server_instance;
  r_status : list server_state_t;
  r_bis : list nat;
  r_state : S
}.

Definition initial_registry (s : S) : registry :=
  mk_registry (replicate MAX_NUM_SERVERS (mk_instance None None))
    (replicate MAX_NUM_SERVERS SRV_FREE) [] s.

(** The memory the static server structures live in. *)
Context (server_mem : nat -> lwnbd_server).

(** ** By name *)

Definition register_server (srv : nat) (r : registry) : Z * registry :=
  if (MAX_NUM_SERVERS <=? length (r_bis r))%nat then (-1, r)
  else (0, mk_registry (r_servers r) (r_status r) (r_bis r ++ [srv]) (r_state r)).

(** The two servers of the library, where the build has them; the size
    [serverbis_init] stores in a structure is read by nobody. *)
Definition lwnbd_servers_init (chargen daytime : option nat) (r : registry) : Z * registry :=
  let r := match chargen with Some a => (register_server a r).2 | None => r end in
  let r := match daytime with Some a => (register_server a r).2 | None => r end in
  (0, r).

Fixpoint get_server_loop (name : list byte) (l : list nat) : option nat :=
  match l with
  | [] => None
  | a :: l => if strcmp (sv_name (server_mem a)) name =? 0 then Some a else get_server_loop name l
  end.

Definition get_server_by_name (name : list byte) (r : registry) : option nat :=
  get_server_loop name (r_bis r).

(** ** By handle *)

(** [init] is what the registration function returns; the result is a
    [uint32_t]. *)
Definition lwnbd_server_init (init : option nat) (r : registry) : Z * registry :=
  let i := find_slot server_is_free (r_status r) in
  if decide (i = MAX_NUM_SERVERS) then (u32 (-1), r)
  else
    match init with
    | None => (u32 (-1), r)
    | Some a =>
        match sv_new (server_mem a) with
        | None => (u32 (-1), r)
        | Some new =>
            let '(h, s) := new (r_state r) in
            (Z.of_nat i, mk_registry (<[i := mk_instance h (Some a)]> (r_servers r))
                           (<[i := SRV_STOPPED]> (r_status r)) (r_bis r) s)
        end
    end.

(** [&servers[handle]] and the structure it points to. *)
Definition server_of (h : Z) (r : registry) : outcome (server_instance * lwnbd_server) :=
  si ← of_option OutOfBounds (r_servers r !! Z.to_nat h);
  a ← of_option NullDeref (si_s si);
  Ok (si, server_mem a).

Definition set_state (s : S) (r : registry) : registry :=
  mk_registry (r_servers r) (r_status r) (r_bis r) s.

Definition lwnbd_server_config (h : Z) (key : list byte) (value : option (list byte)) (r : registry)
  : outcome (Z * registry) :=
  '(si, s) ← server_of h r;
  match sv_config s with
  | None => Ok (-1, r)
  | Some config =>
      '(z, st) ← config (si_handle si) key value (r_state r); Ok (z, set_state st r)
  end.

Definition lwnbd_server_new (h : Z) (pconfig : Cfg) (r : registry) : outcome (Z * registry) :=
  '(si, s) ← server_of h r;
  ctor ← of_option NullDeref (sv_ctor s);
  '(z, st) ← ctor (si_handle si) pconfig (r_state r); Ok (z, set_state st r).

Definition lwnbd_server_dump (h : Z) (r : registry) : outcome (Z * registry) :=
  _ ← server_of h r; Ok (0, r).

(** The new status goes to the local [st]. *)
Definition lwnbd_server_run (h : Z) (client : option Z) (r : registry) : outcome registry :=
  si ← of_option OutOfBounds (r_servers r !! Z.to_nat h);
  st ← of_option OutOfBounds (r_status r !! Z.to_nat h);
  if decide (st <> SRV_STOPPED) then Ok r
  else
    let st := SRV_STARTED in
    a ← of_option NullDeref (si_s si);
    run ← of_option NullDeref (sv_run (server_mem a));
    '(_, s) ← run (si_handle si) client (r_state r); Ok (set_state s r).

Definition lwnbd_server_stop (h : Z) (r : registry) : outcome (Z * registry) :=
  '(si, s) ← server_of h r;
  stop ← of_option NullDeref (sv_stop s);
  '(_, st) ← stop (si_handle si) (r_state r);
  Ok (0, mk_registry (r_servers r) (<[Z.to_nat h := SRV_FREE]> (r_status r)) (r_bis r) st).

(** ** The registry as a transition system *)

Inductive registry_step : registry -> registry -> Prop :=
  | rs_register srv r z r' : register_server srv r = (z, r') -> registry_step r r'
  | rs_init init r z r' : lwnbd_server_init init r = (z, r') -> registry_step r r'
  | rs_config h k v r z r' : lwnbd_server_config h k v r = Ok (z, r') -> registry_step r r'
  | rs_new h c r z r' : lwnbd_server_new h c r = Ok (z, r') -> registry_step r r'
  | rs_run h c r r' : lwnbd_server_run h c r = Ok r' -> registry_step r r'
  | rs_stop h r z r' : lwnbd_server_stop h r = Ok (z, r') -> registry_step r r'.

Inductive reachable (s : S) : registry -> Prop :=
  | reach_init : reachable s (initial_registry s)
  | reach_step r r' : reachable s r -> registry_step r r' -> reachable s r'.

(** A slot in use has a server; the named table is bounded. *)
Definition registry_ok (r : registry) : Prop :=
  length (r_servers r) = MAX_NUM_SERVERS /\ length (r_status r) = MAX_NUM_SERVERS /\
  (length (r_bis r) <= MAX_NUM_SERVERS)%nat /\
  forall i st, r_status r !! i = Some st ->
    st <> SRV_STARTED /\
    (st = SRV_STOPPED -> exists h a, r_servers r !! i = Some (mk_instance h (Some a)) /\
       is_Some (sv_new (server_mem a))).

Lemma initial_registry_ok s : registry_ok (initial_registry s).
Proof.
  split_and!; [done|done|cbn; lia|]. intros i st [-> _]%lookup_replicate. by split.
Qed.

Lemma set_state_ok s r : registry_ok r -> registry_ok (set_state s r).
Proof. done. Qed.

Lemma lwnbd_server_init_ok init r z r' :
  registry_ok r -> lwnbd_server_init init r = (z, r') -> registry_ok r'.
Proof.
  intros (H1 & H2 & H3 & H4). unfold lwnbd_server_init. case_decide as Hf.
  { by intros [= <- <-]. }
  destruct init as [a|]; [|by intros [= <- <-]].
  destruct (sv_new (server_mem a)) as [new|] eqn:En; [|by intros [= <- <-]].
  destruct (new (r_state r)) as [h s]. intros [= <- <-].
  pose proof (find_slot_le server_is_free (r_status r)).
  split_and!; cbn; [by rewrite length_insert|by rewrite length_insert|done|].
  intros i st Hi. destruct (decide (i = find_slot server_is_free (r_status r))) as [->|Hne].
  - rewrite list_lookup_insert_eq in Hi by lia. simplify_eq. split; [done|]. intros _.
    exists h, a. rewrite list_lookup_insert_eq by lia. by rewrite En.
  - rewrite list_lookup_insert_ne in Hi by done. rewrite list_lookup_insert_ne by done. by apply H4.
Qed.

Lemma registry_step_ok r r' : registry_ok r -> registry_step r r' -> registry_ok r'.
Proof.
  intros Hok Hstep. destruct Hstep as [srv r z r' H|init r z r' H|h k v r z r' H|h c r z r' H|h c r r' H|h r z r' H].
  - unfold register_server in H. destruct (Nat.leb_spec MAX_NUM_SERVERS (length (r_bis r)));
      simplify_eq; [done|]. destruct Hok as (H1 & H2 & H3 & H4).
    split_and!; cbn; [done|done| |done]. rewrite length_app. cbn. lia.
  - by eapply lwnbd_server_init_ok.
  - unfold lwnbd_server_config in H. run. destruct (sv_config _); run; [|done].
    by run.
  - unfold lwnbd_server_new in H. run. by run.
  - unfold lwnbd_server_run in H. run. case_decide; run; [done|].
    by run.
  - unfold lwnbd_server_stop in H. run. run.
    destruct Hok as (H1 & H2 & H3 & H4).
    split_and!; cbn; [done|by rewrite length_insert|done|]. intros i x Hi.
    destruct (decide (i = Z.to_nat h)) as [->|Hne].
    + rewrite list_lookup_insert_eq in Hi; [by simplify_eq|].
      apply lookup_lt_Some in Hi. by rewrite length_insert in Hi.
    + rewrite list_lookup_insert_ne in Hi by done. by apply H4.
Qed.

(** C31: in every state the library can reach, a slot that is not free has a
    server with a constructor behind it, and no slot is ever marked started. *)
Theorem registry_invariant s r : reachable s r -> registry_ok r.
Proof.
  induction 1 as [|r r' _ IH Hstep]; [apply initial_registry_ok|by eapply registry_step_ok].
Qed.

(** Initialising takes the first free slot and returns its number; a full
    table, a failed registration and a server without [new] return
    [(uint32_t)-1] and change nothing. *)
Theorem server_init_correct init r :
  registry_ok r ->
  let i := find_slot server_is_free (r_status r) in
  match init with
  | Some a =>
      if decide (i <> MAX_NUM_SERVERS /\ is_Some (sv_new (server_mem a)))
      then exists h st r', lwnbd_server_init init r = (Z.of_nat i, r') /\ registry_ok r' /\
        r_servers r' !! i = Some (mk_instance h (Some a)) /\ r_status r' !! i = Some SRV_STOPPED /\
        r_state r' = st /\ r_bis r' = r_bis r
      else lwnbd_server_init init r = (4294967295, r)
  | None => lwnbd_server_init init r = (4294967295, r)
  end.
Proof.
  intros Hok i. pose proof Hok as (H1 & H2 & H3 & H4).
  pose proof (find_slot_le server_is_free (r_status r)) as Hle. fold i in Hle.
  destruct init as [a|]; unfold lwnbd_server_init; fold i; [|by case_decide].
  case_decide as Hd.
  - destruct Hd as [Hne [new Hnew]]. rewrite decide_False by done.
    destruct (lwnbd_server_init (Some a) r) as [z r'] eqn:E.
    pose proof (lwnbd_server_init_ok _ _ _ _ Hok E) as Hok'. unfold lwnbd_server_init in E.
    fold i in E. rewrite decide_False in E by done. rewrite Hnew in *.
    destruct (new (r_state r)) as [h st]. simplify_eq. exists h, st. eexists.
    split; [done|]. split; [done|]. cbn.
    rewrite !list_lookup_insert_eq by lia. by split_and!.
  - case_decide as Hf; [done|]. destruct (sv_new (server_mem a)) eqn:En; [|done].
    destruct Hd. split; [done|by eexists].
Qed.

(** Running a server leaves its slot stopped: the state that would refuse a
    second run is never stored. *)
Theorem server_run_keeps_status h client r r' :
  lwnbd_server_run h client r = Ok r' -> r_status r' = r_status r /\ r_servers r' = r_servers r.
Proof.
  unfold lwnbd_server_run. intros H. run. case_decide; run; [done|]. by run.
Qed.

(** Stopping a server whose structure has no [stop] callback, as the NBD
    server's, calls a [NULL] pointer. *)
Theorem server_stop_null h si s r :
  server_of h r = Ok (si, s) -> sv_stop s = None -> lwnbd_server_stop h r = Fault NullDeref.
Proof. intros H Hs. unfold lwnbd_server_stop. rewrite H. mred. by rewrite Hs. Qed.

Lemma get_server_loop_spec name l :
  no_nul name -> Forall (fun a => no_nul (sv_name (server_mem a))) l ->
  get_server_loop name l = snd <$> list_find (fun a => sv_name (server_mem a) = name) l.
Proof.
  intros Hn. induction 1 as [|a l Ha Hl IH]; [done|]. cbn [get_server_loop list_find].
  pose proof (strcmp_eq _ name Ha Hn) as Hc.
  destruct (Z.eqb_spec (strcmp (sv_name (server_mem a)) name) 0) as [E|E].
  - apply Hc in E. by rewrite decide_True by done.
  - rewrite decide_False by (intros He; apply E; by apply Hc). rewrite IH.
    by destruct (list_find _ l) as [[]|].
Qed.

(** Registering [l] in order. *)
Fixpoint register_all (l : list nat) (r : registry) : registry :=
  match l with
  | [] => r
  | a :: l => let '(_, r) := register_server a r in register_all l r
  end.

Lemma register_all_bis l r :
  (length (r_bis r) <= MAX_NUM_SERVERS)%nat ->
  r_bis (register_all l r) = take MAX_NUM_SERVERS (r_bis r ++ l).
Proof.
  revert r; induction l as [|a l IH]; intros r Hle; cbn [register_all].
  - by rewrite app_nil_r, take_ge.
  - unfold register_server. destruct (Nat.leb_spec MAX_NUM_SERVERS (length (r_bis r))) as [H|H].
    + rewrite IH, !take_app_le by lia. done.
    + rewrite IH by (cbn; rewrite length_app; cbn; lia). cbn [r_bis]. by rewrite <- app_assoc.
Qed.

Lemma servers_init_order chargen daytime s :
  r_bis (lwnbd_servers_init chargen daytime (initial_registry s)).2
  = option_list chargen ++ option_list daytime.
Proof. by destruct chargen, daytime. Qed.

(** A lookup by name finds the first registered server of that name, among
    the first two registered: later ones were refused. *)
Theorem get_server_by_name_correct l name s :
  no_nul name -> Forall (fun a => no_nul (sv_name (server_mem a))) l ->
  get_server_by_name name (register_all l (initial_registry s))
  = snd <$> list_find (fun a => sv_name (server_mem a) = name) (take MAX_NUM_SERVERS l).
Proof.
  intros Hn Hl. unfold get_server_by_name. rewrite register_all_bis by (cbn; lia). cbn [r_bis initial_registry app].
  apply get_server_loop_spec; [done|]. by apply Forall_take.
Qed.
End servers.
Arguments lwnbd_server : clear implicits.
Arguments registry : clear implicits.
