(* ===== verification/Connection.v ===== *)
(** * Connections to the NBD server, end to end

    [src/servers.c] calls the functions of [servers/nbd/nbd.c] through the
    structure it declares for the server; here that structure is an instance of
    the registry's [lwnbd_server] over the statics of [nbd.c], the network and
    the library.  The theorems compose the layers: what a client of a
    preinitialised connection observes when the handle has been given an export,
    what happens to a client that negotiates, and what is served through the
    handle a program gets, which nothing fills in. *)

From S2P Require Export Nbd Servers.

(** ** The loop over the phases *)

Section phases.
Context {W N : Type}.
Context (hs tr : nat -> lwnbd_context_nbd_t -> connection (W := W) (N := N) ->
  outcome (Z * (lwnbd_context_nbd_t * connection (W := W) (N := N)))).

Lemma phases_handshake k ctx cn :
  cl_state (cn_client cn) = HANDSHAKE ->
  phases hs tr (S k) 0 ctx cn
  = '(r, (ctx, cn)) ← hs k ctx cn; (phases hs tr k r ctx cn : outcome _).
Proof. intros Hs. cbn [phases]. by rewrite Z.eqb_refl, Hs. Qed.

Lemma phases_transmission k ctx cn :
  cl_state (cn_client cn) = TRANSMISSION ->
  phases hs tr (S k) 0 ctx cn
  = '(r, (ctx, cn)) ← tr k ctx cn; (phases hs tr k r ctx cn : outcome _).
Proof. intros Hs. cbn [phases]. by rewrite Z.eqb_refl, Hs. Qed.

Lemma phases_stop k r ctx cn : r <> 0 -> phases hs tr k r ctx cn = Ok (r, (ctx, cn)).
Proof. intros Hr. destruct k; cbn [phases]; by rewrite (proj2 (Z.eqb_neq _ _) Hr). Qed.
End phases.

(** A session: commands, then a disconnection. *)
Record session := mk_session { se_cmds : list command; se_disc : nbd_request }.

Definition session_bytes (se : session) : list byte :=
  concat (client_bytes <$> se_cmds se) ++ wire_request (se_disc se).

(** All the commands of a sequence of sessions. *)
Definition all_cmds (ses : list session) : list command := concat (se_cmds <$> ses).

Section preinit.
Context `{CFG : NbdConfig} {CFGok : NbdConfigOk}.
Context {W Cfg : Type} (plugin_mem : nat -> lwnbd_plugin_t W Cfg).
Context {N : Type} `{CB : Callbacks N}.
Context (ctx : lwnbd_context_nbd_t) (a : nat) (inv : W -> Prop) (content : W -> list byte).
Context {T : Transport N (n_sock ctx)}.
Context (Hplugin : c_p (n_base ctx) = Some a).
Context {RS : ReadStore (plugin_mem a) (c_handle (n_base ctx)) (n_minimum_block_size ctx) inv content}.
Context (WS : ~ read_only ctx ->
  WriteStore (plugin_mem a) (c_handle (n_base ctx)) (n_minimum_block_size ctx) inv content).
Context (FS : flushable ctx -> FlushStore (plugin_mem a) (c_handle (n_base ctx)) inv content).
Context (Hblock : n_minimum_block_size ctx <= CONFIG_NBD_BUFFER_LEN).
Context (hfuel lfuel : nat) (Hlfuel : c_exportsize (n_base ctx) / n_minimum_block_size ctx < Z.of_nat lfuel).
Context (sk : nat -> stack)
  (Hsk : forall t, stack_ok (sk_request (sk t)) (sk_buffer (sk t))).

Local Abbreviation ibox := (inbox (n_sock ctx)).
Local Abbreviation obox := (outbox (n_sock ctx)).
Local Abbreviation world cn := (l_world (cn_lib cn)).

(** The client and the library but for the plugins' world. *)
Definition same_connection (cn cn' : connection (W := W) (N := N)) : Prop :=
  cn_client cn' = cn_client cn /\ l_pool (cn_lib cn') = l_pool (cn_lib cn) /\
  l_plugins (cn_lib cn') = l_plugins (cn_lib cn).

(** A session the turn has the fuel for. *)
Definition session_ok (se : session) : Prop :=
  Forall (conforming ctx) (se_cmds se) /\ is_disconnect (se_disc se) /\
  (length (se_cmds se) < hfuel)%nat.

(** The handle with any state is as good. *)
Lemma transmission_call_session st cn t se rest :
  device_ok ctx inv content (world cn) -> session_ok se ->
  ibox (cn_net cn) = session_bytes se ++ rest ->
  exists cn', transmission_call plugin_mem hfuel lfuel (sk t) (set_n_state st ctx) cn
      = Ok (0, (set_n_state ABORT ctx, cn')) /\ same_connection cn cn' /\
    device_ok ctx inv content (world cn') /\ ibox (cn_net cn') = rest /\
    obox (cn_net cn') = obox (cn_net cn) ++ (session_spec (se_cmds se) (content (world cn))).1 /\
    content (world cn') = (session_spec (se_cmds se) (content (world cn))).2.
Proof.
  intros Hdev (Hcs & Hdisc & Hlt) Hin. unfold transmission_call.
  unfold session_bytes in Hin. rewrite <- app_assoc in Hin.
  destruct (session_run plugin_mem (set_n_state st ctx) a inv content Hplugin WS FS Hblock lfuel
    (se_cmds se) (se_disc se) (sk_request (sk t)) (sk_buffer (sk t)) (cn_net cn) (world cn) rest
    (hfuel - S (length (se_cmds se))) (Hsk t) Hdev Hcs Hdisc Hlfuel Hin)
    as (f & Hrun & Hi & Ho & Hc & Hd).
  replace (length (se_cmds se) + S (hfuel - S (length (se_cmds se))))%nat with hfuel in Hrun by lia.
  rewrite Hrun. mred. eexists. split; [done|]. by split_and!.
Qed.

Lemma transmission_call_hangup st cn t cs tail :
  device_ok ctx inv content (world cn) -> Forall (conforming ctx) cs ->
  (length cs < hfuel)%nat -> (length tail < sizeof_nbd_request)%nat ->
  ibox (cn_net cn) = concat (client_bytes <$> cs) ++ tail ->
  exists cn', transmission_call plugin_mem hfuel lfuel (sk t) (set_n_state st ctx) cn
      = Ok (-1, (set_n_state st ctx, cn')) /\ same_connection cn cn' /\
    device_ok ctx inv content (world cn') /\
    obox (cn_net cn') = obox (cn_net cn) ++ (session_spec cs (content (world cn))).1 /\
    content (world cn') = (session_spec cs (content (world cn))).2.
Proof.
  intros Hdev Hcs Hlt Htail Hin. unfold transmission_call.
  destruct (hangup_run plugin_mem (set_n_state st ctx) a inv content Hplugin WS FS Hblock lfuel
    cs (sk_request (sk t)) (sk_buffer (sk t)) (cn_net cn) (world cn) tail
    (hfuel - S (length cs)) (Hsk t) Hdev Hcs Htail Hlfuel Hin)
    as (f & Hrun & Ho & Hc & Hd).
  replace (length cs + S (hfuel - S (length cs)))%nat with hfuel in Hrun by lia.
  rewrite Hrun. mred. eexists. split; [done|]. by split_and!.
Qed.

(** The loop serves session after session: a disconnection answers [0] and
    leaves the client's state, so only a client that is gone ends it. *)
Lemma phases_sessions hs st cn ses cs tail k :
  cl_state (cn_client cn) = TRANSMISSION -> device_ok ctx inv content (world cn) ->
  Forall session_ok ses -> Forall (conforming ctx) cs -> (length cs < hfuel)%nat ->
  (length tail < sizeof_nbd_request)%nat ->
  ibox (cn_net cn) = concat (session_bytes <$> ses) ++ concat (client_bytes <$> cs) ++ tail ->
  exists st' cn', phases hs (fun t => transmission_call plugin_mem hfuel lfuel (sk t))
      (length ses + S k) 0 (set_n_state st ctx) cn = Ok (-1, (set_n_state st' ctx, cn')) /\
    same_connection cn cn' /\ device_ok ctx inv content (world cn') /\
    obox (cn_net cn') = obox (cn_net cn) ++ (session_spec (all_cmds ses ++ cs) (content (world cn))).1 /\
    content (world cn') = (session_spec (all_cmds ses ++ cs) (content (world cn))).2.
Proof.
  intros Hs Hdev Hses Hcs Hlt Htail. revert st cn Hs Hdev.
  induction Hses as [|se ses Hse Hses IH]; intros st cn Hs Hdev Hin.
  - cbn [length Nat.add]. rewrite phases_transmission by done.
    destruct (transmission_call_hangup st cn k cs tail Hdev Hcs Hlt Htail Hin)
      as (cn' & -> & Hsame & Hd & Ho & Hc). mred. exists st, cn'. by rewrite phases_stop.
  - rewrite fmap_cons in Hin. cbn [concat] in Hin. rewrite <- app_assoc in Hin.
    cbn [length Nat.add]. rewrite phases_transmission by done.
    destruct (transmission_call_session st cn (length ses + S k) se _ Hdev Hse Hin)
      as (cn1 & -> & (Hc1 & Hp1 & Hl1) & Hd1 & Hi1 & Ho1 & Hw1). mred.
    destruct (IH ABORT cn1) as (st' & cn' & -> & (Hc2 & Hp2 & Hl2) & Hd2 & Ho2 & Hw2); [congruence|done..|].
    exists st', cn'. unfold all_cmds. rewrite fmap_cons. cbn [concat]. rewrite <- app_assoc.
    rewrite session_spec_app, <- Hw1. cbn [fst snd]. rewrite Ho2, Ho1, <- app_assoc.
    split_and!; try done. split_and!; congruence.
Qed.

(** A preinitialised connection presents its default export without a dialogue.
    Through a handle that has the fields of an export (no function of the
    repository fills them in, see [unfilled_handle_serves_nothing]) the
    connection is the abstract session of all the client's commands, whatever
    disconnections lie between them, and ends when the client hangs up. *)
Theorem preinit_connection get_defaultexport ses cs tail client net s i :
  n_preinit ctx <> 0 -> get_defaultexport s = Some i ->
  device_ok ctx inv content (l_world s) ->
  Forall session_ok ses -> Forall (conforming ctx) cs -> (length cs < hfuel)%nat ->
  (length tail < sizeof_nbd_request)%nat ->
  ibox net = concat (session_bytes <$> ses) ++ concat (client_bytes <$> cs) ++ tail ->
  let '(replies, l) := session_spec (all_cmds ses ++ cs) (content (l_world s)) in
  exists st cn, nbd_synchronous_client_thread_cb plugin_mem get_defaultexport
      (length ses + 1) hfuel lfuel sk ctx client net s
    = Ok (-1, Some (set_n_state st ctx, cn), cn_lib cn) /\
    cn_client cn = mk_client client TRANSMISSION (Some i) /\
    obox (cn_net cn) = obox net ++ replies /\ content (world cn) = l /\
    device_ok ctx inv content (world cn) /\ l_pool (cn_lib cn) = l_pool s.
Proof.
  intros Hp Hdef Hdev Hses Hcs Hlt Htail Hin.
  pose proof (phases_sessions (fun t => handshake_call plugin_mem hfuel (sk t)) (n_state ctx)
    (mk_connection (mk_client client TRANSMISSION (Some i)) net s) ses cs tail 0
    eq_refl Hdev Hses Hcs Hlt Htail Hin) as (st & cn & Hrun & (Hc & Hpl & _) & Hd & Ho & Hw).
  destruct (session_spec _ _) as [replies l]. exists st, cn.
  unfold nbd_synchronous_client_thread_cb. rewrite (proj2 (Z.eqb_neq _ _) Hp), Hdef.
  assert (set_n_state (n_state ctx) ctx = ctx) as E by by destruct ctx.
  rewrite E in Hrun. rewrite Hrun. mred. by split_and!.
Qed.
End preinit.

(** ** The structure of the server *)

(** [handles] before anything ran. *)
Definition zero_handle : lwnbd_context_nbd_t :=
  mk_nbd_context zero_context 0 0 0 0 0 0 0 0 HANDSHAKE.

(** The statics of [nbd.c], the network and the library. *)
Record nbd_state (W N : Type) := mk_nbd_state {
  ns_handles : list lwnbd_context_nbd_t;
  ns_in_use : list handle_state_t;
  ns_net : N;
  ns_lib : lib W
}.
Arguments mk_nbd_state {W N} _ _ _ _.
Arguments ns_handles {W N} _.
Arguments ns_in_use {W N} _.
Arguments ns_net {W N} _.
Arguments ns_lib {W N} _.

Definition initial_nbd {W N} (net : N) (s : lib W) : nbd_state W N :=
  mk_nbd_state (replicate NBD_SERVER_MAX_DEVICES zero_handle)
    (replicate NBD_SERVER_MAX_DEVICES HANDLE_FREE) net s.

Section server.
Context `{CFG : NbdConfig} {W Cfg SCfg N : Type} (plugin_mem : nat -> lwnbd_plugin_t W Cfg).
Context `{CB : Callbacks N}.
Context (get_defaultexport : lib W -> option nat).
(** The fuel of the loops of a connection, and what its stack holds. *)
Context (fuel hfuel lfuel : nat) (sk : nat -> stack).
Implicit Types (st : nbd_state W N) (h : option nat).

Definition set_handle (i : nat) (c : lwnbd_context_nbd_t) st : nbd_state W N :=
  mk_nbd_state (<[i := c]> (ns_handles st)) (ns_in_use st) (ns_net st) (ns_lib st).

Definition server_new st : option nat * nbd_state W N :=
  let '(i, u) := nbd_new (ns_in_use st) in
  (Some i, mk_nbd_state (ns_handles st) u (ns_net st) (ns_lib st)).

(** Keys are compared before the handle is touched. *)
Definition server_config h (key : list byte) (value : option (list byte)) st
  : outcome (Z * nbd_state W N) :=
  if (nbd_config key [] zero_handle).1 =? 0 then
    i ← of_option NullDeref h;
    c ← of_option OutOfBounds (ns_handles st !! i);
    let '(r, c) := nbd_config key (default [] value) c in Ok (r, set_handle i c st)
  else Ok (-1, st).

(** [nbd_ctor] reads neither argument. *)
Definition server_ctor h (settings : SCfg) st : outcome (Z * nbd_state W N) :=
  Ok ((nbd_ctor settings zero_handle).1, st).

Definition server_run h (client : option Z) st : outcome (Z * nbd_state W N) :=
  sock ← of_option NullDeref client;
  i ← of_option NullDeref h;
  c ← of_option OutOfBounds (ns_handles st !! i);
  '(r, o, s) ← nbd_synchronous_client_thread_cb plugin_mem get_defaultexport fuel hfuel lfuel sk c
                 sock (ns_net st) (ns_lib st);
  match o with
  | Some (c, cn) => Ok (r, mk_nbd_state (<[i := c]> (ns_handles st)) (ns_in_use st) (cn_net cn) s)
  | None => Ok (r, mk_nbd_state (ns_handles st) (ns_in_use st) (ns_net st) s)
  end.

(** [static struct lwnbd_server server]; it has neither [start] nor [stop]. *)
Definition server : lwnbd_server (nbd_state W N) SCfg :=
  mk_server (bs "nbd") (Some server_new) None None (Some server_config) (Some server_ctor)
    (Some server_run).

(** A program that starts the server in preinitialised mode and serves one
    connection. *)
Definition serve_preinit (server_mem : nat -> lwnbd_server (nbd_state W N) SCfg) (init : option nat)
    (settings : SCfg) (client : Z) (r : registry (nbd_state W N)) : outcome (registry (nbd_state W N)) :=
  let '(h, r) := lwnbd_server_init server_mem init r in
  '(_, r) ← lwnbd_server_new server_mem h settings r;
  '(_, r) ← lwnbd_server_config server_mem h (bs "preinit") (Some (bs "1")) r;
  lwnbd_server_run server_mem h (Some client) r.

Definition set_preinit (c : lwnbd_context_nbd_t) : lwnbd_context_nbd_t :=
  nbd_server_set_preinit 1 c.

Lemma server_config_preinit st j c :
  ns_handles st !! j = Some c ->
  server_config (Some j) (bs "preinit") (Some (bs "1")) st = Ok (0, set_handle j (set_preinit c) st).
Proof. intros Hj. unfold server_config. cbn [of_option mbind outcome_bind]. by rewrite Hj. Qed.

(** Initialising, configuring and running the server in a registry with a free
    slot is [nbd_synchronous_client_thread_cb] on the first free handle with
    [preinit] set. *)
Lemma serve_preinit_runs server_mem a settings client r c j :
  server_mem a = server -> registry_ok server_mem r ->
  find_slot server_is_free (r_status r) <> MAX_NUM_SERVERS ->
  find_slot handle_is_free (ns_in_use (r_state r)) = j ->
  ns_handles (r_state r) !! j = Some c ->
  serve_preinit server_mem (Some a) settings client r
  = ('(_, o, s) ← nbd_synchronous_client_thread_cb plugin_mem get_defaultexport fuel hfuel lfuel sk
        (set_preinit c) client (ns_net (r_state r)) (ns_lib (r_state r));
     let i := find_slot server_is_free (r_status r) in
     let u := <[j := HANDLE_CREATED]> (ns_in_use (r_state r)) in
     let st :=
       match o with
       | Some (c, cn) => mk_nbd_state (<[j := c]> (ns_handles (r_state r))) u (cn_net cn) s
       | None => mk_nbd_state (<[j := set_preinit c]> (ns_handles (r_state r))) u (ns_net (r_state r)) s
       end in
     Ok (mk_registry (<[i := mk_instance (Some j) (Some a)]> (r_servers r))
           (<[i := SRV_STOPPED]> (r_status r)) (r_bis r) st)).
Proof.
  intros Ha (H1 & H2 & H3 & H4) Hslot Hfree Hj.
  pose proof (find_slot_le server_is_free (r_status r)) as Hle.
  set (i := find_slot server_is_free (r_status r)) in *.
  assert (i < MAX_NUM_SERVERS)%nat as Hi by lia.
  unfold serve_preinit, lwnbd_server_init. fold i. rewrite decide_False by done.
  rewrite Ha. cbn [sv_new server]. unfold server_new, nbd_new, claim_handle. rewrite Hfree.
  set (r1 := mk_registry _ _ _ _).
  assert (server_of server_mem (Z.of_nat i) r1 = Ok (mk_instance (Some j) (Some a), server)) as Hof.
  { unfold server_of, r1. cbn [r_servers]. rewrite Nat2Z.id.
    rewrite list_lookup_insert_eq by lia. mred. cbn [si_s]. mred. by rewrite Ha. }
  unfold lwnbd_server_new. rewrite Hof. mred. cbn [sv_ctor server]. mred. unfold server_ctor. mred.
  unfold lwnbd_server_config.
  change (set_state (r_state r1) r1) with r1. rewrite Hof. mred. cbn [sv_config server si_handle].
  rewrite (server_config_preinit (r_state r1) j c) by done. mred.
  unfold lwnbd_server_run. cbn [set_state r_servers r_status r1 r_state].
  rewrite Nat2Z.id, !list_lookup_insert_eq by lia. mred. cbn [si_s si_handle]. mred.
  rewrite Ha. cbn [sv_run server]. mred. unfold server_run. mred.
  cbn [set_handle ns_handles ns_net ns_lib ns_in_use]. apply lookup_lt_Some in Hj as Hjl.
  rewrite list_lookup_insert_eq by done. mred.
  destruct (nbd_synchronous_client_thread_cb _ _ _ _ _ _ _ _ _ _) as [[[z o] s]|]; mred; [|done].
  unfold set_state. destruct o as [[c' cn]|]; mred; cbn; [|done].
  by rewrite list_insert_insert_eq.
Qed.

(** [server_config] takes the keys and [server_new] the handles of [nbd.c]; none
    of its functions gives a handle an export, a size, flags or a socket.  So a
    program that starts the server this way serves its first connection
    through a handle of zeros, whatever the library holds; what that serves is
    [unfilled_handle_serves_nothing]. *)
Lemma preinit_server_serves_zeros server_mem a settings client net s :
  server_mem a = server ->
  serve_preinit server_mem (Some a) settings client (initial_registry (initial_nbd net s))
  = ('(_, o, s) ← nbd_synchronous_client_thread_cb plugin_mem get_defaultexport fuel hfuel lfuel sk
        (set_preinit zero_handle) client net s;
     let handles := replicate NBD_SERVER_MAX_DEVICES zero_handle in
     let u := <[O := HANDLE_CREATED]> (replicate NBD_SERVER_MAX_DEVICES HANDLE_FREE) in
     let st :=
       match o with
       | Some (c, cn) => mk_nbd_state (<[O := c]> handles) u (cn_net cn) s
       | None => mk_nbd_state (<[O := set_preinit zero_handle]> handles) u net s
       end in
     let r := initial_registry (initial_nbd net s) in
     Ok (mk_registry (<[O := mk_instance (Some O) (Some a)]> (r_servers r))
           (<[O := SRV_STOPPED]> (r_status r)) (r_bis r) st)).
Proof.
  intros Ha.
  exact (serve_preinit_runs server_mem a settings client (initial_registry (initial_nbd net s)) zero_handle O
    Ha (initial_registry_ok _ _) (ltac:(by_decide)) eq_refl eq_refl).
Qed.
End server.

(** ** A client that negotiates *)

Section negotiation.
Context `{CFG : NbdConfig} {CFGok : NbdConfigOk}.
Context {W Cfg : Type} (plugin_mem : nat -> lwnbd_plugin_t W Cfg).
Context {N : Type} `{CB : Callbacks N} (ctx : lwnbd_context_nbd_t) {T : Transport N (n_sock ctx)}.
Context (get_defaultexport : lib W -> option nat).
Context (sk : nat -> stack)
  (Hsk : forall t, length (sk_cflags (sk t)) = 4%nat /\
     length (sk_opt (sk t)) = sizeof_nbd_new_option /\
     Z.of_nat (length (sk_buffer (sk t))) = MAX_REQUEST_SIZE).

Local Abbreviation ibox := (inbox (n_sock ctx)).
Local Abbreviation obox := (outbox (n_sock ctx)).

Lemma handshake_call_negotiates t cn os uri rest j s' :
  pool_ok (l_pool (cn_lib cn)) -> cl_sock (cn_client cn) = n_sock ctx ->
  0 <= n_gflags ctx < 2 ^ 32 -> Forall keeps_haggling os -> no_nul uri -> uri <> [] ->
  Z.of_nat (length uri) < MAX_REQUEST_SIZE ->
  ibox (cn_net cn) = be_split 4 (n_gflags ctx) ++ concat (option_bytes <$> os) ++
    option_bytes (mk_option_cmd NBD_OPT_EXPORT_NAME uri) ++ rest ->
  open_export plugin_mem uri (cn_lib cn) = Ok (Some j, s') ->
  exists net, handshake_call plugin_mem (length os + 1) (sk t) ctx cn
      = Ok (0, (set_n_state TRANSMISSION ctx, mk_connection (set_cl_ctx (Some j) (cn_client cn)) net s')) /\
    ibox net = rest /\
    obox net = obox (cn_net cn) ++ (wire_greeting (n_gflags ctx) ++
      concat (option_answer (l_pool (cn_lib cn)) <$> os)) ++ wire_export ctx.
Proof.
  intros Hp Hcs Hg Hos Hnn Hne Hlen Hin Hopen. unfold handshake_call.
  destruct (Hsk t) as (H1 & H2 & H3).
  destruct (handshake_dialogue plugin_mem (n_sock ctx) ctx eq_refl os uri
    (mk_haggle (sk_opt (sk t)) (sk_buffer (sk t)) (cn_client cn) (cn_net cn) (cn_lib cn))
    rest (sk_cflags (sk t)) (Some j) s' 0 H1)
    as (ctx1 & h1 & -> & Hi1 & Hl1 & Hc1 & -> & Ho1); [by split_and!|done..|].
  mred. exists (hg_net h1). rewrite Hl1, Hc1. by split_and!.
Qed.

(** A request after the negotiation meets a second greeting. *)
Lemma handshake_call_refuses fuel t st cn rq rest :
  cl_sock (cn_client cn) = n_sock ctx -> n_gflags ctx <> NBD_REQUEST_MAGIC ->
  rq_magic rq = NBD_REQUEST_MAGIC -> ibox (cn_net cn) = wire_request rq ++ rest ->
  exists net, handshake_call plugin_mem fuel (sk t) (set_n_state st ctx) cn
      = Ok (-1, (set_n_state st ctx, mk_connection (cn_client cn) net (cn_lib cn))) /\
    obox net = obox (cn_net cn) ++ wire_greeting (n_gflags ctx).
Proof.
  intros Hcs Hgm Hmagic Hin. unfold handshake_call. destruct (Hsk t) as (H1 & H2 & H3).
  destruct (greeting_mismatch plugin_mem (n_sock ctx) (set_n_state st ctx) eq_refl fuel NBD_REQUEST_MAGIC
    (mk_haggle (sk_opt (sk t)) (sk_buffer (sk t)) (cn_client cn) (cn_net cn) (cn_lib cn))
    (drop 4 (wire_request rq) ++ rest) (sk_cflags (sk t)) H1 Hcs)
    as (h2 & -> & Hl2 & Hc2 & Ho2); [done|done| |].
  { cbn [hg_net]. rewrite Hin, app_assoc. f_equal. unfold wire_request. rewrite Hmagic.
    by rewrite drop_app_length' by by rewrite length_be_split. }
  mred. exists (hg_net h2). by rewrite Hl2, Hc2.
Qed.

(** C37: the negotiation that opens an export, then the client's first request: the
    loop is still in the handshake, greets the client again and takes the
    magic of the request for its flags.  The connection ends with nothing of
    the export read or written and without a reply. *)
Theorem negotiated_request_dropped os uri rq rest net s j s' lfuel :
  lib_ok s -> n_preinit ctx = 0 -> (lwnbd_contexts_count (l_pool s) < MAX_CONTEXTS)%nat ->
  0 <= n_gflags ctx < 2 ^ 32 -> n_gflags ctx <> NBD_REQUEST_MAGIC -> rq_magic rq = NBD_REQUEST_MAGIC ->
  Forall keeps_haggling os -> no_nul uri -> uri <> [] -> Z.of_nat (length uri) < MAX_REQUEST_SIZE ->
  ibox net = be_split 4 (n_gflags ctx) ++ concat (option_bytes <$> os) ++
    option_bytes (mk_option_cmd NBD_OPT_EXPORT_NAME uri) ++ wire_request rq ++ rest ->
  let pl := (lwnbd_new_context (l_pool s)).2 in
  open_export plugin_mem uri (set_pool pl s) = Ok (Some j, s') ->
  exists cn, nbd_synchronous_client_thread_cb plugin_mem get_defaultexport 2 (length os + 1) lfuel sk
      ctx (n_sock ctx) net s = Ok (-1, Some (set_n_state TRANSMISSION ctx, cn), s') /\
    cn_lib cn = s' /\ cn_client cn = mk_client (n_sock ctx) HANDSHAKE (Some j) /\
    obox (cn_net cn) = obox net ++ wire_greeting (n_gflags ctx) ++
      concat (option_answer pl <$> os) ++ wire_export ctx ++ wire_greeting (n_gflags ctx).
Proof.
  intros Hlib Hp Hcount Hg Hgm Hmagic Hos Hnn Hne Hlen Hin pl Hopen.
  destruct Hlib as (Hpool & _). pose proof (new_context_spec _ Hpool) as Hnew. cbv zeta in Hnew.
  rewrite decide_False in Hnew by lia. destruct Hnew as (pl' & Hnew & Hpl & _).
  assert (pl = pl') as -> by (unfold pl; by rewrite Hnew).
  unfold nbd_synchronous_client_thread_cb. rewrite Hp. cbn [Z.eqb]. rewrite Hnew.
  rewrite phases_handshake by done.
  destruct (handshake_call_negotiates 1
    (mk_connection (mk_client (n_sock ctx) HANDSHAKE (Some (lwnbd_contexts_count (l_pool s)))) net
      (set_pool pl' s)) os uri (wire_request rq ++ rest) j s')
    as (n1 & -> & Hi1 & Ho1); [done..|]. mred.
  rewrite phases_handshake by done.
  destruct (handshake_call_refuses (length os + 1) 0 TRANSMISSION
    (mk_connection (mk_client (n_sock ctx) HANDSHAKE (Some j)) n1 s') rq rest)
    as (n2 & Hrun & Ho2); [done..|]. unfold set_cl_ctx. cbn [cl_sock cl_state cn_client]. rewrite Hrun. mred.
  rewrite phases_stop by done. mred. eexists. split; [done|]. cbn [cn_lib cn_client cn_net].
  split_and!; [done..|]. rewrite Ho2. cbn [cn_net]. rewrite Ho1. cbn [cn_net cn_lib l_pool set_pool]. app_eq.
Qed.
End negotiation.

(** ** A handle nobody filled in *)

Section unfilled.
Context `{CFG : NbdConfig} {W Cfg : Type} (plugin_mem : nat -> lwnbd_plugin_t W Cfg).
Context {N : Type} `{CB : Callbacks N} {T : Transport N (n_sock (set_preinit zero_handle))}.

Local Abbreviation ctx := (set_preinit zero_handle).

(** The repository has no call that gives a handle the fields of an export:
    what the connection serves through it is an export of size zero and block
    size zero.  A read or a write of something is refused, an empty one divides
    by zero, a flush follows a [NULL] plugin. *)
Theorem unfilled_handle_serves_nothing lfuel (f : frame N W) rq rest :
  frame_ok f -> x_sendflag (f_x f) = 0 -> request_ok rq -> rq_magic rq = NBD_REQUEST_MAGIC ->
  rq_offset rq + rq_count rq < 2 ^ 64 ->
  inbox (n_sock ctx) (f_net f) = wire_request rq ++ rest ->
  (rq_type rq = NBD_CMD_READ -> 0 < rq_offset rq + rq_count rq ->
     exists f', serve_request plugin_mem lfuel ctx f = Ok (Next (ctx, f')) /\
       outbox (n_sock ctx) (f_net f') = outbox (n_sock ctx) (f_net f) ++ wire_reply NBD_EIO (rq_handle rq)) /\
  (rq_type rq = NBD_CMD_READ -> rq_offset rq + rq_count rq = 0 ->
     serve_request plugin_mem lfuel ctx f = Fault DivByZero) /\
  (rq_type rq = NBD_CMD_WRITE -> 0 < rq_offset rq + rq_count rq ->
     exists f', serve_request plugin_mem lfuel ctx f = Ok (Next (ctx, f')) /\
       outbox (n_sock ctx) (f_net f') = outbox (n_sock ctx) (f_net f) ++ wire_reply NBD_ENOSPC (rq_handle rq)) /\
  (rq_type rq = NBD_CMD_WRITE -> rq_offset rq + rq_count rq = 0 ->
     serve_request plugin_mem lfuel ctx f = Fault DivByZero) /\
  (rq_type rq = NBD_CMD_FLUSH -> serve_request plugin_mem lfuel ctx f = Fault NullDeref).
Proof.
  intros Hf Hsf Hok Hmagic Hov Hin.
  destruct (serve_request_dispatch plugin_mem ctx lfuel f rq rest Hf Hok Hmagic Hin) as (net & Hi & <- & ->).
  unfold request_ok in Hok.
  assert (out_of_range ctx rq = (0 <? rq_offset rq + rq_count rq)) as Hr.
  { unfold out_of_range. cbn [ctx n_base set_preinit nbd_server_set_preinit zero_handle zero_context c_exportsize].
    by rewrite !wrap_small by lia. }
  set (f1 := mk_frame _ _ _ _ _). unfold dispatch.
  split_and!; intros Hty; rewrite Hty; mred;
    cbn [nbd_commands_to_string NBD_CMD_WRITE NBD_CMD_READ NBD_CMD_FLUSH NBD_CMD_DISC Z.eqb Pos.eqb].
  - intros Hpos. unfold cmd_read. rewrite Hr, (proj2 (Z.ltb_lt _ _) Hpos). mred.
    destruct (send_reply_spec ctx (rq_handle rq) NBD_EIO (x_sendflag (f_x f1)) (set_x (f_x f1) f1))
      as (net' & -> & _ & Ho'); [by left|]. mred.
    rewrite read_loop_done by done. mred. eexists. split; [done|]. exact Ho'.
  - intros Hz. unfold cmd_read. rewrite Hr, Hz. done.
  - intros Hpos. unfold cmd_write. rewrite Hr, (proj2 (Z.ltb_lt _ _) Hpos).
    change (negb (Z.land (n_eflags ctx) NBD_FLAG_READ_ONLY =? 0)) with false. mred.
    destruct (send_reply_spec ctx (rq_handle rq) NBD_ENOSPC 0 (set_x (f_x f1) f1))
      as (net' & Hs & _ & Ho'); [by left|].
    rewrite write_loop_done by done. mred. rewrite Hs. mred. eexists. split; [done|]. exact Ho'.
  - intros Hz. unfold cmd_write. rewrite Hr, Hz. done.
  - done.
Qed.
End unfilled.
