(* ===== verification/ClientSocket.v ===== *)
(** * Which socket a client hears from

    [protocol_handshake] sends its greeting and receives through the socket of
    the client record ([c->sock]), which
    [nbd_synchronous_client_thread_cb] copies from the accepted connection; all
    its other answers, and the whole of [transmission_phase], go through the
    socket of the server's handle ([ctx->sock]), which no code of the repository
    sets.  Here the two are any numbers, and the theorem says what a client
    whose connection has another number than the handle's can hear. *)

From S2P Require Export Connection.

Section client_socket.
Context `{CFG : NbdConfig} {W Cfg : Type} (plugin_mem : nat -> lwnbd_plugin_t W Cfg).
Context {N : Type} `{CB : Callbacks N}.

(** The bytes that arrived at the peer of socket [sock]: receiving adds none,
    sending on another socket adds none, sending on it adds a prefix of what
    is sent. *)
Record hears (sock : Z) (heard : N -> list byte) : Prop := {
  hears_recv s mem len n r m n' :
    sync_recv_cb s mem len n = Ok (r, m, n') -> heard n' = heard n;
  hears_other s d flags n r n' :
    s <> sock -> sync_send_cb s d flags n = Ok (r, n') -> heard n' = heard n;
  hears_own d flags n r n' :
    sync_send_cb sock d flags n = Ok (r, n') -> exists k, heard n' = heard n ++ take k d
}.

Context (sock : Z) (heard : N -> list byte) (Hheard : hears sock heard).
Implicit Types (ctx : lwnbd_context_nbd_t) (h : haggle W N).

Lemma send_checked_other ctx d flags n b n' :
  n_sock ctx <> sock -> send_checked (n_sock ctx) d flags n = Ok (b, n') -> heard n' = heard n.
Proof.
  intros Hs Hrun. unfold send_checked in Hrun. run. by eapply hears_other.
Qed.

Lemma list_entry_other ctx option x n b n' :
  n_sock ctx <> sock -> list_entry ctx option x n = Ok (b, n') -> heard n' = heard n.
Proof.
  intros Hs Hrun. unfold list_entry in Hrun.
  repeat match goal with
  | H : _ ≫= _ = Ok _ |- _ => apply bind_Ok in H as (? & ? & H)
  | H : of_option _ _ = Ok _ |- _ => clear H
  | x : (bool * N)%type |- _ => destruct x
  | H : (if ?b then _ else _) = Ok _ |- _ => destruct b
  | H : send_checked _ _ _ _ = Ok _ |- _ => apply send_checked_other in H; [|done]
  | H : Ok _ = Ok _ |- _ => injection H as <- <-
  end; congruence.
Qed.

Lemma list_loop_other m i ctx option pl n b n' :
  n_sock ctx <> sock -> list_loop m i ctx option pl n = Ok (b, n') -> heard n' = heard n.
Proof.
  intros Hs. revert i n; induction m as [|m IH]; intros i n Hrun; cbn [list_loop] in Hrun; [by simplify_eq|].
  apply bind_Ok in Hrun as (x & _ & Hrun). apply bind_Ok in Hrun as ([ok n1] & He & Hrun).
  apply list_entry_other in He; [|done].
  destruct ok; cbn [negb] in Hrun; [apply IH in Hrun; congruence|by simplify_eq].
Qed.

(** What a step of the haggling leaves alone. *)
Definition quiet ctx h (r : ctl (lwnbd_context_nbd_t * haggle W N)) : Prop :=
  match r with
  | Next (c, h') | Break (c, h') | Return _ (c, h') =>
      heard (hg_net h') = heard (hg_net h) /\ n_sock c = n_sock ctx /\ n_gflags c = n_gflags ctx /\
      cl_sock (hg_client h') = cl_sock (hg_client h)
  end.

Ltac open_run :=
  repeat (run; match goal with
    | H : (if ?b then _ else _) = Ok _ |- _ => destruct b
    | H : (match ?o with Some _ => _ | None => _ end) = Ok _ |- _ => destruct o
    | H : send_checked _ _ _ _ = Ok _ |- _ => apply send_checked_other in H; [|done]
    | H : list_loop _ _ _ _ _ _ = Ok _ |- _ => apply list_loop_other in H; [|done]
    | H : sync_recv_cb _ _ _ _ = Ok _ |- _ => apply (hears_recv _ _ Hheard) in H
    end).

Lemma handle_option_quiet ctx cflags option optlen h r :
  n_sock ctx <> sock -> handle_option plugin_mem ctx cflags option optlen h = Ok r -> quiet ctx h r.
Proof.
  intros Hs Hrun. unfold handle_option, opt_export_name, opt_abort, opt_list, opt_unsupported in Hrun.
  open_run; run; cbn; split_and!; congruence.
Qed.

Lemma haggle_step_quiet ctx cflags h r :
  n_sock ctx <> sock -> haggle_step plugin_mem ctx cflags h = Ok r -> quiet ctx h r.
Proof.
  intros Hs Hrun. unfold haggle_step in Hrun.
  repeat (run_lightly; match goal with
    | H : (if ?b then _ else _) = Ok _ |- _ => destruct b
    | H : sync_recv_cb _ _ _ _ = Ok _ |- _ => apply (hears_recv _ _ Hheard) in H
    end); run_lightly; try (cbn in *; split_and!; congruence);
    (apply handle_option_quiet in Hrun; [|done]); destruct r as [[]|[]|? []]; cbn in *;
    destruct Hrun as (? & ? & ? & ?); split_and!; congruence.
Qed.

Lemma haggle_loop_quiet fuel ctx cflags h r ctx' h' :
  n_sock ctx <> sock -> haggle_loop plugin_mem fuel ctx cflags h = Ok (r, (ctx', h')) ->
  quiet ctx h (Return r (ctx', h')).
Proof.
  revert ctx h; induction fuel as [|fuel IH]; intros ctx h Hs Hrun; [done|].
  cbn [haggle_loop] in Hrun. apply bind_Ok in Hrun as (x & Hx & Hrun).
  apply haggle_step_quiet in Hx; [|done]. destruct x as [[c h1]|[c h1]|z [c h1]];
    destruct Hx as (H1 & H2 & H3 & H4); [..|simplify_eq; by split_and!].
  all: apply IH in Hrun as (? & ? & ? & ?); [|congruence]; cbn; split_and!; congruence.
Qed.

(** A handshake sends the client a greeting, or a part of it, and no more. *)
Lemma protocol_handshake_heard fuel ctx cflags h r ctx' h' :
  n_sock ctx <> sock -> cl_sock (hg_client h) = sock ->
  protocol_handshake plugin_mem fuel ctx cflags h = Ok (r, (ctx', h')) ->
  exists k, heard (hg_net h') = heard (hg_net h) ++ take k (wire_greeting (n_gflags ctx)) /\
    n_sock ctx' = n_sock ctx /\ n_gflags ctx' = n_gflags ctx /\
    cl_sock (hg_client h') = cl_sock (hg_client h).
Proof.
  intros Hs Hc Hrun. unfold protocol_handshake in Hrun. rewrite (greeting_wire ctx), Hc in Hrun. clear Hc.
  apply bind_Ok in Hrun as ([ok n1] & Hsend & Hrun). unfold send_checked in Hsend. run.
  apply (hears_own _ _ Hheard) in Hr as [k Hk]. exists k.
  destruct (negb _); [by simplify_eq|]. run.
  apply (hears_recv _ _ Hheard) in Hr.
  repeat match goal with H : (if ?b then _ else _) = Ok _ |- _ => destruct b end;
    [simplify_eq; cbn; split_and!; congruence..|].
  apply haggle_loop_quiet in Hrun as (H1 & H2 & H3 & H4); [|done]. cbn in *. split_and!; congruence.
Qed.

(** ** The transmission phase *)

Implicit Types (f : frame N W).

Lemma send_reply_other ctx handle error flags f r f' :
  n_sock ctx <> sock -> send_reply ctx handle error flags f = Ok (r, f') ->
  heard (f_net f') = heard (f_net f).
Proof. intros Hs Hrun. unfold send_reply in Hrun. run. by eapply hears_other. Qed.

Ltac open_transmission :=
  repeat (run; match goal with
    | H : (if ?b then _ else _) = Ok _ |- _ => destruct b
    | H : (let '(_, _) := if ?b then _ else _ in _) = Ok _ |- _ => destruct b
    | H : (match ?o with Some _ => _ | None => _ end) = Ok _ |- _ => destruct o
    | H : sync_send_cb _ _ _ _ = Ok _ |- _ => apply (hears_other _ _ Hheard) in H; [|done]
    | H : sync_recv_cb _ _ _ _ = Ok _ |- _ => apply (hears_recv _ _ Hheard) in H
    | H : send_reply _ _ _ _ _ = Ok _ |- _ => apply send_reply_other in H; [|done]
    end).

Lemma read_step_other ctx bsz f r :
  n_sock ctx <> sock -> read_step plugin_mem ctx bsz f = Ok r ->
  match r with Next f' | Break f' | Return _ f' => heard (f_net f') = heard (f_net f) end.
Proof. intros Hs Hrun. unfold read_step in Hrun. open_transmission; run; cbn; congruence. Qed.

Lemma read_loop_other fuel ctx bsz f r f' :
  n_sock ctx <> sock -> read_loop plugin_mem fuel ctx bsz f = Ok (r, f') ->
  heard (f_net f') = heard (f_net f).
Proof.
  intros Hs. revert f; induction fuel as [|fuel IH]; intros f Hrun; cbn [read_loop] in Hrun;
    destruct (x_sendflag (f_x f) =? 0); [by simplify_eq|done|by simplify_eq|].
  apply bind_Ok in Hrun as (c & Hc & Hrun). apply read_step_other in Hc; [|done].
  destruct c; simplify_eq; [|done..]. apply IH in Hrun. congruence.
Qed.

Lemma write_step_other ctx bsz e f e' f' :
  n_sock ctx <> sock -> write_step plugin_mem ctx bsz e f = Ok (e', f') ->
  heard (f_net f') = heard (f_net f).
Proof. intros Hs Hrun. unfold write_step in Hrun. open_transmission; run; cbn; congruence. Qed.

Lemma write_loop_other fuel ctx bsz e f e' f' :
  n_sock ctx <> sock -> write_loop plugin_mem fuel ctx bsz e f = Ok (e', f') ->
  heard (f_net f') = heard (f_net f).
Proof.
  intros Hs. revert e f; induction fuel as [|fuel IH]; intros e f Hrun; cbn [write_loop] in Hrun;
    destruct (x_sendflag (f_x f) =? 0); [by simplify_eq|done|by simplify_eq|].
  apply bind_Ok in Hrun as ([e1 f1] & Hc & Hrun). apply write_step_other in Hc; [|done].
  apply IH in Hrun. congruence.
Qed.

(** The handle keeps its socket, and the client hears nothing. *)
Definition unheard ctx f (r : ctl (lwnbd_context_nbd_t * frame N W)) : Prop :=
  match r with
  | Next (c, f') | Break (c, f') | Return _ (c, f') =>
      heard (f_net f') = heard (f_net f) /\ n_sock c = n_sock ctx /\ n_gflags c = n_gflags ctx
  end.

Lemma cmd_read_other lfuel ctx bsz rq f o f' :
  n_sock ctx <> sock -> cmd_read plugin_mem lfuel ctx bsz rq f = Ok (o, f') ->
  heard (f_net f') = heard (f_net f).
Proof.
  intros Hs Hrun. unfold cmd_read in Hrun. apply bind_Ok in Hrun as ([e x] & _ & Hrun).
  apply bind_Ok in Hrun as ([r f1] & Hsend & Hrun).
  apply send_reply_other in Hsend; [|done]. apply read_loop_other in Hrun; [|done].
  by rewrite Hrun, Hsend.
Qed.

Lemma cmd_write_other lfuel ctx bsz rq f f' :
  n_sock ctx <> sock -> cmd_write plugin_mem lfuel ctx bsz rq f = Ok f' ->
  heard (f_net f') = heard (f_net f).
Proof.
  intros Hs Hrun. unfold cmd_write in Hrun. apply bind_Ok in Hrun as ([e x] & _ & Hrun).
  apply bind_Ok in Hrun as ([e1 f1] & Hloop & Hrun). apply bind_Ok in Hrun as ([r f2] & Hsend & Hrun).
  apply write_loop_other in Hloop; [|done]. apply send_reply_other in Hsend; [|done].
  simplify_eq. by rewrite Hsend, Hloop.
Qed.

Lemma cmd_flush_other ctx rq f f' :
  n_sock ctx <> sock -> cmd_flush plugin_mem ctx rq f = Ok f' -> heard (f_net f') = heard (f_net f).
Proof.
  intros Hs Hrun. unfold cmd_flush in Hrun. apply bind_Ok in Hrun as ([r w] & _ & Hrun).
  apply bind_Ok in Hrun as ([r' f2] & Hsend & Hrun). apply send_reply_other in Hsend; [|done].
  by simplify_eq.
Qed.

Lemma dispatch_unheard lfuel ctx rq f r :
  n_sock ctx <> sock -> dispatch plugin_mem lfuel ctx rq f = Ok r -> unheard ctx f r.
Proof.
  intros Hs Hrun. unfold dispatch in Hrun. apply bind_Ok in Hrun as (s & _ & Hrun).
  repeat match goal with H : (if ?b then _ else _) = Ok _ |- _ => destruct b end.
  - apply bind_Ok in Hrun as ([o f1] & Hc & Hrun). apply cmd_read_other in Hc; [|done].
    destruct o; simplify_eq; by split_and!.
  - apply bind_Ok in Hrun as (f1 & Hc & Hrun). apply cmd_write_other in Hc; [|done].
    simplify_eq. by split_and!.
  - simplify_eq. by split_and!.
  - apply bind_Ok in Hrun as (f1 & Hc & Hrun). apply cmd_flush_other in Hc; [|done].
    simplify_eq. by split_and!.
  - apply bind_Ok in Hrun as ([o f1] & Hc & Hrun). apply send_reply_other in Hc; [|done].
    simplify_eq. by split_and!.
Qed.

Lemma serve_request_unheard lfuel ctx f r :
  n_sock ctx <> sock -> serve_request plugin_mem lfuel ctx f = Ok r -> unheard ctx f r.
Proof.
  intros Hs Hrun. unfold serve_request in Hrun. open_transmission; run; try (cbn; split_and!; congruence).
  apply dispatch_unheard in Hrun; [|done]. destruct r as [[]|[]|? []]; cbn in *;
    destruct Hrun as (? & ? & ?); split_and!; congruence.
Qed.

Lemma transmission_loop_unheard fuel lfuel ctx f r ctx' f' :
  n_sock ctx <> sock -> transmission_loop plugin_mem fuel lfuel ctx f = Ok (r, (ctx', f')) ->
  unheard ctx f (Return r (ctx', f')).
Proof.
  revert ctx f; induction fuel as [|fuel IH]; intros ctx f Hs Hrun; [done|].
  cbn [transmission_loop] in Hrun. apply bind_Ok in Hrun as (x & Hx & Hrun).
  apply serve_request_unheard in Hx; [|done]. destruct x as [[c f1]|[c f1]|z [c f1]];
    destruct Hx as (H1 & H2 & H3); [..|simplify_eq; by split_and!].
  all: apply IH in Hrun as (? & ? & ?); [|congruence]; cbn; split_and!; congruence.
Qed.

(** ** The connection *)

Definition greetings (g : Z) (ks : list nat) : list byte :=
  concat ((fun k => take k (wire_greeting g)) <$> ks).

Lemma handshake_call_heard fuel sk ctx cn r ctx' cn' :
  n_sock ctx <> sock -> cl_sock (cn_client cn) = sock ->
  handshake_call plugin_mem fuel sk ctx cn = Ok (r, (ctx', cn')) ->
  exists k, heard (cn_net cn') = heard (cn_net cn) ++ take k (wire_greeting (n_gflags ctx)) /\
    n_sock ctx' = n_sock ctx /\ n_gflags ctx' = n_gflags ctx /\
    cl_sock (cn_client cn') = cl_sock (cn_client cn).
Proof.
  intros Hs Hc Hrun. unfold handshake_call in Hrun. apply bind_Ok in Hrun as ([z [c h]] & Hh & Hrun).
  apply protocol_handshake_heard in Hh as (k & Hk & H1 & H2 & H3); [|done..].
  simplify_eq. by exists k.
Qed.

Lemma transmission_call_heard fuel lfuel sk ctx cn r ctx' cn' :
  n_sock ctx <> sock ->
  transmission_call plugin_mem fuel lfuel sk ctx cn = Ok (r, (ctx', cn')) ->
  heard (cn_net cn') = heard (cn_net cn) /\ n_sock ctx' = n_sock ctx /\
  n_gflags ctx' = n_gflags ctx /\ cn_client cn' = cn_client cn.
Proof.
  intros Hs Hrun. unfold transmission_call, transmission_phase in Hrun.
  apply bind_Ok in Hrun as ([z o] & Ht & Hrun). apply bind_Ok in Ht as ([z' [c f]] & Ht & E).
  apply transmission_loop_unheard in Ht as (H1 & H2 & H3); [|done]. simplify_eq.
  cbn in Hrun. simplify_eq. by split_and!.
Qed.

Lemma phases_heard fuel hfuel lfuel (sk : nat -> stack) r ctx cn r' ctx' cn' :
  n_sock ctx <> sock -> cl_sock (cn_client cn) = sock ->
  phases (fun t => handshake_call plugin_mem hfuel (sk t))
    (fun t => transmission_call plugin_mem hfuel lfuel (sk t)) fuel r ctx cn = Ok (r', (ctx', cn')) ->
  exists ks, heard (cn_net cn') = heard (cn_net cn) ++ greetings (n_gflags ctx) ks /\
    (cl_state (cn_client cn) <> HANDSHAKE -> ks = []).
Proof.
  revert r ctx cn; induction fuel as [|fuel IH]; intros r ctx cn Hs Hc Hrun; cbn [phases] in Hrun.
  { destruct (r =? 0); [done|]. simplify_eq. exists []. cbn. by rewrite app_nil_r. }
  destruct (r =? 0); [|simplify_eq; exists []; cbn; by rewrite app_nil_r].
  apply bind_Ok in Hrun as ([r1 [c1 cn1]] & Hx & Hrun). destruct (cl_state (cn_client cn)) eqn:Est.
  - pose proof (handshake_call_state _ _ _ _ _ _ _ _ Hx) as Hst.
    apply handshake_call_heard in Hx as (k & Hk & H1 & H2 & H3); [|done..].
    apply IH in Hrun as (ks & Hks & _); [|congruence..]. exists (k :: ks). split; [|done].
    rewrite Hks, Hk, H2, <- app_assoc. done.
  - apply transmission_call_heard in Hx as (Hk & H1 & H2 & H3); [|done].
    apply IH in Hrun as (ks & Hks & Hnil); [|congruence..]. exists ks. rewrite Hks, Hk, H2. split; [done|].
    intros _. apply Hnil. rewrite H3. congruence.
  - simplify_eq. apply IH in Hrun as (ks & Hks & Hnil); [|done..]. exists ks. split; [done|].
    intros _. apply Hnil. congruence.
Qed.

(** C38: a client whose accepted socket is not the number the handle happens to hold
    never hears an answer: whatever it sends, whatever it asks for and whatever
    the network does, the bytes that reach it are greetings, or their
    beginnings, one for each turn of the loop that negotiates; of a
    preinitialised server it hears nothing at all. *)
Theorem client_hears_only_greetings get_defaultexport fuel hfuel lfuel sk ctx net s r ctx' cn s' :
  n_sock ctx <> sock ->
  nbd_synchronous_client_thread_cb plugin_mem get_defaultexport fuel hfuel lfuel sk ctx sock net s
    = Ok (r, Some (ctx', cn), s') ->
  exists ks, heard (cn_net cn) = heard net ++ greetings (n_gflags ctx) ks /\
    (n_preinit ctx <> 0 -> ks = []).
Proof.
  intros Hs Hrun. unfold nbd_synchronous_client_thread_cb in Hrun.
  destruct (Z.eqb_spec (n_preinit ctx) 0) as [Hp|Hp].
  - destruct (lwnbd_new_context (l_pool s)) as [[i|] pl]; [|done].
    apply bind_Ok in Hrun as ([z [c cn1]] & Hx & Hrun). simplify_eq.
    apply phases_heard in Hx as (ks & Hks & _); [|done..]. by exists ks.
  - destruct (get_defaultexport s) as [i|]; [|done].
    apply bind_Ok in Hrun as ([z [c cn1]] & Hx & Hrun). simplify_eq.
    apply phases_heard in Hx as (ks & Hks & Hnil); [|done..]. exists ks. split; [done|].
    intros _. by apply Hnil.
Qed.
End client_socket.
