(* ===== verification/Sifrpc.v ===== *)
(** * The SIF RPC server: [servers/sifrpc/sifrpc.c]

    The server through which the console's main processor controls the I/O
    processor.  Its state is the static [sifrpc_servers]; the threads and the
    SIF are the kernel's [K]. *)

From S2P Require Export Servers.

Definition TH_C : Z := 0x02000000.

(** What a thread runs. *)
Inductive thread_entry := sifrpc_thread_entry | listener_entry.

(** The [void *] a thread is started with: the handle of a server, or a number
    made a pointer. *)
Inductive thread_arg := ArgHandle (handle : option nat) | ArgNumber (z : Z).

(** [iop_thread_t] *)
Record iop_thread := mk_thread {
  th_attr : Z; th_option : Z; th_thread : thread_entry; th_stacksize : Z; th_priority : Z }.

(** [struct sifrpc_handler]; [F] are the handler functions. *)
Record sifrpc_handler_t (F : Type) := mk_handler { sh_sid : Z; sh_handler : F }.
Arguments mk_handler {F} _ _.
Arguments sh_sid {F} _.
Arguments sh_handler {F} _.

(** [struct sifrpc_server], less the kernel's own queue structures. *)
Record sifrpc_server (F : Type) := mk_sifrpc {
  ss_sid : Z; ss_handler : option F; ss_RpcThreadID : Z }.
Arguments mk_sifrpc {F} _ _ _.
Arguments ss_sid {F} _.
Arguments ss_handler {F} _.
Arguments ss_RpcThreadID {F} _.

Record sif_world (F K : Type) := mk_sif { sw_server : sifrpc_server F; sw_kernel : K }.
Arguments mk_sif {F K} _ _.
Arguments sw_server {F K} _.
Arguments sw_kernel {F K} _.

Section sifrpc.
Context {F K : Type}.
(** The kernel's thread calls ... *)
Context (CreateThread : iop_thread -> K -> Z * K).
Context (StartThread : Z -> thread_arg -> K -> Z * K).
Context (TerminateThread DeleteThread : Z -> K -> Z * K).
(** ... and its SIF calls. *)
Context (sceSifInitRpc : Z -> K -> K) (GetThreadId : K -> Z).
Context (sceSifSetRpcQueue : Z -> K -> K) (sceSifRegisterRpc : Z -> option F -> K -> K).

(** [h = handle]: the only server there is. *)
Definition sifrpc_of (handle : option nat) (w : sif_world F K) : outcome (sifrpc_server F) :=
  _ ← of_option NullDeref handle; Ok (sw_server w).

Definition sifrpc_ctor (handle : option nat) (conf : sifrpc_handler_t F) (w : sif_world F K)
  : outcome (Z * sif_world F K) :=
  h ← sifrpc_of handle w;
  Ok (0, mk_sif (mk_sifrpc (sh_sid conf) (Some (sh_handler conf)) (ss_RpcThreadID h)) (sw_kernel w)).

(** The thread's body up to [sceSifRpcLoop], which does not return. *)
Definition sifrpc_thread (handle : option nat) (w : sif_world F K) : outcome (sif_world F K) :=
  h ← sifrpc_of handle w;
  let k := sceSifInitRpc 0 (sw_kernel w) in
  let k := sceSifSetRpcQueue (GetThreadId k) k in
  let k := sceSifRegisterRpc (ss_sid h) (ss_handler h) k in
  Ok (mk_sif (sw_server w) k).

(** [stack] is the indeterminate [thread.option]. *)
Definition sifrpc_start (stack : Z) (handle : option nat) (w : sif_world F K)
  : outcome (Z * sif_world F K) :=
  h ← sifrpc_of handle w;
  let thread := mk_thread TH_C stack sifrpc_thread_entry 0x800 0x20 in
  let '(tid, k) := CreateThread thread (sw_kernel w) in
  let h := mk_sifrpc (ss_sid h) (ss_handler h) tid in
  if 0 <? tid then
    let '(_, k) := StartThread tid (ArgHandle handle) k in
    Ok (0, mk_sif h k)
  else Ok (tid, mk_sif h k).

Definition sifrpc_stop (handle : option nat) (w : sif_world F K) : outcome (Z * sif_world F K) :=
  h ← sifrpc_of handle w;
  let '(_, k) := TerminateThread (ss_RpcThreadID h) (sw_kernel w) in
  let '(_, k) := DeleteThread (ss_RpcThreadID h) k in
  Ok (0, mk_sif (sw_server w) k).

(** ** As a server of the library

    The state [S] of all servers holds this one's; [G] are the configurations
    [const void *pconfig] points to. *)
Context {S G : Type} (get : S -> sif_world F K) (put : sif_world F K -> S -> S).
Context (handler_of : G -> sifrpc_handler_t F) (stack : Z).

Definition lift_sif (m : sif_world F K -> outcome (Z * sif_world F K)) (s : S) : outcome (Z * S) :=
  '(r, w) ← m (get s); Ok (r, put w s).

(** The structure has no [new]. *)
Definition sifrpc_server_struct : lwnbd_server S G := {|
  sv_name := bs "sifrpc";
  sv_new := None;
  sv_start := Some (fun h => lift_sif (sifrpc_start stack h));
  sv_stop := Some (fun h => lift_sif (sifrpc_stop h));
  sv_config := None;
  sv_ctor := Some (fun h g => lift_sif (sifrpc_ctor h (handler_of g)));
  sv_run := None
|}.

(** ** Properties *)

(** What the kernel promises of its threads: [live k] are the ones that exist,
    with what they run, what they were started with and whether they are. *)
Record kernel_threads (live : K -> list (Z * (thread_entry * option thread_arg))) : Prop := {
  kt_create th k : let '(tid, k') := CreateThread th k in
    if decide (0 < tid) then live k' = (tid, (th_thread th, None)) :: live k /\ tid ∉ (live k).*1
    else live k' = live k;
  kt_start tid u k e l : live k = (tid, (e, None)) :: l ->
    live (StartThread tid u k).2 = (tid, (e, Some u)) :: l;
  kt_terminate tid k e u l : live k = (tid, (e, u)) :: l ->
    live (TerminateThread tid k).2 = (tid, (e, None)) :: l;
  kt_delete tid k e l : live k = (tid, (e, None)) :: l -> live (DeleteThread tid k).2 = l
}.

(** Starting the server runs its thread on the handle, or reports the kernel's
    error and starts none; stopping it removes that thread and no other. *)
Theorem sifrpc_lifecycle live i w :
  kernel_threads live ->
  exists r w1 w2, sifrpc_start stack (Some i) w = Ok (r, w1) /\
    sifrpc_stop (Some i) w1 = Ok (0, w2) /\
    ss_sid (sw_server w2) = ss_sid (sw_server w) /\
    if decide (r = 0 /\ 0 < ss_RpcThreadID (sw_server w1))
    then live (sw_kernel w1)
           = (ss_RpcThreadID (sw_server w1), (sifrpc_thread_entry, Some (ArgHandle (Some i)))) :: live (sw_kernel w) /\
         live (sw_kernel w2) = live (sw_kernel w)
    else r <= 0 /\ live (sw_kernel w1) = live (sw_kernel w).
Proof.
  intros HK. unfold sifrpc_start, sifrpc_stop, sifrpc_of. mred.
  set (th := mk_thread _ _ _ _ _). pose proof (kt_create _ HK th (sw_kernel w)) as Hc.
  destruct (CreateThread th (sw_kernel w)) as [tid k1]. case (Z.ltb_spec 0 tid) as [Ht|Ht].
  - rewrite decide_True in Hc by done. destruct Hc as [Hl Hnew].
    pose proof (kt_start _ HK tid (ArgHandle (Some i)) k1 _ _ Hl) as Hs.
    destruct (StartThread tid (ArgHandle (Some i)) k1) as [r2 k2]. mred. cbn in Hs.
    pose proof (kt_terminate _ HK tid k2 _ _ _ Hs) as Htm.
    destruct (TerminateThread tid k2) as [r3 k3] eqn:Et. cbn in Htm.
    pose proof (kt_delete _ HK tid k3 _ _ Htm) as Hd.
    destruct (DeleteThread tid k3) as [r4 k4] eqn:Ed. cbn in Hd.
    set (h := mk_sifrpc _ _ _). exists 0, (mk_sif h k2), (mk_sif h k4). cbn. rewrite Et, Ed.
    split; [done|]. split; [done|]. split; [done|]. by rewrite decide_True.
  - rewrite decide_False in Hc by lia. mred.
    destruct (TerminateThread tid k1) as [r3 k3] eqn:Et. destruct (DeleteThread tid k3) as [r4 k4] eqn:Ed.
    set (h := mk_sifrpc _ _ _). exists tid, (mk_sif h k1), (mk_sif h k4). cbn. rewrite Et, Ed.
    split; [done|]. split; [done|]. split; [done|]. rewrite decide_False by lia. split; [lia|done].
Qed.

(** The library refuses the server: there is no way to get a handle. *)
Lemma sifrpc_never_initialised server_mem a (r : registry S) :
  server_mem a = sifrpc_server_struct ->
  lwnbd_server_init server_mem (Some a) r = (4294967295, r).
Proof.
  intros Ha. unfold lwnbd_server_init. case_decide; [done|]. by rewrite Ha.
Qed.
End sifrpc.
