(* ===== verification/Irx.v ===== *)
(** * The I/O processor module: [ports/playstation2/iop/lwnbd_irx.c]

    The library as a module of the console: [_start] installs the SIF RPC
    server, whose handler starts and stops the NBD server on demand and
    configures the library the first time.  The state of the module is the
    server registry, the library and its own statics. *)

From S2P Require Export Sifrpc Plugins Sockets.
From S2P Require Import MemoryPlugin PcmPlugin NbdContext NbdProtocol.

Definition LWNBD_SERVER_CMD_START : Z := 0.
Definition LWNBD_SERVER_CMD_STOP : Z := 1.
Definition ENXIO : Z := 6.

(** [struct lwnbd_config]: [char defaultexport[32]; uint8_t readonly;] *)
Record lwnbd_config := mk_lwnbd_config { lc_defaultexport : list byte; lc_readonly : Z }.

(** What the [pconfig] of the plugins' constructors points to. *)
Inductive irx_cfg :=
  | CfgInt (i : Z) | CfgMemory (c : memory_config) | CfgNull | CfgPcm (c : pcmstream_config).

(** And of the servers'. *)
Inductive irx_server_cfg (F : Type) :=
  | NbdSettings (max_retry gflags preinit : Z) | SifrpcHandler (h : sifrpc_handler_t F).
Arguments NbdSettings {F} _ _ _.
Arguments SifrpcHandler {F} _.

Definition bios : memory_config :=
  mk_memory_config 0x1FC00000 0x400000 (char_array 32 (bs "bios")) (char_array 64 (bs "BIOS (rom0)")).
Definition iopram (QueryMemSize : Z) : memory_config :=
  mk_memory_config 0 QueryMemSize (char_array 32 (bs "ram")) (char_array 64 (bs "IOP main RAM")).
Definition pcmc : pcmstream_config :=
  mk_pcm_config (char_array 32 (bs "speakers")) (char_array 64 (bs "stereo speaker")) 44100 16 2 70.

(** The plugins compiled in ([CONFIG_PLUGIN_...]). *)
Record irx_build := mk_build {
  b_atad : option nat; b_mcman : option nat; b_memory : option nat;
  b_bdm : option nat; b_pcmstream : option nat }.

Record irx_world (S W : Type) := mk_irx {
  i_reg : registry S;
  i_lib : lib W;
  i_sifrpcsrv : Z;
  i_httpsrv : Z;
  i_nbdThreadID : Z;
  i_configured : Z
}.
Arguments mk_irx {S W} _ _ _ _ _ _.
Arguments i_reg {S W} _.
Arguments i_lib {S W} _.
Arguments i_sifrpcsrv {S W} _.
Arguments i_httpsrv {S W} _.
Arguments i_nbdThreadID {S W} _.
Arguments i_configured {S W} _.

(** The address of the handler's local [ret], gone once it has returned, and
    what it held ([None] when it was never written). *)
Inductive rpc_answer := LocalRet (ret : option Z).

Section irx.
Context `{CFG : NbdConfig} {F S W : Type}.
(** The kernel, through the state of the servers: threads, the module's
    export table, the listening socket, the memory size. *)
Context (CreateThread : iop_thread -> S -> Z * S).
Context (StartThread : Z -> thread_arg -> S -> Z * S).
Context (TerminateThread DeleteThread : Z -> S -> Z * S).
Context (RegisterLibraryEntries : S -> Z * S) (ReleaseLibraryEntries : S -> S).
Context `{API : SocketApi S} (QueryMemSize : Z).
(** [loadcore.h] *)
Context (MODULE_RESIDENT_END MODULE_NO_RESIDENT_END : Z).
(** The static server structures, and which of them are these two. *)
Context (server_mem : nat -> lwnbd_server S (irx_server_cfg F)) (nbd_server sifrpc : nat).
Context (plugin_mem : nat -> lwnbd_plugin_t W irx_cfg) (build : irx_build).
Context (lwnbd_rpc_handler_fn : F).
Implicit Types (w : irx_world S W) (l : lib W).

Definition set_reg (r : registry S) w := mk_irx r (i_lib w) (i_sifrpcsrv w) (i_httpsrv w) (i_nbdThreadID w) (i_configured w).

(** A call into the kernel. *)
Definition kernel (f : S -> Z * S) w : Z * irx_world S W :=
  let '(z, s) := f (r_state (i_reg w)) in (z, set_reg (set_state s (i_reg w)) w).

(** One [#ifdef CONFIG_PLUGIN_...] block: register, then one export per
    configuration. *)
Definition add_exports (a : option nat) (cfgs : list irx_cfg) l : outcome (lib W) :=
  match a with
  | None => Ok l
  | Some _ => '(h, l) ← lwnbd_plugin_init plugin_mem a l; plugin_new_each plugin_mem h cfgs l
  end.

Definition config_plugins l : outcome (lib W) :=
  l ← add_exports (b_atad build) [CfgInt 0; CfgInt 1] l;
  l ← add_exports (b_mcman build) [CfgInt 0; CfgInt 1] l;
  l ← add_exports (b_memory build) [CfgMemory (iopram QueryMemSize); CfgMemory bios] l;
  l ← add_exports (b_bdm build) [CfgNull] l;
  add_exports (b_pcmstream build) [CfgPcm pcmc] l.

(** The default export is only an array: its string ends at its first NUL. *)
Definition config_server (conf : lwnbd_config) (r : registry S) : outcome (Z * registry S) :=
  let '(httpsrv, r) := lwnbd_server_init server_mem (Some nbd_server) r in
  let r := set_state (nbd_server_create (r_state r)).2 r in
  let mynbd := NbdSettings CONFIG_MAX_RETRIES (Z.lor NBD_FLAG_FIXED_NEWSTYLE NBD_FLAG_NO_ZEROES) 0 in
  '(_, r) ← lwnbd_server_new server_mem httpsrv mynbd r;
  value ← of_option Unterminated (c_str (lc_defaultexport conf));
  '(_, r) ← lwnbd_server_config server_mem httpsrv (bs "default-export") (Some value) r;
  '(_, r) ← (if negb (lc_readonly conf =? 0)
             then lwnbd_server_config server_mem httpsrv (bs "readonly") None r else Ok (0, r));
  Ok (httpsrv, r).

Definition config (conf : lwnbd_config) w : outcome (Z * irx_world S W) :=
  '(httpsrv, r) ← config_server conf (i_reg w);
  l ← config_plugins (i_lib w);
  Ok (0, mk_irx r l (i_sifrpcsrv w) httpsrv (i_nbdThreadID w) (i_configured w)).

Definition lwnbd_server_cmd_start (conf : lwnbd_config) w : outcome (rpc_answer * irx_world S W) :=
  w ← (if i_configured w =? 0 then
         '(_, w) ← config conf w;
         Ok (mk_irx (i_reg w) (i_lib w) (i_sifrpcsrv w) (i_httpsrv w) (i_nbdThreadID w) 1)
       else Ok w);
  let nbd_thread := mk_thread TH_C 0 listener_entry 0x800 0x10 in
  let '(tid, w) := kernel (CreateThread nbd_thread) w in
  let w := mk_irx (i_reg w) (i_lib w) (i_sifrpcsrv w) (i_httpsrv w) tid (i_configured w) in
  if 0 <? i_nbdThreadID w then
    let '(r, w) := kernel (StartThread (i_nbdThreadID w) (ArgNumber (i_httpsrv w))) w in
    Ok (LocalRet (Some r), w)
  else Ok (LocalRet (Some (i_nbdThreadID w)), w).

Definition lwnbd_rpc_handler (fno : Z) (buffer : lwnbd_config) w
  : outcome (rpc_answer * irx_world S W) :=
  if fno =? LWNBD_SERVER_CMD_START then lwnbd_server_cmd_start buffer w
  else if fno =? LWNBD_SERVER_CMD_STOP then
    let '(_, w) := kernel (TerminateThread (i_nbdThreadID w)) w in
    let '(_, w) := kernel (DeleteThread (i_nbdThreadID w)) w in
    Ok (LocalRet None, w)
  else Ok (LocalRet (Some (- ENXIO)), w).

(** [sifrpcsrv < 0] compares a [uint32_t]. *)
Definition irx_start w : outcome (Z * irx_world S W) :=
  let conf := SifrpcHandler (mk_handler 0x2A39 lwnbd_rpc_handler_fn) in
  let '(srv, r) := lwnbd_server_init server_mem (Some sifrpc) (i_reg w) in
  let w := mk_irx r (i_lib w) srv (i_httpsrv w) (i_nbdThreadID w) (i_configured w) in
  if i_sifrpcsrv w <? 0 then Ok (MODULE_NO_RESIDENT_END, w)
  else
    '(_, r) ← lwnbd_server_new server_mem (i_sifrpcsrv w) conf (i_reg w);
    let '(ok, w) := kernel RegisterLibraryEntries (set_reg r w) in
    if ok =? 0 then Ok (MODULE_NO_RESIDENT_END, w) else Ok (MODULE_RESIDENT_END, w).

Definition irx_shutdown w : outcome (Z * irx_world S W) :=
  '(_, r) ← lwnbd_server_stop server_mem (i_sifrpcsrv w) (i_reg w);
  let w := set_reg (set_state (ReleaseLibraryEntries (r_state r)) r) w in
  Ok (MODULE_NO_RESIDENT_END, w).

(** ** Properties *)

(** A block whose plugin, if compiled in, accepts its configurations. *)
Definition block_exports (a : option nat) (cfgs : list irx_cfg) (x : W) (vs : list export_view)
    (x' : W) : Prop :=
  match a with
  | None => vs = [] /\ x' = x
  | Some a => pl_pread (plugin_mem a) <> None /\ pl_load (plugin_mem a) = None /\
      pl_export_without_handle (plugin_mem a) <> 1 /\ longname_ok (plugin_mem a) /\
      ctors_fill plugin_mem a cfgs x vs x'
  end.

(** Room for [p] plugins and [c] contexts. *)
Definition room (p c : nat) l : Prop :=
  lib_ok l /\ (plugins_count l + p <= MAX_NUM_PLUGINS)%nat /\
  (lwnbd_contexts_count (l_pool l) + c <= MAX_CONTEXTS)%nat.

Lemma plugin_new_each_count i cfgs l l' :
  plugin_new_each plugin_mem i cfgs l = Ok l' -> plugins_count l' = plugins_count l.
Proof.
  revert l; induction cfgs as [|cfg cfgs IH]; intros l H; cbn [plugin_new_each] in H; run; [done|].
  rewrite (IH _ H). unfold plugins_count. by erewrite plugin_new_status.
Qed.

Lemma add_exports_spec a cfgs vs x' l p c :
  block_exports a cfgs (l_world l) vs x' -> room (1 + p) (length cfgs + c) l ->
  exists l', add_exports a cfgs l = Ok l' /\ room p c l' /\ l_world l' = x' /\
    exports l' = exports l ++ vs.
Proof.
  intros Hb (Hok & Hp & Hc). destruct a as [a|]; cbn [add_exports block_exports] in *.
  - destruct Hb as (Hpr & Hload & Hexp & Hln & Hfill).
    destruct (plugin_init_registers plugin_mem l a (l_world l) Hok) as (l1 & -> & Hok1 & Hc1 & Hp1 & Hpl & Hw1);
      [lia|done|by rewrite Hload|done|]. mred.
    destruct (plugin_new_each_spec plugin_mem l1 (plugins_count l) a cfgs vs x' Hok1 Hp1)
      as (l2 & Hrun & Hok2 & Hw2 & _ & Hst & He2 & Hn2); [rewrite Hpl; lia|done|done|by rewrite Hw1|].
    exists l2. split; [done|]. pose proof (plugin_new_each_count _ _ _ _ Hrun) as Hpc.
    split; [split_and!; [done|lia|rewrite Hn2, Hpl; lia]|]. split; [done|].
    rewrite He2. unfold exports. by rewrite Hpl.
  - destruct Hb as [-> ->]. exists l. rewrite app_nil_r. split; [done|]. split; [split; [done|lia]|done].
Qed.

(** Configuring the module appends the exports of the plugins compiled in to
    the library's list, block by block in the order of the source: two disks,
    two memory cards, the RAM and the BIOS, the first block device, the
    speakers.  This is so when every constructor accepts: one that refuses, as
    for a disk or card that is not there, leaves an export without plugin
    ([Plugins.plugin_new_refused_leaks]), and [bdm_ctor] never accepts
    ([BdmPlugin.bdm_never_exported]). *)
Theorem irx_exports l v1 v2 v3 v4 v5 x1 x2 x3 x4 x5 :
  room 5 8 l ->
  block_exports (b_atad build) [CfgInt 0; CfgInt 1] (l_world l) v1 x1 ->
  block_exports (b_mcman build) [CfgInt 0; CfgInt 1] x1 v2 x2 ->
  block_exports (b_memory build) [CfgMemory (iopram QueryMemSize); CfgMemory bios] x2 v3 x3 ->
  block_exports (b_bdm build) [CfgNull] x3 v4 x4 ->
  block_exports (b_pcmstream build) [CfgPcm pcmc] x4 v5 x5 ->
  exists l', config_plugins l = Ok l' /\ lib_ok l' /\ l_world l' = x5 /\
    exports l' = exports l ++ v1 ++ v2 ++ v3 ++ v4 ++ v5.
Proof.
  intros Hr H1 H2 H3 H4 H5. unfold config_plugins.
  destruct (add_exports_spec _ _ _ _ l 4 6 H1 Hr) as (l1 & -> & Hr1 & Hw1 & He1). mred.
  rewrite <- Hw1 in H2. destruct (add_exports_spec _ _ _ _ l1 3 4 H2 Hr1) as (l2 & -> & Hr2 & Hw2 & He2). mred.
  rewrite <- Hw2 in H3. destruct (add_exports_spec _ _ _ _ l2 2 2 H3 Hr2) as (l3 & -> & Hr3 & Hw3 & He3). mred.
  rewrite <- Hw3 in H4. destruct (add_exports_spec _ _ _ _ l3 1 1 H4 Hr3) as (l4 & -> & Hr4 & Hw4 & He4). mred.
  rewrite <- Hw4 in H5. destruct (add_exports_spec _ _ _ _ l4 0 0 H5 Hr4) as (l5 & -> & Hr5 & Hw5 & He5).
  exists l5. split; [done|]. split; [by destruct Hr5|]. split; [done|].
  rewrite He5, He4, He3, He2, He1. app_eq.
Qed.

(** *** Remote control *)

(** A sequence of remote calls and their answers. *)
Fixpoint rpc_run (ks : list (Z * lwnbd_config)) w : outcome (list rpc_answer * irx_world S W) :=
  match ks with
  | [] => Ok ([], w)
  | (fno, conf) :: ks =>
      '(x, w) ← lwnbd_rpc_handler fno conf w;
      '(xs, w) ← rpc_run ks w;
      Ok (x :: xs, w)
  end.

(** What the configuration of the module consists of. *)
Definition configuration w := (i_lib w, r_servers (i_reg w), r_status (i_reg w), i_httpsrv w).

Lemma rpc_keeps_configuration fno conf w :
  i_configured w <> 0 ->
  exists x w', lwnbd_rpc_handler fno conf w = Ok (x, w') /\
    configuration w' = configuration w /\ i_configured w' = i_configured w.
Proof.
  intros Hc. unfold lwnbd_rpc_handler, lwnbd_server_cmd_start, kernel.
  destruct (fno =? LWNBD_SERVER_CMD_START).
  - rewrite (proj2 (Z.eqb_neq _ _) Hc). mred. destruct (CreateThread _ _) as [tid s].
    cbn [i_nbdThreadID]. destruct (0 <? tid); [|by eexists _, _].
    destruct (StartThread _ _ _) as [r s']. by eexists _, _.
  - destruct (fno =? LWNBD_SERVER_CMD_STOP); [|by eexists _, _].
    destruct (TerminateThread _ _) as [r s]. destruct (DeleteThread _ _) as [r' s'].
    by eexists _, _.
Qed.

(** The first START configures the module; whatever calls follow and whatever
    configurations they carry, they are all answered and neither the exports
    nor the servers change any more. *)
Theorem irx_configured_once conf ks w w0 :
  i_configured w = 0 -> config conf w = Ok (0, w0) ->
  exists xs w', rpc_run ((LWNBD_SERVER_CMD_START, conf) :: ks) w = Ok (xs, w') /\
    length xs = (1 + length ks)%nat /\ configuration w' = configuration w0.
Proof.
  intros Hc Hcfg. cbn [rpc_run]. set (w1 := mk_irx (i_reg w0) (i_lib w0) (i_sifrpcsrv w0) (i_httpsrv w0) (i_nbdThreadID w0) 1).
  assert (lwnbd_rpc_handler LWNBD_SERVER_CMD_START conf w = lwnbd_rpc_handler LWNBD_SERVER_CMD_START conf w1) as ->.
  { unfold lwnbd_rpc_handler, lwnbd_server_cmd_start. cbn [Z.eqb LWNBD_SERVER_CMD_START].
    rewrite Hc. cbn [Z.eqb]. by rewrite Hcfg. }
  destruct (rpc_keeps_configuration LWNBD_SERVER_CMD_START conf w1) as (x & w2 & -> & Hw2 & Hc2); [done|]. mred.
  change (configuration w0) with (configuration w1). rewrite <- Hw2.
  assert (i_configured w2 <> 0) as Hne by (by rewrite Hc2).
  assert (exists xs w', rpc_run ks w2 = Ok (xs, w') /\ length xs = length ks /\
    configuration w' = configuration w2) as (xs & w' & -> & Hl & Hcf).
  { clear -Hne. revert w2 Hne. induction ks as [|[fno cf] ks IH]; intros w2 Hne; cbn [rpc_run].
    - by exists [], w2.
    - destruct (rpc_keeps_configuration fno cf w2 Hne) as (x & w3 & -> & Hw3 & Hc3). mred.
      destruct (IH w3) as (xs & w' & -> & Hl & Hcf); [by rewrite Hc3|]. mred.
      exists (x :: xs), w'. cbn. split_and!; [done|by rewrite Hl|by rewrite Hcf]. }
  mred. exists (x :: xs), w'. cbn. by rewrite Hl.
Qed.

(** The answer to STOP is read from a variable that was never written. *)
Lemma rpc_stop_answer_indeterminate conf w :
  exists w', lwnbd_rpc_handler LWNBD_SERVER_CMD_STOP conf w = Ok (LocalRet None, w').
Proof.
  unfold lwnbd_rpc_handler. cbn [Z.eqb LWNBD_SERVER_CMD_START LWNBD_SERVER_CMD_STOP].
  destruct (kernel _ w) as [r s]. destruct (kernel _ s) as [r' s']. by eexists.
Qed.

(** *** The module's own server *)

Context {K : Type} (CreateThread' : iop_thread -> K -> Z * K)
  (StartThread' : Z -> thread_arg -> K -> Z * K) (TerminateThread' DeleteThread' : Z -> K -> Z * K)
  (get : S -> sif_world F K) (put : sif_world F K -> S -> S)
  (handler_of : irx_server_cfg F -> sifrpc_handler_t F) (stack : Z).

(** C35: the module never starts: the server structure of [sifrpc.c] has no [new],
    the registry refuses it with [(uint32_t)-1], the test for a negative number
    does not see it, and the next call indexes the table of servers with it. *)
Theorem irx_start_out_of_bounds w :
  server_mem sifrpc
    = sifrpc_server_struct CreateThread' StartThread' TerminateThread' DeleteThread' get put handler_of stack ->
  registry_ok server_mem (i_reg w) ->
  irx_start w = Fault OutOfBounds.
Proof.
  intros Hs (Hlen & _). unfold irx_start.
  rewrite (sifrpc_never_initialised _ _ _ _ _ _ _ _ _ _ _ Hs). cbn [i_sifrpcsrv i_reg Z.ltb Z.compare].
  unfold lwnbd_server_new, server_of. rewrite lookup_ge_None_2; [done|].
  rewrite Hlen. unfold MAX_NUM_SERVERS. lia.
Qed.
End irx.
