(* ===== verification/EeHelper.v ===== *)
(** * Booting the console: [ports/playstation2/ee/ee-helper.c], [connman.c]

    [init_platform] resets the I/O processor, loads the modules the plugins and
    the network need in a fixed order and asks for an address.  The calls of
    the SDK, over its state [K], are parameters. *)

From S2P Require Export Prelude.

(** The modules [ee_lib.h] declares as linked into the program; nothing loads
    [usbhdfsd_irx]. *)
Inductive irx_module :=
  | sio2man_irx | libsd_irx | audsrv_irx | ps2ip_irx | udptty_irx | poweroff_irx | mcman_irx
  | ps2dev9_irx | ps2atad_irx | usbd_irx | usbhdfsd_irx | netman_irx | smap_irx | ps2ip_nm_irx.

#[export] Instance irx_module_eq_dec : EqDecision irx_module.
Proof. solve_decision. Defined.

(** In the order of the calls. *)
Definition modules : list irx_module :=
  [sio2man_irx; libsd_irx; audsrv_irx; ps2ip_irx; udptty_irx; poweroff_irx; mcman_irx;
   ps2dev9_irx; ps2atad_irx; usbd_irx; netman_irx; smap_irx; ps2ip_nm_irx].

Section ee.
Context {K I : Type}.
Context (SifInitRpc : Z -> K -> K) (SifIopReset SifIopSync : K -> Z * K).
Context (sbv_patch_enable_lmb sbv_patch_disable_prefix_check : K -> K).
Context (SifExecModuleBuffer : irx_module -> K -> Z * K).
(** The network manager; [I] is [t_ip_info]. *)
Context (NetManInit : K -> K) (ps2ip_getconfig : K -> Z * I * K) (ps2ip_setconfig : I -> K -> Z * K).
Context (set_dhcp_enabled : Z -> I -> I).
(** [!defined(DEBUG) || defined(BUILD_FOR_PCSX2)] *)
Context (reset_iop : bool).

Definition set_ipconfig (k : K) : Z * K :=
  let k := NetManInit k in
  let '(result, ip_info, k) := ps2ip_getconfig k in
  if 0 <=? result then ps2ip_setconfig (set_dhcp_enabled 1 ip_info) k else (-1, k).

(** [while (!f()) {};] *)
Fixpoint wait_for (fuel : nat) (f : K -> Z * K) (k : K) : outcome K :=
  match fuel with
  | O => Fault OutOfFuel
  | S fuel => let '(r, k) := f k in if r =? 0 then wait_for fuel f k else Ok k
  end.

(** One [SifExecModuleBuffer] with its test per module; [true] when all of
    them were loaded. *)
Fixpoint load_modules (ms : list irx_module) (k : K) : bool * K :=
  match ms with
  | [] => (true, k)
  | m :: ms =>
      let '(ret, k) := SifExecModuleBuffer m k in
      if ret <? 0 then (false, k) else load_modules ms k
  end.

Definition init_platform (fuel : nat) (k : K) : outcome (Z * K) :=
  let k := SifInitRpc 0 k in
  k ← (if reset_iop then wait_for fuel SifIopReset k else Ok k);
  k ← wait_for fuel SifIopSync k;
  let k := SifInitRpc 0 k in
  let k := sbv_patch_enable_lmb k in
  let k := sbv_patch_disable_prefix_check k in
  let '(loaded, k) := load_modules modules k in
  if negb loaded then Ok (-1, k)
  else
    let '(ret, k) := set_ipconfig k in
    if ret <? 0 then Ok (-1, k) else Ok (0, k).

(** ** Properties *)

(** [loaded]: the modules running on the I/O processor; [configured]: how often
    an address was asked for; a reset forgets nothing the program loaded, it
    comes first. *)
Record iop_state (loaded : K -> list irx_module) (configured : K -> nat) : Prop := {
  io_exec m k : let '(ret, k') := SifExecModuleBuffer m k in
    loaded k' = loaded k ++ (if decide (0 <= ret) then [m] else []) /\ configured k' = configured k;
  io_netman k : loaded (NetManInit k) = loaded k /\ configured (NetManInit k) = configured k;
  io_get k : let '(_, _, k') := ps2ip_getconfig k in loaded k' = loaded k /\ configured k' = configured k;
  io_set i k : let '(_, k') := ps2ip_setconfig i k in
    loaded k' = loaded k /\ configured k' = S (configured k)
}.

Context (loaded : K -> list irx_module) (configured : K -> nat) (HK : iop_state loaded configured).

Lemma load_modules_spec ms k :
  let '(ok, k') := load_modules ms k in
  configured k' = configured k /\
  exists l1 l2, ms = l1 ++ l2 /\ loaded k' = loaded k ++ l1 /\ (ok = true <-> l2 = []).
Proof.
  revert k; induction ms as [|m ms IH]; intros k; cbn [load_modules].
  - split; [done|]. exists [], []. rewrite !app_nil_r. do 2 (split; [done|]). by split.
  - pose proof (io_exec _ _ HK m k) as H. destruct (SifExecModuleBuffer m k) as [ret k1].
    destruct H as [Hl Hc]. case (Z.ltb_spec ret 0) as [Hr|Hr].
    + rewrite decide_False in Hl by lia. split; [done|]. exists [], (m :: ms).
      do 2 (split; [done|]). by split.
    + rewrite decide_True in Hl by lia. specialize (IH k1).
      destruct (load_modules ms k1) as [ok k2]. destruct IH as (Hc2 & l1 & l2 & -> & Hl2 & Hok).
      split; [congruence|]. exists (m :: l1), l2. split; [done|]. split; [|done].
      rewrite Hl2, Hl. app_eq.
Qed.

Lemma set_ipconfig_spec k :
  let '(r, k') := set_ipconfig k in
  loaded k' = loaded k /\ (configured k <= configured k' <= S (configured k))%nat /\
  (0 <= r -> configured k' = S (configured k)).
Proof.
  unfold set_ipconfig. destruct (io_netman _ _ HK k) as [H1 H2].
  pose proof (io_get _ _ HK (NetManInit k)) as H3.
  destruct (ps2ip_getconfig _) as [[res i] k2]. destruct H3 as [H3 H4].
  case (Z.leb_spec 0 res) as [Hr|Hr]; [|split_and!; [congruence|lia|lia|lia]].
  pose proof (io_set _ _ HK (set_dhcp_enabled 1 i) k2) as H5.
  destruct (ps2ip_setconfig _ k2) as [r k3]. destruct H5 as [H5 H6].
  split_and!; [congruence|lia|lia|lia].
Qed.

(** What was loaded before does not depend on the waiting. *)
Definition waits (fuel : nat) (k k' : K) : Prop :=
  (if reset_iop then wait_for fuel SifIopReset (SifInitRpc 0 k) else Ok (SifInitRpc 0 k))
    ≫= (fun k => wait_for fuel SifIopSync k) = Ok k'.

(** Booting loads a prefix of the thirteen modules, in order.  It succeeds only
    with all of them and the network configured once; a module that is refused
    stops it with [-1] and nothing after it, the network included, is
    touched. *)
Theorem init_platform_order fuel k k0 :
  waits fuel k k0 ->
  let k1 := sbv_patch_disable_prefix_check (sbv_patch_enable_lmb (SifInitRpc 0 k0)) in
  exists r k', init_platform fuel k = Ok (r, k') /\ (r = 0 \/ r = -1) /\
    exists l1 l2, modules = l1 ++ l2 /\ loaded k' = loaded k1 ++ l1 /\
      (l2 <> [] -> r = -1 /\ configured k' = configured k1) /\
      (r = 0 -> l1 = modules /\ configured k' = S (configured k1)).
Proof.
  intros Hw k1. unfold init_platform, waits in *. apply bind_Ok in Hw as (ka & Ha & Hb).
  rewrite Ha. mred. rewrite Hb. mred. fold k1.
  pose proof (load_modules_spec modules k1) as H. destruct (load_modules modules k1) as [ok k2].
  destruct H as (Hc & l1 & l2 & Hm & Hl & Hok). destruct ok; cbn [negb].
  - pose proof (set_ipconfig_spec k2) as Hs. destruct (set_ipconfig k2) as [r k3].
    destruct Hs as (Hs1 & Hs2 & Hs3). assert (l2 = []) as -> by tauto. rewrite app_nil_r in Hm.
    case (Z.ltb_spec r 0) as [Hr|Hr].
    + exists (-1), k3. split; [done|]. split; [by right|]. exists l1, [].
      rewrite app_nil_r. split_and!; [done|congruence|done|lia].
    + exists 0, k3. split; [done|]. split; [by left|]. exists l1, [].
      rewrite app_nil_r. split_and!; [done|congruence|done|]. intros _. split; [done|].
      rewrite Hs3, Hc by done. done.
  - exists (-1), k2. split; [done|]. split; [by right|]. exists l1, l2.
    split_and!; [done|done|done|lia].
Qed.

(** A boot that succeeds has loaded them all. *)
Lemma init_platform_loaded fuel k k' :
  init_platform fuel k = Ok (0, k') -> exists l, loaded k' = l ++ modules.
Proof.
  intros Hrun. unfold init_platform in Hrun. apply bind_Ok in Hrun as (ka & _ & Hrun).
  apply bind_Ok in Hrun as (k0 & _ & Hrun). cbv zeta in Hrun.
  set (k1 := sbv_patch_disable_prefix_check (sbv_patch_enable_lmb (SifInitRpc 0 k0))) in *.
  pose proof (load_modules_spec modules k1) as H. destruct (load_modules modules k1) as [ok k2].
  destruct H as (_ & l1 & l2 & Hm & Hl & Hok). destruct ok; [|done]. cbn [negb] in Hrun.
  rewrite (proj1 Hok eq_refl), app_nil_r in Hm.
  pose proof (set_ipconfig_spec k2) as Hs. destruct (set_ipconfig k2) as [r k3]. destruct Hs as [Hs _].
  exists (loaded k1). destruct (r <? 0); simplify_eq. by rewrite Hs, Hl.
Qed.
End ee.
