(* ===== verification/IopImports.v ===== *)
(** * What the module of the I/O processor is linked against:
    [ports/playstation2/iop/imports.c] and [exports.c]

    The module has a table per library it imports from, each with the functions
    it wants; which tables it has follows its configuration.  What the console's
    loader makes of them is not modelled. *)

From S2P Require Export Prelude.

(** The options [imports.c] asks for. *)
Record iop_config := mk_iop_config {
  CONFIG_PLUGIN_ATAD : bool;
  CONFIG_PLUGIN_BDM : bool;
  CONFIG_PLUGIN_TTY : bool;
  CONFIG_NET : bool;
  CONFIG_PLUGIN_MEMORY : bool;
  CONFIG_PLUGIN_PCMSTREAM : bool;
  CONFIG_PLUGIN_MCMAN : bool
}.

(** The libraries, by the prefix of their macros. *)
Inductive iop_library :=
  | atad | bdm | iomanX | intrman | loadcore | ps2ip | thbase | thevent | thsemap | ssbusc
  | audsrv | sifcmd | sysmem | stdio | sysclib | xmcman.

#[export] Instance iop_library_eq_dec : EqDecision iop_library.
Proof. solve_decision. Defined.

Record import_table := mk_imports { im_library : iop_library; im_functions : list (list byte) }.

(** The tables. *)

Definition atad_IMPORTS : import_table := mk_imports atad
  [bs "ata_device_flush_cache"; bs "ata_device_sce_identify_drive"; bs "ata_device_sector_io";
   bs "ata_get_devinfo"].

Definition bdm_IMPORTS : import_table := mk_imports bdm
  [bs "bdm_connect_bd"; bs "bdm_disconnect_bd"; bs "bdm_get_bd"].

Definition iomanX_IMPORTS : import_table := mk_imports iomanX
  [bs "AddDrv"; bs "close"; bs "DelDrv"; bs "GetDeviceList"; bs "getstat"; bs "open"; bs "write"].

Definition intrman_IMPORTS : import_table := mk_imports intrman
  [bs "CpuEnableIntr"; bs "CpuSuspendIntr"; bs "CpuResumeIntr"].

Definition loadcore_IMPORTS : import_table := mk_imports loadcore
  [bs "RegisterLibraryEntries"; bs "ReleaseLibraryEntries"].

Definition ps2ip_IMPORTS : import_table := mk_imports ps2ip
  [bs "lwip_accept"; bs "lwip_bind"; bs "lwip_close"; bs "lwip_listen"; bs "lwip_recv";
   bs "lwip_send"; bs "lwip_setsockopt"; bs "lwip_socket"].

Definition thbase_IMPORTS : import_table := mk_imports thbase
  [bs "CreateThread"; bs "DeleteThread"; bs "GetThreadId"; bs "StartThread"; bs "TerminateThread"].

Definition thevent_IMPORTS : import_table := mk_imports thevent
  [bs "CreateEventFlag"; bs "DeleteEventFlag"; bs "SetEventFlag"; bs "WaitEventFlag"].

Definition thsemap_IMPORTS : import_table := mk_imports thsemap
  [bs "CreateSema"; bs "DeleteSema"; bs "SignalSema"; bs "WaitSema"].

Definition ssbusc_IMPORTS : import_table := mk_imports ssbusc
  [bs "GetBaseAddress"; bs "GetDelay"].

Definition audsrv_IMPORTS : import_table := mk_imports audsrv
  [bs "audsrv_init"; bs "audsrv_play_audio"; bs "audsrv_quit"; bs "audsrv_set_format";
   bs "audsrv_set_volume"; bs "audsrv_wait_audio"].

Definition sifcmd_IMPORTS : import_table := mk_imports sifcmd
  [bs "isceSifSendCmd"; bs "sceSifInitRpc"; bs "sceSifSetRpcQueue"; bs "sceSifRegisterRpc";
   bs "sceSifRpcLoop"; bs "sceSifBindRpc"; bs "sceSifCallRpc"].

Definition sysmem_IMPORTS : import_table := mk_imports sysmem
  [bs "AllocSysMemory"; bs "FreeSysMemory"; bs "QueryMemSize"].

Definition stdio_IMPORTS : import_table := mk_imports stdio
  [bs "printf"].

Definition sysclib_IMPORTS : import_table := mk_imports sysclib
  [bs "memcpy"; bs "memset"; bs "sprintf"; bs "strchr"; bs "strcmp"; bs "strcpy"; bs "strlen";
   bs "strncmp"; bs "strncpy"; bs "toupper"].

Definition xmcman_IMPORTS : import_table := mk_imports xmcman
  [bs "McDataChecksum"; bs "McDetectCard2"; bs "McEraseBlock2"; bs "McFlushCache"; bs "McGetCardSpec";
   bs "McGetMcType"; bs "McReadCluster"; bs "McReadPage"; bs "McWritePage"].

Definition when (b : bool) (t : import_table) : list import_table := if b then [t] else [].

(** In the order of the file. *)
Definition imports (c : iop_config) : list import_table :=
  when (CONFIG_PLUGIN_ATAD c) atad_IMPORTS ++ when (CONFIG_PLUGIN_BDM c) bdm_IMPORTS ++
  when (CONFIG_PLUGIN_TTY c) iomanX_IMPORTS ++ [intrman_IMPORTS; loadcore_IMPORTS] ++
  when (CONFIG_NET c) ps2ip_IMPORTS ++ [thbase_IMPORTS; thevent_IMPORTS; thsemap_IMPORTS] ++
  when (CONFIG_PLUGIN_MEMORY c) ssbusc_IMPORTS ++ when (CONFIG_PLUGIN_PCMSTREAM c) audsrv_IMPORTS ++
  [sifcmd_IMPORTS; sysmem_IMPORTS; stdio_IMPORTS; sysclib_IMPORTS] ++
  when (CONFIG_PLUGIN_MCMAN c) xmcman_IMPORTS.

(** The functions other modules can call, by position: [exports.c]. *)
Definition exports : list (list byte) := [bs "_start"; bs "_retonly"; bs "_shutdown"; bs "_retonly"; bs "_retonly"].

Definition libraries (c : iop_config) : list iop_library := im_library <$> imports c.
Definition functions (c : iop_config) : list (list byte) := imports c ≫= im_functions.

(** [configs/opl_defconfig] *)
Definition opl_defconfig : iop_config := mk_iop_config true false false true true true true.

(** ** The tables *)

Definition booleans : list bool := [true; false].

Definition configurations : list iop_config :=
  a ← booleans; b ← booleans; t ← booleans; n ← booleans; m ← booleans; p ← booleans; x ← booleans;
  [mk_iop_config a b t n m p x].

Lemma every_configuration c : c ∈ configurations.
Proof.
  assert (forall b : bool, b ∈ booleans) as H by (intros []; unfold booleans; [left|right; left]).
  destruct c as [a b t n m p x]. unfold configurations.
  repeat (apply list_elem_of_bind; eexists; split; [|apply H]). by apply list_elem_of_singleton.
Qed.

(** What holds of the configurations one by one. *)
Lemma by_configurations (P : iop_config -> Prop) `{!forall c, Decision (P c)} :
  bool_decide (Forall P configurations) = true -> forall c, P c.
Proof.
  intros Hall%bool_decide_eq_true c. destruct (list_elem_of_lookup_1 _ _ (every_configuration c)) as [i Hi].
  exact (Forall_lookup_1 _ _ _ _ Hall Hi).
Qed.

Ltac each_configuration :=
  match goal with |- forall c, @?P c => apply (by_configurations P) end; vm_compute; reflexivity.

(** In no configuration is a library imported from in two tables or a function
    wanted from two libraries; [strtok], [time] and [vsnprintf], which
    [plugins/command/builtin.c], [src/servers.c] and [src/log.c] call, are
    wanted in none; and [GetDelay], which [ioplib.c] calls in all of them, only
    with the memory plugin. *)
Theorem imports_once c :
  NoDup (libraries c) /\ NoDup (functions c) /\
  Forall (fun f => f ∉ functions c) [bs "strtok"; bs "time"; bs "vsnprintf"] /\
  (bs "GetDelay" ∈ functions c <-> CONFIG_PLUGIN_MEMORY c = true).
Proof. revert c. each_configuration. Qed.

(** The libraries of every configuration, and those a configuration adds; the
    module of a configuration with the terminal wants [iomanX], one with the
    block devices [bdm]. *)
Definition common_libraries : list iop_library :=
  [intrman; loadcore; thbase; thevent; thsemap; sifcmd; sysmem; stdio; sysclib].

Definition optional_libraries (c : iop_config) : list (bool * iop_library) :=
  [(CONFIG_PLUGIN_ATAD c, atad); (CONFIG_PLUGIN_BDM c, bdm); (CONFIG_PLUGIN_TTY c, iomanX); (CONFIG_NET c, ps2ip);
   (CONFIG_PLUGIN_MEMORY c, ssbusc); (CONFIG_PLUGIN_PCMSTREAM c, audsrv); (CONFIG_PLUGIN_MCMAN c, xmcman)].

Lemma libraries_needed c l :
  l ∈ libraries c <-> l ∈ common_libraries \/ (true, l) ∈ optional_libraries c.
Proof. revert c. destruct l; each_configuration. Qed.
