(* ===== verification/Loader.v ===== *)
(** * The ELF loader sketch: [ports/playstation2/ee/loader.c]

    A command that replaces the running program by the ELF image linked into
    it: the segments are copied in place, from RAM to RAM.  The image is part
    of the RAM it overwrites, so the loop reads its headers from the RAM of
    that moment.  The layout of [elf.h], which is the SDK's, is a parameter. *)

From S2P Require Export Prelude.

Definition ELF_MAGIC : Z := 0x464c457f.
Definition ELF_PT_LOAD : Z := 1.

(** ** [wipe_bramMem] *)

(** Four 16-byte stores of zero. *)
Definition wipe_line (i : nat) (ram : list byte) : outcome (list byte) :=
  ram ← store_at i (replicate 16 x00) ram;
  ram ← store_at (i + 16) (replicate 16 x00) ram;
  ram ← store_at (i + 32) (replicate 16 x00) ram;
  store_at (i + 48) (replicate 16 x00) ram.

(** [for (i = 0x00084000; i < 0x100000; i += 64)], [n] turns from [i]. *)
Fixpoint wipe_loop (n i : nat) (ram : list byte) : outcome (list byte) :=
  match n with
  | O => Ok ram
  | S n => ram ← wipe_line i ram; wipe_loop n (i + 64) ram
  end.

Definition wipe_start : nat := Z.to_nat 0x84000.
Definition wipe_turns : nat := Z.to_nat ((0x100000 - 0x84000) / 64).

Definition wipe_bramMem (ram : list byte) : outcome (list byte) := wipe_loop wipe_turns wipe_start ram.

(** ** [loadelf] *)

(** [elf_header_t] and [elf_pheader_t]: their sizes and fields. *)
Record elf_layout := mk_layout {
  sizeof_eh : nat; sizeof_ph : nat;
  eh_ident : list byte -> Z; eh_phoff : list byte -> nat; eh_phnum : list byte -> nat;
  eh_entry : list byte -> Z;
  ph_type : list byte -> Z; ph_offset : list byte -> nat; ph_vaddr : list byte -> nat;
  ph_filesz : list byte -> nat; ph_memsz : list byte -> nat
}.

(** What the loader asks of the kernel. *)
Inductive ee_call := SifExitRpc | FlushCache (op : Z) | ExecPS2 (entry argc : Z).

Section loader.
Context (elf : elf_layout).
(** The address of [loader_elf]. *)
Context (boot_elf : nat).

(** [memcpy] from the image, then [memset] of the rest of the segment. *)
Definition load_segment (ph ram : list byte) : outcome (list byte) :=
  if negb (ph_type elf ph =? ELF_PT_LOAD) then Ok ram
  else
    pdata ← load_at (boot_elf + ph_offset elf ph) (ph_filesz elf ph) ram;
    ram ← store_at (ph_vaddr elf ph) pdata ram;
    if (ph_filesz elf ph <? ph_memsz elf ph)%nat
    then store_at (ph_vaddr elf ph + ph_filesz elf ph)
           (replicate (ph_memsz elf ph - ph_filesz elf ph) x00) ram
    else Ok ram.

Definition elf_header (ram : list byte) : outcome (list byte) := load_at boot_elf (sizeof_eh elf) ram.

(** [eph[i]], [eph] being computed once, before the loop. *)
Definition program_header (eph i : nat) (ram : list byte) : outcome (list byte) :=
  load_at (eph + i * sizeof_ph elf) (sizeof_ph elf) ram.

Fixpoint segments_loop (fuel eph i : nat) (ram : list byte) : outcome (list byte) :=
  match fuel with
  | O => Fault OutOfFuel
  | S fuel =>
      eh ← elf_header ram;
      if (i <? eh_phnum elf eh)%nat then
        ph ← program_header eph i ram;
        ram ← load_segment ph ram;
        segments_loop fuel eph (1 + i) ram
      else Ok ram
  end.

(** [None] is the break instruction of a wrong magic number. *)
Definition loadelf (fuel : nat) (argc : Z) (ram : list byte)
  : outcome (option (list ee_call) * list byte) :=
  eh ← elf_header ram;
  if negb (eh_ident elf eh =? ELF_MAGIC) then Ok (None, ram)
  else
    ram ← segments_loop fuel (boot_elf + eh_phoff elf eh) 0 ram;
    eh ← elf_header ram;
    Ok (Some [SifExitRpc; FlushCache 0; FlushCache 2; ExecPS2 (eh_entry elf eh) (argc + 2)], ram).

(** ** Properties *)

Lemma splice_zeros off n m (ram : list byte) :
  (off + n + m <= length ram)%nat ->
  splice (off + n) (replicate m x00) (splice off (replicate n x00) ram)
  = splice off (replicate (n + m) x00) ram.
Proof.
  intros. rewrite replicate_add, splice_app by (rewrite !length_replicate; lia).
  by rewrite length_replicate.
Qed.

Lemma wipe_line_spec i ram :
  (i + 64 <= length ram)%nat -> wipe_line i ram = Ok (splice i (replicate 64 x00) ram).
Proof.
  intros Hi. unfold wipe_line.
  assert (forall n, (n <= 48)%nat ->
    store_at (i + n) (replicate 16 x00) (splice i (replicate n x00) ram)
    = Ok (splice i (replicate (n + 16) x00) ram)) as Hst.
  { intros n Hn. rewrite store_at_fits, splice_zeros; [done|lia|].
    rewrite length_splice, !length_replicate by (rewrite length_replicate; lia). lia. }
  rewrite store_at_fits by (rewrite length_replicate; lia). mred.
  rewrite (Hst 16%nat) by lia. mred. change (16 + 16)%nat with 32%nat. rewrite (Hst 32%nat) by lia. mred.
  change (32 + 16)%nat with 48%nat. by rewrite (Hst 48%nat) by lia.
Qed.

Lemma wipe_loop_spec n i ram :
  (i + n * 64 <= length ram)%nat -> wipe_loop n i ram = Ok (splice i (replicate (n * 64) x00) ram).
Proof.
  revert i ram; induction n as [|n IH]; intros i ram Hi; cbn [wipe_loop].
  - cbn [Nat.mul replicate]. by rewrite splice_nil.
  - rewrite wipe_line_spec by lia. mred. rewrite IH, splice_zeros; [done|lia|].
    rewrite length_splice; rewrite ?length_replicate; lia.
Qed.

(** [wipe_bramMem] zeroes the range from 0x84000 to 0x100000 and nothing
    else. *)
Lemma wipe_bramMem_zeroes ram :
  0x100000 <= Z.of_nat (length ram) ->
  wipe_bramMem ram = Ok (splice (Z.to_nat 0x84000) (replicate (Z.to_nat 0x7c000) x00) ram).
Proof.
  intros Hl. unfold wipe_bramMem, wipe_turns, wipe_start. change ((0x100000 - 0x84000) / 64) with 7936.
  replace (Z.to_nat 0x7c000) with (Z.to_nat 7936 * 64)%nat by lia. apply wipe_loop_spec. lia.
Qed.

(** The loader read from the image as it was: the segments of [ram0] placed one
    after the other. *)
Definition segment_image (ram0 ph : list byte) : list byte :=
  slice (boot_elf + ph_offset elf ph) (ph_filesz elf ph) ram0
    ++ replicate (ph_memsz elf ph - ph_filesz elf ph) x00.

Definition place (ram0 ram ph : list byte) : list byte :=
  if decide (ph_type elf ph = ELF_PT_LOAD) then splice (ph_vaddr elf ph) (segment_image ram0 ph) ram else ram.

Definition image_header (ram0 : list byte) : list byte := slice boot_elf (sizeof_eh elf) ram0.

Definition image_headers (ram0 : list byte) : list (list byte) :=
  (fun i => slice (boot_elf + eh_phoff elf (image_header ram0) + i * sizeof_ph elf) (sizeof_ph elf) ram0)
    <$> seq 0 (eh_phnum elf (image_header ram0)).

(** A segment whose file part is in the image, and whose memory is RAM outside
    the image. *)
Definition segment_ok (size n : nat) (ph : list byte) : Prop :=
  ph_type elf ph = ELF_PT_LOAD ->
  let len := (ph_filesz elf ph + (ph_memsz elf ph - ph_filesz elf ph))%nat in
  (ph_offset elf ph + ph_filesz elf ph <= size)%nat /\ (ph_vaddr elf ph + len <= n)%nat /\
  (ph_vaddr elf ph + len <= boot_elf \/ boot_elf + size <= ph_vaddr elf ph)%nat.

(** The image is in RAM, complete, and its magic number is right. *)
Record image_ok (size : nat) (ram0 : list byte) : Prop := {
  io_ram : (boot_elf + size <= length ram0)%nat;
  io_header : (sizeof_eh elf <= size)%nat;
  io_magic : eh_ident elf (image_header ram0) = ELF_MAGIC;
  io_headers : (eh_phoff elf (image_header ram0)
    + eh_phnum elf (image_header ram0) * sizeof_ph elf <= size)%nat;
  io_segments : Forall (segment_ok size (length ram0)) (image_headers ram0)
}.

Section image.
Context (size : nat) (ram0 : list byte) (Hok : image_ok size ram0).

(** The RAM still holds the image. *)
Definition intact (ram : list byte) : Prop :=
  length ram = length ram0 /\ slice boot_elf size ram = slice boot_elf size ram0.

Lemma intact_slice b m ram :
  intact ram -> (b + m <= size)%nat -> load_at (boot_elf + b) m ram = Ok (slice (boot_elf + b) m ram0).
Proof.
  intros [Hl Hs] Hb. pose proof (io_ram _ _ Hok). rewrite load_at_fits by lia.
  by rewrite <- !(slice_slice boot_elf size b m), Hs by lia.
Qed.

Lemma length_segment_image ph :
  (ph_offset elf ph + ph_filesz elf ph <= size)%nat ->
  length (segment_image ram0 ph) = (ph_filesz elf ph + (ph_memsz elf ph - ph_filesz elf ph))%nat.
Proof.
  intros Hp. pose proof (io_ram _ _ Hok). unfold segment_image.
  by rewrite length_app, length_replicate, length_slice by lia.
Qed.

Lemma place_intact ph ram :
  segment_ok size (length ram0) ph -> intact ram -> intact (place ram0 ram ph).
Proof.
  intros Hseg [Hl Hs]. unfold place. case_decide as Ht; [|done].
  destruct (Hseg Ht) as (Hf & Hv & Hd). pose proof (io_ram _ _ Hok).
  pose proof (length_segment_image ph Hf) as Hi. split.
  - rewrite length_splice; lia.
  - rewrite slice_splice_disjoint by lia. done.
Qed.

Lemma load_segment_spec ph ram :
  segment_ok size (length ram0) ph -> intact ram -> load_segment ph ram = Ok (place ram0 ram ph).
Proof.
  intros Hseg Hin. unfold load_segment, place. case_decide as Ht.
  - rewrite (proj2 (Z.eqb_eq _ _) Ht). cbn [negb]. destruct (Hseg Ht) as (Hf & Hv & Hd).
    rewrite intact_slice by done. mred. destruct Hin as [Hl _]. pose proof (io_ram _ _ Hok).
    assert (length (slice (boot_elf + ph_offset elf ph) (ph_filesz elf ph) ram0) = ph_filesz elf ph)
      as Hlen by (apply length_slice; lia).
    rewrite store_at_fits by lia. mred. unfold segment_image.
    case (Nat.ltb_spec (ph_filesz elf ph) (ph_memsz elf ph)) as [Hm|Hm].
    + rewrite splice_app by (rewrite Hlen, length_replicate; lia). rewrite Hlen.
      apply store_at_fits. rewrite length_splice, length_replicate by lia. lia.
    + replace (ph_memsz elf ph - ph_filesz elf ph)%nat with O by lia. by rewrite app_nil_r.
  - by rewrite (proj2 (Z.eqb_neq _ _) Ht).
Qed.

Lemma segments_loop_spec k i ram fuel :
  intact ram -> (i + k = eh_phnum elf (image_header ram0))%nat -> (k < fuel)%nat ->
  exists ram', segments_loop fuel (boot_elf + eh_phoff elf (image_header ram0)) i ram = Ok ram' /\
    ram' = foldl (place ram0) ram (drop i (image_headers ram0)) /\ intact ram'.
Proof.
  pose proof (io_headers _ _ Hok) as Hhs. pose proof (io_header _ _ Hok) as Hh.
  assert (forall r, intact r -> elf_header r = Ok (image_header ram0)) as Heh.
  { intros r Hr. unfold elf_header, image_header. rewrite <- (Nat.add_0_r boot_elf). by apply intact_slice. }
  revert i ram fuel. induction k as [|k IH]; intros i ram fuel Hin Hik Hf;
    (destruct fuel as [|fuel]; [lia|]); cbn [segments_loop]; rewrite Heh by done; mred.
  - rewrite (proj2 (Nat.ltb_ge _ _)) by lia. eexists. split; [done|].
    rewrite drop_ge by (unfold image_headers; rewrite length_fmap, length_seq; lia). done.
  - rewrite (proj2 (Nat.ltb_lt _ _)) by lia.
    assert (image_headers ram0 !! i
      = Some (slice (boot_elf + eh_phoff elf (image_header ram0) + i * sizeof_ph elf) (sizeof_ph elf) ram0))
      as Hi by (unfold image_headers; rewrite list_lookup_fmap, lookup_seq_lt by lia; done).
    unfold program_header. rewrite <- Nat.add_assoc in *. rewrite intact_slice by (done || nia). mred.
    assert (segment_ok size (length ram0)
      (slice (boot_elf + (eh_phoff elf (image_header ram0) + i * sizeof_ph elf)) (sizeof_ph elf) ram0)) as Hseg
      by (by eapply Forall_lookup_1; [apply io_segments|]).
    rewrite load_segment_spec by done. mred.
    destruct (IH (1 + i)%nat _ fuel (place_intact _ _ Hseg Hin)) as (ram' & Hrun & Hfold & Hin'); [lia|lia|].
    exists ram'. split; [done|]. split; [|done]. by rewrite (drop_S _ _ _ Hi).
Qed.
End image.

(** C28: loading in place is loading from a copy of the image: when no segment
    overlaps the image, [loadelf] ends with the segments of the original image
    laid down in order, file part and zeros, nothing else changed, and jumps to
    the entry point with two arguments more. *)
Theorem loadelf_in_place size fuel argc ram0 :
  image_ok size ram0 -> (eh_phnum elf (image_header ram0) < fuel)%nat ->
  loadelf fuel argc ram0
  = Ok (Some [SifExitRpc; FlushCache 0; FlushCache 2; ExecPS2 (eh_entry elf (image_header ram0)) (argc + 2)],
        foldl (place ram0) ram0 (image_headers ram0)).
Proof.
  intros Hok Hf. unfold loadelf.
  assert (forall r, intact size ram0 r -> elf_header r = Ok (image_header ram0)) as Heh.
  { intros r Hr. unfold elf_header, image_header. rewrite <- (Nat.add_0_r boot_elf).
    apply (intact_slice size ram0 Hok); [done|]. apply (io_header _ _ Hok). }
  rewrite Heh by done. mred. rewrite (io_magic _ _ Hok). cbn [Z.eqb negb].
  destruct (segments_loop_spec size ram0 Hok (eh_phnum elf (image_header ram0)) 0 ram0 fuel)
    as (ram' & Hrun & Hfold & Hin); [done|lia|lia|].
  change (negb (ELF_MAGIC =? ELF_MAGIC)) with false. cbv iota. rewrite Hrun. mred. rewrite Heh by done. mred.
  by rewrite Hfold, drop_0.
Qed.
End loader.
