(* ===== verification/IopLib.v ===== *)
(** * Memory map of the I/O processor: [ports/playstation2/iop/ioplib.c]

    The regions of the bus controller and the lines that print them. *)

From S2P Require Export CString.

Definition SSBUSC_NAMES : list (list byte) :=
  [bs "SSBUSC_DEV0"; bs "SSBUSC_DEV_DVDROM"; bs "SSBUSC_DEV_BOOTROM"; bs "SSBUSC_DEV3";
   bs "SSBUSC_DEV_SPU"; bs "SSBUSC_DEV_CDVD"; bs "SSBUSC_DEV6"; bs "SSBUSC_DEV7"; bs "SSBUSC_DEV8";
   bs "SSBUSC_DEV_SPU2"; bs "SSBUSC_DEV_DEV9I"; bs "SSBUSC_DEV_DEV9M"; bs "SSBUSC_DEV_DEV9C"].

Section ioplib.
(** The bus controller's registers. *)
Context (GetDelay GetBaseAddress : Z -> Z).

(** [1 << size] is an [int]. *)
Definition GetSizeFromDelay (device : Z) : Z :=
  let size := Z.land (Z.shiftr (i32 (GetDelay device)) 16) 0x1F in
  i32 (Z.shiftl 1 size).

(** A line of the map: number, name, base, size. *)
Record map_line := mk_map_line { ml_dev : Z; ml_name : list byte; ml_base : Z; ml_size : Z }.

(** The loop from device [i] on; [name] is the array [mem.name]. *)
Fixpoint memorymap_loop (n : nat) (i : Z) (name : list byte) : outcome (list map_line) :=
  match n with
  | O => Ok []
  | S n =>
      src ← of_option OutOfBounds (SSBUSC_NAMES !! Z.to_nat i);
      name ← strcpy name src;
      text ← of_option Unterminated (c_str name);
      ls ← memorymap_loop n (i + 1) name;
      Ok (mk_map_line i text (GetBaseAddress i) (GetDelay i) :: ls)
  end.

(** [for (int i = 0; i <= 12; i++)], on an uninitialised [mem]. *)
Definition print_memorymap (name : list byte) : outcome (list map_line) := memorymap_loop 13 0 name.

(** The size is a power of two taken from bits 16 to 20 of the delay. *)
Lemma GetSizeFromDelay_power device :
  0 <= GetDelay device < 2 ^ 31 ->
  exists k, 0 <= k < 32 /\ k = (GetDelay device / 2 ^ 16) mod 32 /\
    (k < 31 -> GetSizeFromDelay device = 2 ^ k).
Proof.
  intros Hd. unfold GetSizeFromDelay. rewrite (swrap_small 32 (GetDelay device)) by lia.
  rewrite Z.shiftr_div_pow2 by lia. change (Z.land (GetDelay device / 2 ^ 16) 0x1F) with (Z.land (GetDelay device / 2 ^ 16) (Z.ones 5)).
  rewrite Z.land_ones by lia.
  change (2 ^ 5) with 32. pose proof (Z.mod_pos_bound (GetDelay device / 2 ^ 16) 32 ltac:(lia)) as Hm.
  exists ((GetDelay device / 2 ^ 16) mod 32). split; [exact Hm|]. split; [reflexivity|].
  generalize dependent ((GetDelay device / 2 ^ 16) mod 32). intros k Hm Hk. rewrite Z.shiftl_1_l.
  assert (2 ^ k <= 2 ^ 30) by (apply Z.pow_le_mono_r; lia).
  assert (0 < 2 ^ k) by (apply Z.pow_pos_nonneg; lia). apply swrap_small; lia.
Qed.

Lemma memorymap_loop_spec n i name :
  (Z.to_nat i + n <= 13)%nat -> 0 <= i -> length name = 32%nat ->
  exists ls, memorymap_loop n i name = Ok ls /\
    ml_name <$> ls = take n (drop (Z.to_nat i) SSBUSC_NAMES) /\
    ml_dev <$> ls = (fun j => i + Z.of_nat j) <$> seq 0 n /\
    Forall (fun l => ml_base l = GetBaseAddress (ml_dev l) /\ ml_size l = GetDelay (ml_dev l)) ls.
Proof.
  revert i name; induction n as [|n IH]; intros i name Hn Hi Hl; cbn [memorymap_loop]; [by exists []|].
  destruct (lookup_lt_is_Some_2 SSBUSC_NAMES (Z.to_nat i)) as [src Hs]; [cbn; lia|].
  assert (no_nul src /\ length src < 32)%nat as [Hnn Hlen].
  { assert (Forall (fun s => no_nul s /\ length s < 32)%nat SSBUSC_NAMES) as HF by by_decide.
    by apply (Forall_lookup_1 _ _ _ _ HF) in Hs. }
  rewrite Hs. mred. rewrite strcpy_fits by lia. mred. rewrite c_str_app by done. mred.
  destruct (IH (i + 1) (src ++ x00 :: drop (S (length src)) name)) as (ls & -> & H1 & H2 & H3);
    [lia|lia|rewrite length_app, length_cons, length_drop; lia|].
  mred. eexists. split; [done|]. cbn [fmap list_fmap]. split_and!.
  - rewrite (drop_S _ _ _ Hs). cbn [take ml_name]. rewrite H1. do 2 f_equal. f_equal. lia.
  - cbn [ml_dev]. rewrite H2. cbn [seq fmap list_fmap]. f_equal; [lia|].
    rewrite <- fmap_S_seq, <- list_fmap_compose. apply list_fmap_ext. intros ? j _. unfold compose. lia.
  - by constructor.
Qed.

(** The map has one line for each of the thirteen devices, with its name whole
    in the 32 characters it has. *)
Lemma memorymap_complete name :
  length name = 32%nat ->
  exists ls, print_memorymap name = Ok ls /\ ml_name <$> ls = SSBUSC_NAMES /\
    ml_dev <$> ls = [0; 1; 2; 3; 4; 5; 6; 7; 8; 9; 10; 11; 12].
Proof.
  intros Hl. destruct (memorymap_loop_spec 13 0 name) as (ls & H & H1 & H2 & _); [lia|lia|done|].
  exists ls. split; [done|]. by rewrite H1, H2.
Qed.
End ioplib.
