(* ===== verification/MiniXinetd.v ===== *)
(** * The super-server example: [examples/mini-xinetd.c]

    Reads a list of services from a file, listens for each of them, and runs
    the registered server of that name for every connection, in a thread whose
    standard output is redirected to the socket. *)

From S2P Require Export Scan Servers.

Definition MAX_SERVICES : nat := 32.
Definition MAX_LINE : nat := 512.

(** [service_t]: [char name[64]; int port; char server[256]; int listen_fd;] *)
Record service_t := mk_service {
  s_name : list byte; s_port : Z; s_server : list byte; s_listen_fd : Z }.

Definition zero_service : service_t := mk_service (replicate 64 x00) 0 (replicate 256 x00) 0.

(** ** Parsing lines *)

(** [sscanf(p, "service %63s %7s", name, brace) == 2] *)
Definition sscanf_service (p : list byte) : option (list byte * list byte) :=
  r ← scan_literal (bs "service") p;
  '(name, r) ← scan_word 63 r;
  '(brace, _) ← scan_word 7 r;
  Some (name, brace).

(** [sscanf(p, "%63s %3s %255s", key, eq, value) == 3] *)
Definition sscanf_entry (p : list byte) : option (list byte * list byte * list byte) :=
  '(key, r) ← scan_word 63 p;
  '(eq, r) ← scan_word 3 r;
  '(value, _) ← scan_word 255 r;
  Some (key, eq, value).

(** At most [n] characters, up to and with the first newline. *)
Fixpoint span_line (n : nat) (s : list byte) : list byte * list byte :=
  match n, s with
  | S n, b :: s =>
      if decide (b = x0a) then ([b], s) else let '(l, r) := span_line n s in (b :: l, r)
  | _, _ => ([], s)
  end.

(** [fgets(line, MAX_LINE, f)], [file] being the rest of the file: the array
    and the new rest, or [NULL] at the end of the file. *)
Definition fgets (line file : list byte) : outcome (option (list byte * list byte)) :=
  match file with
  | [] => Ok None
  | _ => let '(l, rest) := span_line (MAX_LINE - 1) file in
         line ← store_at 0 (l ++ [x00]) line; Ok (Some (line, rest))
  end.

(** ** Parsing *)

(** [while ( *s && isspace( *s)) s++;] *)
Fixpoint trim_start (l : list byte) : outcome nat :=
  match l with
  | [] => Fault Unterminated
  | b :: l => if isspace b then n ← trim_start l; Ok (S n) else Ok O
  end.

(** [while (end > s && isspace( *(end - 1))) end--;] with [end = s + n]. *)
Fixpoint trim_end (l : list byte) (s n : nat) : nat :=
  match n with
  | O => s
  | S n' => if isspace (default x00 (l !! (s + n')%nat)) then trim_end l s n' else (s + n)%nat
  end.

(** The pointer returned, and the array. *)
Definition trim (buf : list byte) : outcome (nat * list byte) :=
  s ← trim_start buf;
  n ← strlen (drop s buf);
  let e := trim_end buf s n in
  buf ← store_at e [x00] buf;
  Ok (s, buf).

(** The statics and locals of [parse_config]; [None] is a local that was never
    written. *)
Record parse_state := mk_parse {
  ps_services : list service_t;
  ps_count : nat;
  ps_current : option service_t;
  ps_in : bool
}.

Definition initial_parse : parse_state :=
  mk_parse (replicate MAX_SERVICES zero_service) 0 None false.

(** One entry of a service. *)
Definition parse_entry (p : list byte) (current : service_t) : outcome service_t :=
  match sscanf_entry p with
  | None => Ok current
  | Some (key, eq, value) =>
      if strcmp key (bs "port") =? 0 then
        Ok (mk_service (s_name current) (atoi value) (s_server current) (s_listen_fd current))
      else if strcmp key (bs "server") =? 0 then
        server ← strcpy (s_server current) value;
        Ok (mk_service (s_name current) (s_port current) server (s_listen_fd current))
      else Ok current
  end.

(** The body of the loop; [None] is [exit(1)]. *)
Definition parse_line (p : list byte) (st : parse_state) : outcome (option parse_state) :=
  if decide (p = [] \/ head p = Some x23) then Ok (Some st)
  else if strncmp 7 p (bs "service") =? 0 then
    match sscanf_service p with
    | None => Ok None
    | Some (name, brace) =>
        n ← strcpy (s_name zero_service) name;
        Ok (Some (mk_parse (ps_services st) (ps_count st)
                    (Some (mk_service n 0 (s_server zero_service) 0)) true))
    end
  else if strcmp p (bs "}") =? 0 then
    current ← of_option Uninitialised (ps_current st);
    _ ← of_option OutOfBounds (ps_services st !! ps_count st);
    Ok (Some (mk_parse (<[ps_count st := current]> (ps_services st)) (S (ps_count st))
                (ps_current st) false))
  else if ps_in st then
    current ← of_option Uninitialised (ps_current st);
    current ← parse_entry p current;
    Ok (Some (mk_parse (ps_services st) (ps_count st) (Some current) (ps_in st)))
  else Ok (Some st).

Fixpoint parse_loop (fuel : nat) (line file : list byte) (st : parse_state)
  : outcome (option parse_state) :=
  match fuel with
  | O => Fault OutOfFuel
  | S fuel =>
      g ← fgets line file;
      match g with
      | None => Ok (Some st)
      | Some (line, file) =>
          '(p, line) ← trim line;
          s ← of_option Unterminated (cstr_at line p);
          r ← parse_line s st;
          match r with None => Ok None | Some st => parse_loop fuel line file st end
      end
  end.

(** [line] is what the stack holds; [None] for the file is a failed
    [fopen]. *)
Definition parse_config (line : list byte) (file : option (list byte)) (st : parse_state)
  : outcome (option parse_state) :=
  match file with
  | None => Ok None
  | Some file => parse_loop (S (length file)) line file st
  end.

(** ** Lines *)

Lemma span_line_newline n l rest :
  x0a ∉ l -> (length l < n)%nat -> span_line n (l ++ x0a :: rest) = (l ++ [x0a], rest).
Proof.
  revert n; induction l as [|b l IH]; intros [|n] Hl Hn; cbn [app length] in *; [lia| |lia|]; cbn [span_line].
  - by rewrite decide_True.
  - apply not_elem_of_cons in Hl as [Hb Hl]. rewrite decide_False by done.
    by rewrite IH by (done || lia).
Qed.

Lemma trim_start_spaces pre b r :
  Forall (fun b => isspace b = true) pre -> isspace b = false ->
  trim_start (pre ++ b :: r) = Ok (length pre).
Proof.
  intros Hpre Hb. induction Hpre as [|c pre Hc _ IH]; cbn [app trim_start].
  - by rewrite Hb.
  - by rewrite Hc, IH.
Qed.

Lemma trim_end_spaces pre core post r n :
  Forall (fun b => isspace b = true) post -> list.last core = Some n -> isspace n = false ->
  trim_end (pre ++ core ++ post ++ r) (length pre) (length (core ++ post))
  = (length pre + length core)%nat.
Proof.
  intros Hpost Hlast Hn. revert r. induction post as [|c post IH] using rev_ind; intros r.
  - rewrite app_nil_r. apply last_Some in Hlast as [l ->].
    rewrite length_app, Nat.add_comm. cbn [length Nat.add trim_end].
    assert ((pre ++ (l ++ [n]) ++ [] ++ r) !! (length pre + length l)%nat = Some n) as ->.
    { replace (pre ++ (l ++ [n]) ++ [] ++ r) with ((pre ++ l) ++ n :: r) by app_eq.
      by rewrite list_lookup_middle by (by rewrite length_app). }
    cbn [from_option id]. rewrite Hn. lia.
  - apply Forall_app in Hpost as [Hp Hc]. inversion_clear Hc as [|? ? Hc' _].
    replace (length (core ++ post ++ [c])) with (S (length (core ++ post)))
      by (rewrite !length_app; cbn; lia). cbn [trim_end].
    assert ((pre ++ core ++ (post ++ [c]) ++ r) !! (length pre + length (core ++ post))%nat = Some c) as ->.
    { replace (pre ++ core ++ (post ++ [c]) ++ r) with ((pre ++ core ++ post) ++ c :: r) by app_eq.
      by rewrite list_lookup_middle by (by rewrite !length_app). }
    cbn [from_option id]. rewrite Hc'. rewrite <- (IH Hp ([c] ++ r)). f_equal. app_eq.
Qed.

(** A text whose ends are not spaces, as [trim] leaves it. *)
Definition trimmed (core : list byte) : Prop :=
  no_nul core /\ (exists b, head core = Some b /\ isspace b = false) /\
  (exists b, list.last core = Some b /\ isspace b = false).

Lemma spaces_no_nul l : Forall (fun b => isspace b = true) l -> no_nul l.
Proof. by intros H [i Hi]%list_elem_of_lookup_1; apply (Forall_lookup_1 _ _ _ _ H) in Hi. Qed.

Lemma trim_spec pre core post junk :
  Forall (fun b => isspace b = true) pre -> Forall (fun b => isspace b = true) post -> trimmed core ->
  exists buf, trim (pre ++ core ++ post ++ x00 :: junk) = Ok (length pre, buf) /\
    cstr_at buf (length pre) = Some core /\ length buf = length (pre ++ core ++ post ++ x00 :: junk).
Proof.
  intros Hpre Hpost (Hn & (b & Hb & Hbs) & (e & He & Hes)). unfold trim.
  destruct core as [|b' core'] eqn:Ec; [done|]. injection Hb as ->. rewrite <- Ec in *.
  assert (trim_start (pre ++ core ++ post ++ x00 :: junk) = Ok (length pre)) as ->.
  { rewrite Ec. by apply trim_start_spaces. }
  mred. rewrite drop_app_length. unfold strlen.
  replace (core ++ post ++ x00 :: junk) with ((core ++ post) ++ x00 :: junk) by app_eq.
  rewrite c_str_app.
  2: { intros [?|Hin]%elem_of_app; [done|]. by apply (spaces_no_nul post). }
  cbn [fmap option_fmap option_map]. mred.
  replace (pre ++ (core ++ post) ++ x00 :: junk) with (pre ++ core ++ post ++ x00 :: junk) by app_eq.
  rewrite (trim_end_spaces _ _ _ _ e) by done.
  rewrite store_at_fits by (rewrite !length_app; cbn; lia). mred. eexists. split; [done|].
  split; [|apply length_splice; rewrite !length_app; cbn; lia].
  unfold cstr_at, splice.
  replace (pre ++ core ++ post ++ x00 :: junk) with ((pre ++ core) ++ post ++ x00 :: junk) by app_eq.
  rewrite take_app_length' by (by rewrite length_app). rewrite <- app_assoc, drop_app_length.
  cbn [app]. by apply c_str_app.
Qed.

(** One line of the file: [parse_line] on its text, then the rest. *)
Lemma parse_loop_line fuel line pre core rest st :
  length line = MAX_LINE -> Forall (fun b => isspace b = true) pre -> trimmed core ->
  x0a ∉ pre ++ core -> (length (pre ++ core) < MAX_LINE - 1)%nat ->
  exists line', length line' = MAX_LINE /\
    parse_loop (S fuel) line ((pre ++ core) ++ x0a :: rest) st
    = r ← parse_line core st;
      match r with None => Ok None | Some st => parse_loop fuel line' rest st end.
Proof.
  intros Hl Hpre Hcore Hnl Hlen. cbn [parse_loop]. unfold fgets.
  destruct ((pre ++ core) ++ x0a :: rest) as [|b0 f0] eqn:Ef.
  { apply app_eq_nil in Ef as [_ [=]]. }
  rewrite <- Ef. rewrite span_line_newline by done.
  rewrite store_at_fits by (rewrite Hl; unfold MAX_LINE in *; rewrite !length_app; cbn; rewrite length_app in Hlen; lia).
  mred. unfold splice. rewrite take_0. cbn [app].
  set (junk := drop _ line).
  replace ((((pre ++ core) ++ [x0a]) ++ [x00]) ++ junk) with (pre ++ core ++ [x0a] ++ x00 :: junk) by app_eq.
  destruct (trim_spec pre core [x0a] junk Hpre) as (buf & -> & Hc & Hlb); [by repeat constructor|done|].
  mred. rewrite Hc. mred. exists buf. split; [|done]. rewrite Hlb. unfold junk.
  rewrite !length_app in Hlen. rewrite !length_app, !length_cons, length_drop, Hl, ?length_app.
  cbn [length] in *. unfold MAX_LINE in *. lia.
Qed.

(** ** The round trip *)

(** A service as its author writes it. *)
Record service_view := mk_view { v_name : list byte; v_port : Z; v_server : list byte }.

Definition view_ok (v : service_view) : Prop :=
  word (v_name v) /\ (length (v_name v) <= 63)%nat /\ word (v_server v) /\
  (length (v_server v) <= 255)%nat /\ 0 <= v_port v < 2 ^ 31.

Definition print_service (v : service_view) : list byte :=
  (bs "service " ++ v_name v ++ bs " {") ++ x0a :: (bs "  port = " ++ decimal (v_port v)) ++ x0a ::
  (bs "  server = " ++ v_server v) ++ x0a :: bs "}" ++ [x0a].

Definition print_config (vs : list service_view) : list byte := concat (print_service <$> vs).

(** What a parsed entry says. *)
Definition service_says (s : service_t) (v : service_view) : Prop :=
  c_str (s_name s) = Some (v_name v) /\ s_port s = v_port v /\ c_str (s_server s) = Some (v_server v).

(** A line of fixed text and a word. *)
Lemma trimmed_text pre w :
  no_nul pre -> (exists b, head pre = Some b /\ isspace b = false) -> word w -> trimmed (pre ++ w).
Proof.
  intros Hp (b & Hb & Hs) Hw. split; [|split].
  - intros [?|Hin]%elem_of_app; [done|]. by apply (word_no_nul w).
  - exists b. by destruct pre.
  - destruct (word_last w Hw) as (c & Hc & Hcs). exists c. by rewrite last_app, Hc.
Qed.

Lemma parse_service_line v st :
  view_ok v -> parse_line (bs "service " ++ v_name v ++ bs " {") st
  = Ok (Some (mk_parse (ps_services st) (ps_count st)
      (Some (mk_service (v_name v ++ x00 :: drop (S (length (v_name v))) (s_name zero_service)) 0
               (s_server zero_service) 0)) true)).
Proof.
  intros (Hn & Hnl & _). unfold parse_line. rewrite decide_False by (by intros [|]).
  replace (strncmp 7 (bs "service " ++ v_name v ++ bs " {") (bs "service") =? 0) with true by done.
  assert (sscanf_service (bs "service " ++ v_name v ++ bs " {") = Some (v_name v, bs "{")) as ->.
  { unfold sscanf_service. replace (scan_literal (bs "service") (bs "service " ++ v_name v ++ bs " {"))
      with (Some ([x20] ++ v_name v ++ bs " {")) by done. cbn [mbind option_bind].
    rewrite scan_word_word by (done || by repeat constructor). done. }
  rewrite strcpy_fits by (cbn; lia). done.
Qed.

Lemma parse_port_line v st current :
  view_ok v -> ps_current st = Some current -> ps_in st = true ->
  parse_line (bs "port = " ++ decimal (v_port v)) st
  = Ok (Some (mk_parse (ps_services st) (ps_count st)
      (Some (mk_service (s_name current) (v_port v) (s_server current) (s_listen_fd current))) true)).
Proof.
  intros (_ & _ & _ & _ & Hp) Hc Hin. destruct (decimal_word _ Hp) as (Hw & Hl & _).
  unfold parse_line. rewrite decide_False by (by intros [|]).
  replace (strncmp 7 (bs "port = " ++ decimal (v_port v)) (bs "service") =? 0) with false by done.
  replace (strcmp (bs "port = " ++ decimal (v_port v)) (bs "}") =? 0) with false by done.
  rewrite Hin, Hc. mred. unfold parse_entry, sscanf_entry.
  change (bs "port = " ++ decimal (v_port v)) with ([] ++ bs "port" ++ bs " = " ++ decimal (v_port v)).
  rewrite scan_word_word by (done || by_decide).
  cbn [mbind option_bind].
  change (bs " = " ++ decimal (v_port v)) with ([x20] ++ bs "=" ++ bs " " ++ decimal (v_port v)).
  rewrite scan_word_word by (done || by_decide).
  cbn [mbind option_bind].
  replace (bs " " ++ decimal (v_port v)) with ([x20] ++ decimal (v_port v) ++ []) by (by rewrite app_nil_r).
  rewrite scan_word_word by (done || lia || by_decide). cbn [mbind option_bind].
  by rewrite atoi_decimal.
Qed.

Lemma parse_server_line v st current :
  view_ok v -> ps_current st = Some current -> ps_in st = true -> length (s_server current) = 256%nat ->
  parse_line (bs "server = " ++ v_server v) st
  = Ok (Some (mk_parse (ps_services st) (ps_count st)
      (Some (mk_service (s_name current) (s_port current)
         (v_server v ++ x00 :: drop (S (length (v_server v))) (s_server current)) (s_listen_fd current))) true)).
Proof.
  intros (_ & _ & Hw & Hl & _) Hc Hin Hs.
  unfold parse_line. rewrite decide_False by (by intros [|]).
  replace (strncmp 7 (bs "server = " ++ v_server v) (bs "service") =? 0) with false by done.
  replace (strcmp (bs "server = " ++ v_server v) (bs "}") =? 0) with false by done.
  rewrite Hin, Hc. mred. unfold parse_entry, sscanf_entry.
  change (bs "server = " ++ v_server v) with ([] ++ bs "server" ++ bs " = " ++ v_server v).
  rewrite scan_word_word by (done || by_decide). cbn [mbind option_bind].
  change (bs " = " ++ v_server v) with ([x20] ++ bs "=" ++ bs " " ++ v_server v).
  rewrite scan_word_word by (done || by_decide). cbn [mbind option_bind].
  replace (bs " " ++ v_server v) with ([x20] ++ v_server v ++ []) by (by rewrite app_nil_r).
  rewrite scan_word_word by (done || lia || by_decide). cbn [mbind option_bind].
  replace (strcmp (bs "server") (bs "port") =? 0) with false by done.
  replace (strcmp (bs "server") (bs "server") =? 0) with true by done.
  rewrite strcpy_fits by lia. done.
Qed.

Lemma parse_close_line st current :
  ps_current st = Some current ->
  parse_line (bs "}") st
  = if decide (ps_count st < length (ps_services st))%nat
    then Ok (Some (mk_parse (<[ps_count st := current]> (ps_services st)) (S (ps_count st)) (Some current) false))
    else Fault OutOfBounds.
Proof.
  intros Hc. unfold parse_line. rewrite decide_False by (by intros [|]).
  replace (strncmp 7 (bs "}") (bs "service") =? 0) with false by done.
  replace (strcmp (bs "}") (bs "}") =? 0) with true by done.
  rewrite Hc. mred. case_decide as Hlt.
  - destruct (lookup_lt_is_Some_2 _ _ Hlt) as [old ->]. done.
  - by rewrite lookup_ge_None_2 by lia.
Qed.

(** The entry a printed service is parsed to. *)
Definition entry_of (v : service_view) : service_t :=
  mk_service (v_name v ++ x00 :: drop (S (length (v_name v))) (s_name zero_service)) (v_port v)
    (v_server v ++ x00 :: drop (S (length (v_server v))) (s_server zero_service)) 0.

Lemma entry_of_says v : view_ok v -> service_says (entry_of v) v.
Proof.
  intros (Hn & _ & Hs & _). split_and!; cbn; [by apply c_str_app, word_no_nul|done|].
  by apply c_str_app, word_no_nul.
Qed.

Lemma parse_service fuel line v rest st :
  length line = MAX_LINE -> view_ok v ->
  exists line', length line' = MAX_LINE /\
    parse_loop (4 + fuel) line (print_service v ++ rest) st
    = if decide (ps_count st < length (ps_services st))%nat
      then parse_loop fuel line' rest
             (mk_parse (<[ps_count st := entry_of v]> (ps_services st)) (S (ps_count st))
                (Some (entry_of v)) false)
      else Fault OutOfBounds.
Proof.
  intros Hl Hv. pose proof Hv as (Hn & Hnl & Hs & Hsl & Hp).
  destruct (decimal_word _ Hp) as (Hd & Hdl & _). unfold print_service.
  replace (_ ++ rest) with (([] ++ bs "service " ++ v_name v ++ bs " {") ++ x0a ::
    ((bs "  " ++ bs "port = " ++ decimal (v_port v)) ++ x0a ::
     ((bs "  " ++ bs "server = " ++ v_server v) ++ x0a :: (([] ++ bs "}") ++ x0a :: rest)))) by app_eq.
  assert (forall w, word w -> x0a ∉ w) as Hnn by (intros; by apply word_no_newline).
  edestruct (parse_loop_line (3 + fuel) line []) as (l1 & Hl1 & ->); [done|done| | | |].
  { replace (bs "service " ++ v_name v ++ bs " {") with ((bs "service " ++ v_name v ++ [x20]) ++ bs "{") by app_eq.
    apply trimmed_text; [|by eexists|by_decide].
    intros [Hin|[Hin|Hin]%elem_of_app]%elem_of_app; [|by apply (word_no_nul (v_name v))|]; revert Hin; by_decide. }
  { cbn [app]. intros [Hin|[Hin|Hin]%elem_of_app]%elem_of_app; [|by apply (Hnn (v_name v))|]; revert Hin; by_decide. }
  { rewrite !length_app. cbn -[decimal]. lia. }
  rewrite parse_service_line by done. mred.
  edestruct (parse_loop_line (2 + fuel) l1 (bs "  ")) as (l2 & Hl2 & ->); [done|by_decide| | | |].
  { apply trimmed_text; [by_decide|by eexists|done]. }
  { intros [Hin|[Hin|Hin]%elem_of_app]%elem_of_app; [| |by apply (Hnn (decimal (v_port v)))]; revert Hin; by_decide. }
  { rewrite !length_app. cbn -[decimal]. lia. }
  erewrite parse_port_line by done. mred.
  edestruct (parse_loop_line (1 + fuel) l2 (bs "  ")) as (l3 & Hl3 & ->); [done|by_decide| | | |].
  { apply trimmed_text; [by_decide|by eexists|done]. }
  { intros [Hin|[Hin|Hin]%elem_of_app]%elem_of_app; [| |by apply (Hnn (v_server v))]; revert Hin; by_decide. }
  { rewrite !length_app. cbn -[decimal]. lia. }
  erewrite parse_server_line by done. mred.
  edestruct (parse_loop_line fuel l3 []) as (l4 & Hl4 & ->); [done|done| | | |].
  { split; [by_decide|]. split; by eexists. }
  { by_decide. }
  { cbn. lia. }
  erewrite parse_close_line by done. cbn [ps_count ps_services]. exists l4. split; [done|].
  by case_decide.
Qed.

Lemma length_print_config vs : (4 * length vs <= length (print_config vs))%nat.
Proof.
  induction vs as [|v vs IH]; [done|]. unfold print_config in *. rewrite fmap_cons. cbn [concat length].
  assert (4 <= length (print_service v))%nat; [|rewrite length_app; lia].
  unfold print_service. rewrite !length_app. cbn -[decimal]. lia.
Qed.

Lemma parse_services vs fuel line rest st :
  length line = MAX_LINE -> Forall view_ok vs -> length (ps_services st) = MAX_SERVICES ->
  (ps_count st <= MAX_SERVICES)%nat ->
  if decide (ps_count st + length vs <= MAX_SERVICES)%nat
  then exists line' st', length line' = MAX_LINE /\
    parse_loop (4 * length vs + fuel) line (print_config vs ++ rest) st = parse_loop fuel line' rest st' /\
    length (ps_services st') = MAX_SERVICES /\ ps_count st' = (ps_count st + length vs)%nat /\
    take (ps_count st') (ps_services st')
      = take (ps_count st) (ps_services st) ++ (entry_of <$> vs)
  else parse_loop (4 * length vs + fuel) line (print_config vs ++ rest) st = Fault OutOfBounds.
Proof.
  intros Hl Hvs. revert line st Hl. induction Hvs as [|v vs Hv _ IH]; intros line st Hl Hlen Hle.
  - rewrite decide_True by (cbn; lia). exists line, st. cbn [length Nat.mul Nat.add].
    rewrite Nat.add_0_r, app_nil_r. by split_and!.
  - cbn [length]. unfold print_config. rewrite fmap_cons. cbn [concat]. fold (print_config vs).
    rewrite <- app_assoc. replace (4 * S (length vs) + fuel)%nat with (4 + (4 * length vs + fuel))%nat by lia.
    destruct (parse_service (4 * length vs + fuel) line v (print_config vs ++ rest) st Hl Hv)
      as (line1 & Hl1 & ->). rewrite Hlen. case_decide as Hd.
    + rewrite decide_True by lia. set (st1 := mk_parse _ _ _ _).
      specialize (IH line1 st1 Hl1). cbn [st1 ps_count ps_services] in IH.
      rewrite decide_True in IH by lia.
      destruct IH as (l2 & st2 & Hl2 & Hrun & Hlen2 & Hc2 & Ht); [by rewrite length_insert|lia|].
      exists l2, st2. split_and!; [done|done|done|lia|]. rewrite Ht, fmap_cons.
      rewrite (take_S_r _ _ (entry_of v)) by (apply list_lookup_insert_eq; lia).
      rewrite take_insert_ge by lia. app_eq.
    + case_decide as Hlt; [|done]. specialize (IH line1 (mk_parse (<[ps_count st := entry_of v]> (ps_services st))
        (S (ps_count st)) (Some (entry_of v)) false) Hl1). cbn [ps_count ps_services] in IH.
      rewrite decide_False in IH by lia. apply IH; [by rewrite length_insert|lia].
Qed.

(** Up to 32 services are read back; one more is written outside the table. *)
Lemma parse_config_services vs line :
  length line = MAX_LINE -> Forall view_ok vs -> (length vs <= MAX_SERVICES)%nat ->
  exists st, parse_config line (Some (print_config vs)) initial_parse = Ok (Some st) /\
    ps_count st = length vs /\ Forall2 service_says (take (ps_count st) (ps_services st)) vs.
Proof.
  intros Hl Hvs Hd. unfold parse_config. pose proof (length_print_config vs) as Hlp.
  replace (S (length (print_config vs)))
    with (4 * length vs + S (length (print_config vs) - 4 * length vs))%nat by lia.
  pose proof (parse_services vs (S (length (print_config vs) - 4 * length vs)) line [] initial_parse
    Hl Hvs eq_refl ltac:(cbn; lia)) as H.
  rewrite app_nil_r in H. cbn [ps_count ps_services initial_parse Nat.add] in H.
  rewrite decide_True in H by done.
  destruct H as (l' & st & Hl' & -> & Hlen & Hc & Ht). exists st. cbn [parse_loop fgets]. mred.
  split; [done|]. split; [done|]. rewrite Ht. cbn [take app].
  clear -Hvs. induction Hvs as [|v vs Hv _ IH]; constructor; [by apply entry_of_says|done].
Qed.

Lemma parse_config_overflows vs line :
  length line = MAX_LINE -> Forall view_ok vs -> ~ (length vs <= MAX_SERVICES)%nat ->
  parse_config line (Some (print_config vs)) initial_parse = Fault OutOfBounds.
Proof.
  intros Hl Hvs Hd. unfold parse_config. pose proof (length_print_config vs) as Hlp.
  replace (S (length (print_config vs)))
    with (4 * length vs + S (length (print_config vs) - 4 * length vs))%nat by lia.
  pose proof (parse_services vs (S (length (print_config vs) - 4 * length vs)) line [] initial_parse
    Hl Hvs eq_refl ltac:(cbn; lia)) as H.
  rewrite app_nil_r in H. cbn [ps_count ps_services initial_parse Nat.add] in H.
  by rewrite decide_False in H by done.
Qed.

(** C24: printing up to 32 services and parsing the text gives them back, in order;
    a configuration of more of them writes outside the table. *)
Theorem parse_config_roundtrip vs line :
  length line = MAX_LINE -> Forall view_ok vs ->
  if decide (length vs <= MAX_SERVICES)%nat
  then exists st, parse_config line (Some (print_config vs)) initial_parse = Ok (Some st) /\
    ps_count st = length vs /\ Forall2 service_says (take (ps_count st) (ps_services st)) vs
  else parse_config line (Some (print_config vs)) initial_parse = Fault OutOfBounds.
Proof.
  intros Hl Hvs. case_decide; [by apply parse_config_services|by apply parse_config_overflows].
Qed.

(** A closing brace before any service registers a local that was never
    written. *)
Lemma parse_stray_brace line rest :
  length line = MAX_LINE ->
  parse_config line (Some (bs "}" ++ x0a :: rest)) initial_parse = Fault Uninitialised.
Proof.
  intros Hl. unfold parse_config.
  edestruct (parse_loop_line (length (bs "}" ++ x0a :: rest)) line [] (bs "}") rest initial_parse)
    as (l & _ & Hr); [done|done| | | |].
  { split; [by_decide|]. split; by eexists. }
  { by_decide. }
  { cbn. lia. }
  cbn [app] in Hr. rewrite Hr. done.
Qed.

(** ** Listening *)

Section sockets.
Context {N : Type}.
(** The operating system: what each call returns. *)
Context (socket : N -> Z * N) (setsockopt_reuse : Z -> N -> N).
Context (bind : Z -> Z -> N -> Z * N) (listen : Z -> Z -> N -> Z * N) (accept : Z -> N -> Z * N).

(** [None] is [exit(1)].  The address is any interface and [htons(port)]. *)
Definition start_listener (port : Z) (n : N) : option Z * N :=
  let '(fd, n) := socket n in
  if fd <? 0 then (None, n)
  else
    let n := setsockopt_reuse fd n in
    let '(r, n) := bind fd (htons (u16 port)) n in
    if r <? 0 then (None, n)
    else
      let '(r, n) := listen fd 20 n in
      if r <? 0 then (None, n) else (Some fd, n).

(** The first loop of [main]: the listeners of the services, and the highest
    descriptor. *)
Fixpoint start_listeners (l : list service_t) (maxfd : Z) (n : N)
  : option (list service_t * Z) * N :=
  match l with
  | [] => (Some ([], maxfd), n)
  | s :: l =>
      let '(fd, n) := start_listener (s_port s) n in
      match fd with
      | None => (None, n)
      | Some fd =>
          let '(r, n) := start_listeners l (if maxfd <? fd then fd else maxfd) n in
          (match r with
           | None => None
           | Some (l, m) => Some (mk_service (s_name s) (s_port s) (s_server s) fd :: l, m)
           end, n)
      end
  end.

(** [thread_arg_t] *)
Record thread_arg_t := mk_thread_arg { t_conn_fd : Z; t_name : list byte }.

(** One turn of the main loop after [select]: a connection is accepted on every
    service whose listener is ready and handed to a new thread.  The name is
    copied into an array of 64 characters. *)
Fixpoint accept_ready (ready : Z -> bool) (l : list service_t) (n : N)
  : outcome (list thread_arg_t * N) :=
  match l with
  | [] => Ok ([], n)
  | s :: l =>
      if ready (s_listen_fd s) then
        let '(conn, n) := accept (s_listen_fd s) n in
        if conn <? 0 then accept_ready ready l n
        else
          name ← of_option Unterminated (c_str (s_name s));
          t ← strcpy (replicate 64 x00) name;
          '(ts, n) ← accept_ready ready l n;
          Ok (mk_thread_arg conn t :: ts, n)
      else accept_ready ready l n
  end.

(** The connections the operating system hands out, listener by listener. *)
Fixpoint accepted (fds : list (list byte * Z)) (n : N) : list (list byte * Z) * N :=
  match fds with
  | [] => ([], n)
  | (name, fd) :: fds =>
      let '(conn, n) := accept fd n in
      let '(r, n) := accepted fds n in
      (if conn <? 0 then r else (name, conn) :: r, n)
  end.

(** Each connection goes to one thread, with the name of the service it came
    in on, in the order of the table. *)
Lemma accept_ready_spec ready l vs n :
  Forall2 service_says l vs -> Forall view_ok vs ->
  let fds := filter (fun p : list byte * Z => ready p.2 = true)
               (zip_with (fun s v => (v_name v, s_listen_fd s)) l vs) in
  exists ts, accept_ready ready l n = Ok (ts, (accepted fds n).2) /\
    Forall2 (fun t p => c_str (t_name t) = Some p.1 /\ t_conn_fd t = p.2) ts (accepted fds n).1.
Proof.
  intros H. revert n. induction H as [|s v l vs (Hs & _ & _) _ IH]; intros n Hok; cbv zeta; cbn [accept_ready zip_with].
  - exists []. done.
  - inversion_clear Hok as [|? ? Hv Hvs]. destruct (ready (s_listen_fd s)) eqn:Er.
    + rewrite filter_cons_True by done. cbn [accepted]. destruct (accept _ n) as [conn n1].
      destruct (IH n1 Hvs) as (ts & Hrun & Hf). destruct (accepted _ n1) as [r n2]. cbn [fst snd] in *.
      destruct (conn <? 0); [by exists ts|]. rewrite Hs. mred.
      destruct Hv as (Hw & Hl & _).
      rewrite strcpy_fits by (rewrite length_replicate; lia). mred. rewrite Hrun. mred.
      eexists. split; [done|]. constructor; [|done]. cbn. split; [|done].
      by apply c_str_app, word_no_nul.
    + rewrite filter_cons_False by (cbn; congruence). apply (IH n Hvs).
Qed.
End sockets.

(** ** The threads *)

(** [stdout] and [stderr] are variables of the process, shared by all its
    threads; [FILE *] are numbers. *)
Record process (N S : Type) := mk_process {
  p_stdout : Z; p_stderr : Z; p_net : N; p_registry : registry S }.
Arguments mk_process {N S} _ _ _ _.
Arguments p_stdout {N S} _.
Arguments p_stderr {N S} _.
Arguments p_net {N S} _.
Arguments p_registry {N S} _.

Section threads.
Context {N S Cfg : Type} (server_mem : nat -> lwnbd_server S Cfg).
(** [fdopen(dup(fd), "w")] ([None] is [NULL]), [fclose], [close]. *)
Context (fdopen_dup : Z -> N -> option Z * N) (fclose close : Z -> N -> N).
Implicit Types (w : process N S).

Definition set_pnet (n : N) w : process N S := mk_process (p_stdout w) (p_stderr w) n (p_registry w).

(** The first half of [RUN_SERVER_ON_SOCKET]: the locals [thread_stdout],
    [thread_stderr], [old_stdout] and [old_stderr]. *)
Definition redirect (fd : Z) w : option (Z * Z * Z * Z) * process N S :=
  let '(o, n) := fdopen_dup fd (p_net w) in
  let '(e, n) := fdopen_dup fd n in
  match o, e with
  | Some o, Some e => (Some (o, e, p_stdout w, p_stderr w), mk_process o e n (p_registry w))
  | _, _ => (None, set_pnet (close fd n) w)
  end.

(** [(server)->run(NULL, NULL)] *)
Definition run_server (a : nat) w : outcome (process N S) :=
  run ← of_option NullDeref (sv_run (server_mem a));
  '(_, s) ← run None None (r_state (p_registry w));
  Ok (mk_process (p_stdout w) (p_stderr w) (p_net w) (set_state s (p_registry w))).

(** The second half. *)
Definition restore (saved : Z * Z * Z * Z) w : process N S :=
  let '(o, e, old_o, old_e) := saved in
  mk_process old_o old_e (fclose e (fclose o (p_net w))) (p_registry w).

Definition run_server_on_socket (a : nat) (fd : Z) w : outcome (process N S) :=
  let '(saved, w) := redirect fd w in
  match saved with
  | None => Ok w
  | Some saved => w ← run_server a w; Ok (restore saved w)
  end.

Definition service_thread (t : thread_arg_t) w : outcome (process N S) :=
  name ← of_option Unterminated (c_str (t_name t));
  match get_server_by_name server_mem name (p_registry w) with
  | None => Ok w
  | Some a =>
      w ← run_server_on_socket a (t_conn_fd t) w;
      Ok (set_pnet (close (t_conn_fd t) (p_net w)) w)
  end.

(** The descriptors and streams that are open. *)
Record descriptors (fds files : N -> list Z) : Prop := {
  ds_fdopen fd n : let '(f, n') := fdopen_dup fd n in
    fds n' = fds n /\ match f with Some f => files n' = f :: files n /\ f ∉ files n
                      | None => files n' = files n end;
  ds_fclose f n : fds (fclose f n) = fds n /\ files (fclose f n) = filter (fun g => g <> f) (files n);
  ds_close fd n : fds (close fd n) = filter (fun g => g <> fd) (fds n) /\ files (close fd n) = files n
}.

Lemma filter_absent (f : Z) (l : list Z) : f ∉ l -> filter (fun g => g <> f) l = l.
Proof.
  induction l as [|g l IH]; intros Hf; [done|]. apply not_elem_of_cons in Hf as [Hne Hf].
  rewrite filter_cons_True by congruence. by rewrite IH.
Qed.

Lemma filter_head (f : Z) (l : list Z) : f ∉ l -> filter (fun g => g <> f) (f :: l) = l.
Proof. intros. rewrite filter_cons_False by naive_solver. by apply filter_absent. Qed.

(** A thread that finds its server leaves the streams of the process as they
    were, and its connection closed; one that does not leaves it open. *)
Theorem service_thread_restores fds files t name w w' :
  descriptors fds files -> c_str (t_name t) = Some name ->
  (forall fd n, is_Some (fdopen_dup fd n).1) ->
  service_thread t w = Ok w' ->
  p_stdout w' = p_stdout w /\ p_stderr w' = p_stderr w /\ files (p_net w') = files (p_net w) /\
  fds (p_net w') =
    match get_server_by_name server_mem name (p_registry w) with
    | Some _ => filter (fun g => g <> t_conn_fd t) (fds (p_net w))
    | None => fds (p_net w)
    end.
Proof.
  intros HD Hn Hdup. unfold service_thread. rewrite Hn. mred.
  destruct (get_server_by_name _ _ _) as [a|]; [|by intros [= <-]].
  intros H. apply bind_Ok in H as (w1 & Hrun & [= <-]). unfold run_server_on_socket, redirect in Hrun.
  pose proof (ds_fdopen _ _ HD (t_conn_fd t) (p_net w)) as H1. pose proof (Hdup (t_conn_fd t) (p_net w)) as Hs1.
  destruct (fdopen_dup _ (p_net w)) as [o n1]. destruct Hs1 as [f1 Hf1]. cbn in Hf1. subst o.
  destruct H1 as (Hfd1 & Hfl1 & Hnew1).
  pose proof (ds_fdopen _ _ HD (t_conn_fd t) n1) as H2. pose proof (Hdup (t_conn_fd t) n1) as Hs2.
  destruct (fdopen_dup _ n1) as [e n2]. destruct Hs2 as [f2 Hf2]. cbn in Hf2. subst e.
  destruct H2 as (Hfd2 & Hfl2 & Hnew2).
  apply bind_Ok in Hrun as (w2 & Hr & [= <-]). unfold run_server in Hr.
  apply bind_Ok in Hr as (run & _ & Hr). apply bind_Ok in Hr as ([z s] & _ & [= <-]). cbn.
  destruct (ds_fclose _ _ HD f1 n2) as [Hc1 Hg1].
  destruct (ds_fclose _ _ HD f2 (fclose f1 n2)) as [Hc2 Hg2].
  destruct (ds_close _ _ HD (t_conn_fd t) (fclose f2 (fclose f1 n2))) as [Hc3 Hg3].
  split; [done|]. split; [done|]. rewrite Hg3, Hg2, Hg1, Hfl2, Hc3, Hc2, Hc1, Hfd2, Hfd1.
  split; [|done]. rewrite Hfl1 in *. apply not_elem_of_cons in Hnew2 as [Hne Hnew2].
  rewrite filter_cons_True by congruence. rewrite (filter_head f1) by done. by apply filter_head.
Qed.

(** Two threads whose redirections overlap: the second saves the first one's
    stream as the old one and puts it back after the first has closed it. *)
Theorem overlapping_threads_lose_stdout fds files fd1 fd2 w :
  descriptors fds files -> (forall fd n, is_Some (fdopen_dup fd n).1) ->
  exists s1 s2 w1 w2, redirect fd1 w = (Some s1, w1) /\ redirect fd2 w1 = (Some s2, w2) /\
    let w' := restore s2 (restore s1 w2) in
    p_stdout w' ∉ files (p_net w') /\ p_stdout w' = p_stdout w1 /\
    (p_stdout w ∈ files (p_net w) -> p_stdout w' <> p_stdout w).
Proof.
  intros HD Hdup. unfold redirect.
  pose proof (ds_fdopen _ _ HD fd1 (p_net w)) as H1. pose proof (Hdup fd1 (p_net w)) as Hs1.
  destruct (fdopen_dup fd1 (p_net w)) as [o n1]. destruct Hs1 as [f1 Hf1]. cbn in Hf1. subst o.
  pose proof (ds_fdopen _ _ HD fd1 n1) as H2. pose proof (Hdup fd1 n1) as Hs2.
  destruct (fdopen_dup fd1 n1) as [o n2]. destruct Hs2 as [f2 Hf2]. cbn in Hf2. subst o. cbn [p_net].
  pose proof (Hdup fd2 n2) as Hs3. destruct (fdopen_dup fd2 n2) as [o n3] eqn:E3.
  destruct Hs3 as [f3 Hf3]. cbn in Hf3. subst o.
  pose proof (Hdup fd2 n3) as Hs4. destruct (fdopen_dup fd2 n3) as [o n4] eqn:E4.
  destruct Hs4 as [f4 Hf4]. cbn in Hf4. subst o.
  eexists _, _, _, _. split; [done|]. cbn [p_net]. rewrite E3, E4. split; [done|]. cbn.
  destruct H1 as (_ & Hfl1 & Hnew1), H2 as (_ & Hfl2 & Hnew2).
  destruct (ds_fclose _ _ HD f1 n4) as [_ G1].
  destruct (ds_fclose _ _ HD f2 (fclose f1 n4)) as [_ G2].
  destruct (ds_fclose _ _ HD f3 (fclose f2 (fclose f1 n4))) as [_ G3].
  destruct (ds_fclose _ _ HD f4 (fclose f3 (fclose f2 (fclose f1 n4)))) as [_ G4].
  split_and!; [|done|].
  - rewrite G4, G3, G2, G1, !list_elem_of_filter. naive_solver.
  - intros Hin ->. done.
Qed.
End threads.
