(* ===== verification/XinetdMain.v ===== *)
(** * The super-server's [main]: [examples/mini-xinetd.c]

    The parts of [MiniXinetd] put together: the configuration is read, the
    library's servers are registered, a listener is opened for every service,
    and the connections [select] announces are handed to threads.  The threads
    themselves run as [MiniXinetd.service_thread]. *)

From S2P Require Export MiniXinetd.

#[local] Open Scope Z_scope.

Section main.
Context {N S : Type}.
(** The operating system: what each call returns; [select] gives the ready
    listeners, or [None] for an error. *)
Context (socket : N -> Z * N) (setsockopt_reuse : Z -> N -> N).
Context (bind : Z -> Z -> N -> Z * N) (listen : Z -> Z -> N -> Z * N) (accept : Z -> N -> Z * N).
Context (select : Z -> list Z -> N -> option (Z -> bool) * N).
(** The servers compiled in. *)
Context (chargen daytime : option nat).

Local Abbreviation start_listeners := (start_listeners socket setsockopt_reuse bind listen).
Local Abbreviation start_listener := (start_listener socket setsockopt_reuse bind listen).
Local Abbreviation accept_ready := (accept_ready accept).
Local Abbreviation accepted := (accepted accept).

(** [while (1)], [turns] times; [malloc] and [pthread_create], whose answers the
    loop does not test, succeed: the threads started, whether the program still
    runs ([die] after a failed [select] ends it), and the system. *)
Fixpoint select_loop (turns : nat) (maxfd : Z) (services : list service_t) (n : N)
  : outcome (list thread_arg_t * bool * N) :=
  match turns with
  | O => Ok ([], true, n)
  | Datatypes.S turns =>
      let '(ready, n) := select (maxfd + 1) (s_listen_fd <$> services) n in
      match ready with
      | None => Ok ([], false, n)
      | Some ready =>
          '(ts, n) ← accept_ready ready services n;
          '(ts', running, n) ← select_loop turns maxfd services n;
          Ok (ts ++ ts', running, n)
      end
  end.

(** How far [main] got: it exited with a status, or it started these threads
    and is still in its loop or died there. *)
Inductive xinetd_end :=
  | XExit (status : Z) (n : N) (r : registry S)
  | XServing (threads : list thread_arg_t) (running : bool) (n : N) (r : registry S).

(** [file] is what the path in [argv[1]] leads to, [line] the stack under
    [parse_config]'s buffer. *)
Definition xinetd_main (argc : Z) (line : list byte) (file : option (list byte)) (turns : nat)
    (n : N) (r : registry S) : outcome xinetd_end :=
  if negb (argc =? 2) then Ok (XExit 1 n r)
  else
    st ← parse_config line file initial_parse;
    match st with
    | None => Ok (XExit 1 n r)
    | Some st =>
        let '(_, r) := lwnbd_servers_init chargen daytime r in
        let '(started, n) := start_listeners (take (ps_count st) (ps_services st)) (-1) n in
        match started with
        | None => Ok (XExit 1 n r)
        | Some (services, maxfd) =>
            '(ts, running, n) ← select_loop turns maxfd services n;
            Ok (XServing ts running n r)
        end
    end.

(** ** What the program promises *)

(** A listener for every port, in order, and the highest descriptor. *)
Fixpoint open_listeners (ports : list Z) (maxfd : Z) (n : N) : option (list Z * Z) * N :=
  match ports with
  | [] => (Some ([], maxfd), n)
  | port :: ports =>
      let '(fd, n) := start_listener port n in
      match fd with
      | None => (None, n)
      | Some fd =>
          let '(r, n) := open_listeners ports (Z.max maxfd fd) n in
          (r ≫= fun '(fds, m) => Some (fd :: fds, m), n)
      end
  end.

(** The connections of [turns] answers of [select], each under the name its
    listener stands for. *)
Fixpoint connections (turns : nat) (maxfd : Z) (table : list (list byte * Z)) (n : N)
  : list (list byte * Z) * bool * N :=
  match turns with
  | O => ([], true, n)
  | Datatypes.S turns =>
      let '(ready, n) := select (maxfd + 1) (snd <$> table) n in
      match ready with
      | None => ([], false, n)
      | Some ready =>
          let '(c, n) := accepted (filter (fun p : list byte * Z => ready p.2 = true) table) n in
          let '(c', running, n) := connections turns maxfd table n in
          (c ++ c', running, n)
      end
  end.

(** A thread is given a connection and the name it came in under. *)
Definition thread_for (t : thread_arg_t) (p : list byte * Z) : Prop :=
  c_str (t_name t) = Some p.1 /\ t_conn_fd t = p.2.

Lemma start_listeners_spec l vs maxfd n :
  Forall2 service_says l vs ->
  match open_listeners (v_port <$> vs) maxfd n with
  | (None, n') => start_listeners l maxfd n = (None, n')
  | (Some (fds, m), n') => exists l', start_listeners l maxfd n = (Some (l', m), n') /\
      Forall2 service_says l' vs /\ s_listen_fd <$> l' = fds
  end.
Proof.
  intros H. revert maxfd n. induction H as [|s v l vs Hs _ IH]; intros maxfd n; cbn.
  { by exists []. }
  destruct Hs as (Hn & Hp & Hsv). rewrite Hp. destruct (start_listener _ _) as [[fd|] n1]; [|done].
  replace (if maxfd <? fd then fd else maxfd) with (Z.max maxfd fd) by (destruct (Z.ltb_spec maxfd fd); lia).
  specialize (IH (Z.max maxfd fd) n1).
  destruct (open_listeners _ _ n1) as [[[fds m]|] n2]; cbn.
  - destruct IH as (l' & -> & Hl' & <-). eexists. split; [done|]. by split; [constructor|].
  - by rewrite IH.
Qed.

Lemma names_zip (l : list service_t) vs :
  Forall2 service_says l vs ->
  snd <$> zip_with (fun s v => (v_name v, s_listen_fd s)) l vs = s_listen_fd <$> l.
Proof. induction 1 as [|s v l vs _ _ IH]; cbn; [done|]. by f_equal. Qed.

Lemma zip_names (l : list service_t) vs :
  Forall2 service_says l vs ->
  zip_with (fun s v => (v_name v, s_listen_fd s)) l vs = zip (v_name <$> vs) (s_listen_fd <$> l).
Proof. induction 1 as [|s v l vs _ _ IH]; cbn; [done|]. by f_equal. Qed.

Lemma select_loop_spec turns maxfd l vs n :
  Forall2 service_says l vs -> Forall view_ok vs ->
  match connections turns maxfd (zip (v_name <$> vs) (s_listen_fd <$> l)) n with
  | (c, running, n') => exists ts, select_loop turns maxfd l n = Ok (ts, running, n') /\ Forall2 thread_for ts c
  end.
Proof.
  intros Hl Hvs. revert n. induction turns as [|turns IH]; intros n; cbn [connections select_loop].
  { by exists []. }
  rewrite <- zip_names, names_zip by done. destruct (select _ _ n) as [[ready|] n1]; [|by exists []].
  destruct (accept_ready_spec accept ready l vs n1 Hl Hvs) as (ts & Hrun & Hf).
  destruct (accepted _ n1) as [c n2]. cbn [fst snd] in *. rewrite Hrun. mred.
  specialize (IH n2). rewrite <- zip_names in IH by done.
  destruct (connections turns _ _ n2) as [[c' running] n3]. destruct IH as (ts' & -> & Hf'). mred.
  eexists. split; [done|]. by apply Forall2_app.
Qed.

(** C25: started with a configuration of up to 32 services, the program opens their
    ports in order, gives up with status 1 when one of them cannot be opened,
    and otherwise starts one thread per connection, in the order [select] and
    the table announce them, under the name its port was configured with; its
    registry holds the servers compiled in. *)
Theorem xinetd_accepts vs line turns n (r : registry S) :
  length line = MAX_LINE -> Forall view_ok vs -> (length vs <= MAX_SERVICES)%nat ->
  let r' := (lwnbd_servers_init chargen daytime r).2 in
  match open_listeners (v_port <$> vs) (-1) n with
  | (None, n') => xinetd_main 2 line (Some (print_config vs)) turns n r = Ok (XExit 1 n' r')
  | (Some (fds, maxfd), n1) =>
      let '(c, running, n') := connections turns maxfd (zip (v_name <$> vs) fds) n1 in
      exists ts, xinetd_main 2 line (Some (print_config vs)) turns n r = Ok (XServing ts running n' r') /\
        Forall2 thread_for ts c
  end.
Proof.
  intros Hline Hvs Hlen. cbv zeta.
  destruct (parse_config_services vs line Hline Hvs Hlen) as (st & Hst & _ & Hsays).
  unfold xinetd_main. cbn [Z.eqb negb Pos.eqb]. rewrite Hst. mred.
  destruct (lwnbd_servers_init chargen daytime r) as [z r']. cbn [snd].
  pose proof (start_listeners_spec _ vs (-1) n Hsays) as Hl.
  destruct (open_listeners _ _ n) as [[[fds maxfd]|] n1]; [|by rewrite Hl].
  destruct Hl as (l' & Hstart & Hl' & <-). rewrite Hstart.
  pose proof (select_loop_spec turns maxfd l' vs n1 Hl' Hvs) as Hloop.
  destruct (connections turns _ _ n1) as [[c running] n2]. destruct Hloop as (ts & Hrun & Hf).
  rewrite Hrun. mred. by exists ts.
Qed.
End main.
