(* ===== verification/SdlText.v ===== *)
(** * The SDL example: [examples/sdl_text.c]

    [main] writes a line to a log file, opens a window and draws the same text
    for ever.  SDL, the font engine and the console library are what they
    answer; the state is the log file, the screen of the console library and
    the calls to SDL and the font engine, in order.  A [FILE] that was closed is a pointer to an object
    whose lifetime has ended: using it is a fault. *)

From S2P Require Export CString.

Definition SCREEN_WIDTH : Z := 640.
Definition SCREEN_HEIGHT : Z := 448.
Definition SUCCESS : Z := 0.
Definition FAILED : Z := -1.

(** The calls, with the arguments [main] chooses; surface, texture and their
    size are passed on as they come. *)
Inductive sdl_call :=
  | SDL_Init
  | TTF_Init
  | SDL_CreateWindow (w h : Z)
  | SDL_CreateRenderer
  | SDL_RWFromConstMem
  | TTF_OpenFontRW (ptsize : Z)
  | TTF_RenderText_Solid (text : list byte) (r g b : Z)
  | SDL_CreateTextureFromSurface
  | SDL_QueryTexture
  | SDL_SetRenderDrawColor (r g b a : Z)
  | SDL_RenderClear
  | SDL_RenderCopy
  | SDL_RenderPresent
  | SDL_DestroyRenderer
  | SDL_DestroyWindow
  | SDL_Quit.

#[export] Instance sdl_call_eq_dec : EqDecision sdl_call.
Proof. solve_decision. Defined.

(** [fopen]'s result: whether it is still open, and what the file holds. *)
Record log_file := mk_log_file { lf_open : bool; lf_text : list byte }.

Record sdl_state := mk_sdl {
  sd_file : log_file;
  sd_screen : list (list byte);   (** lines of [scr_printf] *)
  sd_calls : list sdl_call
}.

(** What the platform answers; [None] is [NULL]. *)
Record platform := mk_platform {
  pf_init_platform : Z;
  pf_fopen : bool;
  pf_SDL_Init : Z;
  pf_TTF_Init : Z;
  pf_error : list byte;           (** [SDL_GetError()], [TTF_GetError()] *)
  pf_window : option nat;
  pf_renderer : option nat;
  pf_font_mem : option nat;       (** [SDL_RWFromConstMem] *)
  pf_font : option nat
}.

Definition print (line : list byte) (s : sdl_state) : sdl_state :=
  mk_sdl (sd_file s) (sd_screen s ++ [line]) (sd_calls s).

Definition call (c : sdl_call) (s : sdl_state) : sdl_state :=
  mk_sdl (sd_file s) (sd_screen s) (sd_calls s ++ [c]).

(** [snprintf(buf, 512, ...)]: what [buf] holds and the length it would have
    needed. *)
Definition snprintf512 (text : list byte) : list byte * nat := (take 511 text ++ [x00], length text).

(** [fwrite(buf, n, 1, file)], [n] bytes of the array [buf]. *)
Definition fwrite (text : list byte) (s : sdl_state) : outcome sdl_state :=
  let '(buf, n) := snprintf512 text in
  _ ← outcome_require (lf_open (sd_file s) = true) Uninitialised;
  _ ← outcome_require (n <= 512)%nat OutOfBounds;
  Ok (mk_sdl (mk_log_file true (lf_text (sd_file s) ++ take n buf)) (sd_screen s) (sd_calls s)).

Definition fclose (s : sdl_state) : outcome sdl_state :=
  _ ← outcome_require (lf_open (sd_file s) = true) Uninitialised;
  Ok (mk_sdl (mk_log_file false (lf_text (sd_file s))) (sd_screen s) (sd_calls s)).

(** [close:] *)
Definition label_close (s : sdl_state) : outcome (Z * sdl_state) := s ← fclose s; Ok (0, s).

(** [quit:] *)
Definition label_quit (s : sdl_state) : outcome (Z * sdl_state) :=
  label_close (call SDL_Quit (call SDL_DestroyWindow (call SDL_DestroyRenderer (print (bs "exit" ++ [x0a]) s)))).

(** One turn of [while (!quit)]; the colour never changes and nothing sets
    [quit]. *)
Definition draw_frame (s : sdl_state) : sdl_state :=
  call SDL_RenderPresent (call SDL_RenderCopy (call SDL_RenderClear
    (call (SDL_SetRenderDrawColor 0 0 0 0xFF) s))).

Fixpoint sdl_loop (fuel : nat) (quit : bool) (s : sdl_state) : outcome sdl_state :=
  if quit then Ok s
  else match fuel with O => Fault OutOfFuel | S fuel => sdl_loop fuel quit (draw_frame s) end.

(** An initialisation that failed is reported in the log. *)
Definition init_failed (what : list byte) (pf : platform) (s : sdl_state) : outcome (Z * sdl_state) :=
  s ← fwrite (bs "Failed to initialize " ++ what ++ bs ": " ++ pf_error pf ++ [x0a]) s;
  label_close s.

(** The text, rendered once: neither the surface nor the texture is tested. *)
Definition sdl_text (s : sdl_state) : sdl_state :=
  call SDL_QueryTexture (call SDL_CreateTextureFromSurface
    (call (TTF_RenderText_Solid (bs "Hello world") 255 255 255) s)).

(** After [TTF_Init]. *)
Definition sdl_show (fuel : nat) (pf : platform) (s : sdl_state) : outcome (Z * sdl_state) :=
  let s := call (SDL_CreateWindow SCREEN_WIDTH SCREEN_HEIGHT) s in
  match pf_window pf with
  | None => Ok (-1, print (bs "SDL_CreateWindow: " ++ pf_error pf ++ [x0a]) s)
  | Some _ =>
      let s := call SDL_CreateRenderer s in
      match pf_renderer pf with
      | None => Ok (-1, print (bs "SDL_CreateRenderer: " ++ pf_error pf ++ [x0a]) s)
      | Some _ =>
          let s := call SDL_RWFromConstMem s in
          match pf_font_mem pf with
          | None => label_quit s
          | Some _ =>
              let s := call (TTF_OpenFontRW 32) s in
              match pf_font pf with
              | None => label_quit s
              | Some _ => s ← sdl_loop fuel false (sdl_text s); label_quit s
              end
          end
      end
  end.

(** [file] is what the log holds before: it is opened for appending. *)
Definition sdl_main (fuel : nat) (pf : platform) (file : list byte) : outcome (Z * sdl_state) :=
  let s := mk_sdl (mk_log_file false file) [] [] in
  let s := if pf_init_platform pf =? 0 then print (bs "init success !" ++ [x0a]) s else s in
  if negb (pf_fopen pf) then Ok (-1, print (bs "fopen() !" ++ [x0a]) s)
  else
    let s := mk_sdl (mk_log_file true file) (sd_screen s) (sd_calls s) in
    s ← fwrite (bs "tst test tests" ++ [x0a]) s;
    s ← fclose s;
    let s := call SDL_Init s in
    if negb (pf_SDL_Init pf =? SUCCESS) then init_failed (bs "SDL") pf s
    else
      let s := call TTF_Init s in
      if pf_TTF_Init pf =? -1 then init_failed (bs "TTF") pf s
      else sdl_show fuel pf s.

(** ** Properties *)

Lemma sdl_loop_never fuel s : sdl_loop fuel false s = Fault OutOfFuel.
Proof. revert s; induction fuel as [|fuel IH]; intros s; [done|apply IH]. Qed.

(** What is drawn while the loop runs: the same frame, black, as often as it
    turns. *)
Definition frame : list sdl_call :=
  [SDL_SetRenderDrawColor 0 0 0 255; SDL_RenderClear; SDL_RenderCopy; SDL_RenderPresent].

Fixpoint frames (n : nat) (s : sdl_state) : sdl_state :=
  match n with O => s | S n => frames n (draw_frame s) end.

Lemma frames_calls n s : sd_calls (frames n s) = sd_calls s ++ concat (replicate n frame).
Proof.
  revert s; induction n as [|n IH]; intros s; [by rewrite app_nil_r|]. cbn [frames replicate concat].
  rewrite IH. cbn. by rewrite <- !app_assoc.
Qed.

(** The file was closed after its first line, so neither of the labels at the
    end of [main] can be left. *)
Lemma closed_label_close s : lf_open (sd_file s) = false -> label_close s = Fault Uninitialised.
Proof. intros H. unfold label_close, fclose. by rewrite H. Qed.

Lemma closed_init_failed what pf s : lf_open (sd_file s) = false -> init_failed what pf s = Fault Uninitialised.
Proof. intros H. unfold init_failed, fwrite. by rewrite H. Qed.

Lemma closed_label_quit s : lf_open (sd_file s) = false -> label_quit s = Fault Uninitialised.
Proof. intros H. unfold label_quit. by apply closed_label_close. Qed.

(** [main] never returns zero.  It returns [-1] when the log, the window or the
    renderer cannot be opened; when SDL, the font engine or the font cannot, it
    uses the log file it has closed; otherwise it draws for ever.  In every case
    in which the log could be opened its line is in it. *)
Theorem sdl_main_outcomes fuel pf file :
  let line := bs "tst test tests" ++ [x0a] in
  match sdl_main fuel pf file with
  | Ok (r, s) =>
      r = -1 /\
      ((pf_fopen pf = false /\ lf_text (sd_file s) = file) \/
       (pf_fopen pf = true /\ (pf_window pf = None \/ pf_renderer pf = None) /\
        lf_text (sd_file s) = file ++ line))
  | Fault Uninitialised =>
      pf_fopen pf = true /\
      (pf_SDL_Init pf <> 0 \/ pf_TTF_Init pf = -1 \/ pf_font_mem pf = None \/ pf_font pf = None)
  | Fault e =>
      e = OutOfFuel /\ pf_fopen pf = true /\ pf_SDL_Init pf = 0 /\ pf_TTF_Init pf <> -1 /\
      is_Some (pf_window pf) /\ is_Some (pf_renderer pf) /\ is_Some (pf_font_mem pf) /\ is_Some (pf_font pf)
  end.
Proof.
  cbv zeta. unfold sdl_main.
  destruct (pf_fopen pf) eqn:Ef; cbn [negb]; [|split; [done|left; by destruct (_ =? 0)]].
  set (s0 := mk_sdl (mk_log_file true file) _ _).
  change (fwrite (bs "tst test tests" ++ [x0a]) s0) with
    (Ok (mk_sdl (mk_log_file true (file ++ (bs "tst test tests" ++ [x0a]))) (sd_screen s0) (sd_calls s0))).
  mred. unfold fclose at 1. cbn [sd_file lf_open]. rewrite require_true by done. mred. cbn [lf_text].
  set (s1 := mk_sdl _ _ _). assert (lf_open (sd_file s1) = false) as Hcl by done.
  case (Z.eqb_spec (pf_SDL_Init pf) SUCCESS) as [E1|E1]; cbn [negb]; [|rewrite closed_init_failed by done; auto].
  case (Z.eqb_spec (pf_TTF_Init pf) (-1)) as [E2|E2]; [rewrite closed_init_failed by done; auto|].
  unfold sdl_show.
  destruct (pf_window pf) as [wi|]; [|split; [done|right; split_and!; auto]].
  destruct (pf_renderer pf) as [re|]; [|split; [done|right; split_and!; auto]].
  destruct (pf_font_mem pf) as [fm|]; [|rewrite closed_label_quit by done; auto 6].
  destruct (pf_font pf) as [fo|]; [|rewrite closed_label_quit by done; auto 6].
  rewrite sdl_loop_never. mred. split_and!; try done; by eexists.
Qed.
