(* ===== verification/UvServer.v ===== *)
(** * The libuv server example: [examples/lwnbd-server.c]

    One listening socket, at most three clients, each served by a work request
    on libuv's thread pool.  Work requests are allocated objects; a freed one
    is [None] in the heap.  libuv's queue of submitted work is part of the
    state. *)

From S2P Require Export Scan Servers.
From stdpp Require Import sets.
#[local] Open Scope Z_scope.

Definition MAX_CLIENTS : nat := 3.

Inductive worker_state_t := CLIENT_FREE | CLIENT_INUSE.

#[export] Instance worker_state_eq_dec : EqDecision worker_state_t.
Proof. solve_decision. Defined.

Definition client_is_free (x : worker_state_t) : bool :=
  match x with CLIENT_FREE => true | CLIENT_INUSE => false end.

(** [struct nbd_worker]; [nw_server] is the listening stream, whose [data] is
    the library's handle of the server. *)
Record nbd_worker := mk_worker { nw_client_id : nat; nw_server : Z }.

(** The statics, the heap of requests and the requests submitted to libuv that
    have not completed. *)
Record uv_server := mk_uv {
  u_client_states : list worker_state_t;
  u_client_reqs : list (option nat);
  u_heap : list (option nbd_worker);
  u_queued : list nat
}.

Definition initial_uv : uv_server :=
  mk_uv (replicate MAX_CLIENTS CLIENT_FREE) (replicate MAX_CLIENTS None) [] [].

(** The cast of a work request to the [struct nbd_worker] it starts. *)
Definition worker_of (req : nat) (u : uv_server) : outcome nbd_worker :=
  c ← of_option OutOfBounds (u_heap u !! req);
  of_option Uninitialised c.

(** ** Handlers *)

(** The loop takes the first free slot and returns; [malloc] gives a fresh
    object when there is [memory]. *)
Definition on_new_connection (memory : bool) (server status : Z) (u : uv_server) : outcome uv_server :=
  if status <? 0 then Ok u
  else
    let i := find_slot client_is_free (u_client_states u) in
    if decide (i = length (u_client_states u)) then Ok u
    else
      let req := length (u_heap u) in
      let p := if memory then Some req else None in
      p ← of_option NullDeref p;
      Ok (mk_uv (<[i := CLIENT_INUSE]> (u_client_states u)) (<[i := Some p]> (u_client_reqs u))
            (u_heap u ++ [Some (mk_worker i server)]) (u_queued u ++ [p])).

(** Its local [client_reqs] hides the static array. *)
Definition on_after_work (req : nat) (u : uv_server) : outcome uv_server :=
  client_reqs ← worker_of req u;
  _ ← of_option OutOfBounds (u_client_states u !! nw_client_id client_reqs);
  Ok (mk_uv (<[nw_client_id client_reqs := CLIENT_FREE]> (u_client_states u)) (u_client_reqs u)
        (<[req := None]> (u_heap u)) (u_queued u)).

(** What [uv_cancel] is given: the address of an entry of the static array, or
    a request. *)
Inductive uv_req_ptr := SlotAddress (i : nat) | Request (req : nat).

(** The requests the signal handler asks libuv to cancel. *)
Definition signal_handler (u : uv_server) : list uv_req_ptr := SlotAddress <$> seq 0 MAX_CLIENTS.

Section work.
Context {S Cfg N : Type} (server_mem : nat -> lwnbd_server S Cfg).
(** [uv_accept] ([None] when it fails) with [uv_fileno], and [uv_close]. *)
Context (uv_accept : Z -> N -> option Z * N) (uv_close : option Z -> N -> N).

(** On a thread of the pool.  [data] is [server->data]. *)
Definition on_work (data : Z -> Z) (req : nat) (u : uv_server) (r : registry S) (n : N)
  : outcome (registry S * N) :=
  client_reqs ← worker_of req u;
  let server := nw_server client_reqs in
  let '(sock, n) := uv_accept server n in
  match sock with
  | None => Ok (r, uv_close None n)
  | Some sock =>
      r ← lwnbd_server_run server_mem (data server) (Some sock) r;
      Ok (r, uv_close (Some sock) n)
  end.

(** What is accepted is closed again, whatever the server does with it. *)
Lemma on_work_closes data req u r n w :
  worker_of req u = Ok w -> (exists r', lwnbd_server_run server_mem (data (nw_server w))
      (uv_accept (nw_server w) n).1 r = Ok r') ->
  exists r', on_work data req u r n
    = Ok (r', uv_close (uv_accept (nw_server w) n).1 (uv_accept (nw_server w) n).2).
Proof.
  intros Hw [r' Hr]. unfold on_work. rewrite Hw. mred.
  destruct (uv_accept (nw_server w) n) as [[sock|] n1]; cbn [fst snd] in *; [|by eexists].
  rewrite Hr. mred. by eexists.
Qed.
End work.

(** The command [shutdown] of the control plugin: the text of its answer and
    the signal it sends.  [strsignal] is the C library's. *)
Definition SIGINT : Z := 2.

Definition signal_cb (strsignal : Z -> list byte) (argv : list (list byte)) (result : list byte)
  : outcome (Z * list byte * Z * Z) :=
  let signum := if (1 <? length argv)%nat then atoi (nth 1 argv []) else SIGINT in
  arg0 ← of_option OutOfBounds (argv !! 0%nat);
  let text := arg0 ++ bs " with signal " ++ strsignal signum ++ [x0a] in
  result ← strcpy result text;
  Ok (0, result, Z.of_nat (length text), signum).

(** ** The server as a transition system *)

(** libuv calls the handler of the listening socket for every connection, and
    completes a submitted request once, with [on_after_work]. *)
Inductive uv_step : uv_server -> uv_server -> Prop :=
  | uv_connection server status u u' :
      on_new_connection true server status u = Ok u' -> uv_step u u'
  | uv_completed req u u' l1 l2 :
      u_queued u = l1 ++ req :: l2 ->
      on_after_work req (mk_uv (u_client_states u) (u_client_reqs u) (u_heap u) (l1 ++ l2)) = Ok u' ->
      uv_step u u'.

Inductive uv_reachable : uv_server -> Prop :=
  | uv_init : uv_reachable initial_uv
  | uv_next u u' : uv_reachable u -> uv_step u u' -> uv_reachable u'.

(** The slot of a request. *)
Definition slot_of (u : uv_server) (req : nat) : option nat :=
  match u_heap u !! req with Some (Some w) => Some (nw_client_id w) | _ => None end.

(** Slots in use and submitted requests correspond one to one. *)
Record uv_ok (u : uv_server) : Prop := {
  uo_states : length (u_client_states u) = MAX_CLIENTS;
  uo_reqs : length (u_client_reqs u) = MAX_CLIENTS;
  uo_nodup : NoDup (u_queued u);
  uo_queued req : req ∈ u_queued u ->
    exists i, slot_of u req = Some i /\ u_client_states u !! i = Some CLIENT_INUSE /\
      u_client_reqs u !! i = Some (Some req);
  uo_inuse i : u_client_states u !! i = Some CLIENT_INUSE ->
    exists req, req ∈ u_queued u /\ slot_of u req = Some i
}.

Lemma initial_uv_ok : uv_ok initial_uv.
Proof.
  split; [done|done|apply NoDup_nil_2| |].
  - by intros req Hin%elem_of_nil.
  - by intros i [Hi _]%lookup_replicate.
Qed.

Lemma slot_of_lt u req i : slot_of u req = Some i -> (req < length (u_heap u))%nat.
Proof.
  unfold slot_of. destruct (u_heap u !! req) eqn:E; [|done]. intros _. by eapply lookup_lt_Some.
Qed.

Lemma slot_of_app u st rq q x req i :
  slot_of u req = Some i -> slot_of (mk_uv st rq (u_heap u ++ x) q) req = Some i.
Proof.
  intros H. pose proof (slot_of_lt _ _ _ H). unfold slot_of in *. cbn. by rewrite lookup_app_l.
Qed.

Lemma new_connection_ok server status u :
  uv_ok u -> exists u', on_new_connection true server status u = Ok u' /\ uv_ok u' /\
    if decide (0 <= status /\ CLIENT_FREE ∈ u_client_states u)
    then exists req, u_queued u' = u_queued u ++ [req] /\ req ∉ u_queued u /\
      worker_of req u' = Ok (mk_worker (find_slot client_is_free (u_client_states u)) server)
    else u' = u.
Proof.
  intros [H1 H2 H3 H4 H5]. unfold on_new_connection. case (Z.ltb_spec status 0) as [Hs|Hs].
  { exists u. rewrite decide_False by lia. by repeat split. }
  set (i := find_slot client_is_free (u_client_states u)).
  pose proof (find_slot_le client_is_free (u_client_states u)) as Hle. fold i in Hle.
  case_decide as Hi.
  - exists u. split; [done|]. split; [by split|]. rewrite decide_False; [done|].
    intros [_ Hf]. apply find_slot_full in Hi.
    apply list_elem_of_lookup_1 in Hf as [j Hj]. by apply (Forall_lookup_1 _ _ _ _ Hi) in Hj.
  - destruct (find_slot_lt client_is_free (u_client_states u)) as (x & Hx & Hfree); [fold i; lia|].
    fold i in Hx. destruct x; [|done]. mred. eexists. split; [done|].
    assert (forall req, req ∈ u_queued u -> req < length (u_heap u))%nat as Hq.
    { intros req Hr. destruct (H4 req Hr) as (j & Hj & _). by eapply slot_of_lt. }
    assert (length (u_heap u) ∉ u_queued u) as Hnew by (intros Hin%Hq; lia).
    split.
    + split; cbn.
      * by rewrite length_insert.
      * by rewrite length_insert.
      * apply list.NoDup_app. split; [done|]. split; [|apply NoDup_singleton].
        intros req Hr He%list_elem_of_singleton. by subst.
      * intros req [Hr|He%list_elem_of_singleton]%elem_of_app; [|subst req].
        -- destruct (H4 req Hr) as (j & Hj & Hst & Hrq). exists j.
           assert (j <> i) by (intros ->; congruence).
           split; [by eapply slot_of_app|]. by rewrite !list_lookup_insert_ne by done.
        -- exists i. unfold slot_of. cbn. rewrite lookup_app_r, Nat.sub_diag by done. cbn.
           rewrite !list_lookup_insert_eq by lia. done.
      * intros j Hj. destruct (decide (j = i)) as [->|Hne].
        -- exists (length (u_heap u)). split; [apply elem_of_app; right; by apply list_elem_of_singleton|].
           unfold slot_of. cbn. by rewrite lookup_app_r, Nat.sub_diag by done.
        -- rewrite list_lookup_insert_ne in Hj by done. destruct (H5 j Hj) as (req & Hr & Hs').
           exists req. split; [apply elem_of_app; by left|]. by eapply slot_of_app.
    + rewrite decide_True; [|split; [lia|by eapply list_elem_of_lookup_2]].
      exists (length (u_heap u)). split; [done|]. split; [done|]. unfold worker_of. cbn.
      by rewrite lookup_app_r, Nat.sub_diag by done.
Qed.

Lemma completed_ok u req l1 l2 :
  uv_ok u -> u_queued u = l1 ++ req :: l2 ->
  exists u', on_after_work req (mk_uv (u_client_states u) (u_client_reqs u) (u_heap u) (l1 ++ l2)) = Ok u' /\
    uv_ok u' /\ u_queued u' = l1 ++ l2.
Proof.
  intros [H1 H2 H3 H4 H5] Hq. rewrite Hq in *.
  destruct (H4 req) as (i & Hi & Hst & Hrq); [set_solver|].
  unfold on_after_work, worker_of. cbn. unfold slot_of in Hi.
  destruct (u_heap u !! req) as [[w|]|] eqn:Ew; [|done..]. injection Hi as Hi. mred. rewrite Hi, Hst. mred.
  eexists. split; [done|]. split; [|done].
  apply list.NoDup_app in H3 as (N1 & Hd & N2). apply list.NoDup_cons in N2 as [Hnin N2].
  assert (req ∉ l1 ++ l2) as Hreq.
  { intros [Hin|Hin]%elem_of_app; [|done]. apply (Hd req Hin). set_solver. }
  assert (forall r, r ∈ l1 ++ l2 -> forall q c,
    slot_of (mk_uv c q (<[req := None]> (u_heap u)) (l1 ++ l2)) r = slot_of u r) as Hslot.
  { intros r Hr q c. unfold slot_of. cbn. rewrite list_lookup_insert_ne; [done|]. by intros ->. }
  split; cbn.
  - by rewrite length_insert.
  - done.
  - apply list.NoDup_app. split; [done|]. split; [|done]. intros r Hr Hr2. apply (Hd r Hr). set_solver.
  - intros r Hr. destruct (H4 r) as (j & Hj & Hstj & Hrj); [set_solver|]. exists j.
    rewrite Hslot by done. split; [done|]. split; [|done].
    rewrite list_lookup_insert_ne; [done|]. intros ->. rewrite Hrq in Hrj. congruence.
  - intros j Hj. destruct (decide (j = i)) as [->|Hne].
    + rewrite list_lookup_insert_eq in Hj by (by eapply lookup_lt_Some). done.
    + rewrite list_lookup_insert_ne in Hj by done. destruct (H5 j Hj) as (r & Hr & Hs).
      exists r. assert (r <> req). { intros ->. unfold slot_of in Hs. rewrite Ew in Hs. congruence. }
      assert (r ∈ l1 ++ l2) by set_solver. split; [done|]. by rewrite Hslot.
Qed.

Lemma reachable_ok u : uv_reachable u -> uv_ok u.
Proof.
  induction 1 as [|u u' _ IH Hstep]; [apply initial_uv_ok|]. destruct Hstep as [server status u u' H|req u u' l1 l2 Hq H].
  - destruct (new_connection_ok server status u IH) as (u2 & H2 & Hok & _). rewrite H in H2.
    by injection H2 as ->.
  - destruct (completed_ok u req l1 l2 IH Hq) as (u2 & H2 & Hok & _). rewrite H in H2.
    by injection H2 as ->.
Qed.

(** ** What a connection and a completion do *)

Lemma connection_takes_first_free server status u i rest :
  0 <= status -> u_client_states u = replicate i CLIENT_INUSE ++ CLIENT_FREE :: rest ->
  on_new_connection true server status u
  = Ok (mk_uv (replicate i CLIENT_INUSE ++ CLIENT_INUSE :: rest) (<[i := Some (length (u_heap u))]> (u_client_reqs u))
          (u_heap u ++ [Some (mk_worker i server)]) (u_queued u ++ [length (u_heap u)])).
Proof.
  intros Hs Hc. unfold on_new_connection. rewrite (proj2 (Z.ltb_ge _ _)) by done.
  assert (find_slot client_is_free (u_client_states u) = i) as ->.
  { apply (find_slot_unique _ _ _ CLIENT_FREE); [|done|].
    - by rewrite Hc, lookup_app_r, length_replicate, Nat.sub_diag by (by rewrite length_replicate).
    - intros j y Hj. rewrite Hc, lookup_app_l by (by rewrite length_replicate).
      by intros [-> _]%lookup_replicate. }
  rewrite Hc, decide_False by (rewrite length_app, length_replicate; cbn; lia). mred.
  by rewrite insert_app_r_alt, length_replicate, Nat.sub_diag by (by rewrite length_replicate).
Qed.

Lemma connection_refused server status u :
  status < 0 \/ Forall (fun x => x = CLIENT_INUSE) (u_client_states u) ->
  on_new_connection true server status u = Ok u.
Proof.
  intros H. unfold on_new_connection. case (Z.ltb_spec status 0) as [Hs|Hs]; [done|].
  destruct H as [H|H]; [lia|]. rewrite decide_True; [done|]. apply find_slot_full.
  eapply Forall_impl; [exact H|]. by intros ? ->.
Qed.

Lemma queued_bounded u : uv_ok u -> (length (u_queued u) <= MAX_CLIENTS)%nat.
Proof.
  intros [H1 H2 H3 H4 H5]. rewrite <- (length_fmap Some (u_queued u)).
  assert (Some <$> u_queued u ⊆ u_client_reqs u) as Hsub.
  { intros x Hx. apply list_elem_of_fmap in Hx as (req & -> & Hreq).
    destruct (H4 req Hreq) as (i & _ & _ & Hi). by eapply list_elem_of_lookup_2. }
  rewrite <- H2. apply submseteq_length, NoDup_submseteq; [|done].
  apply NoDup_fmap; [by intros ?? [=]|done].
Qed.

(** The correspondence of [uv_ok], slot by slot. *)
Lemma slots_are_requests u i :
  uv_ok u -> u_client_states u !! i = Some CLIENT_INUSE <->
    exists! req, req ∈ u_queued u /\ slot_of u req = Some i.
Proof.
  intros [H1 H2 H3 H4 H5]. split.
  - intros (req & Hq & Hs)%H5. exists req. split; [done|]. intros req' [Hq' Hs'].
    destruct (H4 req Hq) as (j & Hj & _ & Hr). destruct (H4 req' Hq') as (j' & Hj' & _ & Hr'). congruence.
  - intros (req & [Hq Hs] & _). destruct (H4 req Hq) as (j & Hj & Hst & _). congruence.
Qed.

Lemma completion_frees_slot u req :
  uv_ok u -> req ∈ u_queued u -> exists w, worker_of req u = Ok w /\ slot_of u req = Some (nw_client_id w) /\
    on_after_work req u
    = Ok (mk_uv (<[nw_client_id w := CLIENT_FREE]> (u_client_states u)) (u_client_reqs u)
            (<[req := None]> (u_heap u)) (u_queued u)).
Proof.
  intros [H1 H2 H3 H4 H5] Hq. destruct (H4 req Hq) as (i & Hi & Hst & _).
  unfold on_after_work, worker_of, slot_of in *.
  destruct (u_heap u !! req) as [[w|]|] eqn:Ew; [|done..]. injection Hi as <-.
  exists w. mred. split; [done|]. split; [done|]. rewrite Hst. by mred.
Qed.

(** C26: in every reachable state no request is submitted twice and every
    slot in use is the slot of exactly one submitted request (a submitted
    request has a slot, below), so there are at most three; no handler touches
    a freed request: a connection takes the first free slot, for a new request
    that names it, or changes nothing when it failed or no slot is free, and
    any submitted request can complete, which frees its slot and no other. *)
Theorem uv_clients_bounded u :
  uv_reachable u ->
  (NoDup (u_queued u) /\ (length (u_queued u) <= MAX_CLIENTS)%nat /\
   forall i, u_client_states u !! i = Some CLIENT_INUSE <->
     exists! req, req ∈ u_queued u /\ slot_of u req = Some i) /\
  (forall server status, exists u', on_new_connection true server status u = Ok u' /\
     (forall i rest, 0 <= status -> u_client_states u = replicate i CLIENT_INUSE ++ CLIENT_FREE :: rest ->
        u_client_states u' = replicate i CLIENT_INUSE ++ CLIENT_INUSE :: rest /\
        exists req, u_queued u' = u_queued u ++ [req] /\ req ∉ u_queued u /\
          worker_of req u' = Ok (mk_worker i server)) /\
     (status < 0 \/ Forall (fun x => x = CLIENT_INUSE) (u_client_states u) -> u' = u)) /\
  (forall req, req ∈ u_queued u -> exists w, worker_of req u = Ok w /\
     slot_of u req = Some (nw_client_id w) /\
     u_client_states u !! nw_client_id w = Some CLIENT_INUSE /\
     exists u', on_after_work req u = Ok u' /\
       u_client_states u' = <[nw_client_id w := CLIENT_FREE]> (u_client_states u)).
Proof.
  intros Hr. pose proof (reachable_ok u Hr) as Hok. split_and!.
  - apply Hok.
  - by apply queued_bounded.
  - intros i. by apply slots_are_requests.
  - intros server status. destruct (new_connection_ok server status u Hok) as (u' & Hrun & _).
    exists u'. split; [done|]. split.
    + intros i rest Hs Hc. rewrite (connection_takes_first_free _ _ _ i rest) in Hrun by done.
      injection Hrun as <-. split; [done|]. exists (length (u_heap u)). split; [done|]. split.
      * intros Hin. destruct (uo_queued u Hok _ Hin) as (j & Hj & _). apply slot_of_lt in Hj. lia.
      * unfold worker_of. cbn. by rewrite lookup_app_r, Nat.sub_diag by done.
    + intros H. rewrite connection_refused in Hrun by done. by injection Hrun.
  - intros req Hq. destruct (completion_frees_slot u req Hok Hq) as (w & Hw & Hs & Hrun).
    exists w. split; [done|]. split; [done|]. split; [|by eexists].
    apply slots_are_requests; [done|]. destruct (uo_queued u Hok req Hq) as (i & Hi & Hst & _).
    rewrite Hs in Hi. injection Hi as <-. by apply slots_are_requests.
Qed.

(** The signal handler passes the addresses of the array's entries, and no
    request: nothing of the submitted work is cancelled. *)
Lemma signal_cancels_no_request u req : Request req ∉ signal_handler u.
Proof. unfold signal_handler. intros (i & [=] & _)%list_elem_of_fmap. Qed.
