(* ===== verification/UvMain.v ===== *)
(** * The libuv server example's [main]: [examples/lwnbd-server.c]

    Options, the exports [motd] and [api], the NBD server and the listening
    socket; what runs afterwards is [UvServer].  The program's world contains
    the memory and the command plugin's; the build's names and libuv are
    parameters.  [lwnbd_set_defaultexport], which [main] calls, is defined
    nowhere ([nbd.c] has it commented out): it is a parameter of which nothing is
    assumed, and the theorem says what [main] has done before that call and
    what it does if the call returns. *)

From S2P Require Export UvServer Combine Sockets.
From S2P Require Import Log MemoryPlugin CommandPlugin.

Definition NBDDEFAULTPORT : Z := 10809.

(** What [getopt] returns for ["v:i:p:f:"]. *)
Inductive server_option :=
  | opt_v (optarg : list byte)
  | opt_i (optarg : list byte)
  | opt_p (optarg : list byte)
  | opt_f (optarg : list byte)
  | opt_unknown.

(** [level], [port] and [fileplg], which has no initial value. *)
Record main_vars := mk_main { mv_level : Z; mv_port : Z; mv_fileplg : option Z }.

Definition initial_vars : main_vars := mk_main LWNBD_LOG_DEBUG NBDDEFAULTPORT None.

Section main.
Context {W Cfg E S SCfg Out Addr Loop : Type}.
Context (plugin_mem : nat -> lwnbd_plugin_t W Cfg) (server_mem : nat -> lwnbd_server S SCfg).
Context (Lm : lens W memory_world) (Lc : lens W (command_world E)).
(** A pointer to each kind of configuration. *)
Context (path_cfg : list byte -> Cfg) (memory_cfg : memory_config -> Cfg)
  (command_cfg : lwnbd_command E -> Cfg).
Context (file_plugin_init memory_plugin_init command_plugin_init nbd_server_init : option nat).
Context (APP_NAME APP_VERSION CC_VERSION : list byte).
(** [strsignal], and [uv_kill] as an effect on the rest of the program. *)
Context (strsignal : Z -> list byte) (uv_kill : Z -> E -> E).
(** The address [calloc(1, 512)] returns. *)
Context (calloc : option Z).
Context (lwnbd_set_defaultexport : list byte -> lib W -> outcome unit).
(** The settings on [main]'s stack, never written. *)
Context (mynbd : SCfg).
(** libuv: [Addr] is [struct sockaddr_in], [Loop] the state of the loop and of its
    handles; [uv_tcp_bind]'s answer is not looked at.  The port is an [int];
    what of it fits the address is up to [uv_ip4_addr]. *)
Context (uv_ip4_addr : list byte -> Z -> Addr) (uv_tcp_bind : Addr -> Loop -> Loop)
  (uv_listen : Z -> Loop -> Z * Loop).
Implicit Types (s : lib W) (r : registry S) (g : log_state Out).

(** The command [shutdown]; its [argv] is the parameter it was called with. *)
Definition shutdown_fun : command_fun E := fun argc argv result size tbl env =>
  q ← of_option OutOfBounds (argv !! O);
  q ← of_option Uninitialised q;
  args ← (if 1 <? argc then v ← of_option NullDeref (q_val q); Ok [q_key q; v] else Ok [q_key q]);
  '(r, result, size, signum) ← signal_cb strsignal args result;
  Ok (r, result, size, uv_kill signum env).

(** The [type] the initialiser leaves out is zero. *)
Definition shutdown_command : lwnbd_command E :=
  mk_command_entry (bs "shutdown") (bs "turn off the application") METHOD_GET shutdown_fun.

(** The loop of [getopt]; [None] is [usage]'s [exit(1)]. *)
Fixpoint server_options (opts : list server_option) (v : main_vars) s g
  : outcome (option (main_vars * lib W * log_state Out)) :=
  match opts with
  | [] => Ok (Some (v, s, g))
  | opt_v optarg :: opts =>
      let level := atoi optarg in
      server_options opts (mk_main level (mv_port v) (mv_fileplg v)) s (lwnbd_set_log_level level g)
  | opt_i _ :: opts => server_options opts v s g
  | opt_p optarg :: opts => server_options opts (mk_main (mv_level v) (atoi optarg) (mv_fileplg v)) s g
  | opt_f optarg :: opts =>
      fileplg ← of_option Uninitialised (mv_fileplg v);
      '(fileplg, s) ← (if fileplg =? 0 then lwnbd_plugin_init plugin_mem file_plugin_init s
                       else Ok (fileplg, s));
      '(_, s) ← lwnbd_plugin_new plugin_mem fileplg (path_cfg optarg) s;
      server_options opts (mk_main (mv_level v) (mv_port v) (Some fileplg)) s g
  | opt_unknown :: _ => Ok None
  end.

Definition motd_text : list byte :=
  APP_NAME ++ bs " version " ++ APP_VERSION ++ [x0a] ++ bs " compiled on: " ++ CC_VERSION.

(** [calloc], and the [sprintf] into what it returned. *)
Definition motd_data s : outcome (Z * lib W) :=
  data ← of_option NullDeref calloc;
  m ← ram_store data (replicate 512 x00) (lget Lm (l_world s));
  _ ← outcome_require (length motd_text < 512)%nat OutOfBounds;
  m ← ram_store data (motd_text ++ [x00]) m;
  Ok (data, set_world (lput Lm m (l_world s)) s).

Definition motd_config (data : Z) : memory_config :=
  mk_memory_config data 512 (char_array 32 (bs "motd")) (char_array 64 (bs "plain-text server information")).

Definition add_motd s : outcome (lib W) :=
  '(memplg, s) ← lwnbd_plugin_init plugin_mem memory_plugin_init s;
  '(data, s) ← motd_data s;
  '(_, s) ← lwnbd_plugin_new plugin_mem memplg (memory_cfg (motd_config data)) s;
  Ok s.

Definition add_api s : outcome (lib W) :=
  '(cmdplg, s) ← lwnbd_plugin_init plugin_mem command_plugin_init s;
  '(_, s) ← lwnbd_plugin_new plugin_mem cmdplg (command_cfg shutdown_command) s;
  Ok s.

(** How [main] ends: with an exit status, or in [uv_run] with its exports, its
    servers, the logger, the handle in [server.data], libuv's state and that of
    the callbacks. *)
Inductive main_end :=
  | Exit (status : Z)
  | Running s r g (httpsrv : Z) (loop : Loop) (u : uv_server).

Definition server_main (opts : list server_option) s r g (loop : Loop) : outcome main_end :=
  o ← server_options opts initial_vars s g;
  match o with
  | None => Ok (Exit 1)
  | Some (v, s, g) =>
      s ← add_motd s;
      _ ← lwnbd_set_defaultexport (bs "motd") s;
      s ← add_api s;
      let '(httpsrv, r) := lwnbd_server_init server_mem nbd_server_init r in
      '(_, r) ← lwnbd_server_new server_mem httpsrv mynbd r;
      let addr := uv_ip4_addr (bs "0.0.0.0") (mv_port v) in
      let loop := uv_tcp_bind addr loop in
      let '(err, loop) := uv_listen 128 loop in
      if negb (err =? 0) then Ok (Exit 1)
      else Ok (Running s r g httpsrv loop initial_uv)
  end.
End main.

(** ** What it sets up *)

Section setup.
Context {W Cfg E S SCfg Out Addr Loop : Type}.
Context (plugin_mem : nat -> lwnbd_plugin_t W Cfg) (server_mem : nat -> lwnbd_server S SCfg).
Context (Lm : lens W memory_world) (Lc : lens W (command_world E)).
Context (HLm : lens_ok Lm) (HLc : lens_ok Lc).
Context (Hmc : forall x w, lget Lc (lput Lm x w) = lget Lc w)
  (Hcm : forall x w, lget Lm (lput Lc x w) = lget Lm w).
Context (path_cfg : list byte -> Cfg) (memory_cfg : memory_config -> Cfg)
  (command_cfg : lwnbd_command E -> Cfg).
Context (cm : Cfg -> option memory_config) (cc : Cfg -> option (lwnbd_command E))
  (Hmcfg : forall x, cm (memory_cfg x) = Some x) (Hccfg : forall x, cc (command_cfg x) = Some x).
Context (am ac : nat) (dump : E -> outcome (list byte * Z)).
Context (Ham : plugin_mem am = lift_plugin Lm cm memory_plugin)
  (Hac : plugin_mem ac = lift_plugin Lc cc (command_plugin dump)).
Context (file_plugin_init : option nat).
Context (APP_NAME APP_VERSION CC_VERSION : list byte).
Context (strsignal : Z -> list byte) (uv_kill : Z -> E -> E).
Context (uv_ip4_addr : list byte -> Z -> Addr) (uv_tcp_bind : Addr -> Loop -> Loop)
  (uv_listen : Z -> Loop -> Z * Loop).
Implicit Types (s : lib W) (r : registry S) (g : log_state Out).

Local Abbreviation text := (motd_text APP_NAME APP_VERSION CC_VERSION).
Local Abbreviation shutdown := (shutdown_command strsignal uv_kill).

Definition motd_view (n : nat) : export_view :=
  mk_export (Some (bs "motd")) (Some (bs "plain-text server information")) (Some am) (Some n).
Definition api_view : export_view :=
  mk_export (Some (bs "api")) (Some (bs "lwnbd generic command plugin")) (Some ac) None.

Lemma memory_ctor_fills cfg name desc n m :
  memory_config_ok cfg name desc -> memory_tables_ok n m -> (n < MEM_DRIVER_MAX_DEVICES)%nat ->
  ctor_fills memory_plugin cfg m (Some n) name desc
    (mk_memory (mw_ram m) (<[n := cfg]> (mw_handles m)) (handle_slots MEM_DRIVER_MAX_DEVICES (1 + n))).
Proof.
  intros Hcfg Hm Hn. eexists. split; [done|]. intros c Hc _.
  destruct (memory_ctor_run cfg name desc n c m Hcfg Hm Hc Hn) as (c' & Hrun & Hok & Hh & Hnm & Hds).
  by exists c'.
Qed.

Lemma motd_config_ok data :
  memory_config_ok (motd_config data) (bs "motd") (bs "plain-text server information").
Proof. split_and!; reflexivity. Qed.

(** The block [calloc] returns holds the text and then zeros. *)
Lemma motd_data_spec s data m :
  m = lget Lm (l_world s) -> memory_range_ok (motd_config data) m -> (length text < 512)%nat ->
  exists m', motd_data Lm APP_NAME APP_VERSION CC_VERSION (Some data) s
      = Ok (data, set_world (lput Lm m' (l_world s)) s) /\
    memory_range_ok (motd_config data) m' /\ mw_handles m' = mw_handles m /\
    mw_in_use m' = mw_in_use m /\
    memory_content (motd_config data) m' = text ++ replicate (512 - length text) x00.
Proof.
  intros -> Hr Hlen. unfold motd_data. mred. set (h := motd_config data) in *.
  assert (forall d m1 m2, ram_store data d m1 = Ok m2 -> mw_in_use m2 = mw_in_use m1) as Huse.
  { intros d m1 m2 H. unfold ram_store in H. by run. }
  destruct (ram_store_range h (replicate 512 x00) _ Hr) as (m1 & H1 & Hr1 & Hh1 & Hc1).
  { rewrite length_replicate. cbn. lia. }
  destruct (ram_store_range h (text ++ [x00]) m1 Hr1) as (m2 & H2 & Hr2 & Hh2 & Hc2).
  { rewrite length_app. cbn [length mc_size h motd_config]. lia. }
  cbn [mc_base h motd_config] in H1, H2. rewrite H1. mred. rewrite require_true by done. mred.
  rewrite H2. mred. exists m2. split; [done|]. split; [done|]. split; [congruence|].
  split; [by rewrite (Huse _ _ _ H2), (Huse _ _ _ H1)|].
  pose proof (length_memory_content h _ Hr) as Hl0. change (Z.to_nat (mc_size h)) with 512%nat in Hl0.
  rewrite splice_all in Hc1 by (by rewrite length_replicate, Hl0).
  rewrite Hc2, Hc1. unfold splice. rewrite drop_replicate, length_app, <- app_assoc.
  replace (512 - length text)%nat with (1 + (512 - (0 + (length text + 1))))%nat by lia. done.
Qed.

Lemma add_motd_spec s data n :
  lib_ok s -> (plugins_count s < MAX_NUM_PLUGINS)%nat ->
  (lwnbd_contexts_count (l_pool s) < MAX_CONTEXTS)%nat ->
  memory_tables_ok n (lget Lm (l_world s)) -> (n < MEM_DRIVER_MAX_DEVICES)%nat ->
  memory_range_ok (motd_config data) (lget Lm (l_world s)) -> (length text < 512)%nat ->
  exists s', add_motd plugin_mem Lm memory_cfg (Some am) APP_NAME APP_VERSION CC_VERSION (Some data) s
      = Ok s' /\ lib_ok s' /\ plugins_count s' = Datatypes.S (plugins_count s) /\
    lwnbd_contexts_count (l_pool s') = Datatypes.S (lwnbd_contexts_count (l_pool s)) /\
    exports s' = exports s ++ [motd_view n] /\
    lget Lc (l_world s') = lget Lc (l_world s) /\
    memory_inv n (motd_config data) (lget Lm (l_world s')) /\
    memory_content (motd_config data) (lget Lm (l_world s')) = text ++ replicate (512 - length text) x00.
Proof.
  intros Hok Hp Hc Ht Hn Hr Hlen. unfold add_motd.
  destruct (plugin_init_registers plugin_mem s am (l_world s) Hok) as (s1 & -> & Hok1 & Hp1 & Hi1 & Hpl1 & Hw1);
    [lia|by rewrite Ham|by rewrite Ham|by rewrite Ham|]. mred.
  destruct (motd_data_spec s1 data (lget Lm (l_world s1)) eq_refl) as (m & -> & Hrm & Hhm & Hum & Hcm1);
    [by rewrite Hw1|done|]. mred. rewrite Hw1 in *.
  set (s2 := set_world _ s1).
  assert (memory_tables_ok n m) as Htm by (destruct Ht as (? & ? & ?); split_and!; congruence).
  assert (ctors_fill plugin_mem am [memory_cfg (motd_config data)] (l_world s2) [motd_view n]
    (lput Lm (mk_memory (mw_ram m) (<[n := motd_config data]> (mw_handles m))
                (handle_slots MEM_DRIVER_MAX_DEVICES (1 + n))) (l_world s2))) as Hfill.
  { eapply (fill_cons _ _ _ [] _ (Some n) (bs "motd") (bs "plain-text server information")); [|constructor].
    rewrite Ham. eapply lift_ctor_fills; [apply Hmcfg|].
    cbn [l_world s2 set_world]. rewrite HLm. apply memory_ctor_fills; [apply motd_config_ok|done|done]. }
  assert (longname_ok (plugin_mem am)) as Hln by (rewrite Ham; split; by_decide).
  edestruct (fun Hcnt Hexp => plugin_new_each_spec plugin_mem s2 (plugins_count s) am _ _ _
    (set_world_ok _ _ Hok1) Hi1 Hcnt Hexp Hln Hfill) as (s' & Hrun & Hok' & Hw' & _ & Hst & He & Hcnt);
    [cbn; rewrite Hpl1; lia|by rewrite Ham|].
  exists s'. split; [exact Hrun|]. split; [done|].
  split; [unfold plugins_count in *; by rewrite Hst|].
  split; [rewrite Hcnt; cbn; rewrite Hpl1; lia|].
  split; [rewrite He; unfold exports; cbn; by rewrite Hpl1|].
  rewrite Hw'. cbn [l_world s2 set_world]. rewrite !Hmc, !HLm. split; [done|].
  destruct Htm as (Hlm & _). split; [|done]. split; [|done]. apply list_lookup_insert_eq. lia.
Qed.

(** Room for a plugin and a context more. *)
Definition roomy s : Prop :=
  lib_ok s /\ (plugins_count s < MAX_NUM_PLUGINS)%nat /\
  (lwnbd_contexts_count (l_pool s) < MAX_CONTEXTS)%nat.

Lemma add_all_commands (l : list (lwnbd_command E)) (w : command_world E) :
  (length (cw_commands w) + length l <= CMD_DRIVER_MAX)%nat ->
  cw_commands (add_all l w) = cw_commands w ++ l.
Proof.
  revert w; induction l as [|c l IH]; intros w Hl; cbn [add_all length] in *; [by rewrite app_nil_r|].
  unfold command_add_command. rewrite decide_False by lia. rewrite IH.
  - cbn [cw_commands]. by rewrite <- app_assoc.
  - cbn [cw_commands]. rewrite length_app. cbn [length]. lia.
Qed.

Lemma add_api_spec s :
  roomy s -> (length (cw_commands (lget Lc (l_world s))) + 4 <= CMD_DRIVER_MAX)%nat ->
  exists s', add_api plugin_mem command_cfg (Some ac) strsignal uv_kill s = Ok s' /\
    lib_ok s' /\ exports s' = exports s ++ [api_view] /\
    lget Lm (l_world s') = lget Lm (l_world s) /\
    cw_commands (lget Lc (l_world s'))
      = cw_commands (lget Lc (l_world s)) ++ builtin dump ++ [shutdown].
Proof.
  intros (Hok & Hp & Hc) Hcmd. unfold add_api. set (w0 := lget Lc (l_world s)) in *.
  destruct (plugin_init_exports_api plugin_mem s ac (lput Lc (add_all (builtin dump) w0) (l_world s)) Hok)
    as (s1 & -> & Hok1 & Hp1 & Hi1 & Hw1 & Hcnt & He1);
    [lia|lia|by rewrite Hac|by rewrite Hac|by rewrite Hac|rewrite Hac; by_decide
    |rewrite Hac; apply Nat.ltb_lt; reflexivity|]. mred.
  assert (length (cw_commands w0) + length (builtin dump) <= CMD_DRIVER_MAX)%nat as Hroom
    by (change (length (builtin dump)) with 3%nat; lia).
  pose proof (add_all_commands _ _ Hroom) as Hall.
  erewrite (plugin_new_without_handle plugin_mem s1); [|exact Hi1|by rewrite Hac|by rewrite Hac|].
  2:{ cbv beta. rewrite Hccfg. mred. rewrite Hw1, HLc. unfold command_ctor, command_add_command.
      rewrite decide_False; [done|]. rewrite Hall, length_app. change (length (builtin dump)) with 3%nat. lia. }
  mred. eexists. split; [done|]. split; [by apply set_world_ok|]. cbn [l_world set_world].
  split; [unfold exports in *; cbn; rewrite He1, Hac; done|].
  rewrite !Hcm, HLc. split; [done|]. cbn [cw_commands]. by rewrite Hall, <- app_assoc.
Qed.

(** *** The whole of [main] *)

Definition plain_option (o : server_option) : Prop :=
  match o with opt_v _ | opt_i _ | opt_p _ => True | opt_f _ | opt_unknown => False end.

(** The last [-p], and the logger after every [-v]. *)
Definition port_of (opts : list server_option) (port : Z) : Z :=
  foldl (fun port o => match o with opt_p optarg => atoi optarg | _ => port end) port opts.

Definition logger_of (opts : list server_option) g : log_state Out :=
  foldl (fun g o => match o with opt_v optarg => mk_log (atoi optarg) (g_callback g) | _ => g end) g opts.

Lemma server_options_plain opts v s g :
  Forall plain_option opts ->
  exists v', server_options plugin_mem path_cfg file_plugin_init opts v s g = Ok (Some (v', s, logger_of opts g)) /\
    mv_port v' = port_of opts (mv_port v).
Proof.
  intros Ho. revert v g. induction Ho as [|o opts Ho _ IH]; intros v g; [by exists v|].
  destruct o; try done; cbn [server_options]; apply IH.
Qed.

Lemma server_options_file path opts opts' v s g :
  Forall plain_option opts -> mv_fileplg v = None ->
  server_options plugin_mem path_cfg file_plugin_init (opts ++ opt_f path :: opts') v s g
  = Fault Uninitialised.
Proof.
  intros Ho. revert v g. induction Ho as [|o opts Ho _ IH]; intros v g Hv; cbn [app server_options].
  - by rewrite Hv.
  - destruct o; try done; by apply IH.
Qed.

(** The structure of the NBD server: a handle from [new], a constructor that
    accepts whatever the settings hold. *)
Record nbd_like (mynbd : SCfg) (b : nat) (new : S -> option nat * S) : Prop := {
  nl_new : sv_new (server_mem b) = Some new;
  nl_ctor : exists ctor, sv_ctor (server_mem b) = Some ctor /\ forall h st, ctor h mynbd st = Ok (0, st)
}.

(** The registry after its initialisation, in the first free slot. *)
Definition nbd_registered (b : nat) (new : S -> option nat * S) r : registry S :=
  let i := find_slot server_is_free (r_status r) in
  mk_registry (<[i := mk_instance (new (r_state r)).1 (Some b)]> (r_servers r))
    (<[i := SRV_STOPPED]> (r_status r)) (r_bis r) (new (r_state r)).2.

Lemma nbd_registers mynbd b new r :
  nbd_like mynbd b new -> length (r_servers r) = MAX_NUM_SERVERS ->
  (find_slot server_is_free (r_status r) < MAX_NUM_SERVERS)%nat ->
  let srv := Z.of_nat (find_slot server_is_free (r_status r)) in
  lwnbd_server_init server_mem (Some b) r = (srv, nbd_registered b new r) /\
  lwnbd_server_new server_mem srv mynbd (nbd_registered b new r) = Ok (0, nbd_registered b new r).
Proof.
  intros [Hnew (ctor & Hctor & Hret)] Hl Hi srv. unfold lwnbd_server_init, nbd_registered, srv.
  set (i := find_slot server_is_free (r_status r)) in *. rewrite decide_False by lia. rewrite Hnew.
  split; [by destruct (new (r_state r))|]. unfold lwnbd_server_new, server_of. cbn [r_servers].
  rewrite Nat2Z.id, list_lookup_insert_eq by lia. mred. cbn [si_s si_handle]. mred.
  rewrite Hctor. mred. by rewrite Hret.
Qed.

Context (set_default : list byte -> lib W -> outcome unit) (mynbd : SCfg).

Local Abbreviation main b data := (server_main plugin_mem server_mem Lm path_cfg memory_cfg command_cfg
  file_plugin_init (Some am) (Some ac) (Some b) APP_NAME APP_VERSION CC_VERSION strsignal uv_kill
  (Some data) set_default mynbd uv_ip4_addr uv_tcp_bind uv_listen).


(** With [-f], whatever precedes it, [main] compares a variable it has never
    written. *)
Theorem server_main_file_uninitialised opts path opts' s r g loop b data :
  Forall plain_option opts ->
  main b data (opts ++ opt_f path :: opts') s r g loop = Fault Uninitialised.
Proof. intros Ho. unfold server_main. by rewrite server_options_file. Qed.
End setup.
