(* ===== verification/Events.v ===== *)
(** * The descriptor table of the event loop: [src/servers.c]

    [efds] holds, per descriptor, what is watched and the callback to run.  It
    is declared [static] in [include/lwnbd/lwnbd.h], so every file that
    includes the header has a table of its own; the functions of this file
    work on the one of [src/servers.c]. *)

From S2P Require Export Prelude.

Definition MAXFD : nat := 1024.
Definition CLIENT_TIMEOUT : Z := 60.

(** [CB] are the callbacks, [U] the values of [void *userdata]. *)
Record fd_state (CB U : Type) := mk_fd_state {
  want_read : Z;
  want_write : Z;
  on_read : option CB;
  on_write : option CB;
  userdata : option U;
  last_activity : Z
}.
Arguments mk_fd_state {CB U} _ _ _ _ _ _.
Arguments want_read {CB U} _.
Arguments want_write {CB U} _.
Arguments on_read {CB U} _.
Arguments on_write {CB U} _.
Arguments userdata {CB U} _.
Arguments last_activity {CB U} _.

Section events.
Context {CB U : Type}.
Local Abbreviation table := (list (fd_state CB U)).
Implicit Types (efds : table) (e : fd_state CB U).

Definition idle_fd : fd_state CB U := mk_fd_state 0 0 None None None 0.

Definition initial_efds : table := replicate MAXFD idle_fd.

(** [efds[fd].field = v]: the index is not tested. *)
Definition update_fd (fd : Z) (f : fd_state CB U -> fd_state CB U) efds : outcome table :=
  _ ← outcome_require (0 <= fd) OutOfBounds;
  e ← of_option OutOfBounds (efds !! Z.to_nat fd);
  Ok (<[Z.to_nat fd := f e]> efds).

(** [now] is [time(NULL)]. *)
Definition event_watch_readable (fd : Z) (cb : CB) (u : option U) (now : Z) efds : outcome table :=
  update_fd fd (fun e => mk_fd_state 1 (want_write e) (Some cb) (on_write e) u now) efds.

Definition event_watch_writable (fd : Z) (cb : CB) (u : option U) (now : Z) efds : outcome table :=
  update_fd fd (fun e => mk_fd_state (want_read e) 1 (on_read e) (Some cb) u now) efds.

Definition event_remove (fd : Z) efds : outcome table :=
  update_fd fd (fun e => mk_fd_state 0 0 None None None 0) efds.

(** ** Properties *)

(** Descriptors that have an entry. *)
Definition fd_ok (fd : Z) efds : Prop := 0 <= fd < Z.of_nat (length efds).

Lemma update_fd_ok fd f efds :
  fd_ok fd efds -> exists e efds', efds !! Z.to_nat fd = Some e /\
    update_fd fd f efds = Ok efds' /\ length efds' = length efds /\
    efds' !! Z.to_nat fd = Some (f e) /\
    forall k, k <> fd -> 0 <= k -> efds' !! Z.to_nat k = efds !! Z.to_nat k.
Proof.
  intros [H0 H1]. destruct (lookup_lt_is_Some_2 efds (Z.to_nat fd)) as [e He]; [lia|].
  exists e. unfold update_fd. rewrite require_true by done. mred. rewrite He. mred.
  eexists. split; [done|]. split; [done|]. split; [apply length_insert|]. split.
  - apply list_lookup_insert_eq. lia.
  - intros k Hk Hk0. apply list_lookup_insert_ne. intros E. apply Hk. lia.
Qed.

(** A descriptor beyond the table is written outside it. *)
Lemma update_fd_beyond fd f efds :
  ~ fd_ok fd efds -> update_fd fd f efds = Fault OutOfBounds.
Proof.
  intros H. unfold update_fd, fd_ok in *. unfold outcome_require. case_decide; [|done]. mred.
  by rewrite lookup_ge_None_2 by lia.
Qed.

(** Both directions of a descriptor share one [userdata]: after watching for
    reads with [u] and for writes with [u'], the reader's callback is kept and
    gets [u']; removing the descriptor undoes both. *)
Theorem watch_both_shares_userdata fd rd u wr u' t t' efds :
  fd_ok fd efds ->
  exists efds1 efds2 efds3 e, event_watch_readable fd rd u t efds = Ok efds1 /\
    event_watch_writable fd wr u' t' efds1 = Ok efds2 /\
    efds2 !! Z.to_nat fd = Some e /\
    e = mk_fd_state 1 1 (Some rd) (Some wr) u' t' /\
    event_remove fd efds2 = Ok efds3 /\ efds3 !! Z.to_nat fd = Some idle_fd /\
    forall k, k <> fd -> 0 <= k -> efds3 !! Z.to_nat k = efds !! Z.to_nat k.
Proof.
  intros H. unfold event_watch_readable, event_watch_writable, event_remove.
  destruct (update_fd_ok fd (fun e => mk_fd_state 1 (want_write e) (Some rd) (on_write e) u t) efds H)
    as (e0 & efds1 & H0 & Hu1 & Hl1 & He1 & Hk1).
  destruct (update_fd_ok fd (fun e => mk_fd_state (want_read e) 1 (on_read e) (Some wr) u' t') efds1)
    as (e1 & efds2 & H1 & Hu2 & Hl2 & He2 & Hk2); [unfold fd_ok in *; lia|].
  destruct (update_fd_ok fd (fun e => idle_fd) efds2)
    as (e2 & efds3 & H2 & Hu3 & Hl3 & He3 & Hk3); [unfold fd_ok in *; lia|].
  rewrite He1 in H1. injection H1 as <-.
  exists efds1, efds2, efds3. eexists. rewrite Hu1. split; [reflexivity|]. rewrite Hu2.
  split; [reflexivity|]. split; [exact He2|]. split; [reflexivity|]. split; [exact Hu3|].
  split; [exact He3|].
  intros k Hk Hk0. by rewrite Hk3, Hk2, Hk1.
Qed.
End events.
#[global] Arguments fd_state : clear implicits.
