(* ===== verification/Chargen.v ===== *)
(** * The inetd services: [servers/chargen.c] and [servers/daytime.c]

    [chargen] sends its line over and over to whoever connects: a state per
    connection, allocated when it starts, says what is left of the current
    line.  Allocated objects live in a heap of cells; a freed cell is
    [None]. *)

From S2P Require Export CString Events.
From stdpp Require Import relations.
#[local] Open Scope Z_scope.

(** From ['!'] to ['~'], and a newline. *)
Definition chargen_line : list byte :=
  bs "!" ++ [x22] ++ bs "#$%&'()*+,-./0123456789:;<=>?@ABCDEFGHIJKLMNOPQRSTUVWXYZ[\]^_`abcdefghijklmnopqrstuvwxyz{|}~"
  ++ [x0a].

(** [ptr] is an offset in the line. *)
Record chargen_state := mk_chargen { cg_ptr : nat; cg_len : nat }.

(** The only callback of this file. *)
Inductive callback := chargen_cb.

(** [cw_efds] is the table of [src/servers.c], [cw_own] the one of
    [servers/chargen.c]; [cw_net] the operating system. *)
Record chargen_world (N : Type) := mk_chargen_world {
  cw_heap : list (option chargen_state);
  cw_efds : list (fd_state callback nat);
  cw_own : list (fd_state callback nat);
  cw_net : N
}.
Arguments mk_chargen_world {N} _ _ _ _.
Arguments cw_heap {N} _.
Arguments cw_efds {N} _.
Arguments cw_own {N} _.
Arguments cw_net {N} _.

Section chargen.
Context {N : Type}.
(** [write] and [close] of the operating system: what is returned. *)
Context (write : Z -> list byte -> N -> Z * N) (close : Z -> N -> N).

Definition chargen_deref (st : option nat) (w : chargen_world N) : outcome (nat * chargen_state) :=
  i ← of_option NullDeref st;
  c ← of_option OutOfBounds (cw_heap w !! i);
  s ← of_option Uninitialised c;
  Ok (i, s).

(** [now] is [time(NULL)]. *)
Definition chargen_on_writable (fd : Z) (u : option nat) (now : Z) (w : chargen_world N)
  : outcome (chargen_world N) :=
  '(i, st) ← chargen_deref u w;
  d ← load_at (cg_ptr st) (cg_len st) chargen_line;
  let '(n, net) := write fd d (cw_net w) in
  if n <=? 0 then
    let net := close fd net in
    efds ← event_remove fd (cw_efds w);
    Ok (mk_chargen_world (<[i := None]> (cw_heap w)) efds (cw_own w) net)
  else
    let st := if size_t n <? Z.of_nat (cg_len st)
              then mk_chargen (cg_ptr st + Z.to_nat n) (cg_len st - Z.to_nat n)
              else mk_chargen 0 (length chargen_line) in
    own ← update_fd fd (fun e => mk_fd_state (want_read e) (want_write e) (on_read e) (on_write e)
                                   (userdata e) now) (cw_own w);
    efds ← event_watch_writable fd chargen_cb u now (cw_efds w);
    Ok (mk_chargen_world (<[i := Some st]> (cw_heap w)) efds own net).

(** [malloc]: the cell it returns is fresh; [memory] says whether there is
    any. *)
Definition service_chargen_new (fd : Z) (memory : bool) (now : Z) (w : chargen_world N)
  : outcome (chargen_world N) :=
  let st := if memory then Some (length (cw_heap w)) else None in
  i ← of_option NullDeref st;
  let heap := cw_heap w ++ [Some (mk_chargen 0 (length chargen_line))] in
  efds ← event_watch_writable fd chargen_cb st now (cw_efds w);
  Ok (mk_chargen_world heap efds (cw_own w) (cw_net w)).

(** [servers/daytime.c]: the current time as text, in one write whose result is
    not looked at.  [ctime] is the C library's: a string, or [NULL] for a year
    it cannot print. *)
Definition daytime_handler (ctime : Z -> option (list byte)) (fd now : Z) (net : N) : outcome N :=
  time_str ← of_option NullDeref (ctime now);
  n ← strlen time_str;
  d ← load_at 0 n time_str;
  Ok (write fd d net).2.

(** ** The stream a client sees *)

(** The loop that calls back is not part of the library; what it may do on a
    descriptor is run the callback registered for it with the data registered
    for it. *)
Inductive chargen_step (fd : Z) (w w' : chargen_world N) : Prop :=
  | writable_event e now :
      cw_efds w !! Z.to_nat fd = Some e -> want_write e = 1 -> on_write e = Some chargen_cb ->
      chargen_on_writable fd (userdata e) now w = Ok w' -> chargen_step fd w w'.

(** [sent] is what went out on the descriptor, [is_open] whether the process
    still holds it. *)
Context (sent : N -> list byte) (is_open : N -> bool) (fd : Z).

(** [write] sends a prefix of its data and leaves the descriptor as it is;
    [close] sends nothing and gives the descriptor back. *)
Record write_prefix : Prop := {
  wp_write d net : let '(r, net') := write fd d net in
    r <= Z.of_nat (length d) /\ sent net' = sent net ++ take (Z.to_nat r) d /\ is_open net' = is_open net;
  wp_close net : sent (close fd net) = sent net /\ is_open (close fd net) = false
}.

(** The infinite repetition of the line, up to where [d] ends. *)
Definition repeats_line (d : list byte) : Prop :=
  forall k b, d !! k = Some b -> chargen_line !! (k mod 95)%nat = Some b.

(** A connection that is being served has sent [d]. *)
Definition serving (i : nat) (d : list byte) (w : chargen_world N) : Prop :=
  fd_ok fd (cw_efds w) /\ fd_ok fd (cw_own w) /\ is_open (cw_net w) = true /\
  exists e len, cw_heap w !! i = Some (Some (mk_chargen (length d mod 95) len)) /\
    (length d mod 95 + len = 95)%nat /\
    cw_efds w !! Z.to_nat fd = Some e /\ want_write e = 1 /\ on_write e = Some chargen_cb /\
    userdata e = Some i.

(** One that is over is neither watched nor allocated, and its descriptor is
    closed. *)
Definition closed (i : nat) (w : chargen_world N) : Prop :=
  cw_efds w !! Z.to_nat fd = Some idle_fd /\ cw_heap w !! i = Some None /\ is_open (cw_net w) = false.

Lemma length_chargen_line : length chargen_line = 95%nat.
Proof. done. Qed.

Lemma repeats_line_app d n :
  repeats_line d -> (length d mod 95 + n <= 95)%nat ->
  repeats_line (d ++ take n (drop (length d mod 95) chargen_line)).
Proof.
  intros Hd Hn k b Hk. destruct (decide (k < length d)%nat).
  - rewrite lookup_app_l in Hk by done. by apply Hd.
  - rewrite lookup_app_r in Hk by lia. pose proof (lookup_lt_Some _ _ _ Hk) as Hlt.
    rewrite length_take in Hlt. rewrite lookup_take_lt, lookup_drop in Hk by lia. rewrite <- Hk.
    f_equal. pose proof (Nat.Div0.div_mod (length d) 95).
    symmetry. apply (Nat.mod_unique _ _ (length d / 95)); lia.
Qed.

(** Starting over, or going on in the same line. *)
Lemma next_position (d : list byte) n len :
  (length d mod 95 + len = 95)%nat -> (0 < n <= len)%nat ->
  (if decide (n < len)%nat then length d mod 95 + n else 0)%nat
  = ((length d + n) mod 95)%nat.
Proof.
  intros Hl Hn. pose proof (Nat.Div0.div_mod (length d) 95). case_decide.
  - apply (Nat.mod_unique _ _ (length d / 95)); lia.
  - apply (Nat.mod_unique _ _ (length d / 95 + 1)); lia.
Qed.

Context (HW : write_prefix).

Lemma chargen_serves i d now w :
  serving i d w -> repeats_line d ->
  exists w' d', chargen_on_writable fd (Some i) now w = Ok w' /\
    sent (cw_net w') = sent (cw_net w) ++ d' /\ repeats_line (d ++ d') /\
    (serving i (d ++ d') w' \/ closed i w').
Proof.
  intros (Hf & Ho & Hop & e & len & Hh & Hlen & He & Hw & Hcb & Hu) Hr.
  pose proof length_chargen_line as Hline.
  pose proof (Nat.mod_upper_bound (length d) 95 ltac:(lia)) as Hmod.
  unfold chargen_on_writable, chargen_deref. mred. rewrite Hh. mred. cbn [cg_ptr cg_len].
  rewrite load_at_fits by lia. mred.
  pose proof (wp_write HW (slice (length d mod 95) len chargen_line) (cw_net w)) as Hwr.
  destruct (write _ _ _) as [n net]. destruct Hwr as (Hn & Hs & Hop').
  rewrite length_slice in Hn by lia.
  assert (take (Z.to_nat n) (slice (length d mod 95) len chargen_line)
    = take (Z.to_nat n) (drop (length d mod 95) chargen_line)) as Ht.
  { unfold slice. rewrite firstn_firstn, Nat.min_l by lia. done. }
  rewrite Ht in Hs. case (Z.leb_spec n 0) as [Hn0|Hn0].
  - destruct (update_fd_ok fd (fun e => mk_fd_state 0 0 None None None 0) (cw_efds w) Hf)
      as (e0 & efds & H0 & Hup & Hl & Hidle & Hk). unfold event_remove. rewrite Hup. mred.
    eexists _, []. split; [done|]. cbn [cw_net]. rewrite (proj1 (wp_close HW _)), Hs.
    replace (Z.to_nat n) with 0%nat by lia. rewrite take_0, !app_nil_r.
    split; [done|]. split; [done|]. right. split; [done|]. split; [|apply (wp_close HW)]. cbn.
    apply list_lookup_insert_eq. by eapply lookup_lt_Some.
  - assert (0 <= n < 2 ^ 64) as Hb by lia. rewrite (wrap_small 64 n Hb).
    match goal with |- context [update_fd fd ?f (cw_own w)] =>
      destruct (update_fd_ok fd f (cw_own w) Ho) as (e0 & own & H0 & -> & Hl & He0 & Hk) end. mred.
    unfold event_watch_writable.
    match goal with |- context [update_fd fd ?f (cw_efds w)] =>
      destruct (update_fd_ok fd f (cw_efds w) Hf) as (e1 & efds & H1 & -> & Hl1 & He1 & Hk1) end. mred.
    eexists _, _. split; [done|]. cbn [cw_net]. split; [exact Hs|]. split; [apply repeats_line_app; [done|lia]|].
    left. split_and!; [unfold fd_ok in *; cbn; lia|unfold fd_ok in *; cbn; lia|by cbn; rewrite Hop'|].
    assert (length (take (Z.to_nat n) (drop (length d mod 95) chargen_line)) = Z.to_nat n) as Hln
      by (rewrite length_take, length_drop; lia).
    rewrite length_app, Hln, <- (next_position d (Z.to_nat n) len) by lia.
    eexists _, (if decide (Z.to_nat n < len)%nat then len - Z.to_nat n else 95)%nat.
    cbn [cw_heap cw_efds].
    split; [|split; [case_decide; lia|split_and!; [exact He1|done|done|done]]].
    rewrite list_lookup_insert_eq by (by eapply lookup_lt_Some).
    case (Z.ltb_spec n (Z.of_nat len)); case_decide; done || lia.
Qed.

(** C27: whatever the sizes the socket accepts, a client receives a prefix of the
    endless repetition of the line; until the connection ends every event is
    handled and the descriptor stays open, and when it ends the descriptor is
    closed and not watched any more, and the state of the connection freed. *)
Theorem chargen_stream now w :
  fd_ok fd (cw_efds w) -> fd_ok fd (cw_own w) -> is_open (cw_net w) = true ->
  exists w0, service_chargen_new fd true now w = Ok w0 /\
  forall w1, rtc (chargen_step fd) w0 w1 ->
    exists d, sent (cw_net w1) = sent (cw_net w) ++ d /\ repeats_line d /\
      (serving (length (cw_heap w)) d w1 /\ (forall now, exists w2,
          chargen_on_writable fd (Some (length (cw_heap w))) now w1 = Ok w2)
       \/ closed (length (cw_heap w)) w1).
Proof.
  intros Hf Ho Hop. set (i := length (cw_heap w)). unfold service_chargen_new. mred.
  unfold event_watch_writable.
  match goal with |- context [update_fd fd ?f (cw_efds w)] =>
    destruct (update_fd_ok fd f (cw_efds w) Hf) as (e1 & efds & H1 & -> & Hl1 & He1 & Hk1) end. mred.
  eexists. split; [done|]. set (w0 := mk_chargen_world _ _ _ _).
  assert (serving i [] w0) as H0.
  { split; [unfold fd_ok in *; cbn; lia|]. split; [done|]. split; [done|]. eexists _, 95%nat. cbn.
    split; [|split_and!; [done|exact He1|done|done|done]].
    by rewrite lookup_app_r, Nat.sub_diag by done. }
  assert (forall w1, rtc (chargen_step fd) w0 w1 -> exists d,
    sent (cw_net w1) = sent (cw_net w) ++ d /\ repeats_line d /\ (serving i d w1 \/ closed i w1)) as Hinv.
  { intros w1 Hrun. pattern w1. revert w1 Hrun. apply rtc_ind_r.
    - exists []. rewrite app_nil_r. split; [done|]. split; [by intros ? ?|by left].
    - intros wa wb _ Hstep (d & Hs & Hr & Hor). destruct Hstep as [e t He Hw Hcb Hrun].
      destruct Hor as [Hserve|[Hidle _]].
      + pose proof Hserve as (_ & _ & _ & e' & len & _ & _ & He' & _ & _ & Hu).
        rewrite He in He'. injection He' as <-. rewrite Hu in Hrun.
        destruct (chargen_serves i d t wa Hserve Hr) as (w' & d' & Hrun' & Hs' & Hr' & Hor').
        rewrite Hrun in Hrun'. injection Hrun' as <-. exists (d ++ d').
        rewrite Hs', Hs, app_assoc. done.
      + rewrite He in Hidle. injection Hidle as ->. done. }
  intros w1 Hrun. destruct (Hinv w1 Hrun) as (d & Hs & Hr & [Hserve|Hclosed]); exists d.
  - split; [done|]. split; [done|]. left. split; [done|]. intros t.
    by destruct (chargen_serves i d t w1 Hserve Hr) as (w2 & _ & H2 & _); exists w2.
  - split; [done|]. split; [done|]. by right.
Qed.

(** The time service sends exactly the text of the current time. *)
Lemma daytime_sends ctime text rest now net :
  ctime now = Some (text ++ x00 :: rest) -> no_nul text ->
  daytime_handler ctime fd now net = Ok (write fd text net).2.
Proof.
  intros Ht Hn. unfold daytime_handler, strlen. rewrite Ht. mred.
  rewrite c_str_app by done. cbn [fmap option_fmap option_map]. mred.
  rewrite load_at_fits by (rewrite length_app; lia). mred.
  unfold slice. by rewrite drop_0, take_app_length.
Qed.
End chargen.
