(* ===== verification/Examples.v ===== *)
(** * A concrete server

    The general theorems applied to one machine: the ATA plugin over a disk
    image of two sectors, exported with 512-byte blocks over a socket whose
    peer's bytes arrive in segments.  Each lemma discharges the hypotheses of
    one theorem by evaluating the definitions on this machine. *)

From S2P Require Import AtadPlugin TransmissionSpec TransmissionErrors TransmissionBlocks TransmissionSafety HandshakeSafety Nbd.

(** ** The machine *)

Definition disk_plugin : lwnbd_plugin_t (atad_world (list byte)) Z :=
  atad_plugin image_sector_io image_flush_cache image_devinfo.

Definition disk_plugin_mem (a : nat) : lwnbd_plugin_t (atad_world (list byte)) Z := disk_plugin.

(** Two sectors, all zero. *)
Definition disk_world : atad_world (list byte) :=
  mk_atad [mk_atad_handle 0 1024; mk_atad_handle 0 0] (replicate 1024 x00).

Definition disk_context : lwnbd_context_t :=
  mk_context (Some 0%nat) (Some 0%nat) (bs "hdd0" ++ replicate 28 x00) (replicate 64 x00) 1024.

Definition socket : Z := 5.

Definition disk_export (eflags : Z) : lwnbd_context_nbd_t :=
  mk_nbd_context disk_context eflags 512 4096 4096 NBD_FLAG_FIXED_NEWSTYLE 0 0 socket TRANSMISSION.

Abbreviation writable := (disk_export (Z.lor NBD_FLAG_HAS_FLAGS NBD_FLAG_SEND_FLUSH)).

#[export] Instance socket_callbacks : Callbacks pipe := tcp_callbacks pipe_recv pipe_send.

#[export] Instance socket_transport : Transport pipe socket :=
  tcp_transport pipe_recv pipe_send socket (fun n => concat (pipe_in n)) pipe_out
    (pipe_posix socket).

Definition disk_inv : atad_world (list byte) -> Prop := atad_inv 0 (fun d => d) 0.
Definition disk_content : atad_world (list byte) -> list byte := atad_content (fun d => d).

#[export] Instance disk_read_store :
  ReadStore disk_plugin (Some 0%nat) 512 disk_inv disk_content :=
  atad_read_store _ _ _ 0 _ (image_disk 0) 0.

#[export] Instance disk_write_store :
  WriteStore disk_plugin (Some 0%nat) 512 disk_inv disk_content :=
  atad_write_store _ _ _ 0 _ (image_disk 0) 0.

#[export] Instance disk_flush_store :
  FlushStore disk_plugin (Some 0%nat) disk_inv disk_content :=
  atad_flush_store _ _ _ 0 _ (image_disk 0) 0.

(** The stack of the connection before the first request. *)
Definition stack_request : list byte := replicate sizeof_nbd_request xff.
Definition stack_buffer : list byte := replicate 4096 xff.

Lemma disk_stack_ok : stack_ok stack_request stack_buffer.
Proof. split; vm_compute; reflexivity. Qed.

Lemma disk_device_ok eflags : device_ok (disk_export eflags) disk_inv disk_content disk_world.
Proof.
  split; [|split; [vm_compute; reflexivity|cbn; lia]].
  split; [exists (mk_atad_handle 0 1024); by split|vm_compute; done].
Qed.

Lemma disk_block : n_minimum_block_size writable <= CONFIG_NBD_BUFFER_LEN.
Proof. by_decide. Qed.

(** ** Its client *)

Definition request (type offset count : Z) : nbd_request :=
  mk_request NBD_REQUEST_MAGIC 0 type 7 offset count.

Definition sector : list byte := replicate 512 x41.

Definition write_sector : command := mk_command (request NBD_CMD_WRITE 512 512) sector.
Definition read_sector : command := mk_command (request NBD_CMD_READ 512 512) [].
Definition read_beyond : command := mk_command (request NBD_CMD_READ 1024 512) [].
Definition flush_disk : command := mk_command (request NBD_CMD_FLUSH 0 0) [].
Definition disconnect : nbd_request := request NBD_CMD_DISC 0 0.

Ltac conforms :=
  unfold conforming, flushable, read_only, in_range; cbn -[Z.pow];
  split_and!; intros; try discriminate; try lia; repeat split; try done; try (vm_compute; congruence).

Lemma write_sector_conforming : conforming writable write_sector.
Proof. conforms. Qed.

Lemma read_sector_conforming : conforming writable read_sector.
Proof. conforms. Qed.

Lemma read_beyond_conforming : conforming writable read_beyond.
Proof. conforms. Qed.

Lemma flush_disk_conforming : conforming writable flush_disk.
Proof. conforms. Qed.

Lemma disconnect_ok : is_disconnect disconnect.
Proof. split_and!; [|done..]. unfold request_ok. vm_compute. intuition congruence. Qed.

(** ** Transmission *)

(** The client's segments: the write request and half of its payload, the rest
    of the payload glued to the next request, and so on. *)
Definition session_in : list (list byte) :=
  [wire_request (cmd_rq write_sector) ++ take 256 sector;
   drop 256 sector ++ wire_request (cmd_rq read_sector) ++ wire_request (cmd_rq read_beyond);
   wire_request (cmd_rq flush_disk); wire_request disconnect; [x01]].

Lemma transmission_session_witness :
  let '(replies, l) := session_spec [write_sector; read_sector; read_beyond; flush_disk] (disk_content disk_world) in
  exists f, transmission_phase disk_plugin_mem 5 3 (Some writable) stack_request stack_buffer
      (mk_pipe session_in []) disk_world
    = Ok (0, Some (set_n_state ABORT writable, f)) /\
    inbox socket (f_net f) = [x01] /\ outbox socket (f_net f) = outbox socket (mk_pipe session_in []) ++ replies /\
    disk_content (f_world f) = l /\ device_ok writable disk_inv disk_content (f_world f).
Proof.
  apply (transmission_session disk_plugin_mem writable 0 disk_inv disk_content eq_refl
    (fun _ => disk_write_store) (fun _ => disk_flush_store) disk_block 3
    [write_sector; read_sector; read_beyond; flush_disk] disconnect stack_request stack_buffer (mk_pipe session_in []) disk_world [x01]).
  - exact disk_stack_ok.
  - apply disk_device_ok.
  - repeat apply Forall_cons_2; try apply Forall_nil_2; auto using write_sector_conforming, read_sector_conforming,
      read_beyond_conforming, flush_disk_conforming.
  - exact disconnect_ok.
  - vm_compute. reflexivity.
  - vm_compute. reflexivity.
Defined.

Lemma transmission_hangup_witness :
  let '(replies, l) := session_spec [write_sector; read_sector] (disk_content disk_world) in
  exists f, transmission_phase disk_plugin_mem 3 3 (Some writable) stack_request stack_buffer
      (mk_pipe [client_bytes write_sector ++ client_bytes read_sector; take 9 (wire_request disconnect)] []) disk_world
    = Ok (-1, Some (writable, f)) /\
    outbox socket (f_net f) = outbox socket (mk_pipe [client_bytes write_sector ++ client_bytes read_sector; take 9 (wire_request disconnect)] []) ++ replies /\
    disk_content (f_world f) = l /\ device_ok writable disk_inv disk_content (f_world f).
Proof.
  apply (transmission_hangup disk_plugin_mem writable 0 disk_inv disk_content eq_refl
    (fun _ => disk_write_store) (fun _ => disk_flush_store) disk_block 3
    [write_sector; read_sector] stack_request stack_buffer
    (mk_pipe [client_bytes write_sector ++ client_bytes read_sector; take 9 (wire_request disconnect)] [])
    disk_world (take 9 (wire_request disconnect))).
  - exact disk_stack_ok.
  - apply disk_device_ok.
  - repeat apply Forall_cons_2; try apply Forall_nil_2;
      auto using write_sector_conforming, read_sector_conforming.
  - by_decide.
  - vm_compute. reflexivity.
  - vm_compute. reflexivity.
Defined.

Lemma write_then_read_witness :
  exists f, transmission_phase disk_plugin_mem 3 3 (Some writable) stack_request stack_buffer
      (mk_pipe [client_bytes write_sector; client_bytes read_sector ++ wire_request disconnect] []) disk_world
    = Ok (0, Some (set_n_state ABORT writable, f)) /\
    outbox socket (f_net f) = outbox socket (mk_pipe [client_bytes write_sector; client_bytes read_sector ++ wire_request disconnect] []) ++ wire_reply NBD_SUCCESS 7 ++ wire_reply NBD_SUCCESS 7 ++ sector.
Proof.
  apply (write_then_read disk_plugin_mem writable 0 disk_inv disk_content eq_refl
    (fun _ => disk_write_store) (fun _ => disk_flush_store) disk_block 3
    (cmd_rq write_sector) (cmd_rq read_sector) sector disconnect stack_request stack_buffer
    (mk_pipe [client_bytes write_sector; client_bytes read_sector ++ wire_request disconnect] [])
    disk_world []).
  - exact disk_stack_ok.
  - apply disk_device_ok.
  - exact write_sector_conforming.
  - reflexivity.
  - exact read_sector_conforming.
  - reflexivity.
  - reflexivity.
  - reflexivity.
  - exact disconnect_ok.
  - vm_compute. reflexivity.
  - vm_compute. reflexivity.
Defined.

(** ** Refusals and failures *)

Definition frame_with (net : pipe) : frame pipe (atad_world (list byte)) :=
  mk_frame initial_xfer stack_request stack_buffer net disk_world.

Lemma frame_with_ok net : frame_ok (frame_with net).
Proof. split; vm_compute; reflexivity. Qed.

Abbreviation readonly := (disk_export (Z.lor NBD_FLAG_HAS_FLAGS NBD_FLAG_READ_ONLY)).

Lemma request_7_ok type offset count :
  0 <= type < 2 ^ 16 -> 0 <= offset < 2 ^ 64 -> 0 <= count < 2 ^ 32 -> request_ok (request type offset count).
Proof. intros. unfold request_ok. split_and!; try done; try lia; cbn [request rq_type rq_offset rq_count]; lia. Qed.


Lemma pipe_recv_returns s mem len (n : pipe) : sync_recv_cb s mem len n <> Fault OutOfFuel.
Proof.
  apply tcp_recv_block_returns. intros s' len' fl n' H. unfold pipe_recv.
  by rewrite (proj2 (Z.leb_le _ _)).
Qed.

Lemma disk_read_returns c o fl w : lwnbd_pread disk_plugin_mem disk_context c o fl w <> Fault OutOfFuel.
Proof.
  unfold lwnbd_pread, method. cbn. unfold atad_pread, atad_handle_of. cbn.
  destruct (aw_handles w); [done|]. cbn. by destruct (image_sector_io _ _ _ _ _ _) as [[? ?] ?].
Qed.

Lemma disk_write_returns b c o fl w :
  lwnbd_pwrite disk_plugin_mem disk_context b c o fl w <> Fault OutOfFuel.
Proof.
  unfold lwnbd_pwrite, method. cbn. unfold atad_pwrite, atad_handle_of. cbn.
  destruct (aw_handles w); [done|]. cbn. by destruct (image_sector_io _ _ _ _ _ _) as [[? ?] ?].
Qed.

Lemma transfers_terminate_witness :
  cmd_read disk_plugin_mem (transfer_fuel (cmd_rq read_sector)) writable 512
    (cmd_rq read_sector) (frame_with (mk_pipe [] [])) <> Fault OutOfFuel /\
  cmd_write disk_plugin_mem (transfer_fuel (cmd_rq read_sector)) writable 512
    (cmd_rq read_sector) (frame_with (mk_pipe [] [])) <> Fault OutOfFuel.
Proof.
  apply (transfers_terminate disk_plugin_mem writable pipe_recv_returns ltac:(done)
    disk_read_returns disk_write_returns ltac:(done) disk_block).
  - apply request_7_ok; by vm_compute.
  - reflexivity.
  - by vm_compute.
  - reflexivity.
Defined.

Lemma write_refused_witness :
  exists f', serve_request disk_plugin_mem 1 readonly
      (frame_with (mk_pipe [client_bytes write_sector; [x01]] [])) = Ok (Next (readonly, f')) /\
    f_world f' = disk_world /\ inbox socket (f_net f') = sector ++ [x01] /\
    outbox socket (f_net f') = outbox socket (mk_pipe [client_bytes write_sector; [x01]] []) ++ wire_reply NBD_EPERM 7.
Proof.
  apply (write_refused disk_plugin_mem readonly 1 (frame_with (mk_pipe [client_bytes write_sector; [x01]] []))
    (cmd_rq write_sector) sector [x01] NBD_EPERM).
  - apply frame_with_ok.
  - reflexivity.
  - apply request_7_ok; by vm_compute.
  - reflexivity.
  - reflexivity.
  - vm_compute. reflexivity.
  - vm_compute. reflexivity.
Defined.

(** *** Requests that are not whole blocks *)

Lemma frame_with_idle eflags net : idle (disk_export eflags) disk_inv disk_content (frame_with net).
Proof. split; [apply frame_with_ok|split; [done|apply disk_device_ok]]. Qed.

(** 100 bytes from byte 600 on. *)
Definition some_bytes : nbd_request := request NBD_CMD_READ 600 100.

Lemma unaligned_read_sends_less_witness :
  exists f' data, serve_request disk_plugin_mem 3 writable
      (frame_with (mk_pipe [wire_request some_bytes; [x01]] [])) = Ok (Next (writable, f')) /\
    idle writable disk_inv disk_content f' /\ disk_content (f_world f') = disk_content disk_world /\
    inbox socket (f_net f') = [x01] /\
    outbox socket (f_net f') = outbox socket (mk_pipe [wire_request some_bytes; [x01]] []) ++ wire_reply NBD_SUCCESS 7 ++ data /\
    data = slice (Z.to_nat (whole writable 600)) (Z.to_nat (whole writable 100)) (disk_content disk_world) /\
    Z.of_nat (length data) = 100 - 100 mod 512.
Proof.
  apply (unaligned_read_sends_less disk_plugin_mem writable 0 disk_inv disk_content eq_refl
    disk_block 3 (frame_with (mk_pipe [wire_request some_bytes; [x01]] [])) some_bytes [x01]).
  - apply frame_with_idle.
  - apply request_7_ok; by vm_compute.
  - reflexivity.
  - reflexivity.
  - by vm_compute.
  - by vm_compute.
  - vm_compute. reflexivity.
Defined.

(** A write of 540 bytes whose last 28 are a request. *)
Definition long_write : nbd_request := request NBD_CMD_WRITE 0 540.
Definition long_write_net : pipe := mk_pipe [wire_request long_write ++ sector; client_bytes read_sector; [x01]] [].

Lemma unaligned_write_smuggles_witness :
  let l := splice (Z.to_nat (whole writable 0)) sector (disk_content disk_world) in
  exists f1 f2,
    serve_request disk_plugin_mem 3 writable (frame_with long_write_net) = Ok (Next (writable, f1)) /\
    disk_content (f_world f1) = l /\
    outbox socket (f_net f1) = outbox socket long_write_net ++ wire_reply NBD_SUCCESS 7 /\
    serve_request disk_plugin_mem 3 writable f1 = Ok (Next (writable, f2)) /\
    idle writable disk_inv disk_content f2 /\ inbox socket (f_net f2) = [x01] /\
    disk_content (f_world f2) = (command_spec read_sector l).2 /\
    outbox socket (f_net f2) = outbox socket (f_net f1) ++ (command_spec read_sector l).1.
Proof.
  apply (unaligned_write_smuggles disk_plugin_mem writable 0 disk_inv disk_content eq_refl
    (fun _ => disk_write_store) (fun _ => disk_flush_store) disk_block 3 (frame_with long_write_net)
    long_write sector read_sector [x01]).
  - by_decide.
  - apply frame_with_idle.
  - apply request_7_ok; by vm_compute.
  - reflexivity.
  - reflexivity.
  - by vm_compute.
  - by vm_compute.
  - by vm_compute.
  - by vm_compute.
  - by vm_compute.
  - exact read_sector_conforming.
  - vm_compute. reflexivity.
Defined.

(** 100 bytes written at byte 512. *)
Definition short_write : nbd_request := request NBD_CMD_WRITE 512 100.
Definition short_write_net : pipe := mk_pipe [wire_request short_write; take 100 sector; [x01]] [].

Lemma write_below_block_size_witness :
  exists f', serve_request disk_plugin_mem 1 writable (frame_with short_write_net) = Ok (Next (writable, f')) /\
    f_world f' = disk_world /\ frame_ok f' /\ x_sendflag (f_x f') = 0 /\
    inbox socket (f_net f') = take 100 sector ++ [x01] /\
    outbox socket (f_net f') = outbox socket short_write_net ++ wire_reply NBD_SUCCESS 7.
Proof.
  apply (write_below_block_size disk_plugin_mem writable 0 eq_refl
    (atad_pwrite image_sector_io) 1 (frame_with short_write_net) short_write (take 100 sector) [x01] 0 disk_world).
  - reflexivity.
  - split; by vm_compute.
  - apply frame_with_ok.
  - apply request_7_ok; by vm_compute.
  - reflexivity.
  - reflexivity.
  - vm_compute. reflexivity.
  - by vm_compute.
  - lia.
  - vm_compute. reflexivity.
  - vm_compute. reflexivity.
Defined.

(** A request with the reply's magic. *)
Definition confused : nbd_request := mk_request NBD_SIMPLE_REPLY_MAGIC 0 NBD_CMD_READ 7 0 512.

Lemma wrong_magic_witness :
  exists f', serve_request disk_plugin_mem 1 writable
      (frame_with (mk_pipe [wire_request confused] [])) = Ok (Return (-1) (writable, f')) /\
    f_world f' = disk_world /\ outbox socket (f_net f') = outbox socket (mk_pipe [wire_request confused] []).
Proof.
  apply (wrong_magic disk_plugin_mem writable 1 (frame_with (mk_pipe [wire_request confused] [])) confused []).
  - apply frame_with_ok.
  - vm_compute. intuition congruence.
  - done.
  - vm_compute. reflexivity.
Defined.

Lemma unknown_command_out_of_bounds_witness :
  serve_request disk_plugin_mem 1 writable
    (frame_with (mk_pipe [wire_request (request 8 0 0)] [])) = Fault OutOfBounds.
Proof.
  apply (unknown_command_out_of_bounds disk_plugin_mem writable 1 _ (request 8 0 0) []).
  - apply frame_with_ok.
  - apply request_7_ok; by vm_compute.
  - reflexivity.
  - by vm_compute.
  - vm_compute. reflexivity.
Defined.

Lemma range_check_wraps_witness :
  c_exportsize disk_context < 2 ^ 64 - 512 /\
  out_of_range writable (request NBD_CMD_READ (2 ^ 64 - 512) 1024) = false.
Proof.
  apply (range_check_wraps writable (request NBD_CMD_READ (2 ^ 64 - 512) 1024)).
  - apply request_7_ok; by vm_compute.
  - by vm_compute.
  - by vm_compute.
  - by vm_compute.
Defined.

(** A device with blocks of [bsz] bytes whose reads fail while [faulty]; it
    counts them. *)
Definition blob : Type := nat * list byte.

Definition blob_pread (bsz : Z) (faulty : bool) (h : handle_ptr) (count offset flags : Z) (w : blob)
  : outcome (Z * list byte * blob) :=
  if faulty then Ok (-1, [], (S w.1, w.2))
  else Ok (0, slice (Z.to_nat (offset * bsz)) (Z.to_nat (count * bsz)) w.2, (S w.1, w.2)).

Definition blob_plugin (bsz : Z) (faulty : bool) : lwnbd_plugin_t blob unit := {|
  pl_name := bs "blob"; pl_longname := bs "blob"; pl_load := None; pl_get_size := None;
  pl_pread := Some (blob_pread bsz faulty); pl_pwrite := None; pl_flush := None; pl_trim := None;
  pl_zero := None; pl_block_size := None; pl_config := None; pl_magic_config_key := None;
  pl_ctor := None; pl_query := None; pl_export_without_handle := 0 |}.

Definition blob_export (bsz : Z) : lwnbd_context_nbd_t :=
  mk_nbd_context (mk_context None (Some 0%nat) (bs "blob" ++ replicate 28 x00) (replicate 64 x00) 16384)
    3 bsz bsz bsz NBD_FLAG_FIXED_NEWSTYLE 0 0 socket TRANSMISSION.

Definition blob_frame : frame pipe blob :=
  mk_frame initial_xfer stack_request stack_buffer (mk_pipe [] []) (0%nat, replicate (128 * 128) x00).

Lemma read_gives_up_witness :
  exists f', cmd_read (fun _ => blob_plugin 512 true) 6 (blob_export 512) 512
      (cmd_rq read_sector) blob_frame = Ok (Some (-1), f') /\
    fst (f_world f') = (fst (f_world blob_frame) + S (Z.to_nat CONFIG_MAX_RETRIES))%nat /\
    outbox socket (f_net f') = outbox socket (mk_pipe [] []) ++ wire_reply NBD_SUCCESS 7.
Proof.
  apply (read_gives_up (fun _ => blob_plugin 512 true) (blob_export 512) 0 eq_refl fst 6 blob_frame
    (cmd_rq read_sector)).
  - exists (blob_pread 512 true). split; [done|]. intros. by eexists _, _.
  - done.
  - reflexivity.
  - vm_compute. reflexivity.
  - vm_compute. lia.
Defined.

#[refine] Instance blob_read_store bsz (H : 0 < bsz) :
  ReadStore (blob_plugin bsz false) None bsz (fun _ => True) snd := {| rs_fun := blob_pread bsz false |}.
Proof.
  - done.
  - done.
  - intros [k l] cnt off _ Hc Ho Hle. eexists. by split_and!.
Defined.

(** A request whose magic, then whose type nobody knows, then half a request. *)
Definition hostile_in : list (list byte) :=
  [wire_request (request 5 0 0); replicate 5 x00; wire_request disconnect].

Lemma pipe_answers : answers (N := pipe) socket.
Proof. by apply (transport_answers socket (T := socket_transport)). Qed.

(** The disk accepts a write of no sector. *)
Lemma disk_writes_nothing eflags buf off w :
  device_ok (disk_export eflags) disk_inv disk_content w -> 0 <= off -> off * 512 <= 1024 ->
  completes (fun '(_, w') => device_ok (disk_export eflags) disk_inv disk_content w')
    (lwnbd_pwrite disk_plugin_mem disk_context buf 0 off 0 w).
Proof.
  intros (((h & Hh & Hd) & Hl) & Hsz & H63) Ho Hle. cbn in Hsz.
  unfold lwnbd_pwrite, method. cbn [c_p disk_context]. mred. cbn [pl_pwrite disk_plugin_mem disk_plugin atad_plugin]. mred.
  unfold atad_pwrite, atad_handle_of. cbn [c_handle disk_context]. mred. rewrite Hh. mred.
  unfold image_sector_io. change (Z.to_nat (0 * 512)) with 0%nat. rewrite wrap_small by lia.
  unfold disk_content, atad_content in Hsz. rewrite (proj2 (Nat.leb_le _ _)) by lia.
  change (ATA_DIR_WRITE =? ATA_DIR_READ) with false. cbn iota. rewrite take_0. cbn [completes].
  rewrite splice_nil. destruct w as [hs d]. split; [split; [by exists h|done]|done].
Qed.


(** A disk of nine sectors, one run being eight of them.  While it is read the
    network takes a hundred bytes of a run; the client then writes behind its
    end. *)
Definition nine_sectors : Z := 9 * 512.

Definition archive_world : atad_world (list byte) :=
  mk_atad [mk_atad_handle 0 nine_sectors; mk_atad_handle 0 0] (replicate (Z.to_nat nine_sectors) x00).

Definition archive : lwnbd_context_nbd_t :=
  mk_nbd_context (mk_context (Some 0%nat) (Some 0%nat) (bs "hdd0" ++ replicate 28 x00) (replicate 64 x00)
    nine_sectors) (Z.lor NBD_FLAG_HAS_FLAGS NBD_FLAG_SEND_FLUSH) 512 4096 4096 NBD_FLAG_FIXED_NEWSTYLE 0 0 socket
    TRANSMISSION.

Definition short_send (s : Z) (d : list byte) (flags : Z) (n : pipe) : Z * pipe :=
  pipe_send s (take 100 d) flags n.
Definition flaky_socket : Callbacks pipe := tcp_callbacks pipe_recv short_send.

Definition overwrite : list byte := replicate (Z.to_nat nine_sectors) x42.
Definition behind_end : nbd_request := request NBD_CMD_WRITE nine_sectors nine_sectors.
Definition archive_in : list (list byte) := [wire_request behind_end ++ overwrite].
Definition archive_frame : frame pipe (atad_world (list byte)) :=
  mk_frame initial_xfer stack_request stack_buffer (mk_pipe archive_in []) archive_world.

Definition archive_request : nbd_request := request NBD_CMD_READ 0 nine_sectors.
Definition answered : pipe := mk_pipe archive_in (wire_reply NBD_SUCCESS 7).
Definition cut_short : pipe := mk_pipe archive_in (wire_reply NBD_SUCCESS 7 ++ replicate 100 x00).


Lemma oversized_block_read_diverges_witness :
  cmd_read (fun _ => blob_plugin 8192 false) 1000 (blob_export 8192) 8192
    (request NBD_CMD_READ 0 8192) blob_frame = Fault OutOfFuel.
Proof.
  apply (oversized_block_read_diverges (fun _ => blob_plugin 8192 false) (blob_export 8192) 0
    (fun _ => True) snd eq_refl (RS := blob_read_store 8192 eq_refl) 1000 blob_frame).
  - by vm_compute.
  - done.
  - vm_compute. reflexivity.
  - by vm_compute.
  - apply request_7_ok; by vm_compute.
  - by vm_compute.
  - by vm_compute.
Defined.

(** ** Handshake *)

Definition disk_pool : context_pool :=
  mk_pool (disk_context :: replicate 49 zero_context) (slots CONTEXT_CREATED CONTEXT_FREE MAX_CONTEXTS 1).

Definition disk_lib : lib (atad_world (list byte)) :=
  mk_lib disk_pool (Some 0%nat :: replicate 9 None)
    (slots PLUGIN_CREATED PLUGIN_FREE MAX_NUM_PLUGINS 1) disk_world.

Lemma disk_pool_ok : pool_ok disk_pool.
Proof.
  split_and!; [done| |exists 1%nat; split; [by_decide|done]].
  repeat apply Forall_cons_2; try apply Forall_nil_2; split_and!; first [reflexivity|by eexists].
Qed.

Definition server_context : lwnbd_context_nbd_t := writable.

Definition haggle_with (net : pipe) : haggle (atad_world (list byte)) pipe :=
  mk_haggle (replicate sizeof_nbd_new_option xff) stack_buffer (mk_client socket HANDSHAKE None) net disk_lib.

Lemma haggle_with_ok net : haggle_ok socket (haggle_with net).
Proof. split_and!; [reflexivity|vm_compute; reflexivity|reflexivity|exact disk_pool_ok]. Qed.

Definition ask_list : option_cmd := mk_option_cmd NBD_OPT_LIST [].
Definition ask_go : option_cmd := mk_option_cmd NBD_OPT_GO (bs "x").

Lemma questions_keep_haggling : Forall keeps_haggling [ask_list; ask_go].
Proof. repeat apply Forall_cons_2; try apply Forall_nil_2; split_and!; by vm_compute. Qed.

Definition greeting_answer : list byte := be_split 4 (n_gflags server_context).

Definition negotiation : pipe :=
  mk_pipe [greeting_answer; option_bytes ask_list ++ option_bytes ask_go;
           option_bytes (mk_option_cmd NBD_OPT_EXPORT_NAME (bs "hdd0")); [x01]] [].

Lemma disk_openable : openable disk_plugin_mem disk_inv disk_lib.
Proof.
  split; [exact disk_pool_ok|]. split; [apply (disk_device_ok 0)|].
  intros i c a Hc Ha. destruct i as [|i].
  - injection Hc as <-. injection Ha as <-. split; [done|]. eexists. split; [done|]. intros w Hw.
    pose proof Hw as ((h & Hh & _) & _). cbn [c_handle disk_context]. unfold atad_get_size, atad_handle_of. mred.
    rewrite Hh. mred. exact Hw.
  - cbn [disk_lib disk_pool l_pool contexts] in Hc. rewrite lookup_cons in Hc.
    apply lookup_replicate in Hc as [-> _]. done.
Qed.

Definition aborted : pipe :=
  mk_pipe [greeting_answer ++ option_bytes ask_list; option_bytes (mk_option_cmd NBD_OPT_ABORT [])] [].

Lemma handshake_abort_witness :
  exists h', protocol_handshake disk_plugin_mem 2 server_context (replicate 4 xff) (haggle_with aborted)
      = Ok (0, (set_n_state ABORT server_context, h')) /\
    hg_lib h' = disk_lib /\
    outbox socket (hg_net h') = outbox socket aborted ++ wire_greeting (n_gflags server_context) ++
      concat (option_answer disk_pool <$> [ask_list]) ++ wire_option_reply NBD_OPT_ABORT NBD_REP_ACK 0.
Proof.
  apply (handshake_abort disk_plugin_mem socket server_context eq_refl [ask_list] []
    (haggle_with aborted) [] (replicate 4 xff)).
  - reflexivity.
  - apply haggle_with_ok.
  - by vm_compute.
  - apply Forall_cons_2; [|apply Forall_nil_2]. split_and!; by vm_compute.
  - by vm_compute.
  - vm_compute. reflexivity.
Defined.

Definition full_data : list byte := replicate 4096 x41.

Definition overfull : pipe := mk_pipe [wire_option NBD_OPT_EXPORT_NAME 4096; full_data] [].

Lemma full_option_overflows_witness :
  haggle_step disk_plugin_mem server_context 1 (haggle_with overfull) = Fault OutOfBounds.
Proof.
  apply (full_option_overflows disk_plugin_mem socket server_context 1 (haggle_with overfull)
    NBD_OPT_EXPORT_NAME full_data []).
  - apply haggle_with_ok.
  - by vm_compute.
  - vm_compute. reflexivity.
  - vm_compute. reflexivity.
Defined.
