(* ===== verification/PluginExamples.v ===== *)
(** * Concrete exports

    The theorems of the library, the parsers and the plugins applied to
    concrete inputs: each lemma discharges the hypotheses of one theorem by
    evaluating the definitions. *)

From S2P Require Import Examples AtadPlugin Nbd MemoryPlugin FilePlugin McmanPlugin McmanWear McmanQuery CommandPlugin TtyPlugin Log Servers.

(** ** Contexts and URIs *)

Lemma get_context_refines_witness :
  exists buf', length buf' = length (bs "hdd0?memset=a" ++ x00 :: [xff]) /\
    lwnbd_get_context disk_plugin_mem 0 (bs "hdd0?memset=a" ++ x00 :: [xff]) disk_lib
    = ('(r, s') ← open_export disk_plugin_mem (bs "hdd0?memset=a") disk_lib; Ok (r, buf', s')).
Proof. apply (get_context_refines disk_plugin_mem _ [xff] disk_lib disk_pool_ok). by_decide. Defined.

Lemma get_context_sound_witness :
  exists c a f w sz,
    contexts (l_pool disk_lib) !! 0%nat = Some c /\ c_str (c_name c) = Some (uri_path (bs "hdd0")) /\
    (0 < lwnbd_contexts_count (l_pool disk_lib))%nat /\
    c_p c = Some a /\ pl_get_size (disk_plugin_mem a) = Some f /\
    f (c_handle c) w = Ok (sz, l_world disk_lib) /\
    contexts (l_pool disk_lib) = <[0%nat := set_c_exportsize sz c]> (contexts (l_pool disk_lib)) /\
    pool_ok (l_pool disk_lib).
Proof.
  eapply (get_context_sound disk_plugin_mem (bs "hdd0") [] disk_lib 0 _ disk_lib disk_pool_ok).
  - by_decide.
  - vm_compute. reflexivity.
Defined.

Lemma get_context_string_correct_witness :
  lwnbd_get_context_string disk_pool (bs "hdd0") = Ok (Some 0%nat) <->
  lookup_result disk_pool (bs "hdd0") (Some 0%nat).
Proof. apply (get_context_string_correct disk_pool (bs "hdd0") _ disk_pool_ok). by_decide. Defined.

Lemma dump_contexts_correct_witness :
  let out := concat (dump_entry <$> take (lwnbd_contexts_count disk_pool) (contexts disk_pool)) in
  lwnbd_dump_contexts disk_pool = Ok (out, Z.of_nat (length out) + 1).
Proof. apply (dump_contexts_correct disk_pool disk_pool_ok). Defined.

(** A path of two segments, of which the parser keeps the second. *)
Lemma yuarel_parse_roundtrip_witness :
  exists y buf',
    yuarel_parse (Some (mk_yuarel None None None)) (Some O)
      (print_relative (bs "mc0/save") (Some (bs "a=1&b")) (Some (bs "top")) ++ x00 :: [])
    = Ok (0, Some y, buf') /\
    reads buf' (y_query y) (Some (bs "a=1&b")) /\ reads buf' (y_fragment y) (Some (bs "top")) /\
    reads buf' (y_path y) (Some (after_first_slash (bs "mc0/save"))) /\
    (x2f ∉ bs "mc0/save" -> after_first_slash (bs "mc0/save") = bs "mc0/save") /\
    (forall dir p, bs "mc0/save" = dir ++ x2f :: p -> x2f ∉ dir -> after_first_slash (bs "mc0/save") = p).
Proof. apply yuarel_parse_roundtrip; by_decide. Defined.

Lemma yuarel_parse_query_correct_witness :
  exists ps B,
    yuarel_parse_query (Some (length (bs "mc0?"))) x26 3 (bs "mc0?" ++ bs "a=1&b&c=&d" ++ x00 :: [xff])
    = Ok (Z.of_nat (length ps), ps, bs "mc0?" ++ B ++ [xff]) /\
    length B = S (length (bs "a=1&b&c=&d")) /\
    Forall2 (param_at (bs "mc0?" ++ B ++ [xff])) ps (split_max (Z.to_nat (3 - 1)) x26 (bs "a=1&b&c=&d")).
Proof. apply yuarel_parse_query_correct; [done|by_decide|done|done]. Defined.

(** ** Sockets *)

(** Five bytes of a stream of six, and eight, which it does not have. *)
Lemma tcp_recv_block_exact_witness :
  let p := mk_pipe [bs "he"; []; bs "l"; bs "lo!"] [] in
  (exists n', tcp_recv_block pipe_recv 5 (replicate 9 xff) (Z.of_nat 5) 0 p
    = Ok (5, splice 0 (take 5 (bs "hello!")) (replicate 9 xff), n') /\
    concat (pipe_in n') = drop 5 (bs "hello!") /\ pipe_out n' = []) /\
  (exists n', tcp_recv_block pipe_recv 5 (replicate 9 xff) (Z.of_nat 8) 0 p
    = Ok (0, splice 0 (take 8 (bs "hello!")) (replicate 9 xff), n') /\
    concat (pipe_in n') = drop 8 (bs "hello!") /\ pipe_out n' = []).
Proof.
  intros p. split.
  - apply (tcp_recv_block_exact pipe_recv pipe_send 5 (fun n => concat (pipe_in n)) pipe_out
      (pipe_posix 5) 5 (replicate 9 xff) p); [by vm_compute|by_decide].
  - apply (tcp_recv_block_exact pipe_recv pipe_send 5 (fun n => concat (pipe_in n)) pipe_out
      (pipe_posix 5) 8 (replicate 9 xff) p); [by vm_compute|by_decide].
Defined.

(** ** Plugins *)

(** The disk plugin registered, no export yet. *)
Definition fresh_lib : lib (atad_world (list byte)) :=
  mk_lib initial_pool (Some 0%nat :: replicate 9 None)
    (slots PLUGIN_CREATED PLUGIN_FREE MAX_NUM_PLUGINS 1) disk_world.

Lemma fresh_lib_ok : lib_ok fresh_lib.
Proof.
  split_and!; [exact initial_pool_ok|done|]. exists 1%nat. split; [by_decide|]. split; [done|].
  intros [|i] Hi; [by exists 0%nat|lia].
Qed.

Lemma disk_ctor_fills :
  ctor_fills disk_plugin 0 disk_world (Some 0%nat) (bs "hdd0") []
    (mk_atad [mk_atad_handle 0 1024; mk_atad_handle 0 0] (replicate 1024 x00)).
Proof. by apply (atad_ctor_fills _ _ image_devinfo 0 disk_world (mk_devinfo 1 2)). Qed.

(** The library before any plugin is registered. *)
Definition empty_lib : lib (atad_world (list byte)) :=
  mk_lib initial_pool (replicate 10 None) (replicate 10 PLUGIN_FREE) disk_world.

Lemma plugin_exports_witness :
  exists s1 s2, lwnbd_plugin_init disk_plugin_mem (Some 0%nat) empty_lib = Ok (0, s1) /\
    plugin_new_each disk_plugin_mem 0 [0] s1 = Ok s2 /\ lib_ok s2 /\
    exports s2 = [mk_export (Some (bs "hdd0")) (Some (pl_longname disk_plugin)) (Some 0%nat) (Some 0%nat)] /\
    l_world s2 = mk_atad [mk_atad_handle 0 1024; mk_atad_handle 0 0] (replicate 1024 x00).
Proof.
  apply (plugin_exports disk_plugin_mem empty_lib 0 [0]).
  - split_and!; [exact initial_pool_ok|done|]. exists 0%nat. split; [by_decide|]. split; [done|].
    intros i Hi. lia.
  - done.
  - vm_compute; lia.
  - done.
  - done.
  - by_decide.
  - split; by_decide.
  - exact (fill_cons disk_plugin_mem 0%nat 0 [] disk_world (Some 0%nat) (bs "hdd0") [] _ [] _ disk_ctor_fills (fill_nil _ _ _)).
Defined.

Lemma atad_ctor_correct_witness :
  if decide (ad_exists (mk_devinfo 1 2) = 0)
  then atad_ctor image_devinfo 0 (Some zero_context) disk_world = Ok (1, Some zero_context, disk_world)
  else exists c' w', atad_ctor image_devinfo 0 (Some zero_context) disk_world = Ok (0, Some c', w') /\
    context_ok c' /\ c_str (c_name c') = Some (hdd_name 0) /\ c_handle c' = Some (Z.to_nat 0) /\
    atad_get_size (c_handle c') w' = Ok (ad_total_sectors (mk_devinfo 1 2) * 512, w') /\
    aw_disk w' = aw_disk disk_world.
Proof.
  apply (atad_ctor_correct image_devinfo 0).
  - split_and!; first [reflexivity|by eexists].
  - reflexivity.
  - done.
  - reflexivity.
  - done.
Defined.

Lemma atad_offset_truncated_witness :
  exists w', atad_pread image_sector_io (Some 0%nat) 1 (2 ^ 32 + 1) 0 disk_world
    = Ok (0, slice (Z.to_nat (u32 (2 ^ 32 + 1) * 512)) (Z.to_nat (1 * 512)) (disk_content disk_world), w').
Proof.
  apply (atad_offset_truncated _ _ 0 (fun d => d) (image_disk 0) 0 (mk_atad_handle 0 1024)).
  - reflexivity.
  - reflexivity.
  - done.
  - by vm_compute.
Defined.

(** *** Memory *)

Definition ram_config : memory_config :=
  mk_memory_config 4 8 (bs "ram" ++ replicate 29 x00) (bs "work memory" ++ replicate 53 x00).

Definition ram_world : memory_world :=
  mk_memory (replicate 16 x2a) (ram_config :: replicate 9 (mk_memory_config 0 0 [] []))
    (handle_slots MEM_DRIVER_MAX_DEVICES 1).

Lemma ram_world_ok : memory_inv 0 ram_config ram_world.
Proof. split; [reflexivity|split_and!; by vm_compute]. Qed.

Lemma memory_query_filters_witness :
  exists w', memory_query (Some 0%nat)
      ((Some <$> [mk_query (bs "memcpy") (Some (bs "abc")); mk_query (bs "memset") (Some (bs "z"))]) ++ [None])
      (Z.of_nat 2) ram_world = Ok (0, w') /\
    memory_inv 0 ram_config w' /\
    memory_content ram_config w' = foldr filter_content (memory_content ram_config ram_world)
      [mk_query (bs "memcpy") (Some (bs "abc")); mk_query (bs "memset") (Some (bs "z"))].
Proof.
  apply (memory_query_filters 0 ram_config
    [mk_query (bs "memcpy") (Some (bs "abc")); mk_query (bs "memset") (Some (bs "z"))] [None] ram_world).
  - exact ram_world_ok.
  - repeat apply Forall_cons_2; try apply Forall_nil_2; (split; [by_decide|by vm_compute]).
Defined.

Lemma zero_context_ok : context_ok zero_context.
Proof. split_and!; first [reflexivity|by eexists]. Qed.

Lemma memory_ctor_correct_witness :
  if decide (1%nat = MEM_DRIVER_MAX_DEVICES)
  then memory_ctor ram_config (Some zero_context) ram_world = Fault OutOfBounds
  else exists c' w', memory_ctor ram_config (Some zero_context) ram_world = Ok (0, Some c', w') /\
    context_ok c' /\ c_handle c' = Some 1%nat /\ c_str (c_name c') = Some (bs "ram") /\
    c_str (c_description c') = Some (bs "work memory") /\
    mw_handles w' !! 1%nat = Some ram_config /\ mw_ram w' = mw_ram ram_world /\ memory_tables_ok 2 w'.
Proof.
  apply (memory_ctor_correct ram_config (bs "ram") (bs "work memory") 1).
  - split_and!; reflexivity.
  - split_and!; [reflexivity|reflexivity|by_decide].
  - exact zero_context_ok.
Defined.

Lemma memory_pwrite_loses_data_witness :
  memory_pwrite (Some 0%nat) (replicate 9 x41) 9 0 0 ram_world
  = if decide (9 <= 8) then Ok (0, ram_world) else Fault OutOfBounds.
Proof.
  apply (memory_pwrite_loses_data 0 ram_config).
  - exact ram_world_ok.
  - by vm_compute.
Defined.

(** *** Files *)

Definition slow_world : file_world (list byte) :=
  mk_file [mk_file_handle 3 0 None] (handle_slots FILE_DRIVER_MAX_DEVICES 1) (bs "0123456789").

Lemma file_transfers_whole_range_witness :
  (exists w', file_pread slow_pread (Some 0%nat) 7 2 0 slow_world
     = Ok (0, slice (Z.to_nat 2) (Z.to_nat 7) (fw_fs slow_world), w') /\ fw_fs w' = fw_fs slow_world) /\
  (exists w', file_pwrite slow_pwrite (Some 0%nat) (bs "abcdefgh") 7 2 0 slow_world = Ok (0, w') /\
     fw_fs w' = splice (Z.to_nat 2) (take (Z.to_nat 7) (bs "abcdefgh")) (fw_fs slow_world)).
Proof.
  apply (file_transfers_whole_range slow_pread slow_pwrite slow_fdatasync 3 (fun f => f)
    (slow_posix_file 3) 0 slow_world 7 2 (bs "abcdefgh")).
  - split; [by eexists|by vm_compute].
  - done.
  - done.
  - by vm_compute.
  - by vm_compute.
Defined.

Definition empty_file_world : file_world (list byte) :=
  mk_file (replicate 10 (mk_file_handle 0 0 None)) (handle_slots FILE_DRIVER_MAX_DEVICES 0) (bs "0123456789").

Definition image_open (name : list byte) (flags : Z) (f : list byte) : Z * list byte := (3, f).
Definition image_fstat (fd : Z) (f : list byte) : option Z := Some (Z.of_nat (length f)).

Lemma file_ctor_opens_basename_witness :
  exists c' w', file_ctor (bs "/srv/disk.img") (Some zero_context) empty_file_world = Ok (0, Some c', w') /\
    context_ok c' /\ file_tables_ok 1 w' /\ fw_fs w' = fw_fs empty_file_world /\
    c_handle c' = Some 0%nat /\ c_str (c_name c') = Some (basename (bs "/srv/disk.img")) /\
    (forall fd' fs', image_open (basename (bs "/srv/disk.img")) O_RDWR_CLOEXEC (fw_fs empty_file_world) = (fd', fs') ->
      exists w'', file_get_size image_open image_fstat (c_handle c') w'
        = Ok (match image_fstat fd' fs' with Some z => z | None => -1 end, w'') /\ fw_fs w'' = fs').
Proof.
  apply (file_ctor_opens_basename image_open image_fstat (bs "/srv/disk.img") 0 zero_context empty_file_world).
  - split_and!; [reflexivity|reflexivity|by_decide].
  - by_decide.
  - exact zero_context_ok.
  - by_decide.
  - by_decide.
Defined.

(** *** Memory cards *)

(** Two blocks of two pages; the write crosses from one to the other. *)
Lemma sim_two_pages : (0 < 2)%nat.
Proof. lia. Qed.

Definition card_world : mcman_world sim_card :=
  mk_mcman [mk_mcman_handle 0 2048 512] (Some (replicate 1024 x00)) 2 (mk_sim (replicate 2048 x55) []).

Lemma mcman_pwrite_preserves_card_witness :
  exists w', mcman_pwrite sim_erase sim_read sim_write sim_checksum (Some 0%nat) (replicate 1024 x41) 2 1 0 card_world
      = Ok (0, w') /\
    mcman_inv 0 2 sim_bytes 0 2 w' /\
    sim_bytes (mm_card w') = splice (Z.to_nat (1 * 512)) (take (Z.to_nat (2 * 512)) (replicate 1024 x41))
      (sim_bytes (mm_card card_world)).
Proof.
  apply (mcman_pwrite_preserves_card _ _ _ _ 0 2 sim_bytes sim_page_erased (sim_mc_card 0) sim_two_pages 2 1).
  - by vm_compute.
  - reflexivity.
  - split_and!; [by eexists|reflexivity|by eexists|reflexivity].
  - done.
  - done.
  - by vm_compute.
  - by vm_compute.
Defined.

(** Of three parameters, the last two ask for a binding. *)
Lemma mcman_query_correct_witness :
  mcman_query (fun device path c => (-5, mk_sim (path ++ sim_bytes c) [])) (Some 0%nat)
    ((Some <$> [mk_query (bs "info") None; mk_query (bs "kelfbind") (Some (bs "A")); mk_query (bs "kelfbind") (Some (bs "B"))])
      ++ []) 3 card_world
  = Ok (0, mk_mcman (mm_handles card_world) (mm_bbuffer card_world) 2
      (foldr (bind_card (fun device path c => (-5, mk_sim (path ++ sim_bytes c) [])) 0) (mm_card card_world) [bs "A"; bs "B"])).
Proof.
  apply (mcman_query_correct (fun device path c => (-5, mk_sim (path ++ sim_bytes c) [])) 0 (mk_mcman_handle 0 2048 512)
    [mk_query (bs "info") None; mk_query (bs "kelfbind") (Some (bs "A")); mk_query (bs "kelfbind") (Some (bs "B"))] [] 3 card_world).
  - reflexivity.
  - repeat (apply Forall_cons_2; [by_decide|]). apply Forall_nil_2.
  - left. reflexivity.
Defined.

(** The same card, new, which keeps a log; exported to a client that writes
    nothing. *)
Definition new_card_world : mcman_world (sim_card * list flash_op) :=
  mk_mcman (mm_handles card_world) (mm_bbuffer card_world) 2 (mm_card card_world, []).

Definition logged_card_plugin : lwnbd_plugin_t (mcman_world (sim_card * list flash_op)) Z :=
  mcman_plugin (logged_erase sim_erase) (logged_read sim_read) (logged_write sim_write) sim_checksum
    (fun _ _ c => c) (fun _ _ c => (0, (512, 2, 4), c)) sim_alloc.

Definition card_export : lwnbd_context_nbd_t :=
  mk_nbd_context (mk_context (Some 0%nat) (Some 0%nat) (bs "mc0" ++ replicate 29 x00) (replicate 64 x00) 2048)
    NBD_FLAG_HAS_FLAGS 512 4096 4096 NBD_FLAG_FIXED_NEWSTYLE 0 0 socket TRANSMISSION.

Definition empty_write_net : pipe := mk_pipe [wire_request (request NBD_CMD_WRITE 0 0); [x01]] [].

Definition card_frame : frame pipe (mcman_world (sim_card * list flash_op)) :=
  mk_frame initial_xfer stack_request stack_buffer empty_write_net new_card_world.

Local Abbreviation beyond_card := (past_the_end (logged_erase sim_erase) (logged_read sim_read) (logged_write sim_write)
  sim_checksum 0 2 2 stack_buffer).

Lemma short_write_wears_card_witness :
  exists bb c, mcman_pwrite (logged_erase sim_erase) (logged_read sim_read) (logged_write sim_write) sim_checksum
      (Some 0%nat) stack_buffer 0 0 0 new_card_world = beyond_card bb c new_card_world /\
    sim_bytes c.1 = replicate 2048 x55 /\
    c.2 = [Erased 0; Programmed 0; Programmed 1; Erased 1; Programmed 2; Programmed 3] /\
    forall r w', beyond_card bb c new_card_world = Ok (r, w') ->
    exists f', serve_request (fun _ => logged_card_plugin) 1 card_export card_frame = Ok (Next (card_export, f')) /\
      f_world f' = w' /\ inbox socket (f_net f') = [] ++ [x01] /\
      outbox socket (f_net f') = outbox socket empty_write_net
        ++ wire_reply (if r =? 0 then NBD_SUCCESS else NBD_EIO) 7.
Proof.
  apply (short_write_wears_card (logged_erase sim_erase) (logged_read sim_read) (logged_write sim_write)
    sim_checksum 0 2 (fun c => sim_bytes c.1) (fun c => sim_page_erased c.1)
    (logged_card _ _ _ _ 0 2 sim_bytes sim_page_erased (sim_mc_card 0)) sim_two_pages snd
    (logged_flash _ _ _ 0) 2 1 ltac:(by_decide) eq_refl
    (fun _ _ c => c) (fun _ _ c => (0, (512, 2, 4), c)) sim_alloc (fun _ => logged_card_plugin)
    card_export 0 0 1 card_frame (request NBD_CMD_WRITE 0 0) [] [x01]).
  - reflexivity.
  - reflexivity.
  - reflexivity.
  - reflexivity.
  - by vm_compute.
  - lia.
  - lia.
  - split_and!; [by eexists|done|by eexists|done].
  - split; vm_compute; reflexivity.
  - apply request_7_ok; by vm_compute.
  - reflexivity.
  - reflexivity.
  - reflexivity.
  - by vm_compute.
  - by vm_compute.
  - vm_compute. reflexivity.
Defined.

(** *** Commands *)

Definition command_program : command_world unit :=
  mk_cmd_world
    [mk_command_entry (bs "echo") (bs "say it") METHOD_GET echo;
     mk_command_entry (bs "lc") (bs "list commands") METHOD_GET list_command]
    (replicate CMD_BUFFER_SZ x00) 0 None tt.

Lemma command_query_correct_witness :
  command_query None (Some (mk_query (bs "lc") None) :: [None]) 1 command_program
  = match first_command (bs "lc") command_program with
    | None => Ok (-1, command_program)
    | Some (i, c) =>
        match cm_type c with
        | METHOD_GET =>
            '(r, result, size, env) ← cm_cmd c 1 (Some (mk_query (bs "lc") None) :: [None])
               (replicate CMD_BUFFER_SZ x00) 1 (table command_program) (cw_env command_program);
            Ok (r, mk_cmd_world (cw_commands command_program) result size (cw_pp command_program) env)
        | METHOD_POST =>
            Ok (0, mk_cmd_world (cw_commands command_program) (cw_result command_program) 4096
                     (Some (i, 1)) (cw_env command_program))
        end
    end.
Proof.
  apply (command_query_correct None (mk_query (bs "lc") None) [None] 1 command_program).
  - by_decide.
  - repeat apply Forall_cons_2; try apply Forall_nil_2; by_decide.
  - done.
Defined.

Lemma list_command_correct_witness :
  exists rest, list_command 1 [] (replicate CMD_BUFFER_SZ x00) 1 (table command_program) tt
    = Ok (0, lc_output (table command_program) ++ rest,
          Z.of_nat (length (lc_output (table command_program))), tt) /\
    length (lc_output (table command_program) ++ rest) = CMD_BUFFER_SZ.
Proof. apply (list_command_correct 1 [] 1 (table command_program) tt). by_decide. Defined.

Lemma command_without_query_uninitialised_witness :
  command_query None (replicate 3 None) (-1) command_program = Fault Uninitialised.
Proof. by apply (command_without_query_uninitialised None command_program _ _ eq_refl). Defined.

(** *** The console *)

Definition console_events : list tty_event :=
  [TtyWrite (bs "abc"); TtyRead (bs "ab"); TtyWrite (bs "d"); TtyRead (bs "cd")].

(** The world after a write, and after a read. *)
Definition after_write (d : list byte) (w : tty_world) : tty_world :=
  match tty_write d w with Ok (_, w') => w' | Fault _ => w end.
Definition after_read (count : Z) (w : tty_world) : tty_world :=
  match nbdtty_read count w with Ok (Some (_, _, w')) => w' | _ => w end.

Definition console_world : tty_world :=
  after_read 2 (after_write (bs "d") (after_read 2 (after_write (bs "abc") initial_tty))).

Lemma console_run : tty_run initial_tty console_events console_world.
Proof.
  unfold console_world.
  eapply run_cons; [apply step_write; vm_compute; reflexivity|].
  eapply run_cons; [apply (step_read 2); [done|vm_compute; reflexivity]|].
  eapply run_cons; [apply step_write; vm_compute; reflexivity|].
  eapply run_cons; [apply (step_read 2); [done|vm_compute; reflexivity]|].
  apply run_nil.
Qed.

Lemma tty_fifo_witness :
  exists pending, written console_events = delivered console_events ++ pending /\
    tty_holds console_world pending.
Proof.
  apply (tty_fifo console_events console_world console_run).
  - intros es1 es2 He. assert (length (written es1) <= length (written console_events))%nat.
    { rewrite He. unfold written. rewrite fmap_app, concat_app, length_app. lia. }
    change (length (written console_events)) with 4%nat in *. unfold TTY_SIZE. lia.
  - by vm_compute.
Defined.

(** A program opens the console (which answers 1), writes "hello", closes and
    writes "!". *)
Definition device_calls : list (nat * list byte) :=
  [(0%nat, []); (3%nat, bs "tty:"); (6%nat, bs "hello"); (1%nat, []); (6%nat, bs "!")].

Lemma console_reaches_client_witness :
  exists w, tty_device_run device_calls initial_tty = Ok w /\
  exists w', nbdtty_read 6 w = Ok (Some (0, bs "hello!", w')) /\ tty_holds w' [].
Proof.
  pose (w := after_write (bs "!") (after_write (bs "hello") initial_tty)).
  assert (tty_device_run device_calls initial_tty = Ok w) as E by (vm_compute; reflexivity).
  exists w. split; [exact E|].
  change 6%Z with (Z.of_nat (length (console_text device_calls))).
  change (bs "hello!") with (console_text device_calls).
  apply (console_reaches_client device_calls w E). unfold TTY_SIZE. by_decide.
Defined.

(** ** Servers *)

(** A server that counts its clients, in slot 0 of memory; slot 1 has no
    constructor. *)
Definition counting_server : lwnbd_server nat unit :=
  mk_server (bs "count") (Some (fun s => (None, s))) None None None (Some (fun _ _ s => Ok (0, s)))
    (Some (fun _ _ s => Ok (0, S s))).

Definition server_memory (a : nat) : lwnbd_server nat unit :=
  match a with
  | O => counting_server
  | S _ => mk_server (bs "none") None None None None None None
  end.

Definition after_init : registry nat := (lwnbd_server_init server_memory (Some O) (initial_registry O)).2.

Lemma registry_invariant_witness : registry_ok server_memory after_init.
Proof.
  apply (registry_invariant server_memory O). eapply reach_step; [apply reach_init|].
  eapply (rs_init server_memory (Some O)). reflexivity.
Defined.

Lemma server_init_correct_witness :
  let i := find_slot server_is_free (r_status (initial_registry O)) in
  if decide (i <> MAX_NUM_SERVERS /\ is_Some (sv_new (server_memory O)))
  then exists h st r', lwnbd_server_init server_memory (Some O) (initial_registry O) = (Z.of_nat i, r') /\
    registry_ok server_memory r' /\
    r_servers r' !! i = Some (mk_instance h (Some O)) /\ r_status r' !! i = Some SRV_STOPPED /\
    r_state r' = st /\ r_bis r' = r_bis (initial_registry O)
  else lwnbd_server_init server_memory (Some O) (initial_registry O) = (4294967295, initial_registry O).
Proof. apply (server_init_correct server_memory (Some O) (initial_registry O)). split_and!; [done|done|by_decide|].
  intros i st [-> _]%lookup_replicate. by split. Defined.

Lemma server_run_keeps_status_witness :
  r_status (mk_registry (r_servers after_init) (r_status after_init) [] 1%nat) = r_status after_init /\
  r_servers (mk_registry (r_servers after_init) (r_status after_init) [] 1%nat) = r_servers after_init.
Proof. apply (server_run_keeps_status server_memory 0 (Some 7) after_init). reflexivity. Defined.

(** ** The NBD server *)

Lemma nbdify_announces_capabilities_witness :
  (read_only writable <-> pl_pwrite disk_plugin = None) /\
  (flushable writable <-> is_Some (pl_flush disk_plugin)) /\
  (pl_block_size disk_plugin = None -> n_minimum_block_size writable = 512 /\ disk_world = disk_world) /\
  n_base writable = n_base readonly.
Proof.
  apply (nbdify_announces_capabilities disk_plugin_mem readonly disk_world writable disk_world 0).
  - reflexivity.
  - vm_compute. reflexivity.
Defined.

(** What the stack holds at each turn. *)
Definition stack_frames (turn : nat) : stack :=
  mk_stack (replicate 4 xff) (replicate sizeof_nbd_new_option xff) stack_buffer stack_request.

Definition new_connection (net : pipe) : connection :=
  mk_connection (mk_client socket HANDSHAKE (Some O)) net disk_lib.

Lemma handshake_never_followed_by_transmission_witness :
  phases (fun t => handshake_call disk_plugin_mem 5 (stack_frames t))
    (fun t => transmission_call disk_plugin_mem 5 5 (stack_frames t))
    2 0 server_context (new_connection negotiation)
  = phases (fun t => handshake_call disk_plugin_mem 5 (stack_frames t)) (fun _ ctx cn => Fault OutOfBounds)
    2 0 server_context (new_connection negotiation).
Proof.
  apply (handshake_never_followed_by_transmission disk_plugin_mem 5 stack_frames 2 0 server_context
    (new_connection negotiation)).
  reflexivity.
Defined.

Definition full_lib : lib (atad_world (list byte)) :=
  mk_lib (mk_pool (replicate MAX_CONTEXTS zero_context) (slots CONTEXT_CREATED CONTEXT_FREE MAX_CONTEXTS 50))
    (l_plugins fresh_lib) (l_plugins_status fresh_lib) disk_world.

Lemma full_lib_ok : lib_ok full_lib.
Proof.
  destruct fresh_lib_ok as (_ & H2 & H3). split; [|by split]. split_and!; [done| |].
  - apply Forall_replicate. exact zero_context_ok.
  - exists 50%nat. split; [by_decide|done].
Qed.

Lemma connections_exhaust_contexts_witness :
  nbd_synchronous_client_thread_cb disk_plugin_mem (fun _ => None) 5 5 5 stack_frames server_context 6
    negotiation full_lib = Ok (-1, None, full_lib).
Proof.
  apply (connections_exhaust_contexts disk_plugin_mem (fun _ => None) 5 5 5 stack_frames).
  - exact full_lib_ok.
  - reflexivity.
  - reflexivity.
Defined.

Lemma nbd_config_keys_witness :
  let '(r, ctx') := nbd_config (bs "preinit") [] writable in
  (r = 0 <-> bs "preinit" = bs "readonly" \/ bs "preinit" = bs "preinit") /\
  (bs "preinit" = bs "readonly" -> n_readonly ctx' = 1 /\ n_preinit ctx' = n_preinit writable) /\
  (bs "preinit" = bs "preinit" -> n_preinit ctx' = 1 /\ n_readonly ctx' = n_readonly writable) /\
  (r <> 0 -> r = -1 /\ ctx' = writable).
Proof. apply (nbd_config_keys (bs "preinit") [] writable). by_decide. Defined.
