(* ===== verification/AppExamples.v ===== *)
(** * The applications on concrete machines

    The theorems about the programs and the library as a whole, applied: small
    kernels, files, consoles and configurations on which their hypotheses are
    discharged by evaluation. *)

From S2P Require Import PluginExamples Examples.
From S2P Require Import Sockets PluginTypes UvMain LocalShell Irx Loader MiniXinetd XinetdMain Chargen.
From S2P Require Import AtadPlugin FilePlugin MemoryPlugin CommandPlugin PcmPlugin TransmissionErrors.
From stdpp Require Import gmap sets relations.
#[local] Open Scope Z_scope.

(** ** A kernel of listening sockets *)

Record kernel := mk_kernel {
  k_open : list nat; k_bound : Z -> option sockaddr_in; k_listening : Z -> option Z }.

Definition k_fds (k : kernel) : gset Z := list_to_set (Z.of_nat <$> k_open k).

Definition k_next (k : kernel) : nat := S (list_max (k_open k)).

Definition k_set {A} (f : Z -> option A) (s : Z) (a : A) (x : Z) : option A :=
  if decide (x = s) then Some a else f x.

Lemma k_set_eq {A} (f : Z -> option A) s a : k_set f s a s = Some a.
Proof. unfold k_set. by rewrite decide_True. Qed.

#[export] Instance kernel_api : SocketApi kernel := {
  sys_socket _ _ _ k := (Z.of_nat (k_next k), mk_kernel (k_next k :: k_open k) (k_bound k) (k_listening k));
  sys_bind s a k := if decide (s ∈ k_fds k)
    then (0, mk_kernel (k_open k) (k_set (k_bound k) s a) (k_listening k)) else (-1, k);
  sys_listen s n k := if decide (s ∈ k_fds k)
    then (0, mk_kernel (k_open k) (k_bound k) (k_set (k_listening k) s n)) else (-1, k);
  sys_accept s k := (Z.of_nat (k_next k), mk_kernel (k_next k :: k_open k) (k_bound k) (k_listening k));
  sys_close s k := (0, mk_kernel (filter (fun n => Z.of_nat n <> s) (k_open k)) (k_bound k) (k_listening k));
}.

Lemma k_next_fresh k : Z.of_nat (k_next k) ∉ k_fds k.
Proof.
  unfold k_fds, k_next. rewrite elem_of_list_to_set, list_elem_of_fmap. intros (n & Hn & Hin).
  apply list_elem_of_In in Hin. pose proof (proj1 (list_max_le (k_open k) _) (le_n _)) as Hle.
  rewrite List.Forall_forall in Hle. specialize (Hle n Hin). lia.
Qed.

#[export, refine] Instance kernel_laws : SocketLaws kernel unit := {
  fds := k_fds; bound := k_bound; listening := k_listening; traffic _ := tt }.
Proof.
  - intros d t p k. split; [done|]. right. split; [lia|]. split; [apply k_next_fresh|].
    unfold k_fds. cbn. set_solver.
  - intros s a k. cbn. case_decide; [|by split_and!; [..|left]].
    split_and!; [done..|]. right. split_and!; [done..|apply k_set_eq].
  - intros s n k. cbn. case_decide; [|by split_and!; [..|left]].
    split_and!; [done..|]. right. split_and!; [done..|apply k_set_eq].
  - intros s k. split; [done|]. right. split; [lia|]. split; [apply k_next_fresh|].
    unfold k_fds. cbn. set_solver.
  - intros s k. split; [done|]. unfold k_fds. cbn. apply set_eq. intros x.
    rewrite elem_of_difference, !elem_of_list_to_set, !list_elem_of_fmap.
    setoid_rewrite list_elem_of_filter. set_solver.
  - intros k s. unfold k_fds. rewrite elem_of_list_to_set, list_elem_of_fmap. intros (n & -> & _). lia.
Defined.

(** Descriptors 0, 1 and 2 are open. *)
Definition boot : kernel := mk_kernel [0; 1; 2]%nat (fun _ => None) (fun _ => None).

Lemma nbd_server_create_correct_witness :
  let w' := (nbd_server_create boot).2 in
  traffic w' = traffic boot /\
  (0 = -1 /\ fds w' = fds boot \/
   0 = 0 /\ exists sock, sock ∉ fds boot /\ fds w' = fds boot ∪ {[sock]} /\
     bound w' sock = Some nbd_peer /\ listening w' sock = Some MAX_NUM_CLIENTS).
Proof. apply (nbd_server_create_correct boot). reflexivity. Defined.

(** ** The library *)

Definition lib_of {A W} (o : outcome (A * lib W)) (d : lib W) : lib W :=
  match o with Ok (_, s) => s | Fault _ => d end.

Definition lib1 := lib_of (lwnbd_plugin_init disk_plugin_mem (Some 0%nat) empty_lib) empty_lib.
Definition lib2 := lib_of (lwnbd_plugin_new disk_plugin_mem 0 0 lib1) empty_lib.

Lemma library_typed_witness :
  lib_typed disk_plugin_mem lib2 /\
  forall i c, contexts (l_pool lib2) !! i = Some c ->
    context_ok c /\
    match c_p c with
    | None => True
    | Some a => exists rd, forall count offset flags,
        lwnbd_pread disk_plugin_mem c count offset flags (l_world lib2)
        = rd (c_handle c) count offset flags (l_world lib2)
    end.
Proof.
  apply (library_typed disk_plugin_mem (fun _ => atad_typed _ _ _) disk_world).
  eapply lr_step; [eapply lr_step; [apply lr_init|]|].
  - apply (ls_init _ (Some 0%nat) _ 0 lib1). reflexivity.
  - apply (ls_new _ 0 0 _ 0 lib2). reflexivity.
Defined.

(** ** The loader *)

(** A miniature of the ELF structures: one byte a field, after the magic. *)
Definition field (i : nat) (m : list byte) : nat := Z.to_nat (byte_to_Z (nth i m x00)).

Definition tiny_layout : elf_layout :=
  mk_layout 7 5 (fun m => le_combine (take 4 m)) (field 4) (field 5) (fun m => Z.of_nat (field 6 m))
    (fun m => Z.of_nat (field 0 m)) (field 1) (field 2) (field 3) (field 4).

(** At 40: a header with two program headers (a segment of four bytes with two
    in the file, to 16, and one that is not loaded), and the two bytes. *)
Definition tiny_ram : list byte :=
  replicate 40 xff ++ le_split 4 ELF_MAGIC ++ [x07; x02; x10]
    ++ [x01; x11; x10; x02; x04] ++ [x02; x00; x00; xff; xff] ++ bs "hi" ++ replicate 3 xff.

Lemma loadelf_in_place_witness :
  loadelf tiny_layout 40 3 0 tiny_ram
  = Ok (Some [SifExitRpc; FlushCache 0; FlushCache 2;
              ExecPS2 (eh_entry tiny_layout (image_header tiny_layout 40 tiny_ram)) 2],
        foldl (place tiny_layout 40 tiny_ram) tiny_ram (image_headers tiny_layout 40 tiny_ram)).
Proof.
  apply (loadelf_in_place tiny_layout 40 19 3 0 tiny_ram).
  - split.
    + vm_compute; lia.
    + vm_compute; lia.
    + reflexivity.
    + vm_compute; lia.
    + repeat apply Forall_cons_2; try apply Forall_nil_2.
      * intros _. vm_compute. lia.
      * intros H. vm_compute in H. done.
  - vm_compute; lia.
Defined.

Example loaded_segment :
  slice 16 4 (foldl (place tiny_layout 40 tiny_ram) tiny_ram (image_headers tiny_layout 40 tiny_ram))
  = bs "hi" ++ [x00; x00].
Proof. by vm_compute. Qed.

(** ** mini-xinetd *)

Definition two_services : list service_view :=
  [mk_view (bs "echo") 7 (bs "chargen"); mk_view (bs "now") 13 (bs "daytime")].

Lemma parse_config_roundtrip_witness :
  if decide (length two_services <= MAX_SERVICES)%nat
  then exists st, parse_config (replicate MAX_LINE xff) (Some (print_config two_services)) initial_parse
      = Ok (Some st) /\ ps_count st = length two_services /\
    Forall2 service_says (take (ps_count st) (ps_services st)) two_services
  else parse_config (replicate MAX_LINE xff) (Some (print_config two_services)) initial_parse
    = Fault OutOfBounds.
Proof.
  apply (parse_config_roundtrip two_services (replicate MAX_LINE xff)).
  - by rewrite length_replicate.
  - repeat apply Forall_cons_2; try apply Forall_nil_2; split_and!; by_decide || (cbn; lia).
Defined.

(** A system that never refuses and numbers its descriptors; the first
    listener is always ready. *)
Definition next_fd (n : Z) : Z * Z := (n, n + 1).
Definition first_ready (maxfd : Z) (fds : list Z) (n : Z) : option (Z -> bool) * Z :=
  (Some (fun fd => fd =? default (-1) (head fds)), n).

Lemma xinetd_accepts_witness :
  exists ts, xinetd_main next_fd (fun _ n => n) (fun _ _ n => (0, n)) (fun _ _ n => (0, n))
      (fun _ => next_fd) first_ready (Some 1%nat) None 2 (replicate MAX_LINE xff)
      (Some (print_config two_services)) 2 3 (initial_registry tt)
    = Ok (XServing ts true 7 (lwnbd_servers_init (Some 1%nat) None (initial_registry tt)).2) /\
    Forall2 thread_for ts [(bs "echo", 5); (bs "echo", 6)].
Proof.
  apply (xinetd_accepts next_fd (fun _ n => n) (fun _ _ n => (0, n)) (fun _ _ n => (0, n))
      (fun _ => next_fd) first_ready (Some 1%nat) None two_services (replicate MAX_LINE xff) 2 3
      (initial_registry tt)).
  - by rewrite length_replicate.
  - repeat apply Forall_cons_2; try apply Forall_nil_2; split_and!; by_decide || (cbn; lia).
  - by_decide.
Defined.

(** Descriptors and streams as lists; the numbers of streams are fresh. *)
Definition streams : Type := list Z * list Z.

Definition fresh_stream (n : streams) : Z := 1 + foldr Z.max 0 n.2.

Definition list_fdopen (fd : Z) (n : streams) : option Z * streams :=
  (Some (fresh_stream n), (n.1, fresh_stream n :: n.2)).
Definition list_fclose (f : Z) (n : streams) : streams := (n.1, filter (fun g => g <> f) n.2).
Definition list_close (fd : Z) (n : streams) : streams := (filter (fun g => g <> fd) n.1, n.2).

Lemma list_descriptors : descriptors list_fdopen list_fclose list_close fst snd.
Proof.
  split; try done. intros fd [fds files]. cbn. split; [done|]. split; [done|]. unfold fresh_stream. cbn.
  assert (forall f, f ∈ files -> f <= foldr Z.max 0 files) as Hmax.
  { induction files as [|g l IH]; [set_solver|]. intros f [->|Hf]%elem_of_cons; cbn; [lia|].
    specialize (IH f Hf). lia. }
  intros Hin%Hmax. lia.
Qed.

Definition named_registry : registry nat := mk_registry [] [] [0%nat] 0%nat.

(** Streams 1 and 2 are open, the connection is descriptor 9. *)
Definition xinetd_process : process streams nat := mk_process 1 2 ([9], [1; 2]) named_registry.
Definition count_thread : thread_arg_t := mk_thread_arg 9 (bs "count" ++ [x00]).
Definition xinetd_after : process streams nat := mk_process 1 2 ([], [1; 2]) (set_state 1%nat named_registry).

Lemma service_thread_restores_witness :
  p_stdout xinetd_after = p_stdout xinetd_process /\ p_stderr xinetd_after = p_stderr xinetd_process /\
  snd (p_net xinetd_after) = snd (p_net xinetd_process) /\
  fst (p_net xinetd_after) =
    match get_server_by_name server_memory (bs "count") (p_registry xinetd_process) with
    | Some _ => filter (fun g => g <> t_conn_fd count_thread) (fst (p_net xinetd_process))
    | None => fst (p_net xinetd_process)
    end.
Proof.
  apply (service_thread_restores server_memory list_fdopen list_fclose list_close fst snd count_thread
    (bs "count")).
  - exact list_descriptors.
  - reflexivity.
  - intros fd n. by eexists.
  - reflexivity.
Defined.

(** ** The libuv server *)

(** Two connections, the first of which has ended. *)
Definition uv1 : uv_server := mk_uv [CLIENT_INUSE; CLIENT_FREE; CLIENT_FREE] [Some 0%nat; None; None]
  [Some (mk_worker 0 4)] [0%nat].
Definition uv2 : uv_server := mk_uv [CLIENT_INUSE; CLIENT_INUSE; CLIENT_FREE] [Some 0%nat; Some 1%nat; None]
  [Some (mk_worker 0 4); Some (mk_worker 1 4)] [0%nat; 1%nat].
Definition uv3 : uv_server := mk_uv [CLIENT_FREE; CLIENT_INUSE; CLIENT_FREE] [Some 0%nat; Some 1%nat; None]
  [None; Some (mk_worker 1 4)] [1%nat].

Lemma uv_clients_bounded_witness :
  (NoDup (u_queued uv3) /\ (length (u_queued uv3) <= MAX_CLIENTS)%nat /\
   forall i, u_client_states uv3 !! i = Some CLIENT_INUSE <->
     exists! req, req ∈ u_queued uv3 /\ slot_of uv3 req = Some i) /\
  (forall server status, exists u', on_new_connection true server status uv3 = Ok u' /\
     (forall i rest, 0 <= status -> u_client_states uv3 = replicate i CLIENT_INUSE ++ CLIENT_FREE :: rest ->
        u_client_states u' = replicate i CLIENT_INUSE ++ CLIENT_INUSE :: rest /\
        exists req, u_queued u' = u_queued uv3 ++ [req] /\ req ∉ u_queued uv3 /\
          worker_of req u' = Ok (mk_worker i server)) /\
     (status < 0 \/ Forall (fun x => x = CLIENT_INUSE) (u_client_states uv3) -> u' = uv3)) /\
  (forall req, req ∈ u_queued uv3 -> exists w, worker_of req uv3 = Ok w /\
     slot_of uv3 req = Some (nw_client_id w) /\
     u_client_states uv3 !! nw_client_id w = Some CLIENT_INUSE /\
     exists u', on_after_work req uv3 = Ok u' /\
       u_client_states u' = <[nw_client_id w := CLIENT_FREE]> (u_client_states uv3)).
Proof.
  apply (uv_clients_bounded uv3).
  apply (uv_next uv2); [apply (uv_next uv1); [apply (uv_next initial_uv); [apply uv_init|]|]|].
  - by apply (uv_connection 4 0).
  - by apply (uv_connection 4 0).
  - by apply (uv_completed 0 uv2 uv3 [] [1%nat]).
Defined.

(** ** Chargen *)

(** A socket that takes ten bytes at a time, until it has taken a hundred; what
    it took, and whether it is open. *)
Definition ten_write (fd : Z) (d : list byte) (n : list byte * bool) : Z * (list byte * bool) :=
  let taken := if decide (length n.1 < 100)%nat then take 10 d else [] in
  (Z.of_nat (length taken), (n.1 ++ taken, n.2)).
Definition ten_close (fd : Z) (n : list byte * bool) : list byte * bool := (n.1, false).

Definition chargen_start : chargen_world (list byte * bool) :=
  mk_chargen_world [] (replicate 8 idle_fd) (replicate 8 idle_fd) ([], true).

Lemma ten_write_prefix : write_prefix ten_write ten_close fst snd 5.
Proof.
  split; [|done]. intros d n. unfold ten_write. case_decide; cbn -[take].
  - rewrite length_take. split; [lia|]. split; [|done]. f_equal.
    rewrite Nat2Z.id. destruct (Nat.min_spec 10 (length d)) as [[? ->]|[? ->]]; [done|].
    by rewrite !take_ge by lia.
  - split; [lia|]. by rewrite take_0, app_nil_r.
Qed.

Lemma chargen_stream_witness :
  exists w0, service_chargen_new 5 true 0 chargen_start = Ok w0 /\
  forall w1, rtc (chargen_step ten_write ten_close 5) w0 w1 ->
    exists d, (cw_net w1).1 = (cw_net chargen_start).1 ++ d /\ repeats_line d /\
      (serving snd 5 (length (cw_heap chargen_start)) d w1 /\ (forall now, exists w2,
          chargen_on_writable ten_write ten_close 5 (Some (length (cw_heap chargen_start))) now w1 = Ok w2)
       \/ closed snd 5 (length (cw_heap chargen_start)) w1).
Proof.
  apply (chargen_stream ten_write ten_close fst snd 5 ten_write_prefix 0 chargen_start).
  - unfold fd_ok. cbn. lia.
  - unfold fd_ok. cbn. lia.
  - done.
Defined.

(** ** The sound plugin *)

(** A sound driver that keeps what it was given to play. *)
Definition speaker : lwnbd_plugin_t (pcm_world (list byte)) pcmstream_config :=
  pcmstream_plugin (fun x => (0, x)) (fun _ _ _ x => x) (fun _ x => x) (fun _ x => x) (fun d x => x ++ d).

Definition speaker_world : pcm_world (list byte) :=
  mk_pcm [mk_pcm_config (char_array 32 (bs "out")) (char_array 64 []) 44100 16 2 70] [HANDLE_CREATED] [].

Definition tune : list pcm_call :=
  [PcmWrite (bs "abcd") 4 0; PcmVolume 50; PcmRead 512 0; PcmWrite (bs "efgh") 2 9; PcmFlush].

Lemma pcmstream_plays_writes_witness :
  exists w', pcm_run (fun _ x => x) (fun _ x => x) (fun d x => x ++ d) (Some 0%nat) tune speaker_world = Ok w' /\
    pw_audio w' = pw_audio speaker_world ++ concat (samples <$> tune).
Proof.
  apply (pcmstream_plays_writes (fun x => (0, x)) (fun _ x => x) (fun _ x => x) (fun d x => x ++ d)
    (fun x => x) 0 tune speaker_world).
  - split; done.
  - by eexists.
  - repeat apply Forall_cons_2; try apply Forall_nil_2; cbn; done || lia.
Defined.

(** A client reads the speakers: it is sent the stack. *)
Definition speaker_export : lwnbd_context_nbd_t :=
  mk_nbd_context (mk_context (Some 0%nat) (Some 0%nat) (char_array 32 (bs "out")) (replicate 64 x00) 65536)
    3 1 1 1 NBD_FLAG_FIXED_NEWSTYLE 0 0 socket TRANSMISSION.

Definition speaker_frame : frame pipe (pcm_world (list byte)) :=
  mk_frame initial_xfer stack_request stack_buffer (mk_pipe [] []) speaker_world.

Lemma silent_read_sends_stale_buffer_witness :
  exists f', cmd_read (fun _ => speaker) 1 speaker_export 1 (request NBD_CMD_READ 0 4) speaker_frame
      = Ok (None, f') /\
    f_buffer f' = f_buffer speaker_frame /\
    outbox socket (f_net f') = outbox socket (f_net speaker_frame) ++ wire_reply NBD_SUCCESS 7
      ++ take (Z.to_nat 4) (f_buffer speaker_frame).
Proof.
  apply (silent_read_sends_stale_buffer (fun _ => speaker) speaker_export 0 eq_refl pcmstream_pread 4 1
    speaker_frame (request NBD_CMD_READ 0 4)).
  - split; [done|]. intros. by eexists.
  - done.
  - done.
  - done.
  - by vm_compute.
  - by vm_compute.
  - by vm_compute.
  - lia.
Defined.

(** ** The local programs *)

Definition note_plugin : lwnbd_plugin_t (file_world (list byte)) (list byte) :=
  file_plugin slow_pread slow_pwrite slow_fdatasync image_open image_fstat.

(** A file of nine bytes, open as descriptor 3 on the first handle. *)
Definition note_world : file_world (list byte) :=
  mk_file [mk_file_handle 3 2 (Some (bs "note"))] [HANDLE_CREATED] (bs "some text").

Definition note_context : lwnbd_context_t :=
  mk_context (Some 0%nat) (Some 0%nat) (char_array 32 (bs "note")) (replicate 64 x00) 9.

Lemma note_inv : file_inv 3 (fun f => f) 0 note_world.
Proof. split; [by eexists|by vm_compute]. Qed.

Lemma local_reader_prints_witness :
  exists w', reader_loop (fun _ => note_plugin) 10 note_context 0 (replicate 80 xff) 0 [] note_world
    = Ok (bs "some text" ++ [x74], w').
Proof.
  apply (local_reader_prints (fun _ => note_plugin) note_context 0 (file_inv 3 (fun f => f) 0)
    (file_content (fun f => f)) eq_refl
    (B := file_bytes _ _ _ _ _ _ _ (slow_posix_file 3) 0) (replicate 80 xff) note_world).
  - exact note_inv.
  - by vm_compute.
  - rewrite length_replicate. lia.
Defined.

Definition wc_program : file_world (list byte) * command_world Z :=
  (note_world, mk_cmd_world [wc_command] (replicate CMD_BUFFER_SZ x00) 4096 (Some (0%nat, 1)) 0).

(** Plugin 0 is the file's, plugin 1 the commands'. *)
Definition wc_plugins (a : nat) : lwnbd_plugin_t (file_world (list byte) * command_world Z) unit :=
  match a with
  | O => lift_plugin lens_fst (fun _ => None) note_plugin
  | S _ => lift_plugin lens_snd (fun _ => None) (command_plugin (fun _ => Ok ([], 1)))
  end.

Definition api_context : lwnbd_context_t :=
  mk_context None (Some 1%nat) (char_array 32 (bs "api")) (replicate 64 x00) 4096.

Lemma wc_counts_bytes_witness :
  exists w', wc_loop wc_plugins 10 note_context api_context 0 (bs "api?wc" ++ [x00]) 0 wc_program = Ok w' /\
    cw_env w'.2 = 9.
Proof.
  apply (wc_counts_bytes note_plugin (fun _ => Ok ([], 1)) (fun _ => None) (fun _ => None) wc_plugins 0 1
    eq_refl eq_refl note_context api_context eq_refl eq_refl (file_inv 3 (fun f => f) 0)
    (file_content (fun f => f)) (B := file_bytes _ _ _ _ _ _ _ (slow_posix_file 3) 0)
    (bs "api?wc" ++ [x00]) wc_program).
  - exact note_inv.
  - by exists 0%nat, 1.
  - cbn. lia.
  - done.
  - by vm_compute.
Defined.

(** *** The shell *)

(** A program whose world is the command plugin's and whose only export is
    [api]. *)
Definition shell_plugins (a : nat) : lwnbd_plugin_t (unit * command_world shell_env) unit :=
  lift_plugin lens_snd (fun _ => None) (command_plugin (fun _ => Ok ([], 1))).

Definition shell_world : command_world shell_env :=
  mk_cmd_world (builtin (fun _ => Ok ([], 1)) ++ [ce_command true]) (replicate CMD_BUFFER_SZ x00) 0 None
    (mk_shell (bs "api") (bs "[lwnbd:/api]$ ") (bs "lwnbd")).

Definition shell_lib : lib (unit * command_world shell_env) :=
  mk_lib (update_context 0 (mk_context None (Some 0%nat) (char_array 32 (bs "api")) (replicate 64 x00) 0)
            (lwnbd_new_context initial_pool).2)
    (Some 0%nat :: replicate 9 None) (slots PLUGIN_CREATED PLUGIN_FREE MAX_NUM_PLUGINS 1) (tt, shell_world).

Lemma shell_lib_ready : shell_ready lens_snd 0 shell_lib.
Proof.
  assert (pool_ok (lwnbd_new_context initial_pool).2) as Hp.
  { pose proof (new_context_spec _ initial_pool_ok) as H. rewrite decide_False in H by by_decide.
    destruct H as (pl & -> & Hpl & _). done. }
  split.
  - apply update_context_ok; [done|]. split_and!; first [reflexivity|by eexists].
  - exists 0%nat. eexists. split; [vm_compute; reflexivity|done].
  - repeat apply Forall_cons_2; try apply Forall_nil_2; by_decide.
  - repeat apply Forall_cons_2; try apply Forall_nil_2; by_decide.
Qed.

Lemma shell_changes_export_witness :
  exists s' text, shell_turn true xff shell_plugins lens_snd (bs "ce=" ++ bs "hdd0") shell_lib
      = Ok (Response (Z.of_nat (length text)) (Z.of_nat (length text)) text, s') /\
    text = bs "export name to " ++ bs "hdd0" ++ [x0a] /\
    sh_exportname (env_of lens_snd s') = bs "hdd0" /\
    sh_prompt (env_of lens_snd s')
      = bs "[" ++ sh_base (env_of lens_snd shell_lib) ++ bs ":/" ++ bs "hdd0" ++ bs "]$ ".
Proof.
  apply (shell_changes_export true xff shell_plugins lens_snd lens_snd_ok (fun _ => Ok ([], 1)) (fun _ => None) 0
    eq_refl shell_lib (bs "hdd0") 3).
  - exact shell_lib_ready.
  - done.
  - reflexivity.
  - repeat apply Forall_cons_2; try apply Forall_nil_2; by_decide.
  - apply Nat.leb_le. reflexivity.
Defined.

(** ** The libuv server's start-up *)

(** Memory, commands; the program's configurations are one of each. *)
Local Abbreviation app_world := (memory_world * command_world unit)%type.

Inductive app_cfg := AppPath (path : list byte) | AppMemory (c : memory_config) | AppCommand (c : lwnbd_command unit).

Definition app_memory (c : app_cfg) : option memory_config := match c with AppMemory m => Some m | _ => None end.
Definition app_command (c : app_cfg) : option (lwnbd_command unit) := match c with AppCommand m => Some m | _ => None end.

Definition app_plugins (a : nat) : lwnbd_plugin_t app_world app_cfg :=
  match a with
  | O => lift_plugin lens_fst app_memory memory_plugin
  | S _ => lift_plugin lens_snd app_command (command_plugin (fun _ => Ok ([], 1)))
  end.

(** A kilobyte of memory. *)
Definition app_start : app_world :=
  (mk_memory (replicate 1024 xff) (replicate 10 (mk_memory_config 0 0 [] [])) (handle_slots 10 0),
   mk_cmd_world [] (replicate CMD_BUFFER_SZ x00) 0 None tt).

(** ** The console module *)

(** Only the memory plugin is compiled in; the memory has two bytes. *)
Definition console_plugins (a : nat) : lwnbd_plugin_t memory_world irx_cfg :=
  lift_plugin (mk_lens (fun w => w) (fun x _ => x))
    (fun c => match c with CfgMemory m => Some m | _ => None end) memory_plugin.

Definition console_build : irx_build := mk_build None None (Some 0%nat) None None.

Definition console_memory : memory_world :=
  mk_memory [x00; x00] (replicate 10 (mk_memory_config 0 0 [] [])) (handle_slots 10 0).

Definition memory_after (cfgs : list memory_config) (w : memory_world) : memory_world :=
  mk_memory (mw_ram w) (cfgs ++ drop (length cfgs) (mw_handles w)) (handle_slots 10 (length cfgs)).

(** The servers of the module before it runs: an empty registry, over the state
    of the remote calls. *)
Definition sif_start : sif_world unit unit := mk_sif (mk_sifrpc 0 None 0) tt.

Definition module_servers (a : nat) : lwnbd_server (sif_world unit unit) (irx_server_cfg unit) :=
  sifrpc_server_struct (fun _ k => (1, k)) (fun _ _ k => (0, k)) (fun _ k => (0, k)) (fun _ k => (0, k))
    (fun s => s) (fun w _ => w) (fun _ => mk_handler 0x2A39 tt) 0.

Definition module_start : irx_world (sif_world unit unit) memory_world :=
  mk_irx (initial_registry sif_start) (initial_lib console_memory) 0 0 0 0.

Lemma irx_start_out_of_bounds_witness :
  irx_start (fun s => (1, s)) 0 1 module_servers 0 tt module_start = Fault OutOfBounds.
Proof.
  apply (irx_start_out_of_bounds (fun s => (1, s)) 0 1 module_servers 0 tt (fun _ k => (1, k)) (fun _ _ k => (0, k))
    (fun _ k => (0, k)) (fun _ k => (0, k)) (fun s => s) (fun w _ => w) (fun _ => mk_handler 0x2A39 tt) 0 module_start).
  - reflexivity.
  - apply initial_registry_ok.
Defined.

Lemma irx_exports_witness :
  let after := memory_after [iopram 2; bios] console_memory in
  exists l', config_plugins 2 console_plugins console_build (initial_lib console_memory) = Ok l' /\
    lib_ok l' /\ l_world l' = after /\
    exports l' = exports (initial_lib console_memory) ++ [] ++ []
      ++ [mk_export (Some (bs "ram")) (Some (bs "IOP main RAM")) (Some 0%nat) (Some 0%nat);
          mk_export (Some (bs "bios")) (Some (bs "BIOS (rom0)")) (Some 0%nat) (Some 1%nat)] ++ [] ++ [].
Proof.
  apply (irx_exports 2 console_plugins console_build (initial_lib console_memory) [] []
    [mk_export (Some (bs "ram")) (Some (bs "IOP main RAM")) (Some 0%nat) (Some 0%nat);
     mk_export (Some (bs "bios")) (Some (bs "BIOS (rom0)")) (Some 0%nat) (Some 1%nat)] [] []
    console_memory console_memory (memory_after [iopram 2; bios] console_memory)
    (memory_after [iopram 2; bios] console_memory)).
  - split_and!; [apply initial_lib_ok|vm_compute; lia|vm_compute; lia].
  - done.
  - done.
  - split; [done|]. split; [done|]. split; [done|]. split; [split; by_decide|].
    apply (fill_cons console_plugins 0 _ _ _ (Some 0%nat) (bs "ram") (bs "IOP main RAM")
      (memory_after [iopram 2] console_memory)); [|apply (fill_cons console_plugins 0 _ _ _ (Some 1%nat)
        (bs "bios") (bs "BIOS (rom0)") (memory_after [iopram 2; bios] console_memory)); [|constructor]].
    + eapply (lift_ctor_fills (mk_lens (fun w => w) (fun x _ => x))); [done|].
      apply (memory_ctor_fills (iopram 2) _ _ 0 console_memory); [split_and!; reflexivity|by split_and!; vm_compute; try lia|vm_compute; lia].
    + eapply (lift_ctor_fills (mk_lens (fun w => w) (fun x _ => x))); [done|].
      apply (memory_ctor_fills bios _ _ 1 (memory_after [iopram 2] console_memory));
        [split_and!; reflexivity|by split_and!; vm_compute; try lia|vm_compute; lia].
  - done.
  - done.
Defined.

(** The module's NBD server knows one key. *)
Definition console_servers (a : nat) : lwnbd_server kernel (irx_server_cfg unit) :=
  mk_server (bs "nbd") (Some (fun s => (Some 0%nat, s))) None None
    (Some (fun _ key _ s => Ok (if strcmp key (bs "readonly") =? 0 then 0 else -1, s)))
    (Some (fun _ _ s => Ok (0, s))) None.

Definition console_conf (readonly : Z) : lwnbd_config := mk_lwnbd_config (char_array 32 (bs "ram")) readonly.

Definition console_module : irx_world kernel memory_world :=
  mk_irx (initial_registry boot) (initial_lib console_memory) 0 0 0 0.

Definition console_configured : irx_world kernel memory_world :=
  match config 2 console_servers 0 console_plugins console_build (console_conf 1) console_module with
  | Ok (_, w) => w
  | Fault _ => console_module
  end.

(** Started, stopped, started again with another configuration. *)
Lemma irx_configured_once_witness :
  exists xs w', rpc_run (fun _ s => (7, s)) (fun _ _ s => (0, s)) (fun _ s => (0, s)) (fun _ s => (0, s))
      2 console_servers 0 console_plugins console_build
      [(LWNBD_SERVER_CMD_START, console_conf 1); (LWNBD_SERVER_CMD_STOP, console_conf 1);
       (LWNBD_SERVER_CMD_START, console_conf 0)] console_module = Ok (xs, w') /\
    length xs = (1 + 2)%nat /\ configuration w' = configuration console_configured.
Proof.
  apply (irx_configured_once (fun _ s => (7, s)) (fun _ _ s => (0, s)) (fun _ s => (0, s)) (fun _ s => (0, s))
    2 console_servers 0 console_plugins console_build (console_conf 1)
    [(LWNBD_SERVER_CMD_STOP, console_conf 1); (LWNBD_SERVER_CMD_START, console_conf 0)]
    console_module console_configured).
  - done.
  - unfold console_configured.
    assert (exists w, config 2 console_servers 0 console_plugins console_build (console_conf 1) console_module
      = Ok (0, w)) as [w ->]; [by eexists; vm_compute|done].
Defined.
