(* ===== verification/ConnectionExamples.v ===== *)
(** * Concrete connections

    The theorems of [Connection] applied to the disk of [Examples]: a
    preinitialised connection of two sessions, a client that negotiates, and the statics of the server as they are when the
    program starts. *)

From S2P Require Import AtadPlugin HandshakeSafety Examples PluginExamples AppExamples Connection ClientSocket SerialRequests.
From S2P Require Import Log MemoryPlugin CommandPlugin UvMain.

(** ** A preinitialised disk *)

Definition preinit_disk : lwnbd_context_nbd_t := set_preinit writable.

Lemma stack_frames_ok t : stack_ok (sk_request (stack_frames t)) (sk_buffer (stack_frames t)).
Proof. exact disk_stack_ok. Qed.

Definition first_session : session := mk_session [write_sector; flush_disk] disconnect.

Lemma first_session_ok : Forall (session_ok preinit_disk 5) [first_session].
Proof.
  repeat apply Forall_cons_2; try apply Forall_nil_2. split; [|split; [exact disconnect_ok|cbn; lia]].
  repeat apply Forall_cons_2; try apply Forall_nil_2;
    [exact write_sector_conforming|exact flush_disk_conforming].
Qed.

Lemma last_commands_ok : Forall (conforming preinit_disk) [read_sector].
Proof. repeat apply Forall_cons_2; try apply Forall_nil_2. exact read_sector_conforming. Qed.

(** The second session ends in the middle of a request. *)
Definition two_sessions : pipe :=
  mk_pipe [session_bytes first_session; client_bytes read_sector ++ take 9 (wire_request disconnect)] [].

Definition default_disk (s : lib (atad_world (list byte))) : option nat := Some 0%nat.

Lemma preinit_connection_witness :
  let '(replies, l) := session_spec (all_cmds [first_session] ++ [read_sector]) (disk_content disk_world) in
  exists st cn, nbd_synchronous_client_thread_cb disk_plugin_mem default_disk 2 5 3 stack_frames
      preinit_disk 9 two_sessions disk_lib
    = Ok (-1, Some (set_n_state st preinit_disk, cn), cn_lib cn) /\
    cn_client cn = mk_client 9 TRANSMISSION (Some 0%nat) /\
    outbox socket (cn_net cn) = outbox socket two_sessions ++ replies /\
    disk_content (l_world (cn_lib cn)) = l /\
    device_ok preinit_disk disk_inv disk_content (l_world (cn_lib cn)) /\
    l_pool (cn_lib cn) = disk_pool.
Proof.
  apply (preinit_connection disk_plugin_mem preinit_disk 0 disk_inv disk_content eq_refl
    (fun _ => disk_write_store) (fun _ => disk_flush_store) disk_block 5 3 eq_refl stack_frames
    stack_frames_ok default_disk [first_session] [read_sector] (take 9 (wire_request disconnect)) 9
    two_sessions disk_lib 0%nat).
  - done.
  - reflexivity.
  - apply disk_device_ok.
  - exact first_session_ok.
  - exact last_commands_ok.
  - cbn; lia.
  - by_decide.
  - vm_compute. reflexivity.
Defined.

(** ** The server as the registry knows it *)

Definition nbd_only (a : nat) : lwnbd_server (nbd_state (atad_world (list byte)) pipe) unit :=
  server disk_plugin_mem default_disk 2 5 3 stack_frames.

(** ** A client that negotiates *)

Definition negotiation_then_read : pipe :=
  mk_pipe [greeting_answer; option_bytes ask_list ++ option_bytes ask_go;
           option_bytes (mk_option_cmd NBD_OPT_EXPORT_NAME (bs "hdd0")) ++ client_bytes read_sector] [].

Lemma disk_lib_ok : lib_ok disk_lib.
Proof.
  change disk_lib with (set_pool disk_pool fresh_lib). apply set_pool_ok; [exact fresh_lib_ok|].
  exact disk_pool_ok.
Qed.

Definition handshake_pool : context_pool := (lwnbd_new_context disk_pool).2.

Lemma handshake_frames_ok t :
  length (sk_cflags (stack_frames t)) = 4%nat /\
  length (sk_opt (stack_frames t)) = sizeof_nbd_new_option /\
  Z.of_nat (length (sk_buffer (stack_frames t))) = MAX_REQUEST_SIZE.
Proof. split_and!; [reflexivity|reflexivity|vm_compute; reflexivity]. Qed.

Lemma negotiated_request_dropped_witness :
  exists cn, nbd_synchronous_client_thread_cb disk_plugin_mem default_disk 2 3 3 stack_frames
      server_context socket negotiation_then_read disk_lib
      = Ok (-1, Some (set_n_state TRANSMISSION server_context, cn), set_pool handshake_pool disk_lib) /\
    cn_lib cn = set_pool handshake_pool disk_lib /\
    cn_client cn = mk_client socket HANDSHAKE (Some 0%nat) /\
    outbox socket (cn_net cn) = outbox socket negotiation_then_read ++
      wire_greeting (n_gflags server_context) ++
      concat (option_answer handshake_pool <$> [ask_list; ask_go]) ++
      wire_export server_context ++ wire_greeting (n_gflags server_context).
Proof.
  apply (negotiated_request_dropped disk_plugin_mem server_context default_disk stack_frames
    handshake_frames_ok [ask_list; ask_go] (bs "hdd0") (cmd_rq read_sector) [] negotiation_then_read
    disk_lib 0 (set_pool handshake_pool disk_lib) 3).
  - exact disk_lib_ok.
  - reflexivity.
  - by_decide.
  - by vm_compute.
  - done.
  - reflexivity.
  - exact questions_keep_haggling.
  - by_decide.
  - done.
  - by vm_compute.
  - vm_compute. reflexivity.
  - vm_compute. reflexivity.
Defined.

(** ** The statics at the start *)

#[export] Instance stdin_transport : Transport pipe (n_sock (set_preinit zero_handle)) :=
  tcp_transport pipe_recv pipe_send 0 (fun n => concat (pipe_in n)) pipe_out (pipe_posix 0).

Lemma unfilled_handle_serves_nothing_witness :
  let ctx := set_preinit zero_handle in
  let net := mk_pipe [client_bytes read_sector] [] in
  let f := frame_with net in
  let rq := cmd_rq read_sector in
  (rq_type rq = NBD_CMD_READ -> 0 < rq_offset rq + rq_count rq ->
     exists f', serve_request disk_plugin_mem 3 ctx f = Ok (Next (ctx, f')) /\
       outbox (n_sock ctx) (f_net f') = outbox (n_sock ctx) net ++ wire_reply NBD_EIO 7) /\
  (rq_type rq = NBD_CMD_READ -> rq_offset rq + rq_count rq = 0 ->
     serve_request disk_plugin_mem 3 ctx f = Fault DivByZero) /\
  (rq_type rq = NBD_CMD_WRITE -> 0 < rq_offset rq + rq_count rq ->
     exists f', serve_request disk_plugin_mem 3 ctx f = Ok (Next (ctx, f')) /\
       outbox (n_sock ctx) (f_net f') = outbox (n_sock ctx) net ++ wire_reply NBD_ENOSPC 7) /\
  (rq_type rq = NBD_CMD_WRITE -> rq_offset rq + rq_count rq = 0 ->
     serve_request disk_plugin_mem 3 ctx f = Fault DivByZero) /\
  (rq_type rq = NBD_CMD_FLUSH -> serve_request disk_plugin_mem 3 ctx f = Fault NullDeref).
Proof.
  apply (unfilled_handle_serves_nothing disk_plugin_mem 3 (frame_with (mk_pipe [client_bytes read_sector] []))
    (cmd_rq read_sector) []).
  - apply frame_with_ok.
  - reflexivity.
  - apply request_7_ok; by vm_compute.
  - reflexivity.
  - by vm_compute.
  - vm_compute. reflexivity.
Defined.

(** ** Two sockets *)

(** A network that keeps a log of what was sent on which socket. *)
Record wires := mk_wires { wr_in : list byte; wr_log : list (Z * list byte) }.

Definition wires_callbacks : Callbacks wires := {|
  sync_recv_cb s mem len n :=
    let d := take (Z.to_nat len) (wr_in n) in
    Ok (Z.of_nat (length d), splice 0 d mem, mk_wires (drop (Z.to_nat len) (wr_in n)) (wr_log n));
  sync_send_cb s d flags n := Ok (Z.of_nat (length d), mk_wires (wr_in n) (wr_log n ++ [(s, d)]))
|}.

Definition sent_on (sock : Z) (n : wires) : list byte :=
  concat (omap (fun '(s, d) => if decide (s = sock) then Some d else None) (wr_log n)).

Lemma wires_hear sock : hears (CB := wires_callbacks) sock (sent_on sock).
Proof.
  split; cbn; intros; simplify_eq; unfold sent_on; cbn [wr_log]; [done|..];
    rewrite omap_app, concat_app; cbn; case_decide; try done; cbn; rewrite !app_nil_r; [done|].
  exists (length d). by rewrite firstn_all.
Qed.

(** The client's socket is 9, the handle holds [socket]. *)
Definition nine_asks : wires :=
  mk_wires (greeting_answer ++ option_bytes ask_list ++
    option_bytes (mk_option_cmd NBD_OPT_EXPORT_NAME (bs "hdd0")) ++ client_bytes read_sector) [].

Definition nine_is_served :=
  nbd_synchronous_client_thread_cb (CB := wires_callbacks) disk_plugin_mem default_disk 3 5 3
    stack_frames server_context 9 nine_asks disk_lib.

Lemma client_hears_only_greetings_witness :
  exists r ctx' cn s', nine_is_served = Ok (r, Some (ctx', cn), s') /\
    exists ks, sent_on 9 (cn_net cn)
      = sent_on 9 nine_asks ++ greetings (n_gflags server_context) ks /\
      (n_preinit server_context <> 0 -> ks = []).
Proof.
  destruct nine_is_served as [[[r [[ctx' cn]|]] s']|] eqn:E; [|by vm_compute in E..].
  exists r, ctx', cn, s'. split; [done|].
  apply (client_hears_only_greetings (CB := wires_callbacks) disk_plugin_mem 9 (sent_on 9) (wires_hear 9)
    default_disk 3 5 3 stack_frames server_context nine_asks disk_lib r ctx' cn s').
  - done.
  - unfold nine_is_served in E. exact E.
Defined.

(** ** A session, turn by turn *)

Lemma phase_is_turns_witness :
  exists ctx' f', transmission_phase disk_plugin_mem 5 3 (Some writable) stack_request stack_buffer
      (mk_pipe session_in []) disk_world = Ok (0, Some (ctx', f')) /\
    exists n, forall m, (n <= m)%nat ->
      turns disk_plugin_mem m (mk_task writable Waiting
        (mk_frame initial_xfer stack_request stack_buffer (mk_pipe session_in []) disk_world))
      = Ok (mk_task ctx' (Over 0) f').
Proof.
  destruct (transmission_phase disk_plugin_mem 5 3 (Some writable) stack_request stack_buffer
    (mk_pipe session_in []) disk_world) as [[r [[ctx' f']|]]|] eqn:E; [|by vm_compute in E..].
  assert (r = 0) as -> by (vm_compute in E; congruence). exists ctx', f'. split; [done|].
  apply (phase_is_turns disk_plugin_mem 5 3 writable stack_request stack_buffer (mk_pipe session_in []) disk_world 0
    ctx' f'). exact E.
Defined.

(** ** Two clients of the disk

    One writes and reads the first sector, the other the second, over sockets
    of their own. *)

#[local] Instance pipe_transport (sock : Z) : Transport pipe sock :=
  tcp_transport pipe_recv pipe_send sock (fun n => concat (pipe_in n)) pipe_out (pipe_posix sock).

Definition on_socket (sock : Z) : lwnbd_context_nbd_t :=
  mk_nbd_context disk_context (Z.lor NBD_FLAG_HAS_FLAGS NBD_FLAG_SEND_FLUSH) 512 4096 4096
    NBD_FLAG_FIXED_NEWSTYLE 0 0 sock TRANSMISSION.

Definition sector_commands (offset : Z) (b : byte) : list command :=
  [mk_command (request NBD_CMD_WRITE offset 512) (replicate 512 b);
   mk_command (request NBD_CMD_READ offset 512) []].

Definition sector_tenant (sock offset : Z) (b : byte) : tenant disk_plugin_mem disk_inv disk_content 1024 :=
  mk_tenant disk_plugin_mem disk_inv disk_content 1024 (on_socket sock) 0 offset (offset + 512)
    (sector_commands offset b) [x01] (mk_pipe [concat (client_bytes <$> sector_commands offset b); [x01]] [])
    stack_request stack_buffer (pipe_transport sock) eq_refl disk_read_store
    (fun _ => disk_write_store) (fun _ => disk_flush_store) disk_block eq_refl.

Definition two_tenants : list (tenant disk_plugin_mem disk_inv disk_content 1024) :=
  [sector_tenant 5 0 x41; sector_tenant 6 512 x42].

Lemma sector_commands_local sock offset b :
  offset = 0 \/ offset = 512 ->
  Forall (local_command (on_socket sock) offset (offset + 512)) (sector_commands offset b).
Proof.
  intros Ho. repeat apply Forall_cons_2; try apply Forall_nil_2; (split; [|cbn; lia]);
    destruct Ho as [-> | ->]; conforms.
Qed.

Lemma sector_tenant_ok sock offset b :
  offset = 0 \/ offset = 512 -> tenant_ok disk_plugin_mem disk_inv disk_content 1024 (sector_tenant sock offset b).
Proof.
  intros Ho. split; [cbn; lia|]. split; [cbn; lia|]. split; [exact disk_stack_ok|].
  split; [by apply sector_commands_local|]. split; [by_decide|].
  unfold tn_inbox, tn_transport, sector_tenant, tn_net. by destruct Ho as [-> | ->].
Qed.

Lemma tenants_served_alone_witness :
  exists b, forall sched, exists s,
    run_threads disk_plugin_mem sched (mk_threads (start disk_plugin_mem disk_inv disk_content 1024 disk_world <$> two_tenants) disk_world) = Ok s /\
    on_device disk_inv disk_content 1024 (th_world s) /\
    untouched disk_plugin_mem disk_inv disk_content 1024 two_tenants disk_world (disk_content (th_world s)) /\
    forall i c, two_tenants !! i = Some c -> (b <= turns_of i sched)%nat ->
      let '(replies, l) := session_spec (tn_cmds _ _ _ _ c) (disk_content disk_world) in
      exists t, th_tasks s !! i = Some t /\ t_act t = Over (-1) /\
        tn_outbox _ _ _ _ c (f_net (t_frame t)) = tn_outbox _ _ _ _ c (tn_net _ _ _ _ c) ++ replies /\
        tn_part _ _ _ _ c (disk_content (th_world s)) = tn_part _ _ _ _ c l.
Proof.
  apply (tenants_served_alone disk_plugin_mem disk_inv disk_content 1024 eq_refl two_tenants disk_world).
  - destruct (disk_device_ok 0) as (Hinv & Hl & _). by split.
  - repeat apply Forall_cons_2; try apply Forall_nil_2; apply sector_tenant_ok; auto.
  - intros i j c c' Hij Hi Hj. unfold apart.
    destruct i as [|[|i]]; [| |done]; destruct j as [|[|j]]; try done; cbn in Hi, Hj; simplify_eq; cbn; lia.
Defined.

(** *** Two clients of the same sector

    Each writes it and reads it back; what the second reads may be the first's. *)

Definition same_sector : list (tenant disk_plugin_mem disk_inv disk_content 1024) :=
  [sector_tenant 5 0 x41; sector_tenant 6 0 x42].

Lemma small_requests_serialise_witness :
  exists s h, run_threads disk_plugin_mem (concat (replicate 12 [0; 1; 1]%nat))
      (mk_threads (start disk_plugin_mem disk_inv disk_content 1024 disk_world <$> same_sector) disk_world) = Ok s /\
    (forall p, p ∈ h -> is_Some (same_sector !! p.1)) /\
    disk_content (th_world s) = (session_spec h.*2 (disk_content disk_world)).2 /\
    forall i c, same_sector !! i = Some c -> exists t, th_tasks s !! i = Some t /\
      commands_of i h `prefix_of` tn_cmds _ _ _ _ c /\
      ((tn_turns _ _ _ _ c <= turns_of i (concat (replicate 12 [0; 1; 1])))%nat ->
       t_act t = Over (-1) /\ commands_of i h = tn_cmds _ _ _ _ c /\
       tn_outbox _ _ _ _ c (f_net (t_frame t))
       = tn_outbox _ _ _ _ c (tn_net _ _ _ _ c) ++ replies_of i h (disk_content disk_world)).
Proof.
  apply (small_requests_serialise disk_plugin_mem disk_inv disk_content 1024 eq_refl same_sector disk_world).
  - destruct (disk_device_ok 0) as (Hinv & Hl & _). by split.
  - repeat apply Forall_cons_2; try apply Forall_nil_2; apply sector_tenant_ok; auto.
  - repeat apply Forall_cons_2; try apply Forall_nil_2; by_decide.
Defined.

(** ** A reader and a writer of the disk

    The server's buffer holds one sector and the read asks for both. *)

Definition one_sector_config : NbdConfig := {|
  CONFIG_NBD_BUFFER_LEN := 512; MAX_REQUEST_SIZE := 4096; CONFIG_MAX_RETRIES := 5 |}.

Module OneSector.
#[local] Existing Instance one_sector_config.

#[local] Instance one_sector_config_ok : NbdConfigOk.
Proof. split; cbn; lia. Qed.

Lemma whole_disk_block sock : n_minimum_block_size (on_socket sock) <= CONFIG_NBD_BUFFER_LEN.
Proof. cbn. lia. Qed.

Definition whole_disk (sock : Z) (cmds : list command) : tenant disk_plugin_mem disk_inv disk_content 1024 :=
  mk_tenant disk_plugin_mem disk_inv disk_content 1024 (on_socket sock) 0 0 1024
    cmds [x01] (mk_pipe [concat (client_bytes <$> cmds); [x01]] [])
    stack_request stack_buffer (pipe_transport sock) eq_refl disk_read_store
    (fun _ => disk_write_store) (fun _ => disk_flush_store) (whole_disk_block sock) eq_refl.

Definition read_disk : nbd_request := request NBD_CMD_READ 0 1024.
Definition reader : tenant disk_plugin_mem disk_inv disk_content 1024 :=
  whole_disk 5 [mk_command read_disk []].
Definition writer : tenant disk_plugin_mem disk_inv disk_content 1024 :=
  whole_disk 6 [mk_command (request NBD_CMD_WRITE 0 1024) (replicate 1024 x41)].

Lemma whole_disk_ok sock cmds :
  Forall (local_command (on_socket sock) 0 1024) cmds ->
  tenant_ok disk_plugin_mem disk_inv disk_content 1024 (whole_disk sock cmds).
Proof.
  intros Hc. split; [cbn; lia|]. split; [cbn; lia|]. split; [exact disk_stack_ok|]. split; [exact Hc|].
  split; [by_decide|].
  change (concat [concat (client_bytes <$> cmds); [x01]] = concat (client_bytes <$> cmds) ++ [x01]).
  cbn [concat]. by rewrite !app_nil_r.
Qed.

Lemma reader_ok : tenant_ok disk_plugin_mem disk_inv disk_content 1024 reader.
Proof. apply whole_disk_ok, Forall_cons_2, Forall_nil_2. split; [conforms|cbn; lia]. Qed.

Lemma writer_ok : tenant_ok disk_plugin_mem disk_inv disk_content 1024 writer.
Proof. apply whole_disk_ok, Forall_cons_2, Forall_nil_2. split; [conforms|cbn; lia]. Qed.

Lemma disk_on_device : on_device disk_inv disk_content 1024 disk_world.
Proof. destruct (disk_device_ok 0) as (Hinv & Hl & _). by split. Qed.

Lemma connections_always_end_witness :
  exists s, run_threads disk_plugin_mem (concat (replicate 6 [0; 1]%nat))
      (mk_threads (start disk_plugin_mem disk_inv disk_content 1024 disk_world <$> [reader; writer]) disk_world) = Ok s /\
    on_device disk_inv disk_content 1024 (th_world s) /\
    untouched disk_plugin_mem disk_inv disk_content 1024 [reader; writer] disk_world (disk_content (th_world s)) /\
    forall i c, [reader; writer] !! i = Some c -> exists t, th_tasks s !! i = Some t /\
      ((tn_turns _ _ _ _ c <= turns_of i (concat (replicate 6 [0; 1])))%nat -> t_act t = Over (-1)).
Proof.
  apply (connections_always_end disk_plugin_mem disk_inv disk_content 1024 eq_refl [reader; writer] disk_world).
  - exact disk_on_device.
  - exact (Forall_cons_2 _ _ _ reader_ok (Forall_cons_2 _ _ _ writer_ok (Forall_nil_2 _))).
Defined.

End OneSector.

(** ** Two sockets *)

(** The client's bytes in one stream; every call of [send] with its socket.
    Nothing is connected to descriptor 0, the one the static handle holds, and
    a send there fails. *)
Record lines := mk_lines { ln_in : list byte; ln_log : list (Z * list byte) }.

Definition said (peer : Z) (n : lines) : list byte := concat ((fun x => noted peer x.1 x.2) <$> ln_log n).

#[export] Instance lines_callbacks : Callbacks lines := {
  sync_recv_cb s mem len n :=
    let d := take (Z.to_nat len) (ln_in n) in
    Ok (Z.of_nat (length d), splice 0 d mem, mk_lines (drop (Z.to_nat len) (ln_in n)) (ln_log n));
  sync_send_cb s d flags n :=
    Ok (if s =? 0 then -1 else Z.of_nat (length d), mk_lines (ln_in n) (ln_log n ++ [(s, d)]))
}.

Lemma lines_exchange sock t peer : exchange sock t peer ln_in (said peer).
Proof.
  split.
  - intros n mem d rest Hd Hm Hi. eexists. cbn [sync_recv_cb lines_callbacks].
    rewrite Nat2Z.id, Hi, take_app_length, drop_app_length. by split_and!.
  - intros s n d flags _ _. eexists _, _. split; [done|]. split; [case_match; auto|]. split; [done|].
    unfold said. cbn [sync_send_cb lines_callbacks ln_log]. rewrite fmap_app, concat_app. cbn [fmap list_fmap concat fst snd].
    by rewrite app_nil_r.
Qed.

Lemma lines_answers sock : answers (N := lines) sock.
Proof.
  split; [|done]. intros mem len n Hl Hb. cbn. apply length_splice. rewrite length_take. lia.
Qed.

(** The library as the connection leaves it: a context for the handshake beside
    the export of the disk. *)
Definition met_lib : lib (atad_world (list byte)) := set_pool (lwnbd_new_context disk_pool).2 disk_lib.

Definition met_with (d : list byte) : haggle (atad_world (list byte)) lines :=
  mk_haggle (replicate sizeof_nbd_new_option xff) stack_buffer (mk_client socket HANDSHAKE None)
    (mk_lines d []) met_lib.

Lemma met_with_ok d : haggle_ok socket (met_with d).
Proof.
  split_and!; [reflexivity|vm_compute; reflexivity|reflexivity|].
  apply (openable_new_context disk_plugin_mem disk_inv disk_lib disk_openable).
Qed.

Definition no_flags : list byte := replicate 4 x00.

Lemma handshake_negotiates_witness :
  let h := met_with (no_flags ++ concat (option_bytes <$> [ask_list; ask_go]) ++
    option_bytes (mk_option_cmd NBD_OPT_EXPORT_NAME (bs "hdd0")) ++ [x01]) in
  exists ctx' h', protocol_handshake disk_plugin_mem 3 zero_handle (replicate 4 xff) h = Ok (0, (ctx', h')) /\
    ln_in (hg_net h') = [x01] /\ hg_lib h' = met_lib /\ cl_ctx (hg_client h') = Some 0%nat /\
    ctx' = set_n_state TRANSMISSION zero_handle /\
    forall peer, said peer (hg_net h') = [] ++ noted peer socket (wire_greeting 0) ++
      noted peer 0 (concat (option_answer (l_pool met_lib) <$> [ask_list; ask_go]) ++ wire_export zero_handle).
Proof.
  intros h.
  apply (handshake_negotiates disk_plugin_mem socket zero_handle ln_in said [ask_list; ask_go] (bs "hdd0")
    h [x01] (replicate 4 xff) (Some 0%nat) met_lib).
  - intros peer. apply lines_exchange.
  - reflexivity.
  - apply met_with_ok.
  - by vm_compute.
  - exact questions_keep_haggling.
  - by_decide.
  - done.
  - by vm_compute.
  - reflexivity.
  - vm_compute. reflexivity.
Defined.

(** Flags, half of an option, and zeroes. *)
Definition hostile_options : list byte := no_flags ++ wire_option 1 3 ++ bs "hd" ++ replicate 20 x00.


(** The name ["/"] selects the context of the handshake. *)
Example slash_is_a_hazard : unopenable (bs "/") met_lib = true /\ unopenable (bs "hdd0") met_lib = false.
Proof. split; vm_compute; reflexivity. Qed.

(** ** The libuv server's start-up *)

(** libuv's loop is the port it was bound to; the port of an address has
    sixteen bits. *)
Definition bind_port (a : list byte * Z) (loop : option Z) : option Z := Some a.2.
Definition listen_port (backlog : Z) (loop : option Z) : Z * option Z := (0, loop).

Definition uv_options : list server_option := [opt_v (bs "2"); opt_p (bs "76346")].

Definition no_default (name : list byte) (s : lib (memory_world * command_world unit)) : outcome unit := Ok tt.

Definition quiet_log : log_state unit := mk_log LWNBD_LOG_DEBUG None.

Definition nbd_registry := initial_registry (initial_nbd (mk_pipe [] []) disk_lib).


